(* ===== verification/_CoqProject ===== *)
-Q . S2P
Prelude.v
RustStr.v
RustNet.v
Types.v
Storage.v
Label.v
Nft.v
Traits.v
PriceOracle.v
Origin.v
Resolvers.v
Registry.v
Registrar.v
Marketplace.v
RedeemCode.v
Auction.v
AuctionInv.v
Template.v
Runtime.v
Weights.v
Footprints.v
RecordFootprints.v
Authority.v
Frontends.v
HttpServer.v
DnsGuards.v
DnsServer.v
DnsStart.v
DnsInv.v
DnsProgress.v
Sample.v
RegistryInv.v
RegistryTree.v
RegistryOps.v
ChainInv.v
Genesis.v
Presets.v
Node.v
RuntimeConfig.v
Migration.v
NameMoves.v
Ownership.v
OneName.v
NameSpec.v
NameProgress.v
RecordSafety.v
StaleNames.v
Registration.v
Lockout.v
Sales.v
Witnesses.v
NameWitnesses.v
DnsWitnesses.v
AuctionWitnesses.v
NodeWitnesses.v
