(* ===== verification/Prelude.v ===== *)
(** * A verification development of the Polkadot Name Service

    The program (under [src/]) is a Substrate chain that registers names such as
    [alice.dot], and a DNS server that answers queries from the chain's storage.

    ** The program and where it is modelled

    - [pallets/pns-types]: the types the pallets share, the nodes of the two
      top-level domains, the parser of names and the DNS record types.  [Types.v],
      [Label.v].
    - [pallets/pns-registrar]: the pallets of names.  [nft.rs] holds tokens with an index by
      owner ([Nft.v]); [registry.rs] keeps the tree of names over it, a token of
      class 0 per name, and the offers of subdomains ([Registry.v]); [registrar.rs]
      sells, renews, moves and releases names and owns their terms
      ([Registrar.v]); [price_oracle.rs] prices them ([PriceOracle.v]);
      [redeem_code.rs] registers names for signed codes ([RedeemCode.v]);
      [origin.rs] keeps the managers ([Origin.v]).  A seventh, [auction.rs], sells
      names by auction ([Auction.v]); it is commented out of the crate and calls
      earlier versions of the traits.  [traits.rs] is how they call
      each other: its traits are the classes of [Traits.v], its labels are in
      [Label.v].
    - [pallets/pns-resolvers]: the DNS records and texts of a node.  [Resolvers.v].
    - [pallets/pns-marketplace]: names for sale.  [Marketplace.v].
    - [runtime]: the constants, the adapters that wire the pallets together, the
      runtime API and the state the genesis presets build.  [Runtime.v].  The
      runtime contains the
      pallets nft, price oracle, registry, registrar, resolvers and marketplace, and
      the sample pallet [pallets/template] ([Template.v]);
      the origin and redemption code pallets are library code it does not include.
      [migration.rs] of the registrar crate, the initialisers of a runtime upgrade,
      is in [Migration.v].  [Weights.v] has the weights the calls declare, of all
      pallets.  [Presets.v] has the presets of [genesis_config_presets.rs] with the
      chain specifications and the options of [node] that refer to them or to the
      DNS server, [RuntimeConfig.v] the block times, the units and the numbers of the
      pallets and calls.
    - [pallets/pns-ddns]: the DNS authority over the runtime API ([Authority.v]);
      the server in front of it, [dns_server.rs] and [metrics.rs], with its guards
      ([DnsGuards.v]), its request handler ([DnsServer.v]) and its start
      ([DnsStart.v]); the HTTP handlers of [lib.rs] ([Frontends.v]) and their routes
      ([HttpServer.v]).
    - [pallets/pns-runtime-api] and [node/src/pns_rpc.rs]: the runtime API as the
      node sees it, and JSON-RPC over it ([Frontends.v]).
    - [node/src/service.rs], [rpc.rs] and [command.rs]: how the node is put together
      and what its commands start ([Node.v]).

    [RustStr.v] and [RustNet.v] model what the sources use of the Rust standard
    library: UTF-8, ASCII case, and the parsers of IP addresses; [DnsStart.v] adds
    decimal numbers and socket addresses.

    ** State, calls and errors

    [Storage.v] has one record per pallet with a field per storage item: a
    [StorageMap] is a [gmap], a [StorageDoubleMap] a [gmap] over pairs (or a set of
    pairs when it stores [()]), a [StorageValue] a field.  [State] is all of them
    with the block number, the parent hash, the clock, the balances and the events.
    A function of a pallet is a term of [M A], which is [State -> State * result
    DispatchError A]: like the code, it keeps what was written before an error.
    [dispatch] of [Runtime.v] runs a call the way the chain does, in a storage layer
    that is rolled back on error.  Each function follows the source statement by
    statement, errors and events included.

    The DNS server is concurrent.  A request of [DnsServer.v] is a program of atomic
    operations on the state the requests share; [step] interleaves the requests, the
    task of the response queue and the clock in any order, and the theorems hold in
    every [reachable_world].

    Integers are in [Z] at the width of the code: [+] wraps as a release build
    does, [checked_add] fails, [saturating_mul] clamps.  What is not under [src/] is
    a parameter: the class [Env] of [Storage.v] has the account type, the hash, the
    SCALE encoding of accounts, signature verification and the currency; [Hickory]
    of [Authority.v] has the DNS library's names; [BloomLib], [LimiterLib] and
    [CacheLib] are the bloom filter, the rate limiters and the caches of the server;
    [TypeCodes] and [ApiErrors] of [Frontends.v] are the numbers of the record types
    and the errors of the runtime API; [AuctionLib] of [Auction.v] has the reservable
    currency, the randomness and the earlier traits; [Keyring] and [PresetIds] of
    [Presets.v] are the keyring and the names of presets; [WeightLib] of [Weights.v]
    is the type of weights; [StartLib] of [DnsStart.v] has the runtime, the sockets and
    the processor affinity, [AxumLib] of [HttpServer.v] the router, [SubstrateLib] and
    [CommandLib] of [Node.v] the client libraries and the commands of Substrate.  What the theorems need of them is stated as
    laws: [CurrencyLaws] (what a withdrawal and a transfer do to balances),
    [NodeLevels] of [RegistryTree.v] (the hash does not confuse the labels in use),
    [AnchorsFit] of [NameProgress.v] (an encoded account fits a record),
    [BloomLaws], [CacheLaws], [TypeCodesLaws], [ReserveLaws] and [AuctionLaws] of
    [AuctionInv.v] (what reserving does to balances, that a random hash has four bytes
    and that the ending period is not empty), [KeyringLaws], [WeightLaws], [StartLaws]
    (a runtime needs a worker) and [AxumLaws] (which route a path takes).  [Sample.v],
    [Witnesses.v], [NameWitnesses.v], [DnsWitnesses.v], [AuctionWitnesses.v] and
    [NodeWitnesses.v] instantiate the parameters with concrete functions and evaluate the theorems with
    a hypothesis there.

    ** What the theorems show

    - [Types.v], [Label.v]: record types round trip; the two label validators agree
      and accept 1 to 63 letters and digits; the string parser computes the
      registrar's nodes; names are case-insensitive and identified by their nodes
      up to collisions of the hash.
    - [Nft.v], [RegistryInv.v], [RegistryTree.v], [RegistryOps.v], [ChainInv.v],
      [Genesis.v]: the storage invariant.  Tokens, owner index and counters agree;
      every name is a child of the base node or a subdomain of one; counters of
      children are the numbers of children and within capacity; the indices of
      offers and of held names mirror the subdomain records; registrations are
      exactly the top-level names.  The genesis preset establishes it, each call
      keeps it, so it holds in every reachable state.
    - [RegistryInv.v]: the subdomain operations refine a life cycle with three
      states.
    - [NameMoves.v], [Ownership.v]: which calls move names and what they do; names
      in their term cannot be taken; canonical names agree with owners, which every call
      keeps but [registry::burn] and the registration of a name with an unanswered gift.
    - [NameSpec.v]: what the service promises, as an abstract ledger of who holds which
      name until when, with the events accounts can cause.  [ledger_of] reads the
      ledger off the storage of the pallets; every call is shown to be exactly the
      events it stands for where canonical names, gifts and listings agree with the
      owners, and every chain without [registry::burn] and without registrations of
      names with an unanswered gift, the two calls that break this, a history of the
      ledger.
    - [NameProgress.v]: the exact conditions under which the calls on names succeed.
    - [Lockout.v]: who transfers a name they registered never receives a name again.
    - [Footprints.v], [RecordFootprints.v]: which calls change balances, subdomain
      records, listings and DNS records, and how far, on success and on error.
    - [Registration.v], [Sales.v]: registration, renewal, resolution, the dashboard of
      an account and sale, with the money that moves; nobody pays for a call of
      somebody else.
    - [OneName.v]: on a chain without those two calls an account holds one name at most,
      a registered name or a subdomain.
    - [RecordSafety.v]: the records of a name change only by a call of somebody in
      charge of it, or of an account that a gift or a canonical name still points to;
      nobody can set a record of a subdomain.
    - [AuctionInv.v]: the hook of the auctions never panics; the best bids rise and are
      covered by what is reserved; what settling an auction does.
    - [Presets.v], [Weights.v]: the presets are sound and are those the node asks for;
      the calls of the name pallets declare no weight.
    - [Resolvers.v]: lookups, protected anchor records, clearing.
    - [PriceOracle.v], [Origin.v], [RedeemCode.v]: prices, managers, codes.
    - [Migration.v]: an upgrade of an empty chain that runs the functions of the
      migration with the arguments of genesis leaves what genesis leaves; the sources do
      not call them in this composition, which is [initialise].
    - [StaleNames.v]: two ways in which an account keeps a hold on a name that now
      belongs to somebody else.
    - [Authority.v], [Frontends.v]: what DNS and JSON-RPC answer, and on which queries
      they panic.
    - [DnsGuards.v]: the double-buffered filter, the escalation of penalties, the
      choice of processor cores.
    - [DnsInv.v], [DnsProgress.v]: a type system for the programs of requests, sound
      for all interleavings, and with it the cap on requests in flight, the guards
      and the waiting time before each lookup of storage and the two lookups before a
      negative answer is cached; every request can be run to its end.
    - [DnsStart.v], [HttpServer.v]: the servers start as configured or fail in the ways
      listed; the HTTP routes answer what the runtime API answers.
    - [Node.v]: the tasks of a node are those its configuration enables, in order; the
      DNS server is started last, by the command without a subcommand, with the
      options of the command line.
    - [RuntimeConfig.v]: calls are recognised by their first two bytes; slots, blocks
      and transaction life times fit together.

    ** Bounds and fuel

    The functions on fuel are the two loops of [RedeemCode.v] over a range of
    nonces, where fuel equal to the length of the range is enough
    ([mint_redeem_mints_range]) and for the range up to the largest [u32] no fuel is
    ([mint_redeem_diverges]), and the printer of [u16] in [DnsStart.v], where five
    digits are enough ([dec_digits_value]).  All others are structurally recursive or
    folds over finite sets.

    ** Not modelled

    Benchmarks, mocks and tests, which are out of date with the pallets they exercise,
    and the signed transactions of [node/src/benchmarking.rs] except their life time;
    the calls of the library pallets of the runtime (balances, sudo and so on), their
    configuration types, and the runtime APIs that only call Substrate.  The declarations
    of the traits' associated types and the build scripts have no behaviour.  The weight
    the hook of the auctions returns.  The ledger of [NameSpec.v] leaves out money,
    records and subdomains, which have theorems of their own. *)

From Stdlib Require Import ZArith Lia.
From stdpp Require Import base tactics numbers gmap sets fin_sets fin_maps option list_basics list.

Local Open Scope Z_scope.

(** ** Bytes and machine integers

    A byte string ([Vec<u8>], [&[u8]], [BoundedVec<u8, _>]) is a [list Z]; a
    [u32], [u64] or [u128] is a [Z].  The operations below take the width of
    the type and write its overflow behaviour out: plain [+] of a release
    build wraps, the [checked_] operations return [None], the [saturating_]
    ones clamp. *)
Abbreviation bytes := (list Z).

Definition wrapping_add (w a b : Z) : Z := (a + b) mod 2 ^ w.

Definition checked_add (w a b : Z) : option Z :=
  if a + b <? 2 ^ w then Some (a + b) else None.

Definition checked_sub (a b : Z) : option Z :=
  if b <=? a then Some (a - b) else None.

Definition saturating_mul (w a b : Z) : Z := Z.min (a * b) (2 ^ w - 1).

Definition saturating_add (w a b : Z) : Z := Z.min (a + b) (2 ^ w - 1).

(** [v.saturated_into::<u32>()] and its like. *)
Definition saturated_into (w a : Z) : Z := Z.min a (2 ^ w - 1).

(** [a as uN] for a narrower unsigned type. *)
Definition truncate (w a : Z) : Z := a mod 2 ^ w.

(** A value of an unsigned type of width [w]. *)
Definition in_width (w a : Z) : Prop := 0 <= a < 2 ^ w.

(** The SCALE encoding of an unsigned integer of [n] bytes: little endian. *)
Fixpoint le_bytes (n : nat) (z : Z) : bytes :=
  match n with
  | O => []
  | S n' => z mod 256 :: le_bytes n' (z / 256)
  end.

(** [BoundedVec::<u8, N>::try_from(v).ok()] *)
Definition bounded_vec (max : Z) (v : bytes) : option bytes :=
  if Z.of_nat (length v) <=? max then Some v else None.

(** ** Results and the storage monad

    A Rust [Result<A, E>] is a [result E A].  Code that reads and writes chain
    storage is a function from the storage to the storage it leaves behind and
    its result: a failing call keeps what it had already written, as it does
    in the source, until a storage layer rolls it back. *)
Inductive result (E A : Type) :=
| Ok (a : A)
| Err (e : E).

Arguments Ok {E A} a.
Arguments Err {E A} e.

Definition run (S E A : Type) : Type := S -> S * result E A.

Definition ret {S E A} (a : A) : run S E A := fun s => (s, Ok a).

Definition throw {S E A} (e : E) : run S E A := fun s => (s, Err e).

Definition bind {S E A B} (m : run S E A) (k : A -> run S E B) : run S E B :=
  fun s => match m s with
           | (s', Ok a) => k a s'
           | (s', Err e) => (s', Err e)
           end.

Definition gets {S E A} (f : S -> A) : run S E A := fun s => (s, Ok (f s)).

Definition modify {S E} (f : S -> S) : run S E unit := fun s => (f s, Ok tt).

(** [ensure!(b, e)] *)
Definition ensure {S E} (b : bool) (e : E) : run S E unit :=
  if b then ret tt else throw e.

(** [o.ok_or(e)?] *)
Definition ok_or {S E A} (o : option A) (e : E) : run S E A :=
  match o with Some a => ret a | None => throw e end.

(** [m.map_err(f)?] *)
Definition map_err {S E A} (f : E -> E) (m : run S E A) : run S E A :=
  fun s => match m s with
           | (s', Ok a) => (s', Ok a)
           | (s', Err e) => (s', Err (f e))
           end.

(** [let _ = m;] *)
Definition ignore {S E A} (m : run S E A) : run S E unit :=
  fun s => ((m s).1, Ok tt).

(** [m.is_ok()] on a call. *)
Definition is_ok {S E A} (m : run S E A) : run S E bool :=
  fun s => match m s with
           | (s', Ok _) => (s', Ok true)
           | (s', Err _) => (s', Ok false)
           end.

(** [for a in l { body(a) }] with a body that does not return early. *)
Fixpoint for_each {S E A} (body : A -> run S E unit) (l : list A) : run S E unit :=
  match l with
  | [] => ret tt
  | a :: l' => bind (body a) (fun _ => for_each body l')
  end.

(** The storage layer FRAME puts around every dispatchable (and what
    [#[transactional]] adds): an error restores the storage. *)
Definition with_storage_layer {S E A} (m : run S E A) : run S E A :=
  fun s => match m s with
           | (s', Ok a) => (s', Ok a)
           | (_, Err e) => (s, Err e)
           end.

Declare Scope run_scope.
Delimit Scope run_scope with run.

Notation "'let!' x ':=' m 'in' k" := (bind m (fun x => k))
  (at level 10, x pattern, m at level 100, k at level 200,
   format "'[v' 'let!'  x  ':='  m  'in' '/' k ']'") : run_scope.
Notation "'do!' m 'in' k" := (bind m (fun _ => k))
  (at level 10, m at level 100, k at level 200,
   format "'[v' 'do!'  m  'in' '/' k ']'") : run_scope.

(** ** Double maps

    A [StorageDoubleMap<K1, K2, ()>] is a finite set of pairs; [prefix] is what
    [iter_prefix] enumerates and [clear_prefix] what [clear_prefix(k1,
    u32::MAX, None)] leaves. *)
Section double_map.
Context `{Countable K1, Countable K2}.

Definition prefix (k1 : K1) (m : gset (K1 * K2)) : gset K2 :=
  set_map snd (filter (fun p => p.1 = k1) m).

Definition clear_prefix (k1 : K1) (m : gset (K1 * K2)) : gset (K1 * K2) :=
  filter (fun p => p.1 <> k1) m.

Lemma elem_of_prefix k1 k2 m : k2 ∈ prefix k1 m <-> (k1, k2) ∈ m.
Proof.
  unfold prefix. rewrite elem_of_map. split.
  - intros ([a b] & -> & [Ha Hin]%elem_of_filter). simpl in *. by subst.
  - intros Hin. exists (k1, k2). by rewrite elem_of_filter.
Qed.

Lemma elem_of_clear_prefix k1 p m : p ∈ clear_prefix k1 m <-> p.1 <> k1 /\ p ∈ m.
Proof. unfold clear_prefix. by rewrite elem_of_filter. Qed.

Lemma prefix_clear_prefix k1 m : prefix k1 (clear_prefix k1 m) = ∅.
Proof.
  apply set_eq. intros x.
  rewrite elem_of_prefix, elem_of_clear_prefix. set_solver.
Qed.

Lemma prefix_clear_prefix_ne k1 k1' m :
  k1 <> k1' -> prefix k1' (clear_prefix k1 m) = prefix k1' m.
Proof.
  intros Hne. apply set_eq. intros x.
  rewrite !elem_of_prefix, elem_of_clear_prefix. simpl. naive_solver.
Qed.

Lemma prefix_insert k1 k2 m :
  prefix k1 ({[(k1, k2)]} ∪ m) = {[k2]} ∪ prefix k1 m.
Proof.
  apply set_eq. intros x.
  rewrite elem_of_union, !elem_of_prefix, elem_of_union. set_solver.
Qed.

Lemma prefix_insert_ne k1 k1' k2 m :
  k1 <> k1' -> prefix k1' ({[(k1, k2)]} ∪ m) = prefix k1' m.
Proof.
  intros Hne. apply set_eq. intros x.
  rewrite !elem_of_prefix, elem_of_union. set_solver.
Qed.

Lemma prefix_remove k1 k2 m :
  prefix k1 (m ∖ {[(k1, k2)]}) = prefix k1 m ∖ {[k2]}.
Proof.
  apply set_eq. intros x.
  rewrite elem_of_difference, !elem_of_prefix, elem_of_difference. set_solver.
Qed.

Lemma prefix_remove_ne k1 k1' k2 m :
  k1 <> k1' -> prefix k1' (m ∖ {[(k1, k2)]}) = prefix k1' m.
Proof.
  intros Hne. apply set_eq. intros x.
  rewrite !elem_of_prefix, elem_of_difference. set_solver.
Qed.

Lemma size_prefix_insert k1 k2 m :
  (k1, k2) ∉ m -> size (prefix k1 ({[(k1, k2)]} ∪ m)) = S (size (prefix k1 m)).
Proof.
  intros Hn. rewrite prefix_insert, size_union, size_singleton; [done|].
  apply disjoint_singleton_l. by rewrite elem_of_prefix.
Qed.

Lemma size_prefix_remove k1 k2 m :
  (k1, k2) ∈ m -> size (prefix k1 m) = S (size (prefix k1 (m ∖ {[(k1, k2)]}))).
Proof.
  intros Hin. rewrite <- (size_prefix_insert k1 k2) by set_solver. f_equal. f_equal.
  by apply union_difference_singleton_L.
Qed.
End double_map.

(** ** Running the monad

    What a successful run says about its parts.  [inv_ok] takes every
    successful run among the hypotheses apart with them. *)
Section run_lemmas.
Context {S E : Type}.
Implicit Types s : S.

Lemma bind_Ok {A B} (m : run S E A) (k : A -> run S E B) s s' b :
  bind m k s = (s', Ok b) -> exists a s1, m s = (s1, Ok a) /\ k a s1 = (s', Ok b).
Proof. unfold bind. destruct (m s) as [s1 [a|e]]; naive_solver. Qed.

Lemma bind_run {A B} (m : run S E A) (k : A -> run S E B) s s1 a :
  m s = (s1, Ok a) -> bind m k s = k a s1.
Proof. unfold bind. by intros ->. Qed.

Lemma bind_err {A B} (m : run S E A) (k : A -> run S E B) s s1 e :
  m s = (s1, Err e) -> bind m k s = (s1, Err e).
Proof. unfold bind. by intros ->. Qed.

Lemma bind_assoc {A B C} (m : run S E A) (k : A -> run S E B) (h : B -> run S E C) s :
  bind (bind m k) h s = bind m (fun a => bind (k a) h) s.
Proof. unfold bind. by destruct (m s) as [s1 [a|e]]. Qed.

Lemma ret_Ok {A} (a b : A) s s' : @ret S E A a s = (s', Ok b) -> b = a /\ s' = s.
Proof. unfold ret. naive_solver. Qed.

Lemma gets_Ok {A} (f : S -> A) s s' b : @gets S E A f s = (s', Ok b) -> b = f s /\ s' = s.
Proof. unfold gets. naive_solver. Qed.

Lemma modify_Ok (f : S -> S) s s' u : @modify S E f s = (s', Ok u) -> s' = f s.
Proof. unfold modify. naive_solver. Qed.

Lemma ensure_Ok (b : bool) (e : E) s s' u : ensure b e s = (s', Ok u) -> b = true /\ s' = s.
Proof. destruct b; unfold ensure, ret, throw; naive_solver. Qed.

Lemma ok_or_Ok {A} (o : option A) (e : E) s s' a :
  ok_or o e s = (s', Ok a) -> o = Some a /\ s' = s.
Proof. destruct o; unfold ok_or, ret, throw; naive_solver. Qed.

Lemma map_err_Ok {A} (f : E -> E) (m : run S E A) s s' a :
  map_err f m s = (s', Ok a) -> m s = (s', Ok a).
Proof. unfold map_err. destruct (m s) as [s1 [x|e]]; naive_solver. Qed.

Lemma is_ok_Ok {A} (m : run S E A) s s' b :
  is_ok m s = (s', Ok b) -> s' = (m s).1 /\ (b = true <-> exists a, m s = (s', Ok a)).
Proof. unfold is_ok. destruct (m s) as [s1 [x|e]]; naive_solver. Qed.

Lemma with_storage_layer_Ok {A} (m : run S E A) s s' a :
  with_storage_layer m s = (s', Ok a) -> m s = (s', Ok a).
Proof. unfold with_storage_layer. destruct (m s) as [s1 [x|e]]; naive_solver. Qed.

Lemma with_storage_layer_run {A} (m : run S E A) s s' a :
  m s = (s', Ok a) -> with_storage_layer m s = (s', Ok a).
Proof. unfold with_storage_layer. by intros ->. Qed.

Lemma with_storage_layer_Err {A} (m : run S E A) s s' e :
  with_storage_layer m s = (s', Err e) -> s' = s /\ exists s1, m s = (s1, Err e).
Proof. unfold with_storage_layer. destruct (m s) as [s1 [x|e']]; naive_solver. Qed.

(** A property kept by every iteration is kept by the loop. *)
Lemma for_each_inv {A} (P : S -> Prop) (body : A -> run S E unit) l s s' u :
  (forall a t t' v, a ∈ l -> P t -> body a t = (t', Ok v) -> P t') ->
  P s -> for_each body l s = (s', Ok u) -> P s'.
Proof.
  revert s. induction l as [|a l IH]; intros s Hstep Hs Hrun; simpl in Hrun.
  - apply ret_Ok in Hrun as [_ ->]. done.
  - apply bind_Ok in Hrun as (v & s1 & Ha & Hl).
    apply (IH s1); [|by eapply Hstep; [left|..]|done].
    intros b t t' w Hb. apply Hstep. by right.
Qed.

(** A loop whose body never fails does not fail. *)
Lemma for_each_total {A} (body : A -> run S E unit) l s :
  (forall a t, exists t', body a t = (t', Ok tt)) ->
  exists s', for_each body l s = (s', Ok tt).
Proof.
  intros Hbody. revert s. induction l as [|a l IH]; intros s; simpl.
  - by exists s.
  - destruct (Hbody a s) as [s1 Hs1]. rewrite (bind_run _ _ _ _ _ Hs1). apply IH.
Qed.

(** A call that leaves the storage as it found it, whatever it returns. *)
Definition pure {A} (m : run S E A) : Prop := forall s, (m s).1 = s.

Lemma pure_run {A} (m : run S E A) s s' r : pure m -> m s = (s', r) -> s' = s.
Proof. intros Hm Hr. specialize (Hm s). by rewrite Hr in Hm. Qed.

Lemma pure_ret {A} (a : A) : pure (ret a).
Proof. done. Qed.

Lemma pure_throw {A} (e : E) : pure (@throw S E A e).
Proof. done. Qed.

Lemma pure_gets {A} (f : S -> A) : pure (gets f).
Proof. done. Qed.

Lemma pure_ensure b (e : E) : pure (ensure b e).
Proof. by destruct b. Qed.

Lemma pure_ok_or {A} (o : option A) (e : E) : pure (ok_or o e).
Proof. by destruct o. Qed.

Lemma pure_bind {A B} (m : run S E A) (k : A -> run S E B) :
  pure m -> (forall a, pure (k a)) -> pure (bind m k).
Proof.
  intros Hm Hk s. unfold bind. specialize (Hm s).
  destruct (m s) as [s1 [a|e]]; simpl in *; subst; [apply Hk|done].
Qed.

(** A call that leaves the part [view] of the storage as it found it. *)
Definition frames {A T} (view : S -> T) (m : run S E A) : Prop := forall s, view (m s).1 = view s.

Lemma frames_run {A T} (view : S -> T) (m : run S E A) s s' r :
  frames view m -> m s = (s', r) -> view s' = view s.
Proof. intros Hm Hr. specialize (Hm s). by rewrite Hr in Hm. Qed.

Lemma frames_pure {A T} (view : S -> T) (m : run S E A) : pure m -> frames view m.
Proof. intros Hm s. by rewrite Hm. Qed.

Lemma frames_modify {T} (view : S -> T) f :
  (forall s, view (f s) = view s) -> frames view (@modify S E f).
Proof. intros Hf s. apply Hf. Qed.

Lemma frames_bind {A B T} (view : S -> T) (m : run S E A) (k : A -> run S E B) :
  frames view m -> (forall a, frames view (k a)) -> frames view (bind m k).
Proof.
  intros Hm Hk s. unfold bind. specialize (Hm s).
  destruct (m s) as [s1 [a|e]]; simpl in *; [by rewrite Hk|done].
Qed.

Lemma frames_ignore {A T} (view : S -> T) (m : run S E A) : frames view m -> frames view (ignore m).
Proof. intros Hm s. apply Hm. Qed.

Lemma frames_for_each {A T} (view : S -> T) (body : A -> run S E unit) l :
  (forall a, frames view (body a)) -> frames view (for_each body l).
Proof. intros Hb. induction l as [|a l IH]; simpl; [done|]. by apply frames_bind. Qed.

(** A call that changes the storage along [R], whatever it returns; [R] is reflexive and
    transitive. *)
Definition steps {A} (R : S -> S -> Prop) (m : run S E A) : Prop := forall s, R s (m s).1.

Lemma steps_run {A} R (m : run S E A) s s' r : steps R m -> m s = (s', r) -> R s s'.
Proof. intros Hm Hr. specialize (Hm s). by rewrite Hr in Hm. Qed.

Section steps.
Context (R : S -> S -> Prop) `{!PreOrder R}.

Lemma steps_pure {A} (m : run S E A) : pure m -> steps R m.
Proof. intros Hm s. by rewrite Hm. Qed.

Lemma steps_modify f : (forall s, R s (f s)) -> steps R (@modify S E f).
Proof. intros Hf s. apply Hf. Qed.

Lemma steps_bind {A B} (m : run S E A) (k : A -> run S E B) :
  steps R m -> (forall a, steps R (k a)) -> steps R (bind m k).
Proof.
  intros Hm Hk s. unfold bind. specialize (Hm s).
  destruct (m s) as [s1 [a|e]]; simpl in *; [|done]. etrans; [exact Hm|apply Hk].
Qed.

Lemma steps_bind_ret {A B} (a : A) (k : A -> run S E B) : steps R (k a) -> steps R (bind (ret a) k).
Proof. done. Qed.

Lemma steps_bind_throw {A B} (e : E) (k : A -> run S E B) : steps R (bind (throw e) k).
Proof. intros s. done. Qed.

Lemma steps_ignore {A} (m : run S E A) : steps R m -> steps R (ignore m).
Proof. intros Hm s. apply Hm. Qed.

Lemma steps_map_err {A} f (m : run S E A) : steps R m -> steps R (map_err f m).
Proof. intros Hm s. specialize (Hm s). unfold map_err. by destruct (m s) as [? []]. Qed.

Lemma steps_for_each {A} (body : A -> run S E unit) l :
  (forall a, a ∈ l -> steps R (body a)) -> steps R (for_each body l).
Proof.
  induction l as [|a l IH]; intros Hb; simpl; [by apply steps_pure|].
  apply steps_bind; [apply Hb; by left|]. intros _. apply IH. intros b Hin. apply Hb. by right.
Qed.
End steps.
End run_lemmas.

Create HintDb run_pure.
#[export] Hint Resolve pure_ret pure_throw pure_gets pure_ensure pure_ok_or pure_bind : run_pure.

(** Closes [pure m] for code built from reads and guards only. *)
Ltac solve_pure :=
  repeat first
    [ progress intros
    | apply pure_bind | apply pure_ret | apply pure_throw | apply pure_gets
    | apply pure_ensure | apply pure_ok_or
    | match goal with |- pure (match ?x with _ => _ end) => destruct x end
    | solve [eauto with run_pure] ].

(** Closes [frames view m] for code that writes other parts of the storage. *)
Ltac solve_frames :=
  repeat first
    [ progress intros
    | match goal with
      | |- frames _ (bind _ _) => apply frames_bind
      | |- frames _ (modify _) => apply frames_modify; done
      | |- frames _ (ignore _) => apply frames_ignore
      | |- frames _ (for_each _ _) => apply frames_for_each
      | |- frames _ (match ?x with _ => _ end) => destruct x
      | |- frames _ (let _ := _ in _) => cbv zeta
      end
    | solve [apply frames_pure; solve_pure] ].

(** Reduces [steps R m] to the writes of [m]. *)
Ltac solve_steps :=
  repeat first
    [ progress intros
    | match goal with
      | |- steps _ (bind (ret _) _) => apply steps_bind_ret
      | |- steps _ (bind (throw _) _) => apply steps_bind_throw; apply _
      | |- steps _ (bind _ _) => apply steps_bind; [apply _|..]
      | |- steps _ (modify _) => apply steps_modify
      | |- steps _ (ignore _) => apply steps_ignore
      | |- steps _ (map_err _ _) => apply steps_map_err
      | |- steps _ (for_each _ _) => apply steps_for_each; [apply _|]
      | |- steps _ (match ?x with _ => _ end) => destruct x
      | |- steps _ (let _ := _ in _) => cbv zeta
      end
    | solve [apply steps_pure; [apply _|solve_pure]] ].

Ltac inv_ok_step :=
  match goal with
  | H : bind _ _ _ = (_, Ok _) |- _ =>
      let a := fresh "a" in let s1 := fresh "s" in
      let H1 := fresh "Hrun" in
      apply bind_Ok in H as (a & s1 & H1 & H)
  | H : ret _ _ = (_, Ok _) |- _ => apply ret_Ok in H as [? ?]; subst
  | H : throw _ _ = (_, Ok _) |- _ => discriminate H
  | H : gets _ _ = (_, Ok _) |- _ => apply gets_Ok in H as [? ?]; subst
  | H : modify _ _ = (_, Ok ?u) |- _ => apply modify_Ok in H; subst; try clear u
  | H : ensure _ _ _ = (_, Ok ?u) |- _ =>
      let Hb := fresh "Hens" in
      apply ensure_Ok in H as [Hb ?]; subst; try clear u
  | H : ok_or _ _ _ = (_, Ok _) |- _ =>
      let Ho := fresh "Hopt" in apply ok_or_Ok in H as [Ho ?]; subst
  | H : map_err _ _ _ = (_, Ok _) |- _ => apply map_err_Ok in H
  | H : with_storage_layer _ _ = (_, Ok _) |- _ => apply with_storage_layer_Ok in H
  | H : (let (_, _) := ?p in _) _ = (_, Ok _) |- _ => is_var p; destruct p
  end.

(** Takes apart every successful run among the hypotheses. *)
Ltac inv_ok := repeat inv_ok_step.

(** Splits the innermost [match] or [if] a hypothesis is stuck on. *)
Ltac case_run H :=
  match type of H with
  | context [match ?x with _ => _ end] =>
      lazymatch x with
      | context [match _ with _ => _ end] => fail
      | _ => let Hc := fresh "Hcase" in destruct x eqn:Hc
      end
  end.

(** ** Arithmetic of the machine widths *)
Lemma wrapping_add_small w a b : in_width w (a + b) -> wrapping_add w a b = a + b.
Proof. unfold wrapping_add, in_width. intros. by rewrite Z.mod_small. Qed.

Lemma checked_add_Some w a b c : checked_add w a b = Some c <-> c = a + b /\ a + b < 2 ^ w.
Proof. unfold checked_add. destruct (Z.ltb_spec (a + b) (2 ^ w)); naive_solver lia. Qed.

Lemma checked_sub_Some a b c : checked_sub a b = Some c <-> c = a - b /\ b <= a.
Proof. unfold checked_sub. destruct (Z.leb_spec b a); naive_solver lia. Qed.

Lemma bounded_vec_Some max v v' :
  bounded_vec max v = Some v' <-> v' = v /\ Z.of_nat (length v) <= max.
Proof. unfold bounded_vec. destruct (Z.leb_spec (Z.of_nat (length v)) max); naive_solver lia. Qed.

(** Reads the guards a successful run has passed. *)
Ltac tidy :=
  repeat match goal with
  | H : bool_decide _ = true |- _ => apply bool_decide_eq_true in H
  | H : bool_decide _ = false |- _ => apply bool_decide_eq_false in H
  | H : negb _ = true |- _ => apply negb_true_iff in H
  | H : negb _ = false |- _ => apply negb_false_iff in H
  | H : (_ && _) = true |- _ => apply andb_true_iff in H as [? ?]
  | H : (_ <=? _) = true |- _ => apply Z.leb_le in H
  | H : (_ <? _) = true |- _ => apply Z.ltb_lt in H
  | H : (_ <=? _) = false |- _ => apply Z.leb_gt in H
  | H : (_ <? _) = false |- _ => apply Z.ltb_ge in H
  | H : checked_sub _ _ = Some _ |- _ => apply checked_sub_Some in H as [? ?]
  | H : checked_add _ _ _ = Some _ |- _ => apply checked_add_Some in H as [? ?]
  | H : bounded_vec _ _ = Some _ |- _ => apply bounded_vec_Some in H as [? ?]
  end; simplify_eq.
