(* ===== verification/RustStr.v ===== *)
(** * The parts of Rust's [str] and [char] the name code uses

    [core::str::from_utf8], [str::to_ascii_lowercase], [str::len],
    [str::chars] and [char::is_ascii_alphanumeric].  A [str] is the byte string
    it holds; [from_utf8] accepts exactly the well-formed sequences of RFC 3629
    (no overlong forms, no surrogates, nothing above U+10FFFF), and [chars]
    gives the scalar values they encode. *)

From Stdlib Require Import ZArith Lia.
From stdpp Require Import base tactics numbers option list_basics list.
From Stdlib Require Ascii String.
From S2P Require Import Prelude.

Local Open Scope Z_scope.

Definition between (lo x hi : Z) : bool := (lo <=? x) && (x <=? hi).

Definition is_ascii (b : Z) : bool := between 0 b 127.

Definition is_cont (b : Z) : bool := between 128 b 191.

(** The second byte a leading byte of a three-byte or four-byte sequence allows. *)
Definition second3_ok (b0 b1 : Z) : bool :=
  ((b0 =? 224) && between 160 b1 191)
  || (between 225 b0 236 && between 128 b1 191)
  || ((b0 =? 237) && between 128 b1 159)
  || (between 238 b0 239 && between 128 b1 191).

Definition second4_ok (b0 b1 : Z) : bool :=
  ((b0 =? 240) && between 144 b1 191)
  || (between 241 b0 243 && between 128 b1 191)
  || ((b0 =? 244) && between 128 b1 143).

Fixpoint decode_utf8 (l : bytes) : option (list Z) :=
  match l with
  | [] => Some []
  | b0 :: l1 =>
      if between 0 b0 127 then (b0 ::.) <$> decode_utf8 l1 else
      match l1 with
      | [] => None
      | b1 :: l2 =>
          if between 194 b0 223 && is_cont b1
          then (((b0 - 192) * 64 + (b1 - 128)) ::.) <$> decode_utf8 l2 else
          match l2 with
          | [] => None
          | b2 :: l3 =>
              if second3_ok b0 b1 && is_cont b2
              then (((b0 - 224) * 4096 + (b1 - 128) * 64 + (b2 - 128)) ::.) <$> decode_utf8 l3 else
              match l3 with
              | [] => None
              | b3 :: l4 =>
                  if second4_ok b0 b1 && is_cont b2 && is_cont b3
                  then (((b0 - 240) * 262144 + (b1 - 128) * 4096 + (b2 - 128) * 64
                         + (b3 - 128)) ::.) <$> decode_utf8 l4
                  else None
              end
          end
      end
  end.

(** [core::str::from_utf8(l).ok()] *)
Definition from_utf8 (l : bytes) : option bytes :=
  match decode_utf8 l with Some _ => Some l | None => None end.

(** [s.chars()] *)
Definition chars (s : bytes) : list Z := default [] (decode_utf8 s).

(** [u8::to_ascii_lowercase], and [str::to_ascii_lowercase], which maps it over the bytes. *)
Definition byte_to_ascii_lowercase (b : Z) : Z := if between 65 b 90 then b + 32 else b.

Definition to_ascii_lowercase (s : bytes) : bytes := map byte_to_ascii_lowercase s.

(** [s.len()]: the number of bytes. *)
Definition str_len (s : bytes) : Z := Z.of_nat (length s).

(** [char::is_ascii_alphanumeric] *)
Definition is_ascii_alphanumeric (c : Z) : bool :=
  between 48 c 57 || between 65 c 90 || between 97 c 122.

(** [s.split(c)] for an ASCII character [c]: the pieces between its occurrences. *)
Fixpoint split (c : Z) (s : bytes) : list bytes :=
  match s with
  | [] => [[]]
  | b :: s' =>
      match split c s' with
      | piece :: pieces => if b =? c then [] :: piece :: pieces else (b :: piece) :: pieces
      | [] => []
      end
  end.

(** A byte-string literal [b"..."]. *)
Definition b_str (s : String.string) : bytes :=
  map (fun a => Z.of_N (Ascii.N_of_ascii a)) (String.list_ascii_of_string s).

(** ** Lemmas *)

Lemma between_true lo x hi : between lo x hi = true <-> lo <= x <= hi.
Proof. unfold between. rewrite andb_true_iff, !Z.leb_le. lia. Qed.

Lemma between_false lo x hi : between lo x hi = false <-> x < lo \/ hi < x.
Proof. unfold between. rewrite andb_false_iff, !Z.leb_gt. lia. Qed.

Lemma is_ascii_alphanumeric_ascii c : is_ascii_alphanumeric c = true -> is_ascii c = true.
Proof.
  unfold is_ascii_alphanumeric, is_ascii.
  rewrite !orb_true_iff, !between_true. lia.
Qed.

(** Turns the boolean range tests of the context and goal into inequalities. *)
Ltac ranges :=
  unfold is_ascii, is_cont, second3_ok, second4_ok, is_ascii_alphanumeric in *;
  repeat rewrite ?orb_true_iff, ?orb_false_iff, ?andb_true_iff, ?andb_false_iff, ?between_true,
    ?between_false, ?Z.eqb_eq, ?Z.eqb_neq in *.

Lemma seq2_lead b0 b1 : between 194 b0 223 && is_cont b1 = true ->
  127 < b0 /\ 127 < b1 /\ 127 < (b0 - 192) * 64 + (b1 - 128).
Proof. ranges. lia. Qed.

Lemma seq3_lead b0 b1 b2 : second3_ok b0 b1 && is_cont b2 = true ->
  127 < b0 /\ 127 < b1 /\ 127 < b2 /\
  127 < (b0 - 224) * 4096 + (b1 - 128) * 64 + (b2 - 128).
Proof. ranges. lia. Qed.

Lemma seq4_lead b0 b1 b2 b3 : second4_ok b0 b1 && is_cont b2 && is_cont b3 = true ->
  127 < b0 /\ 127 < b1 /\ 127 < b2 /\ 127 < b3 /\
  127 < (b0 - 240) * 262144 + (b1 - 128) * 4096 + (b2 - 128) * 64 + (b3 - 128).
Proof. ranges. lia. Qed.

Lemma byte_lower_high b : 127 < b -> byte_to_ascii_lowercase b = b.
Proof.
  intros H. unfold byte_to_ascii_lowercase.
  destruct (between 65 b 90) eqn:E; [ranges; lia | done].
Qed.

Lemma byte_lower_ascii b : is_ascii (byte_to_ascii_lowercase b) = is_ascii b.
Proof.
  unfold byte_to_ascii_lowercase, is_ascii.
  destruct (between 65 b 90) eqn:E; [|done].
  ranges. destruct (between 0 b 127) eqn:E2; ranges; lia.
Qed.

(** Induction along [decode_utf8]: a string is empty, starts with an ASCII byte,
    or starts with bytes above 127 that decode to a character above 127. *)
Lemma decode_utf8_ind (P : bytes -> list Z -> Prop) :
  P [] [] ->
  (forall b l cs, is_ascii b = true -> P l cs -> P (b :: l) (b :: cs)) ->
  (forall h l c cs, h <> [] -> Forall (Z.lt 127) h -> 127 < c ->
     (forall l', decode_utf8 (h ++ l') = (c ::.) <$> decode_utf8 l') ->
     P l cs -> P (h ++ l) (c :: cs)) ->
  forall l cs, decode_utf8 l = Some cs -> P l cs.
Proof.
  intros H0 H1 H2 l.
  induction l as [l IH] using (induction_ltof1 _ (@length Z)). unfold ltof in IH.
  intros cs. destruct l as [|b0 l1]; [intros [= <-]; exact H0|].
  cbn [decode_utf8]. destruct (between 0 b0 127) eqn:E0.
  { intros (cs' & ? & ->)%fmap_Some. apply H1; [done|]. apply IH; [simpl; lia | done]. }
  destruct l1 as [|b1 l2]; [done|].
  destruct (between 194 b0 223 && is_cont b1) eqn:E1.
  { intros (cs' & ? & ->)%fmap_Some. pose proof (seq2_lead _ _ E1) as (?&?&?).
    apply (H2 [b0; b1]); [done|repeat constructor; done|done|intros l'; cbn; by rewrite E0, E1|].
    apply IH; [simpl; lia | done]. }
  destruct l2 as [|b2 l3]; [done|].
  destruct (second3_ok b0 b1 && is_cont b2) eqn:E2.
  { intros (cs' & ? & ->)%fmap_Some. pose proof (seq3_lead _ _ _ E2) as (?&?&?&?).
    apply (H2 [b0; b1; b2]);
      [done|repeat constructor; done|done|intros l'; cbn; by rewrite E0, E1, E2|].
    apply IH; [simpl; lia | done]. }
  destruct l3 as [|b3 l4]; [done|].
  destruct (second4_ok b0 b1 && is_cont b2 && is_cont b3) eqn:E3; [|done].
  intros (cs' & ? & ->)%fmap_Some. pose proof (seq4_lead _ _ _ _ E3) as (?&?&?&?&?).
  apply (H2 [b0; b1; b2; b3]);
    [done|repeat constructor; done|done|intros l'; cbn; by rewrite E0, E1, E2, E3|].
  apply IH; [simpl; lia | done].
Qed.

Lemma decode_utf8_ascii l : forallb is_ascii l = true -> decode_utf8 l = Some l.
Proof.
  induction l as [|b l IH]; [done|]. simpl. intros [Hb Hl]%andb_true_iff.
  unfold is_ascii in Hb. by rewrite Hb, IH.
Qed.

Lemma map_lower_high h : Forall (Z.lt 127) h -> to_ascii_lowercase h = h.
Proof. induction 1; [done|]. simpl. f_equal; [by apply byte_lower_high | done]. Qed.

(** Lowercasing commutes with decoding: it only changes ASCII characters. *)
Lemma decode_utf8_lower l cs :
  decode_utf8 l = Some cs ->
  decode_utf8 (to_ascii_lowercase l) = Some (map byte_to_ascii_lowercase cs).
Proof.
  revert l cs. apply decode_utf8_ind; [done|..].
  - intros b l cs Hb IH. pose proof (byte_lower_ascii b) as E.
    rewrite Hb in E. unfold is_ascii in E.
    change (to_ascii_lowercase (b :: l))
      with (byte_to_ascii_lowercase b :: to_ascii_lowercase l).
    cbn [decode_utf8]. by rewrite E, IH.
  - intros h l c cs _ Hh Hc Hdec IH. unfold to_ascii_lowercase in *.
    rewrite map_app. fold (to_ascii_lowercase h). rewrite (map_lower_high h Hh), Hdec, IH.
    cbn. by rewrite byte_lower_high.
Qed.

(** A string whose characters are all ASCII is its own list of characters. *)
Lemma decode_utf8_all_ascii l cs :
  decode_utf8 l = Some cs -> forallb is_ascii cs = true -> cs = l.
Proof.
  revert l cs. apply (decode_utf8_ind (fun l cs => forallb is_ascii cs = true -> cs = l)).
  - done.
  - intros b l cs Hb IH. simpl. intros [_ ?]%andb_true_iff. f_equal. by apply IH.
  - intros h l c cs _ _ Hc _ _. simpl. intros [Hc' _]%andb_true_iff. ranges. lia.
Qed.

Lemma byte_lower_alphanumeric b :
  is_ascii_alphanumeric (byte_to_ascii_lowercase b) = is_ascii_alphanumeric b.
Proof.
  apply eq_iff_eq_true. unfold byte_to_ascii_lowercase.
  destruct (between 65 b 90) eqn:E; ranges; lia.
Qed.

Lemma byte_lower_idem b :
  byte_to_ascii_lowercase (byte_to_ascii_lowercase b) = byte_to_ascii_lowercase b.
Proof.
  unfold byte_to_ascii_lowercase.
  destruct (between 65 b 90) eqn:E; [|by rewrite E].
  assert (between 65 (b + 32) 90 = false) as -> by (ranges; lia). done.
Qed.

Lemma lower_alphanumeric s :
  forallb is_ascii_alphanumeric (to_ascii_lowercase s) = forallb is_ascii_alphanumeric s.
Proof. induction s; [done|]. simpl. by rewrite byte_lower_alphanumeric, IHs. Qed.

Lemma lower_idem s : to_ascii_lowercase (to_ascii_lowercase s) = to_ascii_lowercase s.
Proof. induction s; [done|]. simpl. by rewrite byte_lower_idem, IHs. Qed.

Lemma lower_length s : length (to_ascii_lowercase s) = length s.
Proof. apply length_map. Qed.

Lemma alphanumeric_ascii s :
  forallb is_ascii_alphanumeric s = true -> forallb is_ascii s = true.
Proof.
  induction s; [done|]. simpl. intros [? ?]%andb_true_iff.
  apply andb_true_iff. eauto using is_ascii_alphanumeric_ascii.
Qed.

(** For a valid string, "every character of the lowercased string is ASCII
    alphanumeric" is "every byte of the string is". *)
Lemma chars_lower_alphanumeric s cs :
  decode_utf8 s = Some cs ->
  forallb is_ascii_alphanumeric (chars (to_ascii_lowercase s)) = forallb is_ascii_alphanumeric s.
Proof.
  intros Hs. unfold chars. rewrite (decode_utf8_lower _ _ Hs). simpl.
  fold (to_ascii_lowercase cs). rewrite (lower_alphanumeric cs). apply eq_iff_eq_true. split; intros H.
  - by rewrite <- (decode_utf8_all_ascii _ _ Hs (alphanumeric_ascii _ H)).
  - rewrite (decode_utf8_ascii s (alphanumeric_ascii _ H)) in Hs. by simplify_eq.
Qed.
