(* ===== verification/RustNet.v ===== *)
(** * The parts of Rust's [std::net] and [String] the DNS authority uses

    [<Ipv4Addr as FromStr>::from_str], [<Ipv6Addr as FromStr>::from_str] and
    [String::from_utf8_lossy].  The address parsers are those of [core::net]: a
    reader over the bytes that gives back its input when it fails. *)

From Stdlib Require Import ZArith Lia.
From stdpp Require Import base tactics numbers option list_basics list.
From S2P Require Import Prelude RustStr.

Local Open Scope Z_scope.

(** ** Addresses *)

(** [char::to_digit] *)
Definition to_digit (radix c : Z) : option Z :=
  let d := if between 48 c 57 then c - 48
           else if between 97 c 122 then c - 87
           else if between 65 c 90 then c - 55
           else radix in
  if d <? radix then Some d else None.

(** The digits at the front, and what follows them. *)
Fixpoint read_digits (radix : Z) (l : bytes) : list Z * bytes :=
  match l with
  | [] => ([], [])
  | c :: l' =>
      match to_digit radix c with
      | Some d => let (ds, rest) := read_digits radix l' in (d :: ds, rest)
      | None => ([], l)
      end
  end.

Definition digits_value (radix : Z) (ds : list Z) : Z := foldl (fun acc d => acc * radix + d) 0 ds.

(** [Parser::read_number]; [bits] is the width of the result. *)
Definition read_number (radix : Z) (max_digits : nat) (allow_zero_prefix : bool) (bits : Z)
    (l : bytes) : option (Z * bytes) :=
  let has_leading_zero := match l with 48 :: _ => true | _ => false end in
  let (ds, rest) := read_digits radix l in
  let count := length ds in
  if (max_digits <? count)%nat then None else
  if (count =? 0)%nat then None else
  if negb allow_zero_prefix && has_leading_zero && (1 <? count)%nat then None else
  let v := digits_value radix ds in
  if v <? 2 ^ bits then Some (v, rest) else None.

Definition read_given_char (c : Z) (l : bytes) : option bytes :=
  match l with
  | x :: l' => if x =? c then Some l' else None
  | [] => None
  end.

(** [Parser::read_separator] *)
Definition read_separator {A} (sep : Z) (index : nat) (inner : bytes -> option (A * bytes))
    (l : bytes) : option (A * bytes) :=
  match index with
  | O => inner l
  | S _ => match read_given_char sep l with Some l' => inner l' | None => None end
  end.

(** The loop of [Parser::read_ipv4_addr]. *)
Fixpoint read_octets (left index : nat) (l : bytes) : option (list Z * bytes) :=
  match left with
  | O => Some ([], l)
  | S left' =>
      match read_separator 46 index (read_number 10 3 false 8) l with
      | None => None
      | Some (o, l1) =>
          match read_octets left' (S index) l1 with
          | None => None
          | Some (os, l2) => Some (o :: os, l2)
          end
      end
  end.

Definition read_ipv4_addr (l : bytes) : option (list Z * bytes) := read_octets 4 0 l.

(** [read_groups] of [Parser::read_ipv6_addr]: the groups read, and whether an
    embedded IPv4 address ended them. *)
Fixpoint read_groups (left index : nat) (l : bytes) : list Z * bool * bytes :=
  match left with
  | O => ([], false, l)
  | S left' =>
      let ipv4 := match left' with
                  | O => None
                  | S _ => read_separator 58 index read_ipv4_addr l
                  end in
      match ipv4 with
      | Some ([one; two; three; four], l1) => ([one * 256 + two; three * 256 + four], true, l1)
      | _ =>
          match read_separator 58 index (read_number 16 4 true 16) l with
          | None => ([], false, l)
          | Some (g, l1) =>
              let '(gs, v4, l2) := read_groups left' (S index) l1 in (g :: gs, v4, l2)
          end
      end
  end.

Definition octets_of_groups (gs : list Z) : list Z := flat_map (fun g => [g / 256; g mod 256]) gs.

Definition read_ipv6_addr (l : bytes) : option (list Z * bytes) :=
  let '(head, head_ipv4, l1) := read_groups 8 0 l in
  if (length head =? 8)%nat then Some (octets_of_groups head, l1) else
  if head_ipv4 then None else
  match read_given_char 58 l1 with
  | None => None
  | Some l2 =>
      match read_given_char 58 l2 with
      | None => None
      | Some l3 =>
          let limit := (8 - (length head + 1))%nat in
          let '(tail, _, l4) := read_groups limit 0 l3 in
          let zeros := replicate (8 - length head - length tail) 0 in
          Some (octets_of_groups (head ++ zeros ++ tail), l4)
      end
  end.

(** [Parser::parse_with]: the whole input is read. *)
Definition parse_with {A} (inner : bytes -> option (A * bytes)) (l : bytes) : option A :=
  match inner l with
  | Some (a, []) => Some a
  | _ => None
  end.

(** [text.parse::<Ipv4Addr>().ok()] *)
Definition parse_ipv4 (text : bytes) : option (list Z) :=
  if (15 <? length text)%nat then None else parse_with read_ipv4_addr text.

(** [text.parse::<Ipv6Addr>().ok()] *)
Definition parse_ipv6 (text : bytes) : option (list Z) := parse_with read_ipv6_addr text.

(** ** Lossy decoding *)

(** U+FFFD in UTF-8. *)
Definition REPLACEMENT : bytes := [239; 191; 189].

(** [String::from_utf8_lossy]: every maximal ill-formed prefix becomes U+FFFD. *)
Fixpoint from_utf8_lossy (l : bytes) : bytes :=
  match l with
  | [] => []
  | b0 :: l1 =>
      if between 0 b0 127 then b0 :: from_utf8_lossy l1 else
      match l1 with
      | [] => REPLACEMENT
      | b1 :: l2 =>
          if between 194 b0 223 && is_cont b1 then b0 :: b1 :: from_utf8_lossy l2
          else if second3_ok b0 b1 then
            match l2 with
            | [] => REPLACEMENT
            | b2 :: l3 =>
                if is_cont b2 then b0 :: b1 :: b2 :: from_utf8_lossy l3
                else REPLACEMENT ++ from_utf8_lossy l2
            end
          else if second4_ok b0 b1 then
            match l2 with
            | [] => REPLACEMENT
            | b2 :: l3 =>
                if is_cont b2 then
                  match l3 with
                  | [] => REPLACEMENT
                  | b3 :: l4 =>
                      if is_cont b3 then b0 :: b1 :: b2 :: b3 :: from_utf8_lossy l4
                      else REPLACEMENT ++ from_utf8_lossy l3
                  end
                else REPLACEMENT ++ from_utf8_lossy l2
            end
          else REPLACEMENT ++ from_utf8_lossy l1
      end
  end.

(** ** Lemmas *)

Lemma to_digit_range radix c d : to_digit radix c = Some d -> 0 <= d < radix.
Proof.
  unfold to_digit. intros Hd.
  destruct (between 48 c 57) eqn:E1; [|destruct (between 97 c 122) eqn:E2;
    [|destruct (between 65 c 90) eqn:E3]]; ranges;
    match type of Hd with (if ?b then _ else _) = _ => destruct b eqn:Hb; [|done] end;
    apply Z.ltb_lt in Hb; simplify_eq; lia.
Qed.

Lemma read_digits_range radix l :
  Forall (fun d => 0 <= d < radix) (read_digits radix l).1.
Proof.
  induction l as [|c l IH]; simpl; [constructor|].
  destruct (to_digit radix c) as [d|] eqn:Hd; [|constructor].
  destruct (read_digits radix l) as [ds rest]. simpl in *. constructor; [|done].
  by eapply to_digit_range.
Qed.

Lemma digits_value_nonneg radix ds :
  0 <= radix -> Forall (fun d => 0 <= d < radix) ds -> 0 <= digits_value radix ds.
Proof.
  intros Hr Hds. unfold digits_value.
  assert (forall acc, 0 <= acc -> 0 <= foldl (fun acc d => acc * radix + d) acc ds) as Hf; [|by apply Hf].
  induction Hds as [|d ds Hd _ IH]; intros acc Hacc; simpl; [done|]. apply IH. nia.
Qed.

Lemma read_number_range radix m z bits l v rest :
  0 <= radix -> read_number radix m z bits l = Some (v, rest) -> 0 <= v < 2 ^ bits.
Proof.
  intros Hr. unfold read_number. pose proof (read_digits_range radix l) as Hds.
  destruct (read_digits radix l) as [ds r]. simpl in Hds.
  do 3 match goal with |- (if ?b then _ else _) = _ -> _ => destruct b; [done|] end.
  destruct (Z.ltb_spec (digits_value radix ds) (2 ^ bits)); [|done]. intros [= <- _].
  split; [by apply digits_value_nonneg|done].
Qed.

Lemma read_separator_inner {A} sep i (inner : bytes -> option (A * bytes)) l r :
  read_separator sep i inner l = Some r -> exists l', inner l' = Some r.
Proof. destruct i; simpl; [eauto|]. destruct (read_given_char sep l); [eauto|done]. Qed.

Lemma read_octets_range left i l os rest :
  read_octets left i l = Some (os, rest) ->
  length os = left /\ Forall (fun o => 0 <= o < 256) os.
Proof.
  revert i l os rest. induction left as [|left IH]; intros i l os rest; simpl.
  { intros [= <- _]. done. }
  destruct (read_separator 46 i _ l) as [[o l1]|] eqn:Hs; [|done].
  destruct (read_octets left (S i) l1) as [[os' l2]|] eqn:Ho; [|done]. intros [= <- _].
  apply IH in Ho as [? ?]. apply read_separator_inner in Hs as [l' Hn].
  apply read_number_range in Hn; [|lia]. simpl. split; [lia|]. by constructor.
Qed.

Lemma read_groups_range left i l gs v4 rest :
  read_groups left i l = (gs, v4, rest) ->
  (length gs <= left)%nat /\ Forall (fun g => 0 <= g < 65536) gs.
Proof.
  revert i l gs v4 rest. induction left as [|left IH]; intros i l gs v4 rest; cbn [read_groups].
  { intros [= <- _ _]. done. }
  set (ipv4 := match left with O => None | S _ => _ end).
  assert (forall r, match read_separator 58 i (read_number 16 4 true 16) l with
    | None => ([], false, l)
    | Some (g, l1) => let '(gs, v4, l2) := read_groups left (S i) l1 in (g :: gs, v4, l2)
    end = r -> (length r.1.1 <= S left)%nat /\ Forall (fun g => 0 <= g < 65536) r.1.1) as Hg.
  { intros r <-. destruct (read_separator 58 i (read_number 16 4 true 16) l) as [[g l1]|] eqn:Hs;
      [|simpl; split; [lia|done]].
    destruct (read_groups left (S i) l1) as [[gs' v'] l2] eqn:Hr. apply IH in Hr as [? ?].
    apply read_separator_inner in Hs as [l' Hn]. apply read_number_range in Hn; [|lia].
    simpl. split; [lia|]. by constructor. }
  destruct ipv4 as [[os l1]|] eqn:Hv; [|intros Hr; exact (Hg _ Hr)].
  assert (exists l', read_ipv4_addr l' = Some (os, l1) /\ (1 <= left)%nat) as (l' & Ho & Hl).
  { subst ipv4. destruct left; [done|]. apply read_separator_inner in Hv as [l' ?].
    exists l'. split; [done|lia]. }
  apply read_octets_range in Ho as [Hlen Hos].
  do 5 (destruct os as [|? os]; [try (simpl in Hlen; lia)|]); try (simpl in Hlen; lia).
  intros [= <- _ _]. inversion Hos as [|? ? ? H1]; subst. inversion H1 as [|? ? ? H2]; subst.
  inversion H2 as [|? ? ? H3]; subst. inversion H3; subst. simpl. split; [lia|].
  repeat constructor; lia.
Qed.

Lemma octets_of_groups_range gs :
  Forall (fun g => 0 <= g < 65536) gs ->
  length (octets_of_groups gs) = (2 * length gs)%nat /\
  Forall (fun o => 0 <= o < 256) (octets_of_groups gs).
Proof.
  intros Hg. induction Hg as [|g gs Hg _ [IH1 IH2]]; [done|]. cbn [octets_of_groups flat_map app].
  split; [cbn [length]; unfold octets_of_groups in IH1; rewrite IH1; lia|].
  constructor; [|constructor; [|done]].
  - split; [by apply Z.div_pos; lia|]. apply Z.div_lt_upper_bound; lia.
  - apply Z.mod_pos_bound. lia.
Qed.

(** Addresses have the length of their kind, in octets. *)
Lemma parse_ipv4_range text os :
  parse_ipv4 text = Some os -> length os = 4%nat /\ Forall (fun o => 0 <= o < 256) os.
Proof.
  unfold parse_ipv4, parse_with. destruct (15 <? length text)%nat; [done|].
  destruct (read_ipv4_addr text) as [[os' [|? ?]]|] eqn:Hr; [|done..]. intros [= <-].
  by eapply read_octets_range.
Qed.

Lemma parse_ipv6_range text os :
  parse_ipv6 text = Some os -> length os = 16%nat /\ Forall (fun o => 0 <= o < 256) os.
Proof.
  unfold parse_ipv6, parse_with. destruct (read_ipv6_addr text) as [[os' [|? ?]]|] eqn:Hr; [|done..].
  intros [= <-]. revert Hr. unfold read_ipv6_addr.
  destruct (read_groups 8 0 text) as [[head v4] l1] eqn:Hh. apply read_groups_range in Hh as [L1 F1].
  destruct (Nat.eqb_spec (length head) 8) as [He|Hne].
  { intros [= <- _]. destruct (octets_of_groups_range _ F1) as [-> ?]. split; [lia|done]. }
  destruct v4; [done|]. destruct (read_given_char 58 l1) as [l2|]; [|done].
  destruct (read_given_char 58 l2) as [l3|]; [|done].
  destruct (read_groups _ 0 l3) as [[tail v] l4] eqn:Ht. apply read_groups_range in Ht as [L2 F2].
  intros [= <- _].
  assert (Forall (fun g => 0 <= g < 65536)
    (head ++ replicate (8 - length head - length tail) 0 ++ tail)) as F3.
  { rewrite !Forall_app. split_and!; try done. apply Forall_replicate. lia. }
  destruct (octets_of_groups_range _ F3) as [-> ?].
  split; [|done]. rewrite !length_app, length_replicate. lia.
Qed.

(** Well-formed text is unchanged by lossy decoding. *)
Lemma from_utf8_lossy_valid l cs : decode_utf8 l = Some cs -> from_utf8_lossy l = l.
Proof.
  revert cs. induction l as [l IH] using (induction_ltof1 _ (@length Z)). unfold ltof in IH.
  intros cs. destruct l as [|b0 l1]; [done|]. cbn [decode_utf8 from_utf8_lossy].
  destruct (between 0 b0 127) eqn:E0.
  { intros (cs' & Hd & _)%fmap_Some. f_equal. eapply IH, Hd. simpl. lia. }
  destruct l1 as [|b1 l2]; [done|]. destruct (between 194 b0 223 && is_cont b1) eqn:E1.
  { intros (cs' & Hd & _)%fmap_Some. do 2 f_equal. eapply IH, Hd. simpl. lia. }
  destruct l2 as [|b2 l3]; [done|]. destruct (second3_ok b0 b1) eqn:E2; cbn [andb].
  - assert (second4_ok b0 b1 = false) as -> by (clear -E2; destruct (second4_ok b0 b1) eqn:E4; ranges; lia).
    cbn [andb]. destruct (is_cont b2) eqn:E3; [|by destruct l3].
    intros (cs' & Hd & _)%fmap_Some. do 3 f_equal. eapply IH, Hd. simpl. lia.
  - destruct l3 as [|b3 l4]; [done|]. destruct (second4_ok b0 b1); [|done]. cbn [andb].
    destruct (is_cont b2); [|done]. cbn [andb]. destruct (is_cont b3); [|done].
    intros (cs' & Hd & _)%fmap_Some. do 4 f_equal. eapply IH, Hd. simpl. lia.
Qed.
