(* ===== verification/Types.v ===== *)
(** * Shared types: [pns-types]

    The data types of [pallets/pns-types/src/lib.rs] and the record types of
    [pallets/pns-types/src/ddns.rs] with their conversion to and from the type
    of the DNS library.  Generic parameters are taken at the runtime's choice:
    [Moment] is a [u64] of milliseconds, [Balance] a [u128], a block number a
    [u32], all carried as [Z]. *)

From Stdlib Require Import ZArith Lia.
From stdpp Require Import base tactics numbers countable option list_basics list.
From S2P Require Import Prelude.

Local Open Scope Z_scope.

(** [sp_core::H256]: 32 raw bytes, which are also its SCALE encoding. *)
Definition DomainHash : Type := bytes.

#[global] Instance DomainHash_eq_dec : EqDecision DomainHash := _.
#[global] Instance DomainHash_countable : Countable DomainHash := _.

Definition DomainHash_default : DomainHash := replicate 32 0.

(** ** Records of [lib.rs] *)

Record NameRecord (AccountId : Type) := mkNameRecord {
  nr_owner : AccountId;
  nr_expire : Z;
  nr_capacity : Z;
  nr_register_fee : Z;
  nr_for_sale : bool;
  nr_last_block : Z;
  nr_read_block_number : Z;
  nr_read_block_hash : DomainHash
}.

Record ListingInfo (AccountId : Type) := mkListingInfo {
  li_seller : AccountId;
  li_price : Z;
  li_expires_at : Z;
  li_read_block_number : Z;
  li_read_block_hash : DomainHash
}.

Record RegistrarInfo := mkRegistrarInfo {
  ri_expire : Z;
  ri_capacity : Z;
  ri_register_fee : Z;
  ri_label_len : Z;
  ri_last_block : Z
}.

Inductive DomainTracing :=
| RuntimeOrigin (node : DomainHash)
| Root.

(** The NFT token data of a name. *)
Record NodeRecord := mkNodeRecord { children : Z }.

Definition NodeRecord_default : NodeRecord := mkNodeRecord 0.

Inductive SubnameState := Offered | Active | Rejected.

Record SubnameRecord (AccountId : Type) := mkSubnameRecord {
  sr_parent : DomainHash;
  sr_label : bytes;
  sr_target : AccountId;
  sr_state : SubnameState
}.

Record OfferedNameRecord (AccountId : Type) := mkOfferedNameRecord {
  on_buyer : AccountId;
  on_recipient : AccountId
}.

Record AccountDashboard := mkAccountDashboard {
  primary_name : option DomainHash;
  subnames : list DomainHash;
  pending_subname_offers : list DomainHash;
  pending_name_offers : list DomainHash
}.

Arguments mkNameRecord {AccountId}.
Arguments nr_owner {AccountId}.
Arguments nr_expire {AccountId}.
Arguments nr_capacity {AccountId}.
Arguments nr_register_fee {AccountId}.
Arguments nr_for_sale {AccountId}.
Arguments nr_last_block {AccountId}.
Arguments nr_read_block_number {AccountId}.
Arguments nr_read_block_hash {AccountId}.
Arguments mkListingInfo {AccountId}.
Arguments li_seller {AccountId}.
Arguments li_price {AccountId}.
Arguments li_expires_at {AccountId}.
Arguments li_read_block_number {AccountId}.
Arguments li_read_block_hash {AccountId}.
Arguments mkSubnameRecord {AccountId}.
Arguments sr_parent {AccountId}.
Arguments sr_label {AccountId}.
Arguments sr_target {AccountId}.
Arguments sr_state {AccountId}.
Arguments mkOfferedNameRecord {AccountId}.
Arguments on_buyer {AccountId}.
Arguments on_recipient {AccountId}.

#[global] Instance SubnameState_eq_dec : EqDecision SubnameState.
Proof. solve_decision. Defined.
#[global] Instance DomainTracing_eq_dec : EqDecision DomainTracing.
Proof. solve_decision. Defined.
#[global] Instance RegistrarInfo_eq_dec : EqDecision RegistrarInfo.
Proof. solve_decision. Defined.
#[global] Instance SubnameRecord_eq_dec `{EqDecision A} : EqDecision (SubnameRecord A).
Proof. solve_decision. Defined.
#[global] Instance OfferedNameRecord_eq_dec `{EqDecision A} : EqDecision (OfferedNameRecord A).
Proof. solve_decision. Defined.

(** ** Base nodes *)

Definition DOT_BASENODE : DomainHash := [
  63; 206; 125; 19; 100; 168; 147; 226; 19; 188; 66; 18; 121; 43; 81; 127; 252; 136; 245; 177;
  59; 134; 200; 239; 156; 141; 57; 12; 58; 19; 112; 206].

Definition KSM_BASENODE : DomainHash := [
  40; 176; 66; 80; 226; 106; 137; 121; 141; 170; 194; 128; 195; 181; 31; 184; 186; 190; 216; 60;
  185; 180; 141; 134; 171; 252; 4; 74; 2; 250; 3; 144].

(** [kusama] is the cargo feature of that name. *)
Definition NATIVE_BASENODE (kusama : bool) : DomainHash :=
  if kusama then KSM_BASENODE else DOT_BASENODE.

(** ** Record types of [ddns.rs] *)
Module codec_type.

Inductive ContractAddress :=
| Wasm (account : bytes)
| Evm (address : bytes).

Inductive RecordType :=
| SS58
| RPC
| VALIDATOR
| PARA
| PROXY
| PUBKEY1
| AVATAR
| CONTRACT
| PUBKEY2
| PUBKEY3
| ORIGIN
| IPFS
| CONTENT
| A
| AAAA
| ANAME
| ANY
| AXFR
| CAA
| CDS
| CDNSKEY
| CNAME
| CSYNC
| DNSKEY
| DS
| HINFO
| HTTPS
| IXFR
| KEY
| MX
| NAPTR
| NS
| NSEC
| NSEC3
| NSEC3PARAM
| NULL
| OPENPGPKEY
| OPT
| PTR
| RRSIG
| SIG
| SOA
| SRV
| SSHFP
| SVCB
| TLSA
| TSIG
| TXT
| Unknown (code : Z)
| ZERO.

#[global] Instance RecordType_eq_dec : EqDecision RecordType.
Proof. solve_decision. Defined.

(** The position in the declaration, to make the type countable. *)
Definition index (r : RecordType) : Z * Z :=
  match r with
  | SS58 => (0, 0)
  | RPC => (1, 0)
  | VALIDATOR => (2, 0)
  | PARA => (3, 0)
  | PROXY => (4, 0)
  | PUBKEY1 => (5, 0)
  | AVATAR => (6, 0)
  | CONTRACT => (7, 0)
  | PUBKEY2 => (8, 0)
  | PUBKEY3 => (9, 0)
  | ORIGIN => (10, 0)
  | IPFS => (11, 0)
  | CONTENT => (12, 0)
  | A => (13, 0)
  | AAAA => (14, 0)
  | ANAME => (15, 0)
  | ANY => (16, 0)
  | AXFR => (17, 0)
  | CAA => (18, 0)
  | CDS => (19, 0)
  | CDNSKEY => (20, 0)
  | CNAME => (21, 0)
  | CSYNC => (22, 0)
  | DNSKEY => (23, 0)
  | DS => (24, 0)
  | HINFO => (25, 0)
  | HTTPS => (26, 0)
  | IXFR => (27, 0)
  | KEY => (28, 0)
  | MX => (29, 0)
  | NAPTR => (30, 0)
  | NS => (31, 0)
  | NSEC => (32, 0)
  | NSEC3 => (33, 0)
  | NSEC3PARAM => (34, 0)
  | NULL => (35, 0)
  | OPENPGPKEY => (36, 0)
  | OPT => (37, 0)
  | PTR => (38, 0)
  | RRSIG => (39, 0)
  | SIG => (40, 0)
  | SOA => (41, 0)
  | SRV => (42, 0)
  | SSHFP => (43, 0)
  | SVCB => (44, 0)
  | TLSA => (45, 0)
  | TSIG => (46, 0)
  | TXT => (47, 0)
  | Unknown code => (48, code)
  | ZERO => (49, 0)
  end.

Definition of_index (p : Z * Z) : RecordType :=
  match p.1 with
  | 0 => SS58
  | 1 => RPC
  | 2 => VALIDATOR
  | 3 => PARA
  | 4 => PROXY
  | 5 => PUBKEY1
  | 6 => AVATAR
  | 7 => CONTRACT
  | 8 => PUBKEY2
  | 9 => PUBKEY3
  | 10 => ORIGIN
  | 11 => IPFS
  | 12 => CONTENT
  | 13 => A
  | 14 => AAAA
  | 15 => ANAME
  | 16 => ANY
  | 17 => AXFR
  | 18 => CAA
  | 19 => CDS
  | 20 => CDNSKEY
  | 21 => CNAME
  | 22 => CSYNC
  | 23 => DNSKEY
  | 24 => DS
  | 25 => HINFO
  | 26 => HTTPS
  | 27 => IXFR
  | 28 => KEY
  | 29 => MX
  | 30 => NAPTR
  | 31 => NS
  | 32 => NSEC
  | 33 => NSEC3
  | 34 => NSEC3PARAM
  | 35 => NULL
  | 36 => OPENPGPKEY
  | 37 => OPT
  | 38 => PTR
  | 39 => RRSIG
  | 40 => SIG
  | 41 => SOA
  | 42 => SRV
  | 43 => SSHFP
  | 44 => SVCB
  | 45 => TLSA
  | 46 => TSIG
  | 47 => TXT
  | 48 => Unknown p.2
  | 49 => ZERO
  | _ => ZERO
  end.

Lemma of_index_index r : of_index (index r) = r.
Proof. by destruct r. Qed.

#[global] Instance RecordType_countable : Countable RecordType :=
  inj_countable' index of_index of_index_index.

Definition all : list RecordType := [
  A; AAAA; ANAME; ANY; AXFR; CAA; CDS; CDNSKEY; CNAME; CSYNC; DNSKEY; DS; HINFO; HTTPS;
  IXFR; KEY; MX; NAPTR; NS; NSEC; NSEC3; NSEC3PARAM; NULL; OPENPGPKEY; OPT; PTR; RRSIG;
  SIG; SOA; SRV; SSHFP; SVCB; TLSA; TSIG; TXT; ZERO; SS58; RPC; VALIDATOR; PARA; PROXY;
  PUBKEY1; AVATAR; CONTRACT; PUBKEY2; PUBKEY3; ORIGIN; IPFS; CONTENT].

End codec_type.

(** [hickory_proto::rr::RecordType]: the variants [ddns.rs] names, and the type
    [Other] of those it does not. *)
Module hickory.

Inductive HickoryRecordType (Other : Type) :=
| A
| AAAA
| ANAME
| ANY
| AXFR
| CAA
| CDS
| CDNSKEY
| CNAME
| CSYNC
| DNSKEY
| DS
| HINFO
| HTTPS
| IXFR
| KEY
| MX
| NAPTR
| NS
| NSEC
| NSEC3
| NSEC3PARAM
| NULL
| OPENPGPKEY
| OPT
| PTR
| RRSIG
| SIG
| SOA
| SRV
| SSHFP
| SVCB
| TLSA
| TSIG
| TXT
| ZERO
| Unknown (code : Z)
| other (o : Other).

Arguments A {Other}.
Arguments AAAA {Other}.
Arguments ANAME {Other}.
Arguments ANY {Other}.
Arguments AXFR {Other}.
Arguments CAA {Other}.
Arguments CDS {Other}.
Arguments CDNSKEY {Other}.
Arguments CNAME {Other}.
Arguments CSYNC {Other}.
Arguments DNSKEY {Other}.
Arguments DS {Other}.
Arguments HINFO {Other}.
Arguments HTTPS {Other}.
Arguments IXFR {Other}.
Arguments KEY {Other}.
Arguments MX {Other}.
Arguments NAPTR {Other}.
Arguments NS {Other}.
Arguments NSEC {Other}.
Arguments NSEC3 {Other}.
Arguments NSEC3PARAM {Other}.
Arguments NULL {Other}.
Arguments OPENPGPKEY {Other}.
Arguments OPT {Other}.
Arguments PTR {Other}.
Arguments RRSIG {Other}.
Arguments SIG {Other}.
Arguments SOA {Other}.
Arguments SRV {Other}.
Arguments SSHFP {Other}.
Arguments SVCB {Other}.
Arguments TLSA {Other}.
Arguments TSIG {Other}.
Arguments TXT {Other}.
Arguments ZERO {Other}.
Arguments Unknown {Other} code.
Arguments other {Other} o.

End hickory.

(** [impl From<codec_type::RecordType> for RecordType] *)
Definition record_type_from {Other} (value : codec_type.RecordType) : hickory.HickoryRecordType Other :=
  match value with
  | codec_type.A => hickory.A
  | codec_type.AAAA => hickory.AAAA
  | codec_type.ANAME => hickory.ANAME
  | codec_type.ANY => hickory.ANY
  | codec_type.AXFR => hickory.AXFR
  | codec_type.CAA => hickory.CAA
  | codec_type.CDS => hickory.CDS
  | codec_type.CDNSKEY => hickory.CDNSKEY
  | codec_type.CNAME => hickory.CNAME
  | codec_type.CSYNC => hickory.CSYNC
  | codec_type.DNSKEY => hickory.DNSKEY
  | codec_type.DS => hickory.DS
  | codec_type.HINFO => hickory.HINFO
  | codec_type.HTTPS => hickory.HTTPS
  | codec_type.IXFR => hickory.IXFR
  | codec_type.KEY => hickory.KEY
  | codec_type.MX => hickory.MX
  | codec_type.NAPTR => hickory.NAPTR
  | codec_type.NS => hickory.NS
  | codec_type.NSEC => hickory.NSEC
  | codec_type.NSEC3 => hickory.NSEC3
  | codec_type.NSEC3PARAM => hickory.NSEC3PARAM
  | codec_type.NULL => hickory.NULL
  | codec_type.OPENPGPKEY => hickory.OPENPGPKEY
  | codec_type.OPT => hickory.OPT
  | codec_type.PTR => hickory.PTR
  | codec_type.RRSIG => hickory.RRSIG
  | codec_type.SIG => hickory.SIG
  | codec_type.SOA => hickory.SOA
  | codec_type.SRV => hickory.SRV
  | codec_type.SSHFP => hickory.SSHFP
  | codec_type.SVCB => hickory.SVCB
  | codec_type.TLSA => hickory.TLSA
  | codec_type.TSIG => hickory.TSIG
  | codec_type.TXT => hickory.TXT
  | codec_type.SS58 => hickory.Unknown 65280
  | codec_type.RPC => hickory.Unknown 65281
  | codec_type.VALIDATOR => hickory.Unknown 65282
  | codec_type.PARA => hickory.Unknown 65283
  | codec_type.PROXY => hickory.Unknown 65284
  | codec_type.PUBKEY1 => hickory.Unknown 65285
  | codec_type.AVATAR => hickory.Unknown 65286
  | codec_type.CONTRACT => hickory.Unknown 65287
  | codec_type.PUBKEY2 => hickory.Unknown 65288
  | codec_type.PUBKEY3 => hickory.Unknown 65289
  | codec_type.ORIGIN => hickory.Unknown 65290
  | codec_type.IPFS => hickory.Unknown 65291
  | codec_type.CONTENT => hickory.Unknown 65292
  | codec_type.Unknown unknow => hickory.Unknown unknow
  | codec_type.ZERO => hickory.ZERO
  end.

(** [impl Into<codec_type::RecordType> for RecordType]; [None] is the panic. *)
Definition record_type_into {Other} (self : hickory.HickoryRecordType Other) :
  option codec_type.RecordType :=
  match self with
  | hickory.A => Some codec_type.A
  | hickory.AAAA => Some codec_type.AAAA
  | hickory.ANAME => Some codec_type.ANAME
  | hickory.ANY => Some codec_type.ANY
  | hickory.AXFR => Some codec_type.AXFR
  | hickory.CAA => Some codec_type.CAA
  | hickory.CDS => Some codec_type.CDS
  | hickory.CDNSKEY => Some codec_type.CDNSKEY
  | hickory.CNAME => Some codec_type.CNAME
  | hickory.CSYNC => Some codec_type.CSYNC
  | hickory.DNSKEY => Some codec_type.DNSKEY
  | hickory.DS => Some codec_type.DS
  | hickory.HINFO => Some codec_type.HINFO
  | hickory.HTTPS => Some codec_type.HTTPS
  | hickory.IXFR => Some codec_type.IXFR
  | hickory.KEY => Some codec_type.KEY
  | hickory.MX => Some codec_type.MX
  | hickory.NAPTR => Some codec_type.NAPTR
  | hickory.NS => Some codec_type.NS
  | hickory.NSEC => Some codec_type.NSEC
  | hickory.NSEC3 => Some codec_type.NSEC3
  | hickory.NSEC3PARAM => Some codec_type.NSEC3PARAM
  | hickory.NULL => Some codec_type.NULL
  | hickory.OPENPGPKEY => Some codec_type.OPENPGPKEY
  | hickory.OPT => Some codec_type.OPT
  | hickory.PTR => Some codec_type.PTR
  | hickory.RRSIG => Some codec_type.RRSIG
  | hickory.SIG => Some codec_type.SIG
  | hickory.SOA => Some codec_type.SOA
  | hickory.SRV => Some codec_type.SRV
  | hickory.SSHFP => Some codec_type.SSHFP
  | hickory.SVCB => Some codec_type.SVCB
  | hickory.TLSA => Some codec_type.TLSA
  | hickory.TSIG => Some codec_type.TSIG
  | hickory.TXT => Some codec_type.TXT
  | hickory.Unknown 65280 => Some codec_type.SS58
  | hickory.Unknown 65281 => Some codec_type.RPC
  | hickory.Unknown 65282 => Some codec_type.VALIDATOR
  | hickory.Unknown 65283 => Some codec_type.PARA
  | hickory.Unknown 65284 => Some codec_type.PROXY
  | hickory.Unknown 65285 => Some codec_type.PUBKEY1
  | hickory.Unknown 65286 => Some codec_type.AVATAR
  | hickory.Unknown 65287 => Some codec_type.CONTRACT
  | hickory.Unknown 65288 => Some codec_type.PUBKEY2
  | hickory.Unknown 65289 => Some codec_type.PUBKEY3
  | hickory.Unknown 65290 => Some codec_type.ORIGIN
  | hickory.Unknown 65291 => Some codec_type.IPFS
  | hickory.Unknown 65292 => Some codec_type.CONTENT
  | hickory.Unknown unknow => Some (codec_type.Unknown unknow)
  | hickory.ZERO => Some codec_type.ZERO
  | hickory.other _ => None
  end.

(** The codes [record_type_from] gives to the name service's own record types. *)
Definition is_private_code (n : Z) : bool := (65280 <=? n) && (n <=? 65292).

(** ** Theorems *)

Lemma private_code_cases n :
  is_private_code n = true -> exists k, (k < 13)%nat /\ n = 65280 + Z.of_nat k.
Proof.
  unfold is_private_code. rewrite andb_true_iff, !Z.leb_le. intros ?.
  exists (Z.to_nat (n - 65280)). lia.
Qed.

(** A private code is never read back as [Unknown]. *)
Lemma into_private {Other} n :
  is_private_code n = true ->
  exists r, record_type_into (hickory.Unknown n : hickory.HickoryRecordType Other) = Some r
            /\ r <> codec_type.Unknown n /\ record_type_from (Other := Other) r = hickory.Unknown n.
Proof.
  intros (k & Hk & ->)%private_code_cases.
  do 13 (destruct k as [|k]; [eexists; split; [reflexivity | by split]|]). lia.
Qed.

Lemma into_unknown {Other} n :
  is_private_code n = false ->
  record_type_into (hickory.Unknown n : hickory.HickoryRecordType Other) = Some (codec_type.Unknown n).
Proof.
  intros H. cbn [record_type_into].
  repeat match goal with
         | |- context [match ?p with _ => _ end] =>
             is_var p; destruct p; try reflexivity; try discriminate H
         end.
Qed.

(** A library type that converts at all is recovered exactly. *)
Lemma record_type_from_into {Other} (h : hickory.HickoryRecordType Other) r :
  record_type_into h = Some r -> record_type_from r = h.
Proof.
  destruct h; try by intros [= <-].
  destruct (is_private_code code) eqn:E.
  - destruct (into_private (Other := Other) _ E) as (r' & -> & _ & <-). by intros [= <-].
  - rewrite into_unknown by done. by intros [= <-].
Qed.

(** Record types round trip through the DNS library's type: converting a
    stored type out and back gives it again except for [Unknown] with one of the
    private codes 65280 to 65292, which comes back as the type that owns the
    code; and a library type that converts at all is recovered exactly. *)
Theorem record_type_roundtrip (Other : Type) :
  (forall r : codec_type.RecordType,
     record_type_into (record_type_from (Other := Other) r) = Some r <->
     ~ exists n, r = codec_type.Unknown n /\ is_private_code n = true) /\
  (forall (h : hickory.HickoryRecordType Other) r,
     record_type_into h = Some r -> record_type_from r = h).
Proof.
  split.
  - intros r. destruct r; try (split; [by intros _ (n & ? & _) | reflexivity]).
    cbn [record_type_from]. destruct (is_private_code code) eqn:E.
    + destruct (into_private (Other := Other) _ E) as (r & -> & Hr & _). naive_solver.
    + rewrite into_unknown by done. split; [|done]. intros _ (n & [= <-] & ?). congruence.
  - intros h r. apply record_type_from_into.
Qed.

(** [RecordType::all] lists 49 record types without repetition, and lists a
    type exactly when it is not an [Unknown] one. *)
Theorem record_type_all_complete :
  length codec_type.all = 49%nat /\ NoDup codec_type.all /\
  forall r, r ∈ codec_type.all <-> forall n, r <> codec_type.Unknown n.
Proof.
  split; [reflexivity|]. split.
  - apply (bool_decide_unpack _). by vm_compute.
  - intros r. split.
    + intros Hr n ->. revert Hr. unfold codec_type.all. rewrite !elem_of_cons, elem_of_nil. naive_solver.
    + intros Hr. destruct r; try (apply (bool_decide_unpack _); vm_compute; exact I).
      by destruct (Hr code).
Qed.
