(* ===== verification/Storage.v ===== *)
(** * The chain: parameters of the runtime, storage, events and errors

    [Env] bundles what the pallets take from outside the repository: the account
    type, address lookup, the hash function, signatures and the currency.
    [Config] holds the constants of the pallets' [Config] traits.  The storage
    items of each pallet form one record, and [State] is all of them together
    with the block's environment and the event log; [upd_X] rewrites the storage
    item [X].  [M] is the monad of the pallets' functions. *)

From Stdlib Require Import ZArith Lia.
From stdpp Require Import base tactics numbers gmap sets fin_sets fin_maps option countable list_basics list.
From S2P Require Import Prelude Types.

Local Open Scope Z_scope.

(** ** What the pallets take from outside *)

(** [WithdrawReasons::FEE] and [ExistenceRequirement], the arguments of the
    currency's operations. *)
Inductive WithdrawReasons := FEE.

Inductive ExistenceRequirement := KeepAlive | AllowDeath.

Class Env := {
  AccountId : Type;
  #[global] AccountId_eq_dec :: EqDecision AccountId;
  #[global] AccountId_countable :: Countable AccountId;
  (** SCALE encoding of an account, as [owner.encode()]. *)
  account_encode : AccountId -> bytes;
  (** [AccountId::new] *)
  account_new : bytes -> AccountId;
  (** [T::Lookup]: [None] is the lookup error. *)
  LookupSource : Type;
  lookup_account : LookupSource -> option AccountId;
  (** [sp_io::hashing::keccak_256] *)
  keccak_256 : bytes -> DomainHash;
  (** [T::Signature] and its [verify(data, signer)]. *)
  Signature : Type;
  signature_verify : Signature -> bytes -> AccountId -> bool;
  (** [T::Currency], with the error type of its operations. *)
  CurrencyState : Type;
  CurrencyError : Type;
  currency_free_balance : CurrencyState -> AccountId -> Z;
  currency_total_issuance : CurrencyState -> Z;
  (** [withdraw] returns the negative imbalance, here its amount; dropping it
      lowers the total issuance. *)
  currency_withdraw : AccountId -> Z -> WithdrawReasons -> ExistenceRequirement ->
    CurrencyState -> result CurrencyError (CurrencyState * Z);
  currency_drop_imbalance : Z -> CurrencyState -> CurrencyState;
  currency_transfer : AccountId -> AccountId -> Z -> ExistenceRequirement ->
    CurrencyState -> result CurrencyError CurrencyState
}.

(** Documented behaviour of [frame_support::traits::Currency] that the theorems
    about payments use; the pallets pay with [KeepAlive] only. *)
Class CurrencyLaws (E : Env) := {
  withdraw_imbalance : forall who v r c c' i,
    currency_withdraw who v r KeepAlive c = Ok (c', i) -> i = v;
  withdraw_free : forall who v r c c' i a,
    currency_withdraw who v r KeepAlive c = Ok (c', i) ->
    currency_free_balance c' a = currency_free_balance c a - (if decide (a = who) then v else 0);
  withdraw_issuance : forall who v r c c' i,
    currency_withdraw who v r KeepAlive c = Ok (c', i) ->
    currency_total_issuance c' = currency_total_issuance c;
  drop_free : forall i c a,
    currency_free_balance (currency_drop_imbalance i c) a = currency_free_balance c a;
  drop_issuance : forall i c, 0 <= i <= currency_total_issuance c ->
    currency_total_issuance (currency_drop_imbalance i c) = currency_total_issuance c - i;
  transfer_free : forall x y v c c' a,
    currency_transfer x y v KeepAlive c = Ok c' -> x <> y ->
    currency_free_balance c' a = currency_free_balance c a
      - (if decide (a = x) then v else 0) + (if decide (a = y) then v else 0);
  transfer_issuance : forall x y v c c',
    currency_transfer x y v KeepAlive c = Ok c' ->
    currency_total_issuance c' = currency_total_issuance c
}.

(** The constants of the pallets' [Config] traits. *)
Class Config := {
  GracePeriod : Z;
  DefaultCapacity : Z;
  BaseNode : DomainHash;
  MinRegistrationDuration : Z;
  MaxRegistrationDuration : Z;
  MaxContentLen : Z;
  MaxClassMetadata : Z;
  MaxTokenMetadata : Z;
  ProtocolFeeBps : Z
}.

(** ** Origins of calls *)
Module RawOrigin.

(** [Other] is any origin that is neither [Root], [Signed] nor [None]. *)
Inductive RawOrigin {E : Env} :=
| Root
| Signed (who : AccountId)
| None
| Other.

Arguments Root {E}.
Arguments Signed {E}.
Arguments None {E}.
Arguments Other {E}.

End RawOrigin.
Abbreviation RawOrigin := RawOrigin.RawOrigin.

(** ** Records kept in storage *)

(** [nft::ClassInfo] with [ClassData = ()]. *)
Record ClassInfo {E : Env} := mkClassInfo {
  ci_metadata : bytes;
  ci_total_issuance : Z;
  ci_owner : AccountId
}.

Arguments mkClassInfo {E}.

(** [nft::TokenInfo] with [TokenData = Record]. *)
Record TokenInfo {E : Env} := mkTokenInfo {
  ti_metadata : bytes;
  ti_owner : AccountId;
  ti_data : NodeRecord
}.

Arguments mkTokenInfo {E}.

(** [pns_marketplace::Listing] *)
Record Listing {E : Env} := mkListing {
  seller : AccountId;
  price : Z;
  expires_at : Z
}.

Arguments mkListing {E}.

(** [pns_resolvers::TextKind] *)
Inductive TextKind :=
| Email | Url | Avatar | Description | Notice | Keywords | Twitter | Github | Ipfs.

#[global] Instance TextKind_eq_dec : EqDecision TextKind.
Proof. solve_decision. Defined.

Definition TextKind_index (k : TextKind) : Z :=
  match k with
  | Email => 0 | Url => 1 | Avatar => 2 | Description => 3 | Notice => 4
  | Keywords => 5 | Twitter => 6 | Github => 7 | Ipfs => 8
  end.

Definition TextKind_of_index (i : Z) : TextKind :=
  match i with
  | 0 => Email | 1 => Url | 2 => Avatar | 3 => Description | 4 => Notice
  | 5 => Keywords | 6 => Twitter | 7 => Github | _ => Ipfs
  end.

Lemma TextKind_of_index_index k : TextKind_of_index (TextKind_index k) = k.
Proof. by destruct k. Qed.

#[global] Instance TextKind_countable : Countable TextKind :=
  inj_countable' TextKind_index TextKind_of_index TextKind_of_index_index.

(** ** Errors *)
Module nft.

Inductive nft_Error :=
| NoAvailableClassId | TokenNotFound | ClassNotFound | NoPermission | CannotDestroyClass
| MaxMetadataExceeded.

End nft.

Module registry.

Inductive registry_Error :=
| NoPermission | NotExist | CapacityNotEnough | SubnodeNotClear | BanBurnBaseNode
| OfficialNotInitiated | InvalidName | CannotOwnSubnameUnderOwnDomain | SubnameAlreadyExists
| SubnameNotFound | SubnameNotOffered | SubnameNotActive | NotSubnameTarget | NotSubnameOfferer
| SubnameDepthExceeded | TargetAlreadyOwnsName.

(** A token identifier is a node, and every event is about class 0. *)
Inductive registry_Event {E : Env} :=
| Transferred (from to : AccountId) (class_id : Z) (token_id : DomainHash)
| TokenMinted (class_id : Z) (token_id node : DomainHash) (owner : AccountId)
| TokenBurned (class_id : Z) (token_id node : DomainHash) (owner caller : AccountId).

Arguments Transferred {E}.
Arguments TokenMinted {E}.
Arguments TokenBurned {E}.

End registry.

Module registrar.

Inductive registrar_Error :=
| NotOwned | Occupied | NotExistOrOccupied | Frozen | ParseLabelFailed | LabelInvalid
| NotUseable | NotRenewable | RegistryDurationInvalid | RegistrarClosed
| AlreadyHasCanonicalName | AlreadyHoldsSubdomain | NoCanonicalName | LabelTooLong
| NameAlreadyOffered | OfferedNameNotFound | NotOfferedNameRecipient.

Inductive registrar_Event {E : Env} :=
| NameRegistered (name : bytes) (node : DomainHash) (owner : AccountId) (expire fee : Z)
| NameRenewed (node : DomainHash) (owner : AccountId) (expire fee : Z)
| SubnameOffered (parent subnode : DomainHash) (label : bytes) (target : AccountId)
| SubnameAccepted (subnode : DomainHash) (target : AccountId)
| SubnameRejected (subnode : DomainHash) (target : AccountId)
| SubnameRevoked (subnode parent : DomainHash)
| SubnameReleased (subnode parent : DomainHash)
| NameReserved (node : DomainHash)
| NameUnReserved (node : DomainHash)
| NameBoughtForRecipient (node : DomainHash) (buyer recipient : AccountId)
| OfferedNameAccepted (node : DomainHash) (recipient : AccountId)
| OfferedNameRejected (node : DomainHash) (by_ : AccountId).

Arguments NameRegistered {E}.
Arguments NameRenewed {E}.
Arguments SubnameOffered {E}.
Arguments SubnameAccepted {E}.
Arguments SubnameRejected {E}.
Arguments SubnameRevoked {E}.
Arguments SubnameReleased {E}.
Arguments NameReserved {E}.
Arguments NameUnReserved {E}.
Arguments NameBoughtForRecipient {E}.
Arguments OfferedNameAccepted {E}.
Arguments OfferedNameRejected {E}.

End registrar.

Module resolvers.

Inductive resolvers_Error := InvalidPermission | Ss58RecordProtected | InvalidName.

Inductive resolvers_Event :=
| TextsChanged (node : DomainHash) (kind : TextKind) (content : bytes)
| RecordsChanged (node : DomainHash) (kind : codec_type.RecordType) (content : bytes).

End resolvers.

Module marketplace.

Inductive marketplace_Error :=
| NoCanonicalName | AlreadyListed | NotListed | ListingExpired | SellerNoLongerOwns
| ExpiryNotInFuture | InvalidName | BuyerIsSeller | BuyerIsRecipient | SellerIsRecipient.

Inductive marketplace_Event {E : Env} :=
| Listed (node : DomainHash) (seller : AccountId) (price expires_at : Z)
| Delisted (node : DomainHash) (seller : AccountId)
| Sold (node : DomainHash) (seller buyer : AccountId) (price fee : Z)
| NameBoughtForRecipient (node : DomainHash) (seller buyer recipient : AccountId) (price fee : Z).

Arguments Listed {E}.
Arguments Delisted {E}.
Arguments Sold {E}.
Arguments NameBoughtForRecipient {E}.

End marketplace.

Module price_oracle.

Inductive price_oracle_Event {E : Env} :=
| BasePriceChanged (prices : list Z)
| RentPriceChanged (prices : list Z)
| ExchangeRateChanged (who : AccountId) (rate : Z).

Arguments BasePriceChanged {E}.
Arguments RentPriceChanged {E}.
Arguments ExchangeRateChanged {E}.

End price_oracle.

Module origin.

Inductive origin_Event {E : Env} :=
| AddedOrigin (who : AccountId)
| RemovedOrigin (who : AccountId).

Arguments AddedOrigin {E}.
Arguments RemovedOrigin {E}.

End origin.

Module redeem_code.

Inductive redeem_code_Error :=
| RangeInvaild | ParseLabelFailed | InvalidSignature | RedeemsHasBeenUsed | LabelLenInvalid.

Inductive redeem_code_Event {E : Env} :=
| RedeemCodeUsed (code : Signature) (node : DomainHash) (to : AccountId).

Arguments RedeemCodeUsed {E}.

End redeem_code.

Module template.

Inductive template_Error := NoneValue | StorageOverflow.

Inductive template_Event {E : Env} :=
| SomethingStored (something : Z) (who : AccountId).

Arguments SomethingStored {E}.

End template.

(** [DispatchError]: a pallet's error, an arithmetic error, the errors of the
    origin and address checks, or an error of the currency. *)
Inductive DispatchError {E : Env} :=
| NftError (e : nft.nft_Error)
| RegistryError (e : registry.registry_Error)
| RegistrarError (e : registrar.registrar_Error)
| ResolversError (e : resolvers.resolvers_Error)
| MarketplaceError (e : marketplace.marketplace_Error)
| RedeemCodeError (e : redeem_code.redeem_code_Error)
| TemplateError (e : template.template_Error)
| ArithmeticOverflow
| BadOrigin
| CannotLookup
| CurrencyErr (e : CurrencyError).

Arguments NftError {E}.
Arguments RegistryError {E}.
Arguments RegistrarError {E}.
Arguments ResolversError {E}.
Arguments MarketplaceError {E}.
Arguments RedeemCodeError {E}.
Arguments TemplateError {E}.
Arguments ArithmeticOverflow {E}.
Arguments BadOrigin {E}.
Arguments CannotLookup {E}.
Arguments CurrencyErr {E}.

Inductive Event {E : Env} :=
| RegistryEvent (e : registry.registry_Event)
| RegistrarEvent (e : registrar.registrar_Event)
| ResolversEvent (e : resolvers.resolvers_Event)
| MarketplaceEvent (e : marketplace.marketplace_Event)
| PriceOracleEvent (e : price_oracle.price_oracle_Event)
| OriginEvent (e : origin.origin_Event)
| RedeemCodeEvent (e : redeem_code.redeem_code_Event)
| TemplateEvent (e : template.template_Event).

Arguments RegistryEvent {E}.
Arguments RegistrarEvent {E}.
Arguments ResolversEvent {E}.
Arguments MarketplaceEvent {E}.
Arguments PriceOracleEvent {E}.
Arguments OriginEvent {E}.
Arguments RedeemCodeEvent {E}.
Arguments TemplateEvent {E}.

(** ** Storage

    A map to [()] is a set, and a double map to [()] a set of pairs.  Double maps
    and maps with a default are keyed by pairs. *)

(** [nft.rs]. *)
Record NftStorage {E : Env} := mkNftStorage {
  NextClassId : Z;
  Classes : gmap Z ClassInfo;
  Tokens : gmap (Z * DomainHash) TokenInfo;
  TokensByOwner : gset (AccountId * (Z * DomainHash))
}.

Arguments mkNftStorage {E}.

(** [registry.rs]; [RuntimeOriginOf] is its [RuntimeOrigin]. *)
Record RegistryStorage {E : Env} := mkRegistryStorage {
  RuntimeOriginOf : gmap DomainHash DomainTracing;
  SubNames : gset (DomainHash * DomainHash);
  AccountToSubnames : gset (AccountId * DomainHash);
  SubnameRecords : gmap DomainHash (SubnameRecord AccountId);
  OfferedToAccount : gset (AccountId * DomainHash);
  Official : option AccountId
}.

Arguments mkRegistryStorage {E}.

(** [registrar.rs]. *)
Record RegistrarStorage {E : Env} := mkRegistrarStorage {
  RegistrarInfos : gmap DomainHash RegistrarInfo;
  ReservedList : gset DomainHash;
  OwnerToPrimaryName : gmap AccountId DomainHash;
  OfferedNames : gmap DomainHash (OfferedNameRecord AccountId)
}.

Arguments mkRegistrarStorage {E}.

(** [resolvers.rs]. *)
Record ResolversStorage {E : Env} := mkResolversStorage {
  Texts : gmap (DomainHash * TextKind) bytes;
  Records : gmap (DomainHash * codec_type.RecordType) bytes
}.

Arguments mkResolversStorage {E}.

(** [pns-marketplace/src/lib.rs]. *)
Record MarketplaceStorage {E : Env} := mkMarketplaceStorage {
  Listings : gmap DomainHash Listing
}.

Arguments mkMarketplaceStorage {E}.

(** [price_oracle.rs]; the arrays have eleven elements. *)
Record PriceOracleStorage {E : Env} := mkPriceOracleStorage {
  BasePrice : list Z;
  RentPrice : list Z;
  ExchangeRate : Z
}.

Arguments mkPriceOracleStorage {E}.

(** [origin.rs]. *)
Record OriginStorage {E : Env} := mkOriginStorage {
  Origins : gset AccountId;
  IsRegistrarOpen : bool
}.

Arguments mkOriginStorage {E}.

(** [redeem_code.rs]. *)
Record RedeemCodeStorage {E : Env} := mkRedeemCodeStorage {
  Redeems : gset Z
}.

Arguments mkRedeemCodeStorage {E}.

(** [template/src/lib.rs]. *)
Record TemplateStorage {E : Env} := mkTemplateStorage {
  Something : option Z
}.

Arguments mkTemplateStorage {E}.

(** The block the call runs in, the balances, and the events deposited so far, oldest first. *)
Record SystemStorage {E : Env} := mkSystemStorage {
  block_number : Z;
  parent_hash : bytes;
  now : Z;
  Balances : CurrencyState;
  events : list Event
}.

Arguments mkSystemStorage {E}.

Record State {E : Env} := mkState {
  st_nft :> NftStorage;
  st_registry :> RegistryStorage;
  st_registrar :> RegistrarStorage;
  st_resolvers :> ResolversStorage;
  st_marketplace :> MarketplaceStorage;
  st_price_oracle :> PriceOracleStorage;
  st_origin :> OriginStorage;
  st_redeem_code :> RedeemCodeStorage;
  st_template :> TemplateStorage;
  st_system :> SystemStorage
}.

Arguments mkState {E}.

Definition with_nft {E : Env} (f : NftStorage -> NftStorage) (s : State) : State :=
  mkState (f s.(st_nft)) s.(st_registry) s.(st_registrar) s.(st_resolvers) s.(st_marketplace) s.(st_price_oracle) s.(st_origin) s.(st_redeem_code) s.(st_template) s.(st_system).

Definition with_registry {E : Env} (f : RegistryStorage -> RegistryStorage) (s : State) : State :=
  mkState s.(st_nft) (f s.(st_registry)) s.(st_registrar) s.(st_resolvers) s.(st_marketplace) s.(st_price_oracle) s.(st_origin) s.(st_redeem_code) s.(st_template) s.(st_system).

Definition with_registrar {E : Env} (f : RegistrarStorage -> RegistrarStorage) (s : State) : State :=
  mkState s.(st_nft) s.(st_registry) (f s.(st_registrar)) s.(st_resolvers) s.(st_marketplace) s.(st_price_oracle) s.(st_origin) s.(st_redeem_code) s.(st_template) s.(st_system).

Definition with_resolvers {E : Env} (f : ResolversStorage -> ResolversStorage) (s : State) : State :=
  mkState s.(st_nft) s.(st_registry) s.(st_registrar) (f s.(st_resolvers)) s.(st_marketplace) s.(st_price_oracle) s.(st_origin) s.(st_redeem_code) s.(st_template) s.(st_system).

Definition with_marketplace {E : Env} (f : MarketplaceStorage -> MarketplaceStorage) (s : State) : State :=
  mkState s.(st_nft) s.(st_registry) s.(st_registrar) s.(st_resolvers) (f s.(st_marketplace)) s.(st_price_oracle) s.(st_origin) s.(st_redeem_code) s.(st_template) s.(st_system).

Definition with_price_oracle {E : Env} (f : PriceOracleStorage -> PriceOracleStorage) (s : State) : State :=
  mkState s.(st_nft) s.(st_registry) s.(st_registrar) s.(st_resolvers) s.(st_marketplace) (f s.(st_price_oracle)) s.(st_origin) s.(st_redeem_code) s.(st_template) s.(st_system).

Definition with_origin {E : Env} (f : OriginStorage -> OriginStorage) (s : State) : State :=
  mkState s.(st_nft) s.(st_registry) s.(st_registrar) s.(st_resolvers) s.(st_marketplace) s.(st_price_oracle) (f s.(st_origin)) s.(st_redeem_code) s.(st_template) s.(st_system).

Definition with_redeem_code {E : Env} (f : RedeemCodeStorage -> RedeemCodeStorage) (s : State) : State :=
  mkState s.(st_nft) s.(st_registry) s.(st_registrar) s.(st_resolvers) s.(st_marketplace) s.(st_price_oracle) s.(st_origin) (f s.(st_redeem_code)) s.(st_template) s.(st_system).

Definition with_template {E : Env} (f : TemplateStorage -> TemplateStorage) (s : State) : State :=
  mkState s.(st_nft) s.(st_registry) s.(st_registrar) s.(st_resolvers) s.(st_marketplace) s.(st_price_oracle) s.(st_origin) s.(st_redeem_code) (f s.(st_template)) s.(st_system).

Definition with_system {E : Env} (f : SystemStorage -> SystemStorage) (s : State) : State :=
  mkState s.(st_nft) s.(st_registry) s.(st_registrar) s.(st_resolvers) s.(st_marketplace) s.(st_price_oracle) s.(st_origin) s.(st_redeem_code) s.(st_template) (f s.(st_system)).

Definition upd_NextClassId {E : Env} (f : Z -> Z) : State -> State :=
  with_nft (fun p => mkNftStorage (f p.(NextClassId)) p.(Classes) p.(Tokens) p.(TokensByOwner)).

Definition upd_Classes {E : Env} (f : gmap Z ClassInfo -> gmap Z ClassInfo) : State -> State :=
  with_nft (fun p => mkNftStorage p.(NextClassId) (f p.(Classes)) p.(Tokens) p.(TokensByOwner)).

Definition upd_Tokens {E : Env} (f : gmap (Z * DomainHash) TokenInfo -> gmap (Z * DomainHash) TokenInfo) : State -> State :=
  with_nft (fun p => mkNftStorage p.(NextClassId) p.(Classes) (f p.(Tokens)) p.(TokensByOwner)).

Definition upd_TokensByOwner {E : Env} (f : gset (AccountId * (Z * DomainHash)) -> gset (AccountId * (Z * DomainHash))) : State -> State :=
  with_nft (fun p => mkNftStorage p.(NextClassId) p.(Classes) p.(Tokens) (f p.(TokensByOwner))).

Definition upd_RuntimeOriginOf {E : Env} (f : gmap DomainHash DomainTracing -> gmap DomainHash DomainTracing) : State -> State :=
  with_registry (fun p => mkRegistryStorage (f p.(RuntimeOriginOf)) p.(SubNames) p.(AccountToSubnames) p.(SubnameRecords) p.(OfferedToAccount) p.(Official)).

Definition upd_SubNames {E : Env} (f : gset (DomainHash * DomainHash) -> gset (DomainHash * DomainHash)) : State -> State :=
  with_registry (fun p => mkRegistryStorage p.(RuntimeOriginOf) (f p.(SubNames)) p.(AccountToSubnames) p.(SubnameRecords) p.(OfferedToAccount) p.(Official)).

Definition upd_AccountToSubnames {E : Env} (f : gset (AccountId * DomainHash) -> gset (AccountId * DomainHash)) : State -> State :=
  with_registry (fun p => mkRegistryStorage p.(RuntimeOriginOf) p.(SubNames) (f p.(AccountToSubnames)) p.(SubnameRecords) p.(OfferedToAccount) p.(Official)).

Definition upd_SubnameRecords {E : Env} (f : gmap DomainHash (SubnameRecord AccountId) -> gmap DomainHash (SubnameRecord AccountId)) : State -> State :=
  with_registry (fun p => mkRegistryStorage p.(RuntimeOriginOf) p.(SubNames) p.(AccountToSubnames) (f p.(SubnameRecords)) p.(OfferedToAccount) p.(Official)).

Definition upd_OfferedToAccount {E : Env} (f : gset (AccountId * DomainHash) -> gset (AccountId * DomainHash)) : State -> State :=
  with_registry (fun p => mkRegistryStorage p.(RuntimeOriginOf) p.(SubNames) p.(AccountToSubnames) p.(SubnameRecords) (f p.(OfferedToAccount)) p.(Official)).

Definition upd_Official {E : Env} (f : option AccountId -> option AccountId) : State -> State :=
  with_registry (fun p => mkRegistryStorage p.(RuntimeOriginOf) p.(SubNames) p.(AccountToSubnames) p.(SubnameRecords) p.(OfferedToAccount) (f p.(Official))).

Definition upd_RegistrarInfos {E : Env} (f : gmap DomainHash RegistrarInfo -> gmap DomainHash RegistrarInfo) : State -> State :=
  with_registrar (fun p => mkRegistrarStorage (f p.(RegistrarInfos)) p.(ReservedList) p.(OwnerToPrimaryName) p.(OfferedNames)).

Definition upd_ReservedList {E : Env} (f : gset DomainHash -> gset DomainHash) : State -> State :=
  with_registrar (fun p => mkRegistrarStorage p.(RegistrarInfos) (f p.(ReservedList)) p.(OwnerToPrimaryName) p.(OfferedNames)).

Definition upd_OwnerToPrimaryName {E : Env} (f : gmap AccountId DomainHash -> gmap AccountId DomainHash) : State -> State :=
  with_registrar (fun p => mkRegistrarStorage p.(RegistrarInfos) p.(ReservedList) (f p.(OwnerToPrimaryName)) p.(OfferedNames)).

Definition upd_OfferedNames {E : Env} (f : gmap DomainHash (OfferedNameRecord AccountId) -> gmap DomainHash (OfferedNameRecord AccountId)) : State -> State :=
  with_registrar (fun p => mkRegistrarStorage p.(RegistrarInfos) p.(ReservedList) p.(OwnerToPrimaryName) (f p.(OfferedNames))).

Definition upd_Texts {E : Env} (f : gmap (DomainHash * TextKind) bytes -> gmap (DomainHash * TextKind) bytes) : State -> State :=
  with_resolvers (fun p => mkResolversStorage (f p.(Texts)) p.(Records)).

Definition upd_Records {E : Env} (f : gmap (DomainHash * codec_type.RecordType) bytes -> gmap (DomainHash * codec_type.RecordType) bytes) : State -> State :=
  with_resolvers (fun p => mkResolversStorage p.(Texts) (f p.(Records))).

Definition upd_Listings {E : Env} (f : gmap DomainHash Listing -> gmap DomainHash Listing) : State -> State :=
  with_marketplace (fun p => mkMarketplaceStorage (f p.(Listings))).

Definition upd_BasePrice {E : Env} (f : list Z -> list Z) : State -> State :=
  with_price_oracle (fun p => mkPriceOracleStorage (f p.(BasePrice)) p.(RentPrice) p.(ExchangeRate)).

Definition upd_RentPrice {E : Env} (f : list Z -> list Z) : State -> State :=
  with_price_oracle (fun p => mkPriceOracleStorage p.(BasePrice) (f p.(RentPrice)) p.(ExchangeRate)).

Definition upd_ExchangeRate {E : Env} (f : Z -> Z) : State -> State :=
  with_price_oracle (fun p => mkPriceOracleStorage p.(BasePrice) p.(RentPrice) (f p.(ExchangeRate))).

Definition upd_Origins {E : Env} (f : gset AccountId -> gset AccountId) : State -> State :=
  with_origin (fun p => mkOriginStorage (f p.(Origins)) p.(IsRegistrarOpen)).

Definition upd_IsRegistrarOpen {E : Env} (f : bool -> bool) : State -> State :=
  with_origin (fun p => mkOriginStorage p.(Origins) (f p.(IsRegistrarOpen))).

Definition upd_Redeems {E : Env} (f : gset Z -> gset Z) : State -> State :=
  with_redeem_code (fun p => mkRedeemCodeStorage (f p.(Redeems))).

Definition upd_Something {E : Env} (f : option Z -> option Z) : State -> State :=
  with_template (fun p => mkTemplateStorage (f p.(Something))).

Definition upd_block_number {E : Env} (f : Z -> Z) : State -> State :=
  with_system (fun p => mkSystemStorage (f p.(block_number)) p.(parent_hash) p.(now) p.(Balances) p.(events)).

Definition upd_parent_hash {E : Env} (f : bytes -> bytes) : State -> State :=
  with_system (fun p => mkSystemStorage p.(block_number) (f p.(parent_hash)) p.(now) p.(Balances) p.(events)).

Definition upd_now {E : Env} (f : Z -> Z) : State -> State :=
  with_system (fun p => mkSystemStorage p.(block_number) p.(parent_hash) (f p.(now)) p.(Balances) p.(events)).

Definition upd_Balances {E : Env} (f : CurrencyState -> CurrencyState) : State -> State :=
  with_system (fun p => mkSystemStorage p.(block_number) p.(parent_hash) p.(now) (f p.(Balances)) p.(events)).

Definition upd_events {E : Env} (f : list Event -> list Event) : State -> State :=
  with_system (fun p => mkSystemStorage p.(block_number) p.(parent_hash) p.(now) p.(Balances) (f p.(events))).

(** Computes the storage items of updated states. *)
Ltac simpl_state :=
  cbn [
    fst snd NextClassId Classes Tokens TokensByOwner RuntimeOriginOf SubNames
    AccountToSubnames SubnameRecords OfferedToAccount Official RegistrarInfos ReservedList
    OwnerToPrimaryName OfferedNames Texts Records Listings BasePrice RentPrice ExchangeRate
    Origins IsRegistrarOpen Redeems Something block_number parent_hash now Balances events st_nft
    st_registry st_registrar st_resolvers st_marketplace st_price_oracle st_origin
    st_redeem_code st_template st_system upd_NextClassId upd_Classes upd_Tokens upd_TokensByOwner
    upd_RuntimeOriginOf upd_SubNames upd_AccountToSubnames upd_SubnameRecords
    upd_OfferedToAccount upd_Official upd_RegistrarInfos upd_ReservedList
    upd_OwnerToPrimaryName upd_OfferedNames upd_Texts upd_Records upd_Listings
    upd_BasePrice upd_RentPrice upd_ExchangeRate upd_Origins upd_IsRegistrarOpen
    upd_Redeems upd_Something upd_block_number upd_parent_hash upd_now upd_Balances upd_events with_nft
    with_registry with_registrar with_resolvers with_marketplace with_price_oracle
    with_origin with_redeem_code with_template with_system] in *.

(** ** The monad of the pallets *)

Definition M {E : Env} (A : Type) : Type := run State DispatchError A.

(** Reads the storage. *)
Abbreviation reads f := (@gets State DispatchError _ f).

Definition deposit_event {E : Env} (e : Event) : M unit := modify (upd_events (fun l => l ++ [e])).

(** [frame_system::ensure_signed] and [ensure_root]. *)
Definition ensure_signed {E : Env} (o : RawOrigin) : M AccountId :=
  match o with RawOrigin.Signed who => ret who | _ => throw BadOrigin end.

Definition ensure_root {E : Env} (o : RawOrigin) : M unit :=
  match o with RawOrigin.Root => ret tt | _ => throw BadOrigin end.

(** [T::Lookup::lookup(source)?] *)
Definition lookup_source {E : Env} (source : LookupSource) : M AccountId :=
  ok_or (lookup_account source) CannotLookup.

(** The 32 bytes of [frame_system::Pallet::<T>::parent_hash()], or zeroes when
    the hash of the chain has another length. *)
Definition parent_hash_32 {E : Env} (s : State) : bytes :=
  if decide (length (parent_hash s) = 32%nat) then parent_hash s else replicate 32 0.

(** [T::Currency::withdraw(who, fee, FEE, KeepAlive)?] with the imbalance dropped. *)
Definition burn_from {E : Env} (who : AccountId) (fee : Z) : M unit := fun s =>
  match currency_withdraw who fee FEE KeepAlive (Balances s) with
  | Ok (c, imbalance) => (upd_Balances (fun _ => currency_drop_imbalance imbalance c) s, Ok tt)
  | Err e => (s, Err (CurrencyErr e))
  end.

(** [T::Currency::transfer(from, to, value, KeepAlive)?] *)
Definition transfer_balance {E : Env} (from to : AccountId) (value : Z) : M unit := fun s =>
  match currency_transfer from to value KeepAlive (Balances s) with
  | Ok c => (upd_Balances (fun _ => c) s, Ok tt)
  | Err e => (s, Err (CurrencyErr e))
  end.
