(* ===== verification/Label.v ===== *)
(** * Names and their nodes

    [check_label], [Label] and [Available] of
    [pallets/pns-registrar/src/traits.rs], and [validate_label] and
    [parse_name_to_node] of [pallets/pns-types/src/lib.rs]: how a label is
    validated and how the namehash of a name is computed.  Hashing is the
    [keccak_256] of [Env]; the SCALE encoding of a pair of hashes is their
    concatenation. *)

From Stdlib Require Import ZArith Lia.
From stdpp Require Import base tactics numbers sets option list_basics list.
From S2P Require Import Prelude RustStr Types Storage.

Local Open Scope Z_scope.

Definition LABEL_MAX_LEN : Z := 63.
Definition LABEL_MIN_LEN : Z := 1.
Definition MIN_REGISTRABLE_LEN : Z := 1.

Definition check_label (label : bytes) : option unit :=
  match from_utf8 label with
  | None => None
  | Some label =>
      let label := to_ascii_lowercase label in
      if negb ((LABEL_MIN_LEN <=? str_len label) && (str_len label <=? LABEL_MAX_LEN)) then None
      else if negb (forallb is_ascii_alphanumeric (chars label)) then None
      else Some tt
  end.

(** [impl Available for usize] *)
Definition is_anctionable (self : Z) : bool := (1 <=? self) && (self <? MIN_REGISTRABLE_LEN).

Definition is_registrable (self : Z) : bool := MIN_REGISTRABLE_LEN <=? self.

(** [(a, b).encode()] *)
Definition encode_pair (a b : DomainHash) : bytes := a ++ b.

Record Label := mkLabel { node : DomainHash }.

Section label.
Context `{E : Env}.

Definition Label_new (data : bytes) : option Label :=
  match check_label data with
  | None => None
  | Some _ =>
      match from_utf8 data with
      | None => None
      | Some s => Some (mkLabel (keccak_256 (to_ascii_lowercase s)))
      end
  end.

Definition Label_new_basenode (data : bytes) : option Label :=
  match check_label data with
  | None => None
  | Some _ =>
      match from_utf8 data with
      | None => None
      | Some s =>
          let node := keccak_256 (to_ascii_lowercase s) in
          Some (mkLabel (keccak_256 (encode_pair DomainHash_default node)))
      end
  end.

Definition encode_with_node (self : Label) (parent : DomainHash) : DomainHash :=
  keccak_256 (encode_pair parent self.(node)).

Definition Label_basenode (baselabel : DomainHash) : DomainHash :=
  keccak_256 (encode_pair DomainHash_default baselabel).

Definition encode_with_baselabel (self : Label) (baselabel : DomainHash) : DomainHash :=
  keccak_256 (encode_pair (Label_basenode baselabel) self.(node)).

Definition to_basenode (self : Label) : DomainHash := Label_basenode self.(node).

Definition encode_with_name (self : Label) (data : bytes) : option Label :=
  match Label_new data with
  | None => None
  | Some l => Some (mkLabel (encode_with_node self l.(node)))
  end.

Definition encode_with_basename (self : Label) (data : bytes) : option Label :=
  match Label_new data with
  | None => None
  | Some l => Some (mkLabel (encode_with_baselabel self l.(node)))
  end.

Definition new_with_len (data : bytes) : option (Label * Z) :=
  match check_label data with
  | None => None
  | Some _ =>
      match from_utf8 data with
      | None => None
      | Some s =>
          let normalized := to_ascii_lowercase s in
          Some (mkLabel (keccak_256 normalized), str_len normalized)
      end
  end.

(** ** [pns-types] *)

Definition validate_label (label : bytes) : option unit :=
  match from_utf8 label with
  | None => None
  | Some label =>
      let label := to_ascii_lowercase label in
      if negb ((1 <=? str_len label) && (str_len label <=? 63)) then None
      else if negb (forallb is_ascii_alphanumeric (chars label)) then None
      else Some tt
  end.

(** [parse_name_to_node]'s inner [hash_label] and [encode_with_node]. *)
Definition hash_label (label : bytes) : option DomainHash :=
  match validate_label label with
  | None => None
  | Some _ =>
      match from_utf8 label with
      | None => None
      | Some s => Some (keccak_256 (to_ascii_lowercase s))
      end
  end.

Definition child_node (parent label_hash : DomainHash) : DomainHash :=
  keccak_256 (encode_pair parent label_hash).

(** [name.iter().position(|&b| b == b'.')] *)
Fixpoint position_dot (name : bytes) : option nat :=
  match name with
  | [] => None
  | b :: name' => if b =? 46 then Some 0%nat else S <$> position_dot name'
  end.

Definition parse_name_to_node (name : bytes) (base_node : DomainHash) : option DomainHash :=
  match position_dot name with
  | Some dot =>
      let sub_label := take dot name in
      let domain_label := drop (S dot) name in
      match hash_label domain_label with
      | None => None
      | Some h =>
          let domain_hash := child_node base_node h in
          match hash_label sub_label with
          | None => None
          | Some h' => Some (child_node domain_hash h')
          end
      end
  | None =>
      match hash_label name with
      | None => None
      | Some h => Some (child_node base_node h)
      end
  end.

(** What makes a label valid: 1 to 63 bytes, each an ASCII letter or digit. *)
Definition valid_label (l : bytes) : bool :=
  (1 <=? str_len l) && (str_len l <=? 63) && forallb is_ascii_alphanumeric l.

(** The strings [parse_name_to_node] hashes to reach the node of [name]. *)
Definition hash_inputs (name : bytes) (base_node : DomainHash) : list bytes :=
  match position_dot name with
  | Some dot =>
      let sub := to_ascii_lowercase (take dot name) in
      let domain := to_ascii_lowercase (drop (S dot) name) in
      let domain_pair := encode_pair base_node (keccak_256 domain) in
      [domain; domain_pair; sub; encode_pair (keccak_256 domain_pair) (keccak_256 sub)]
  | None =>
      let label := to_ascii_lowercase name in
      [label; encode_pair base_node (keccak_256 label)]
  end.

(** Two of the strings of [l] collide. *)
Definition collides (l : list bytes) : Prop :=
  exists x y, x ∈ l /\ y ∈ l /\ x <> y /\ keccak_256 x = keccak_256 y.

(** ** Theorems *)

Lemma check_label_spec l : check_label l = if valid_label l then Some tt else None.
Proof.
  unfold check_label, valid_label, from_utf8, LABEL_MIN_LEN, LABEL_MAX_LEN.
  destruct (decode_utf8 l) as [cs|] eqn:E1.
  - rewrite (chars_lower_alphanumeric _ _ E1). unfold str_len. rewrite lower_length.
    by destruct (_ && _), (forallb _ _).
  - destruct (forallb is_ascii_alphanumeric l) eqn:E2; [|by rewrite andb_false_r].
    by rewrite (decode_utf8_ascii _ (alphanumeric_ascii _ E2)) in E1.
Qed.

Lemma valid_label_utf8 l : valid_label l = true -> from_utf8 l = Some l.
Proof.
  unfold valid_label, from_utf8. intros [_ H]%andb_true_iff.
  by rewrite (decode_utf8_ascii _ (alphanumeric_ascii _ H)).
Qed.

Lemma new_with_len_spec l :
  new_with_len l =
  if valid_label l then Some (mkLabel (keccak_256 (to_ascii_lowercase l)), str_len l) else None.
Proof.
  unfold new_with_len. rewrite check_label_spec. destruct (valid_label l) eqn:E1; [|done].
  rewrite (valid_label_utf8 _ E1). unfold str_len. by rewrite lower_length.
Qed.

Lemma Label_new_spec l :
  Label_new l = if valid_label l then Some (mkLabel (keccak_256 (to_ascii_lowercase l))) else None.
Proof.
  unfold Label_new. rewrite check_label_spec. destruct (valid_label l) eqn:E1; [|done].
  by rewrite (valid_label_utf8 _ E1).
Qed.

Lemma hash_label_spec l :
  hash_label l = if valid_label l then Some (keccak_256 (to_ascii_lowercase l)) else None.
Proof.
  unfold hash_label. change validate_label with check_label.
  rewrite check_label_spec. destruct (valid_label l) eqn:E1; [|done].
  by rewrite (valid_label_utf8 _ E1).
Qed.

Lemma valid_label_lower l : valid_label (to_ascii_lowercase l) = valid_label l.
Proof. unfold valid_label, str_len. by rewrite lower_length, lower_alphanumeric. Qed.

Lemma position_dot_alphanumeric l :
  forallb is_ascii_alphanumeric l = true -> position_dot l = None.
Proof.
  induction l as [|b l IH]; [done|]. simpl. intros [Hb Hl]%andb_true_iff.
  rewrite IH by done. destruct (Z.eqb_spec b 46) as [->|]; [done|reflexivity].
Qed.

Lemma valid_label_no_dot l : valid_label l = true -> position_dot l = None.
Proof.
  unfold valid_label. intros [_ H]%andb_true_iff. by apply position_dot_alphanumeric.
Qed.

Lemma position_dot_app l l' :
  position_dot l = None -> position_dot (l ++ 46 :: l') = Some (length l).
Proof.
  induction l as [|b l IH]; simpl; [done|].
  destruct (b =? 46); [done|]. destruct (position_dot l); [done|]. intros _. by rewrite IH.
Qed.

Lemma position_dot_Some l n :
  position_dot l = Some n -> l = take n l ++ 46 :: drop (S n) l /\ position_dot (take n l) = None.
Proof.
  revert n. induction l as [|b l IH]; [done|]. intros n. simpl.
  destruct (Z.eqb_spec b 46) as [->|Hb]; [by intros [= <-]|].
  intros (m & Hm & ->)%fmap_Some. destruct (IH _ Hm) as [H1 H2]. simpl. split.
  - f_equal. exact H1.
  - destruct (Z.eqb_spec b 46); [done|]. by rewrite H2.
Qed.

Lemma parse_top l base : position_dot l = None ->
  parse_name_to_node l base =
  if valid_label l then Some (child_node base (keccak_256 (to_ascii_lowercase l))) else None.
Proof.
  intros H. unfold parse_name_to_node. rewrite H, hash_label_spec. by destruct (valid_label l).
Qed.

Lemma parse_sub sub dom base : position_dot sub = None ->
  parse_name_to_node (sub ++ 46 :: dom) base =
  if valid_label sub && valid_label dom
  then Some (child_node (child_node base (keccak_256 (to_ascii_lowercase dom)))
                        (keccak_256 (to_ascii_lowercase sub)))
  else None.
Proof.
  intros H. unfold parse_name_to_node. rewrite position_dot_app by done.
  rewrite take_app_length.
  replace (drop (S (length sub)) (sub ++ 46 :: dom)) with dom
    by (by rewrite <- (Nat.add_1_r (length sub)), drop_app_add).
  rewrite !hash_label_spec. by destruct (valid_label sub), (valid_label dom).
Qed.

(** A name is a dotless string or a dotless string, a dot and the rest. *)
Lemma name_cases l :
  position_dot l = None \/ exists sub dom, l = sub ++ 46 :: dom /\ position_dot sub = None.
Proof.
  destruct (position_dot l) as [n|] eqn:E1; [right|by left].
  destruct (position_dot_Some _ _ E1) as [H1 H2]. eauto.
Qed.

Lemma position_dot_lower l : position_dot (to_ascii_lowercase l) = position_dot l.
Proof.
  induction l as [|b l IH]; [done|]. simpl. fold (to_ascii_lowercase l). rewrite IH.
  unfold byte_to_ascii_lowercase. destruct (between 65 b 90) eqn:E1; [|done].
  destruct (Z.eqb_spec b 46), (Z.eqb_spec (b + 32) 46); ranges; try lia. done.
Qed.

Lemma lower_app l l' : to_ascii_lowercase (l ++ l') = to_ascii_lowercase l ++ to_ascii_lowercase l'.
Proof. apply map_app. Qed.

Lemma hash_inputs_sub sub dom base : position_dot sub = None ->
  hash_inputs (sub ++ 46 :: dom) base =
  let pair := encode_pair base (keccak_256 (to_ascii_lowercase dom)) in
  [to_ascii_lowercase dom; pair; to_ascii_lowercase sub;
   encode_pair (keccak_256 pair) (keccak_256 (to_ascii_lowercase sub))].
Proof.
  intros H. unfold hash_inputs. rewrite position_dot_app by done. rewrite take_app_length.
  by replace (drop (S (length sub)) (sub ++ 46 :: dom)) with dom
    by (by rewrite <- (Nat.add_1_r (length sub)), drop_app_add).
Qed.

Lemma keccak_eq_or_collides (l : list bytes) x y :
  x ∈ l -> y ∈ l -> keccak_256 x = keccak_256 y -> x = y \/ collides l.
Proof. intros ? ? ?. destruct (decide (x = y)); [by left|right]. by exists x, y. Qed.

Lemma encode_pair_inj a b a' b' :
  length a = length a' -> encode_pair a b = encode_pair a' b' -> a = a' /\ b = b'.
Proof. intros. by apply app_inj_1. Qed.

Lemma collides_comm l l' : collides (l ++ l') -> collides (l' ++ l).
Proof. intros (x & y & ?). exists x, y. set_solver. Qed.

(** The steps of [namehash_injective]: [L] contains the strings hashed. *)
Section injective.
Context (base : DomainHash) (L : list bytes).

Definition domain_node (dom : bytes) : DomainHash :=
  child_node base (keccak_256 (to_ascii_lowercase dom)).

Definition covers_domain (dom : bytes) : Prop :=
  to_ascii_lowercase dom ∈ L /\ encode_pair base (keccak_256 (to_ascii_lowercase dom)) ∈ L.

Definition covers_sub (sub dom : bytes) : Prop :=
  covers_domain dom /\ to_ascii_lowercase sub ∈ L /\
  encode_pair (domain_node dom) (keccak_256 (to_ascii_lowercase sub)) ∈ L.

Lemma inj_top a b :
  covers_domain a -> covers_domain b -> domain_node a = domain_node b ->
  to_ascii_lowercase a = to_ascii_lowercase b \/ collides L.
Proof.
  intros [Ha Hpa] [Hb Hpb] Heq.
  destruct (keccak_eq_or_collides L _ _ Hpa Hpb Heq) as [Hp|Hc]; [|by right].
  apply encode_pair_inj in Hp as [_ Hp]; [|done]. by apply keccak_eq_or_collides.
Qed.

Context (Hk : forall x, length (keccak_256 x) = length base).

Lemma inj_sub a da b db :
  covers_sub a da -> covers_sub b db ->
  child_node (domain_node da) (keccak_256 (to_ascii_lowercase a))
  = child_node (domain_node db) (keccak_256 (to_ascii_lowercase b)) ->
  to_ascii_lowercase a = to_ascii_lowercase b /\ to_ascii_lowercase da = to_ascii_lowercase db
  \/ collides L.
Proof.
  intros (Hda & Ha & Hpa) (Hdb & Hb & Hpb) Heq.
  destruct (keccak_eq_or_collides L _ _ Hpa Hpb Heq) as [Hp|Hc]; [|by right].
  apply encode_pair_inj in Hp as [Hd Hl]; [|unfold domain_node, child_node; by rewrite !Hk].
  destruct (inj_top _ _ Hda Hdb Hd) as [?|?]; [|by right].
  destruct (keccak_eq_or_collides L _ _ Ha Hb Hl) as [?|?]; [by left|by right].
Qed.

Lemma inj_top_sub a b db :
  covers_domain a -> covers_sub b db ->
  domain_node a = child_node (domain_node db) (keccak_256 (to_ascii_lowercase b)) ->
  base ∈ map keccak_256 L \/ collides L.
Proof.
  intros [Ha Hpa] ([_ Hdb] & Hb & Hpb) Heq.
  destruct (keccak_eq_or_collides L _ _ Hpa Hpb Heq) as [Hp|Hc]; [left|by right].
  apply encode_pair_inj in Hp as [-> _]; [|unfold domain_node, child_node; by rewrite !Hk].
  apply list_elem_of_fmap. eexists. by split; [|exact Hdb].
Qed.

End injective.

(** A label is accepted exactly when it has 1 to 63 bytes, all ASCII letters
    or digits, whatever bytes it is made of; the validators of [pns-registrar] and
    [pns-types] agree, and [Label::new_with_len] succeeds on exactly these labels
    with the label's own length. *)
Theorem label_accepted_iff (l : bytes) :
  (check_label l = Some tt <->
   (1 <= length l <= 63)%nat /\
   Forall (fun b => 48 <= b <= 57 \/ 65 <= b <= 90 \/ 97 <= b <= 122) l) /\
  validate_label l = check_label l /\
  (forall lab n, new_with_len l = Some (lab, n) ->
     check_label l = Some tt /\ n = Z.of_nat (length l) /\ is_registrable n = true).
Proof.
  rewrite new_with_len_spec. change validate_label with check_label.
  rewrite check_label_spec. split; [split|split; [done|]].
  - destruct (valid_label l) eqn:E1; [|done]. intros _. unfold valid_label, str_len in E1.
    rewrite !andb_true_iff, !Z.leb_le in E1. destruct E1 as [? E1]. split; [lia|].
    apply Forall_forall. intros b Hb. rewrite forallb_forall in E1.
    specialize (E1 b (proj1 (list_elem_of_In _ _) Hb)). ranges. tauto.
  - intros [H1 H2]. replace (valid_label l) with true; [done|]. symmetry.
    unfold valid_label, str_len. rewrite !andb_true_iff, !Z.leb_le. split; [lia|].
    apply forallb_forall. intros b Hb%list_elem_of_In.
    rewrite Forall_forall in H2. specialize (H2 b Hb). ranges. tauto.
  - destruct (valid_label l) eqn:E1; [|done]. intros. simplify_eq.
    unfold valid_label in E1. rewrite !andb_true_iff in E1. tauto.
Qed.

Lemma parse_top_inv a base n : position_dot a = None -> parse_name_to_node a base = Some n ->
  n = domain_node base a /\ forall L, hash_inputs a base ⊆ L -> covers_domain base L a.
Proof.
  intros Da Ha. rewrite parse_top in Ha by done. destruct (valid_label a); [|done].
  split; [by injection Ha|]. intros L HL. unfold hash_inputs in HL. rewrite Da in HL.
  split; apply HL; set_solver.
Qed.

Lemma parse_sub_inv sub dom base n : position_dot sub = None ->
  parse_name_to_node (sub ++ 46 :: dom) base = Some n ->
  n = child_node (domain_node base dom) (keccak_256 (to_ascii_lowercase sub)) /\
  forall L, hash_inputs (sub ++ 46 :: dom) base ⊆ L -> covers_sub base L sub dom.
Proof.
  intros Da Ha. rewrite parse_sub in Ha by done. destruct (_ && _); [|done].
  split; [by injection Ha|]. intros L HL. rewrite hash_inputs_sub in HL by done.
  unfold covers_sub, covers_domain, domain_node, child_node. set_solver.
Qed.

(** A label parses to its node under the base node. *)
Lemma parse_label name base l len :
  new_with_len name = Some (l, len) -> parse_name_to_node name base = Some (encode_with_node l base).
Proof.
  rewrite new_with_len_spec. destruct (valid_label name) eqn:E1; [|done].
  intros [= <- _]. rewrite parse_top by (by apply valid_label_no_dot). by rewrite E1.
Qed.

(** C14. Parsing a name string agrees with the registrar's own computation of
    nodes: a name parses exactly when it is a valid label, and then to that
    label's node under the base node, or two valid labels around a dot, and then
    to the first label's node under the second's. *)
Theorem parse_name_to_node_agrees (name : bytes) (base n : DomainHash) :
  parse_name_to_node name base = Some n <->
  (exists l len, new_with_len name = Some (l, len) /\ n = encode_with_node l base) \/
  (exists sub dom ls ld lens lend, name = sub ++ 46 :: dom /\
     new_with_len sub = Some (ls, lens) /\ new_with_len dom = Some (ld, lend) /\
     n = encode_with_node ls (encode_with_node ld base)).
Proof.
  split.
  - destruct (name_cases name) as [H|(sub & dom & -> & H)].
    + rewrite parse_top by done. intros Hn. left. rewrite new_with_len_spec.
      destruct (valid_label name); [|done]. simplify_eq. by do 2 eexists.
    + rewrite parse_sub by done. intros Hn. right. exists sub, dom.
      rewrite !new_with_len_spec. destruct (valid_label sub), (valid_label dom); try done.
      simpl in Hn. simplify_eq. by do 4 eexists.
  - intros [(l & len & Hl & ->)|(sub & dom & ls & ld & lens & lend & -> & Hs & Hd & ->)].
    + by eapply parse_label.
    + rewrite new_with_len_spec in Hs, Hd.
      destruct (valid_label sub) eqn:E1, (valid_label dom) eqn:E2; try done.
      simplify_eq. rewrite parse_sub by (by apply valid_label_no_dot). by rewrite E1, E2.
Qed.

(** Names are case-insensitive: a name and its lowercase form have the same
    node, or are both refused. *)
Theorem parse_name_case_insensitive (name : bytes) (base : DomainHash) :
  parse_name_to_node (to_ascii_lowercase name) base = parse_name_to_node name base.
Proof.
  destruct (name_cases name) as [H|(sub & dom & -> & H)].
  - rewrite !parse_top by (by rewrite ?position_dot_lower).
    by rewrite valid_label_lower, lower_idem.
  - unfold to_ascii_lowercase at 1. rewrite map_app. cbn [map].
    change (byte_to_ascii_lowercase 46) with 46.
    fold (to_ascii_lowercase sub) (to_ascii_lowercase dom).
    rewrite !parse_sub by (by rewrite ?position_dot_lower).
    by rewrite !valid_label_lower, !lower_idem.
Qed.

(** C16. Nodes identify names: when two parsed names have the same node, they are
    equal up to case, unless two of the strings hashed on the way collide under
    [keccak_256] or one of them hashes to the base node itself.  The hash is only
    assumed to have outputs as long as the base node. *)
Theorem namehash_injective (base : DomainHash) (a b : bytes) (n : DomainHash)
    (Hk : forall x, length (keccak_256 x) = length base)
    (Ha : parse_name_to_node a base = Some n) (Hb : parse_name_to_node b base = Some n) :
  let L := hash_inputs a base ++ hash_inputs b base in
  to_ascii_lowercase a = to_ascii_lowercase b \/ collides L \/ base ∈ map keccak_256 L.
Proof.
  intros L.
  assert (hash_inputs a base ⊆ L) as HLa by (subst L; set_solver).
  assert (hash_inputs b base ⊆ L) as HLb by (subst L; set_solver).
  clearbody L.
  destruct (name_cases a) as [Da|(sa & da & -> & Da)], (name_cases b) as [Db|(sb & db & -> & Db)].
  - destruct (parse_top_inv _ _ _ Da Ha) as [-> Ca], (parse_top_inv _ _ _ Db Hb) as [E1 Cb].
    destruct (inj_top base L a b (Ca _ HLa) (Cb _ HLb) E1); tauto.
  - destruct (parse_top_inv _ _ _ Da Ha) as [-> Ca], (parse_sub_inv _ _ _ _ Db Hb) as [E1 Cb].
    destruct (inj_top_sub base L Hk a sb db (Ca _ HLa) (Cb _ HLb) E1); tauto.
  - destruct (parse_sub_inv _ _ _ _ Da Ha) as [-> Ca], (parse_top_inv _ _ _ Db Hb) as [E1 Cb].
    destruct (inj_top_sub base L Hk b sa da (Cb _ HLb) (Ca _ HLa) (eq_sym E1)); tauto.
  - destruct (parse_sub_inv _ _ _ _ Da Ha) as [-> Ca], (parse_sub_inv _ _ _ _ Db Hb) as [E1 Cb].
    destruct (inj_sub base L Hk sa da sb db (Ca _ HLa) (Cb _ HLb) E1) as [[H1 H2]|?]; [|tauto].
    left. rewrite !lower_app. simpl. fold (to_ascii_lowercase da) (to_ascii_lowercase db).
    by rewrite H1, H2.
Qed.

End label.
