(* ===== verification/Nft.v ===== *)
(** * The NFT pallet: [pallets/pns-registrar/src/nft.rs]

    Classes, tokens and the index of tokens by owner.  The pallet has no calls;
    the registry calls its functions.  The theorems show that the owner index and
    the class counters mirror the tokens, that every function keeps them so, and
    what each function does on each branch. *)

From Stdlib Require Import ZArith Lia.
From stdpp Require Import base tactics numbers gmap sets fin_sets fin_maps option list_basics list.
From S2P Require Import Prelude Types Storage.

Local Open Scope Z_scope.
Local Open Scope run_scope.

Section nft.
Context `{E : Env} `{C : Config}.
Implicit Types s : State.

(** [T::ClassId] is [u32] and [T::TotalId] is [u128]. *)
Definition tokens (s : State) (class_id : Z) (token : DomainHash) : option TokenInfo :=
  Tokens s !! (class_id, token).

Definition create_class (owner : AccountId) (metadata : bytes) : M Z :=
  let! bounded_metadata :=
    ok_or (bounded_vec MaxClassMetadata metadata) (NftError nft.MaxMetadataExceeded) in
  let! current_id := reads (fun s => NextClassId s) in
  let! next_id := ok_or (checked_add 32 current_id 1) (NftError nft.NoAvailableClassId) in
  do! modify (upd_NextClassId (fun _ => next_id)) in
  do! modify (upd_Classes (<[current_id := mkClassInfo bounded_metadata 0 owner]>)) in
  ret current_id.

Definition transfer (from to : AccountId) (token : Z * DomainHash) : M unit :=
  let! token_info := reads (fun s => Tokens s !! token) in
  let! info := ok_or token_info (NftError nft.TokenNotFound) in
  do! ensure (bool_decide (ti_owner info = from)) (NftError nft.NoPermission) in
  if bool_decide (from = to) then ret tt else
  do! modify (upd_TokensByOwner (fun i => i ∖ {[(from, token)]})) in
  do! modify (upd_TokensByOwner (fun i => {[(to, token)]} ∪ i)) in
  modify (upd_Tokens (<[token := mkTokenInfo (ti_metadata info) to (ti_data info)]>)).

Definition mint (owner : AccountId) (token : Z * DomainHash) (metadata : bytes)
    (data : NodeRecord) : M unit :=
  let (class_id, token_id) := token in
  let! bounded_metadata :=
    ok_or (bounded_vec MaxTokenMetadata metadata) (NftError nft.MaxMetadataExceeded) in
  let! class_info := reads (fun s => Classes s !! class_id) in
  let! info := ok_or class_info (NftError nft.ClassNotFound) in
  let! total := ok_or (checked_add 128 (ci_total_issuance info) 1) ArithmeticOverflow in
  do! modify (upd_Classes (<[class_id := mkClassInfo (ci_metadata info) total (ci_owner info)]>)) in
  do! modify (upd_Tokens (<[(class_id, token_id) := mkTokenInfo bounded_metadata owner data]>)) in
  modify (upd_TokensByOwner (fun i => {[(owner, (class_id, token_id))]} ∪ i)).

Definition burn (owner : AccountId) (token : Z * DomainHash) : M unit :=
  let! token_info := reads (fun s => Tokens s !! token) in
  let! t := ok_or token_info (NftError nft.TokenNotFound) in
  do! ensure (bool_decide (ti_owner t = owner)) (NftError nft.NoPermission) in
  let! class_info := reads (fun s => Classes s !! token.1) in
  let! info := ok_or class_info (NftError nft.ClassNotFound) in
  let! total := ok_or (checked_sub (ci_total_issuance info) 1) ArithmeticOverflow in
  do! modify (upd_Classes (<[token.1 := mkClassInfo (ci_metadata info) total (ci_owner info)]>)) in
  do! modify (upd_TokensByOwner (fun i => i ∖ {[(owner, token)]})) in
  modify (upd_Tokens (delete token)).

Definition is_owner (s : State) (account : AccountId) (token : Z * DomainHash) : bool :=
  bool_decide ((account, token) ∈ TokensByOwner s).

(** [BuildGenesisConfig::build]: a failing step is the panic of [expect]. *)
Definition genesis_build
    (tokens : list (AccountId * bytes * list (AccountId * bytes * NodeRecord * DomainHash))) :
    M unit :=
  for_each (fun token_class =>
    let '(owner, metadata, token_list) := token_class in
    let! class_id := create_class owner metadata in
    for_each (fun t =>
      let '(account_id, token_metadata, token_data, token_id) := t in
      mint account_id (class_id, token_id) token_metadata token_data) token_list) tokens.

(** The calls the registry and the genesis builder make, as data. *)
Inductive nft_call :=
| CreateClass (owner : AccountId) (metadata : bytes)
| Transfer (from to : AccountId) (token : Z * DomainHash)
| Mint (owner : AccountId) (token : Z * DomainHash) (metadata : bytes) (data : NodeRecord)
| Burn (owner : AccountId) (token : Z * DomainHash).

Definition nft_exec (c : nft_call) : M unit :=
  match c with
  | CreateClass owner metadata => do! create_class owner metadata in ret tt
  | Transfer from to token => transfer from to token
  | Mint owner token metadata data => mint owner token metadata data
  | Burn owner token => burn owner token
  end.

(** The call mints a token that exists: [mint] does not look. *)
Definition remints (c : nft_call) (s : State) : bool :=
  match (nft_exec c s).2, c with
  | Ok _, Mint _ token _ _ => bool_decide (is_Some (Tokens s !! token))
  | _, _ => false
  end.

(** ** The invariant *)

(** The owner index lists exactly the tokens with their owners, every token
    belongs to a class, and a class counts its tokens. *)
Record nft_inv (s : NftStorage) : Prop := {
  inv_by_owner : forall a t, (a, t) ∈ TokensByOwner s <->
    exists i, Tokens s !! t = Some i /\ ti_owner i = a;
  inv_class : forall c t i, Tokens s !! (c, t) = Some i -> is_Some (Classes s !! c);
  inv_issuance : forall c ci, Classes s !! c = Some ci ->
    ci_total_issuance ci = Z.of_nat (size (prefix c (dom (Tokens s))));
  inv_next : forall c, is_Some (Classes s !! c) -> 0 <= c < NextClassId s
}.

(** ** Successful runs, spelled out *)

Definition burned (t : Z * DomainHash) (i : TokenInfo) (ci : ClassInfo) (s : State) : State :=
  upd_Tokens (delete t)
    (upd_TokensByOwner (fun x => x ∖ {[(ti_owner i, t)]})
      (upd_Classes
        (<[t.1 := mkClassInfo (ci_metadata ci) (ci_total_issuance ci - 1) (ci_owner ci)]>) s)).

Lemma burn_Ok owner t s s' u :
  burn owner t s = (s', Ok u) <->
  exists i ci, Tokens s !! t = Some i /\ ti_owner i = owner /\ Classes s !! t.1 = Some ci /\
    1 <= ci_total_issuance ci /\ s' = burned t i ci s.
Proof.
  destruct u. split.
  - unfold burn. intros H. inv_ok. tidy. do 2 eexists. split_and!; done.
  - intros (i & ci & Ht & <- & Hc & Hle & ->).
    unfold burn, bind, gets. rewrite Ht. simpl.
    unfold ensure. rewrite bool_decide_true by done. simpl.
    rewrite Hc. simpl. unfold checked_sub.
    destruct (Z.leb_spec 1 (ci_total_issuance ci)); [|lia]. reflexivity.
Qed.

(** A failing burn has written nothing. *)
Lemma burn_Err owner t s s' e : burn owner t s = (s', Err e) -> s' = s.
Proof.
  unfold burn, bind, gets, ensure, ok_or, ret, throw, modify.
  repeat case_match; naive_solver.
Qed.

Definition transferred (t : Z * DomainHash) (i : TokenInfo) (to : AccountId) (s : State) : State :=
  upd_Tokens (<[t := mkTokenInfo (ti_metadata i) to (ti_data i)]>)
    (upd_TokensByOwner (fun x => {[(to, t)]} ∪ x ∖ {[(ti_owner i, t)]}) s).

Lemma transfer_Ok from to t s s' u :
  transfer from to t s = (s', Ok u) <->
  exists i, Tokens s !! t = Some i /\ ti_owner i = from /\
    s' = if bool_decide (from = to) then s else transferred t i to s.
Proof.
  destruct u. split.
  - unfold transfer. intros H. inv_ok. tidy.
    eexists. split_and!; [done..|]. case_bool_decide; inv_ok; subst; reflexivity.
  - intros (i & Ht & <- & ->). unfold transfer, bind, gets. rewrite Ht. simpl.
    unfold ensure. rewrite bool_decide_true by done. simpl. by case_bool_decide.
Qed.

Definition minted (c : Z) (t : DomainHash) (meta : bytes) (ci : ClassInfo) (owner : AccountId)
    (data : NodeRecord) (s : State) : State :=
  upd_TokensByOwner (fun i => {[(owner, (c, t))]} ∪ i)
    (upd_Tokens (<[(c, t) := mkTokenInfo meta owner data]>)
      (upd_Classes
        (<[c := mkClassInfo (ci_metadata ci) (ci_total_issuance ci + 1) (ci_owner ci)]>) s)).

Lemma mint_Ok owner c t meta data s s' u :
  mint owner (c, t) meta data s = (s', Ok u) <->
  Z.of_nat (length meta) <= MaxTokenMetadata /\
  exists ci, Classes s !! c = Some ci /\ ci_total_issuance ci + 1 < 2 ^ 128 /\
    s' = minted c t meta ci owner data s.
Proof.
  destruct u. unfold mint. split.
  - intros H. inv_ok. tidy. split; [done|]. eexists. split_and!; done.
  - intros (Hle & ci & Hc & Hlt & ->). unfold bounded_vec. rewrite (proj2 (Z.leb_le _ _) Hle).
    unfold bind, gets. simpl. rewrite Hc. simpl. unfold checked_add.
    destruct (Z.ltb_spec (ci_total_issuance ci + 1) (2 ^ 128)); [|lia]. reflexivity.
Qed.

Definition class_created (owner : AccountId) (meta : bytes) (s : State) : State :=
  upd_Classes (<[NextClassId s := mkClassInfo meta 0 owner]>)
    (upd_NextClassId (fun _ => NextClassId s + 1) s).

Lemma create_class_Ok owner meta s s' c :
  create_class owner meta s = (s', Ok c) <->
  Z.of_nat (length meta) <= MaxClassMetadata /\ NextClassId s + 1 < 2 ^ 32 /\
  c = NextClassId s /\ s' = class_created owner meta s.
Proof.
  unfold create_class. split.
  - intros H. inv_ok. tidy. split_and!; done.
  - intros (H1 & H2 & -> & ->). unfold bounded_vec. rewrite (proj2 (Z.leb_le _ _) H1).
    unfold bind, gets. simpl. unfold checked_add.
    destruct (Z.ltb_spec (NextClassId s + 1) (2 ^ 32)); [|lia]. reflexivity.
Qed.

(** ** Counting the tokens of a class *)

Lemma count_insert_new (m : gmap (Z * DomainHash) TokenInfo) c t i c' :
  m !! (c, t) = None ->
  size (prefix c' (dom (<[(c, t) := i]> m))) =
  (size (prefix c' (dom m)) + if decide (c = c') then 1 else 0)%nat.
Proof.
  intros Hn. rewrite dom_insert_L. destruct (decide (c = c')) as [<-|Hne].
  - rewrite prefix_insert, size_union, size_singleton; [lia|].
    apply disjoint_singleton_l. rewrite elem_of_prefix. by apply not_elem_of_dom.
  - rewrite prefix_insert_ne by done. lia.
Qed.

Lemma count_insert_old (m : gmap (Z * DomainHash) TokenInfo) t i i' c' :
  m !! t = Some i -> size (prefix c' (dom (<[t := i']> m))) = size (prefix c' (dom m)).
Proof. intros Ht. by rewrite (dom_insert_lookup_L m t i' (mk_is_Some _ _ Ht)). Qed.

Lemma count_delete (m : gmap (Z * DomainHash) TokenInfo) t i c' :
  m !! t = Some i ->
  size (prefix c' (dom m)) =
  (size (prefix c' (dom (delete t m))) + if decide (t.1 = c') then 1 else 0)%nat.
Proof.
  intros Ht. destruct t as [c t].
  rewrite <- (insert_delete_id m (c, t) i Ht) at 1. apply count_insert_new, lookup_delete_eq.
Qed.

(** ** Preservation *)

Lemma nft_inv_class_created owner meta s :
  nft_inv s -> 0 <= NextClassId s -> nft_inv (class_created owner meta s).
Proof.
  intros [H1 H2 H3 H4] H0. split; unfold class_created; simpl_state.
  - exact H1.
  - intros c t i Hi. destruct (decide (NextClassId s = c)) as [<-|];
      [by rewrite lookup_insert_eq|]. rewrite lookup_insert_ne by done. eauto.
  - intros c ci. destruct (decide (NextClassId s = c)) as [<-|].
    + rewrite lookup_insert_eq. intros [= <-]. simpl.
      replace (prefix _ _) with (∅ : gset DomainHash); [done|].
      symmetry. apply set_eq. intros t. split; [|set_solver]. rewrite elem_of_prefix.
      intros [i Hi]%elem_of_dom. apply H2, H4 in Hi. lia.
    + rewrite lookup_insert_ne by done. apply H3.
  - intros c. destruct (decide (NextClassId s = c)) as [<-|]; [lia|].
    rewrite lookup_insert_ne by done. intros Hc%H4. lia.
Qed.

Lemma nft_inv_transferred t i to s :
  nft_inv s -> Tokens s !! t = Some i -> ti_owner i <> to -> nft_inv (transferred t i to s).
Proof.
  intros [H1 H2 H3 H4] Ht Hne. split; unfold transferred; simpl_state.
  - intros a t'. rewrite elem_of_union, elem_of_difference, !elem_of_singleton.
    destruct (decide (t = t')) as [<-|].
    + rewrite lookup_insert_eq. rewrite H1. naive_solver.
    + rewrite lookup_insert_ne by done. rewrite H1. naive_solver.
  - intros c t' i'. destruct (decide (t = (c, t'))) as [->|]; [intros _; eauto|].
    rewrite lookup_insert_ne by done. eauto.
  - intros c ci Hc. rewrite (count_insert_old _ _ _ _ _ Ht). by apply H3.
  - exact H4.
Qed.

Lemma nft_inv_minted c t meta ci owner data s :
  nft_inv s -> Classes s !! c = Some ci -> Tokens s !! (c, t) = None ->
  nft_inv (minted c t meta ci owner data s).
Proof.
  intros [H1 H2 H3 H4] Hc Ht. split; unfold minted; simpl_state.
  - intros a t'. rewrite elem_of_union, elem_of_singleton, H1.
    destruct (decide ((c, t) = t')) as [<-|].
    + rewrite lookup_insert_eq, Ht. naive_solver.
    + rewrite lookup_insert_ne by done. naive_solver.
  - intros c' t' i'. destruct (decide (c = c')) as [<-|].
    + by rewrite lookup_insert_eq.
    + rewrite !lookup_insert_ne by naive_solver. eauto.
  - intros c' ci'. rewrite count_insert_new by done. destruct (decide (c = c')) as [<-|].
    + rewrite lookup_insert_eq. intros [= <-]. simpl. rewrite (H3 _ _ Hc). lia.
    + rewrite lookup_insert_ne by done. intros Hc'%H3. rewrite Hc'. lia.
  - intros c'. destruct (decide (c = c')) as [<-|]; [intros _; by apply H4|].
    rewrite lookup_insert_ne by done. apply H4.
Qed.

Lemma nft_inv_burned t i ci s :
  nft_inv s -> Tokens s !! t = Some i -> Classes s !! t.1 = Some ci -> nft_inv (burned t i ci s).
Proof.
  intros [H1 H2 H3 H4] Ht Hc. split; unfold burned; simpl_state.
  - intros a t'. rewrite elem_of_difference, elem_of_singleton, H1.
    destruct (decide (t = t')) as [<-|].
    + rewrite lookup_delete_eq. naive_solver.
    + rewrite lookup_delete_ne by done. naive_solver.
  - intros c' t' i' [_ Hi]%lookup_delete_Some. destruct (decide (t.1 = c')) as [<-|].
    + by rewrite lookup_insert_eq.
    + rewrite lookup_insert_ne by done. eauto.
  - intros c' ci'. pose proof (count_delete _ _ _ c' Ht) as Hcnt.
    destruct (decide (t.1 = c')) as [<-|].
    + rewrite lookup_insert_eq. intros [= <-]. simpl. rewrite (H3 _ _ Hc). lia.
    + rewrite lookup_insert_ne by done. intros Hc'%H3. rewrite Hc'. lia.
  - intros c'. destruct (decide (t.1 = c')) as [<-|]; [intros _; by apply H4|].
    rewrite lookup_insert_ne by done. apply H4.
Qed.

(** A burn of an existing token by its owner cannot fail. *)
Lemma burn_total s t i :
  nft_inv s -> Tokens s !! t = Some i ->
  exists ci, Classes s !! t.1 = Some ci /\ burn (ti_owner i) t s = (burned t i ci s, Ok tt).
Proof.
  intros Hinv Ht. destruct t as [c t].
  destruct (inv_class _ Hinv _ _ _ Ht) as [ci Hc]. exists ci. split; [done|].
  apply burn_Ok. exists i, ci. split_and!; try done.
  rewrite (inv_issuance _ Hinv _ _ Hc), (count_delete _ _ _ c Ht). simpl.
  destruct (decide (c = c)); [lia|done].
Qed.

Lemma nft_exec_Err c s s' e : nft_exec c s = (s', Err e) -> s' = s.
Proof.
  destruct c as [? ?|? ? ?|? [? ?] ? ?|? ?]; simpl; [| | |apply burn_Err];
    unfold create_class, transfer, mint, bind, gets, ensure, ok_or, ret, throw, modify;
    repeat case_match; naive_solver.
Qed.

(** A token minted twice is counted twice. *)
Lemma nft_inv_reminted c t meta ci owner data s :
  nft_inv s -> Classes s !! c = Some ci -> is_Some (Tokens s !! (c, t)) ->
  ~ nft_inv (minted c t meta ci owner data s).
Proof.
  intros Hinv Hc [i Ht] Hinv'.
  pose proof (inv_issuance _ Hinv c ci Hc) as H1.
  pose proof (inv_issuance _ Hinv' c (mkClassInfo (ci_metadata ci) (ci_total_issuance ci + 1) (ci_owner ci))
    (lookup_insert_eq _ _ _)) as H2. simpl in H2.
  replace (dom (<[(c, t) := mkTokenInfo meta owner data]> (Tokens s))) with (dom (Tokens s)) in H2; [lia|].
  rewrite dom_insert_L. apply elem_of_dom_2 in Ht. set_solver.
Qed.

(** C24. The owner index, the class counters and the class identifiers stay in
    step with the tokens: whatever a call of the NFT pallet returns, success or
    error, it keeps [nft_inv], with one exception.  [mint] accepts a token that
    exists, and then [nft_inv] is lost; the pallets above look before they mint. *)
Theorem nft_exec_preserves_inv (c : nft_call) (s : State) :
  nft_inv s -> 0 <= NextClassId s ->
  0 <= NextClassId (nft_exec c s).1 /\ (nft_inv (nft_exec c s).1 <-> remints c s = false).
Proof.
  intros Hinv H0. unfold remints. destruct (nft_exec c s) as [s' [[]|e]] eqn:Hrun;
    [|apply nft_exec_Err in Hrun; by subst].
  destruct c as [owner meta|from to t|owner [c t] meta data|owner t]; simpl in *.
  - apply bind_Ok in Hrun as (c & s1 & Hc & Hret). apply ret_Ok in Hret as [_ ->].
    apply create_class_Ok in Hc as (_ & _ & _ & ->).
    split; [unfold class_created; simpl_state; lia|]. split; [done|]. intros _. by apply nft_inv_class_created.
  - apply transfer_Ok in Hrun as (i & Ht & <- & ->). case_bool_decide; [done|].
    split; [done|]. split; [done|]. intros _. by apply nft_inv_transferred.
  - apply mint_Ok in Hrun as (_ & ci & Hc & _ & ->). split; [done|]. rewrite bool_decide_eq_false. split.
    + intros Hinv' Ht. exact (nft_inv_reminted _ _ _ _ _ _ _ Hinv Hc Ht Hinv').
    + intros Ht%eq_None_not_Some. by apply nft_inv_minted.
  - apply burn_Ok in Hrun as (i & ci & Ht & <- & Hc & _ & ->).
    split; [done|]. split; [done|]. intros _. by apply nft_inv_burned.
Qed.

End nft.
