(* ===== verification/Traits.v ===== *)
(** * Interfaces between the pallets: [pallets/pns-registrar/src/traits.rs]

    The traits through which one pallet calls another, as classes, and what the
    callers rely on, as classes of laws.  The runtime's implementations are the
    instances of [Runtime.v]; the registrar implements [Registrar] for the
    registry in [Registrar.v]. *)

From Stdlib Require Import ZArith Lia.
From stdpp Require Import base tactics numbers gmap option list_basics list.
From S2P Require Import Prelude Types Storage.

Local Open Scope Z_scope.

(** [EnsureOrigin<RuntimeOrigin, Success = AccountId>]: [None] is a refusal. *)
Class ManagerOrigin {E : Env} := {
  manager_try_origin : RawOrigin -> State -> option AccountId
}.

(** The provided method [ensure_origin]. *)
Definition ensure_origin {E : Env} {O : ManagerOrigin} (o : RawOrigin) : M AccountId :=
  fun s => ok_or (manager_try_origin o s) BadOrigin s.

(** [IsRegistrarOpen] *)
Class IsOpen {E : Env} := { is_open : State -> bool }.

(** [Ss58Updater], [OriginRecorder] and [RecordCleaner]: what the registrar, the
    registry and the marketplace ask of the resolvers. *)
Class RecordHooks {E : Env} := {
  update_ss58 : DomainHash -> AccountId -> M unit;
  record_origin : DomainHash -> bytes -> M unit;
  clear_records_except_ss58 : DomainHash -> State -> State;
  clear_all_records : DomainHash -> State -> State
}.

(** [s'] differs from [s] in the storage of the resolvers only. *)
Definition same_but_resolvers {E : Env} (s s' : State) : Prop :=
  s' = with_resolvers (fun _ => st_resolvers s') s.

(** The hooks write nothing but records. *)
Class RecordHooksLaws {E : Env} (H : RecordHooks) := {
  update_ss58_frame : forall n a s, same_but_resolvers s (update_ss58 n a s).1;
  record_origin_frame : forall n h s, same_but_resolvers s (record_origin n h s).1;
  clear_records_except_ss58_frame : forall n s,
    same_but_resolvers s (clear_records_except_ss58 n s);
  clear_all_records_frame : forall n s, same_but_resolvers s (clear_all_records n s)
}.

(** [Registrar], as the registry uses it. *)
Class RegistrarT {E : Env} := {
  check_expires_registrable : DomainHash -> M unit;
  check_expires_renewable : DomainHash -> M unit;
  check_expires_useable : DomainHash -> M unit;
  clear_registrar_info : DomainHash -> AccountId -> M unit;
  basenode : DomainHash;
  has_valid_canonical_name : State -> AccountId -> bool
}.

Class RegistrarLaws {E : Env} (R : RegistrarT) := {
  check_registrable_pure : forall n, pure (check_expires_registrable n);
  check_renewable_pure : forall n, pure (check_expires_renewable n);
  check_useable_pure : forall n, pure (check_expires_useable n);
  (** What clearing a name's registration leaves of the registrar's storage. *)
  forget_info : DomainHash -> RegistrarStorage -> RegistrarStorage;
  clear_registrar_info_run : forall n a s,
    clear_registrar_info n a s = (with_registrar (forget_info n) s, Ok tt)
}.

(** [RegistryChecker] of the resolvers. *)
Class RegistryChecker {E : Env} := {
  check_node_useable : State -> DomainHash -> AccountId -> bool;
  checker_base_node : DomainHash
}.

(** [NameRegistry], as the marketplace uses it. *)
Class NameRegistry {E : Env} := {
  canonical_name : State -> AccountId -> option DomainHash;
  name_owner_of : State -> DomainHash -> option AccountId;
  transfer_name : AccountId -> AccountId -> DomainHash -> M unit;
  offer_bought_name : AccountId -> AccountId -> AccountId -> DomainHash -> M unit
}.

#[export] Hint Resolve check_registrable_pure check_renewable_pure check_useable_pure : run_pure.

(** ** Lemmas *)

Lemma ensure_origin_Ok {E : Env} {O : ManagerOrigin} o s s' a :
  ensure_origin o s = (s', Ok a) <-> manager_try_origin o s = Some a /\ s' = s.
Proof.
  unfold ensure_origin, ok_or, ret, throw.
  destruct (manager_try_origin o s); naive_solver.
Qed.

Lemma ensure_origin_Err {E : Env} {O : ManagerOrigin} o s s' e :
  ensure_origin o s = (s', Err e) <->
  manager_try_origin o s = None /\ s' = s /\ e = BadOrigin.
Proof.
  unfold ensure_origin, ok_or, ret, throw.
  destruct (manager_try_origin o s); naive_solver.
Qed.

Lemma same_but_resolvers_refl {E : Env} s : same_but_resolvers s s.
Proof. by destruct s. Qed.

Lemma same_but_resolvers_trans {E : Env} s1 s2 s3 :
  same_but_resolvers s1 s2 -> same_but_resolvers s2 s3 -> same_but_resolvers s1 s3.
Proof. unfold same_but_resolvers. intros -> ->. reflexivity. Qed.

Lemma ensure_signed_Ok {E : Env} o s s' a :
  ensure_signed o s = (s', Ok a) <-> o = RawOrigin.Signed a /\ s' = s.
Proof. destruct o; unfold ensure_signed, ret, throw; naive_solver. Qed.

Lemma lookup_source_Ok {E : Env} src s s' a :
  lookup_source src s = (s', Ok a) <-> lookup_account src = Some a /\ s' = s.
Proof.
  unfold lookup_source, ok_or, ret, throw. destruct (lookup_account src); naive_solver.
Qed.

Lemma burn_from_Ok {E : Env} who fee s s' u :
  burn_from who fee s = (s', Ok u) <->
  exists c i, currency_withdraw who fee FEE KeepAlive (Balances s) = Ok (c, i) /\
    s' = upd_Balances (fun _ => currency_drop_imbalance i c) s.
Proof.
  unfold burn_from. destruct (currency_withdraw _ _ _ _ _) as [[c i]|e]; [|naive_solver].
  split; [intros [= <-]; eauto|]. destruct u. by intros (c' & i' & [= <- <-] & ->).
Qed.

Lemma transfer_balance_Ok {E : Env} x y v s s' u :
  transfer_balance x y v s = (s', Ok u) <->
  exists c, currency_transfer x y v KeepAlive (Balances s) = Ok c /\
    s' = upd_Balances (fun _ => c) s.
Proof.
  unfold transfer_balance. destruct (currency_transfer _ _ _ _ _) as [c|e]; [|naive_solver].
  split; [intros [= <-]; eauto|]. destruct u. by intros (c' & [= <-] & ->).
Qed.

(** Steps of a call: origins, lookups, currency and events. *)
Ltac inv_call_step :=
  match goal with
  | H : ensure_signed _ _ = (_, Ok _) |- _ => apply ensure_signed_Ok in H as [? ?]; subst
  | H : ensure_origin _ _ = (_, Ok _) |- _ =>
      let Ho := fresh "Horig" in apply ensure_origin_Ok in H as [Ho ?]; subst
  | H : lookup_source _ _ = (_, Ok _) |- _ =>
      let Ho := fresh "Hlook" in apply lookup_source_Ok in H as [Ho ?]; subst
  | H : deposit_event _ _ = (_, Ok _) |- _ => unfold deposit_event in H
  end.

Ltac inv_call := repeat first [inv_ok_step | inv_call_step]; tidy.
