(* ===== verification/PriceOracle.v ===== *)
(** * The price oracle: [pallets/pns-registrar/src/price_oracle.rs]

    Eleven price tiers by length of the label, an exchange rate, and the
    manager's calls that set them. *)

From Stdlib Require Import ZArith Lia.
From stdpp Require Import base tactics numbers option list_basics list.
From S2P Require Import Prelude Types Storage Traits.

Local Open Scope Z_scope.
Local Open Scope run_scope.

Section price_oracle.
Context `{E : Env}.
Implicit Types s : State.

(** [base_prices[idx]] on an array; the arrays have eleven elements. *)
Definition registration_fee (s : State) (name_len : Z) : option Z :=
  if name_len =? 0 then None else
  let base_prices := BasePrice s in
  let idx := Z.min (name_len - 1) (Z.of_nat (length base_prices) - 1) in
  base_prices !! Z.to_nat idx.

Definition register_fee (s : State) (name_len duration : Z) : option Z :=
  registration_fee s name_len.

Definition renew_fee (s : State) (name_len duration : Z) : option Z :=
  registration_fee s name_len.

Definition get_exchange_rate (s : State) : Z := ExchangeRate s.

Context {O : ManagerOrigin}.

Definition set_exchange_rate (origin : RawOrigin) (exchange_rate : Z) : M unit :=
  let! who := ensure_origin origin in
  do! modify (upd_ExchangeRate (fun _ => exchange_rate)) in
  deposit_event (PriceOracleEvent (price_oracle.ExchangeRateChanged who exchange_rate)).

Definition set_base_price (origin : RawOrigin) (prices : list Z) : M unit :=
  let! _who := ensure_origin origin in
  do! modify (upd_BasePrice (fun _ => prices)) in
  deposit_event (PriceOracleEvent (price_oracle.BasePriceChanged prices)).

Definition set_rent_price (origin : RawOrigin) (prices : list Z) : M unit :=
  let! _who := ensure_origin origin in
  do! modify (upd_RentPrice (fun _ => prices)) in
  deposit_event (PriceOracleEvent (price_oracle.RentPriceChanged prices)).

(** [BuildGenesisConfig::build] *)
Definition price_oracle_build (base_prices rent_prices : list Z) (init_rate : Z) (s : State) :
    State :=
  upd_ExchangeRate (fun _ => init_rate)
    (upd_RentPrice (fun _ => rent_prices) (upd_BasePrice (fun _ => base_prices) s)).

(** ** Theorems *)

Lemma registration_fee_tier s n :
  length (BasePrice s) = 11%nat -> 1 <= n ->
  registration_fee s n = BasePrice s !! Z.to_nat (Z.min n 11 - 1).
Proof.
  intros Hlen Hn. unfold registration_fee. destruct (Z.eqb_spec n 0); [lia|].
  f_equal. rewrite Hlen. lia.
Qed.

(** A name of [n >= 1] bytes always has a price: the tier of its length, the
    eleventh tier for eleven bytes and more; only the empty name has none.  The
    price does not depend on the duration, so renewing costs what registering
    does. *)
Theorem price_tiers (s : State) (n d : Z) :
  length (BasePrice s) = 11%nat -> 0 <= n ->
  (registration_fee s n = None <-> n = 0) /\
  (1 <= n -> registration_fee s n = BasePrice s !! Z.to_nat (Z.min n 11 - 1)) /\
  register_fee s n d = registration_fee s n /\ renew_fee s n d = registration_fee s n.
Proof.
  intros Hlen Hn. split_and!; try done.
  - split; [|by intros ->]. intros Hnone. destruct (decide (n = 0)) as [|Hne]; [done|].
    rewrite registration_fee_tier in Hnone by lia.
    apply lookup_ge_None in Hnone. lia.
  - intros. by apply registration_fee_tier.
Qed.

End price_oracle.
