(* ===== verification/Origin.v ===== *)
(** * The origin pallet: [pallets/pns-registrar/src/origin.rs]

    The set of manager accounts and the switch that opens registration.  The
    pallet implements [EnsureOrigin] and [IsRegistrarOpen] for chains that use
    it, as [pallets/pns-registrar/src/mock.rs] does; the repository's runtime
    wires other implementations ([Runtime.v]). *)

From Stdlib Require Import ZArith Lia.
From stdpp Require Import base tactics numbers gmap sets fin_sets option list_basics list.
From S2P Require Import Prelude Types Storage Traits.

Local Open Scope Z_scope.
Local Open Scope run_scope.

Section origin.
Context `{E : Env}.
Implicit Types s : State.

Definition try_origin (o : RawOrigin) (s : State) : option AccountId :=
  match o with
  | RawOrigin.Signed who => if bool_decide (who ∈ Origins s) then Some who else None
  | _ => None
  end.

#[local] Instance origin_manager : ManagerOrigin := {| manager_try_origin := try_origin |}.

#[local] Instance origin_is_open : IsOpen := {| is_open := fun s => IsRegistrarOpen s |}.

Definition set_registrar_open (origin : RawOrigin) (open : bool) : M unit :=
  let! _who := ensure_origin origin in
  modify (upd_IsRegistrarOpen (fun _ => open)).

Definition approve (account : AccountId) (approved : bool) : M unit :=
  if approved
  then do! modify (upd_Origins (fun o => {[account]} ∪ o)) in
       deposit_event (OriginEvent (origin.AddedOrigin account))
  else do! modify (upd_Origins (fun o => o ∖ {[account]})) in
       deposit_event (OriginEvent (origin.RemovedOrigin account)).

Definition set_origin (origin : RawOrigin) (account : LookupSource) (approved : bool) : M unit :=
  let! _who := ensure_origin origin in
  let! account := lookup_source account in
  approve account approved.

Definition set_origin_for_root (origin : RawOrigin) (account : LookupSource) (approved : bool) :
    M unit :=
  do! ensure_root origin in
  let! account := lookup_source account in
  approve account approved.

(** [BuildGenesisConfig::build] *)
Definition origin_build (origins : list AccountId) (s : State) : State :=
  foldl (fun s o => upd_Origins (fun os => {[o]} ∪ os) s) s origins.

(** ** Theorems *)

(** The calls of the pallet. *)
Inductive origin_call :=
| SetRegistrarOpen (o : RawOrigin) (open : bool)
| SetOrigin (o : RawOrigin) (account : LookupSource) (approved : bool)
| SetOriginForRoot (o : RawOrigin) (account : LookupSource) (approved : bool).

Definition origin_exec (c : origin_call) : M unit :=
  with_storage_layer
    match c with
    | SetRegistrarOpen o open => set_registrar_open o open
    | SetOrigin o account approved => set_origin o account approved
    | SetOriginForRoot o account approved => set_origin_for_root o account approved
    end.

Definition call_origin (c : origin_call) : RawOrigin :=
  match c with
  | SetRegistrarOpen o _ | SetOrigin o _ _ | SetOriginForRoot o _ _ => o
  end.

Lemma approve_origins account approved s s' u :
  approve account approved s = (s', Ok u) ->
  forall a, a ∈ Origins s' <->
    (if bool_decide (a = account) then approved = true else a ∈ Origins s).
Proof.
  unfold approve. intros H a. destruct approved; inv_call; simpl_state; case_bool_decide; set_solver.
Qed.

(** Only [Root] or a current manager can change the set of managers or open
    and close registration: a call from any other origin fails with [BadOrigin]
    and changes nothing. *)
Theorem origin_guarded (c : origin_call) (s : State) :
  call_origin c <> RawOrigin.Root ->
  (forall who, call_origin c = RawOrigin.Signed who -> who ∉ Origins s) ->
  origin_exec c s = (s, Err BadOrigin).
Proof.
  intros Hroot Hsigned.
  assert (forall A (k : AccountId -> M A), bind (ensure_origin (call_origin c)) k s = (s, Err BadOrigin)) as Hm.
  { intros A k. apply bind_err, ensure_origin_Err. split; [|done]. simpl. unfold try_origin.
    destruct (call_origin c) as [|who| |] eqn:Ho; try done.
    rewrite bool_decide_false; [done|by apply Hsigned]. }
  destruct c as [o b|o a b|o a b]; unfold origin_exec, with_storage_layer; simpl in *.
  - unfold set_registrar_open. by rewrite Hm.
  - unfold set_origin. by rewrite Hm.
  - by destruct o.
Qed.

End origin.
