(* ===== verification/Resolvers.v ===== *)
(** * The resolvers: [pallets/pns-resolvers/src/resolvers.rs]

    DNS records and texts per node: the users' [set_record] and [set_text], the
    privileged writes and clearing the other pallets call, and the [lookup] the
    runtime exposes.  The theorems give [lookup] by a reference definition, show
    that users cannot write the two records that anchor a name, and what every
    call does on every branch. *)

From Stdlib Require Import ZArith Lia.
From stdpp Require Import base tactics numbers gmap sets fin_sets fin_maps option list_basics list.
From S2P Require Import Prelude Types Storage Label Traits.

Local Open Scope Z_scope.
Local Open Scope run_scope.

Section resolvers.
Context `{E : Env} `{C : Config}.
Implicit Types s : State.

(** [Records::<T>::get(node, rt)]: empty when there is no entry. *)
Definition records_get s (node : DomainHash) (rt : codec_type.RecordType) : bytes :=
  default [] (Records s !! (node, rt)).

Definition BLOCKED : list codec_type.RecordType := [
  codec_type.SS58; codec_type.ORIGIN; codec_type.ANY; codec_type.AXFR; codec_type.IXFR;
  codec_type.OPT; codec_type.TSIG; codec_type.SIG; codec_type.RRSIG; codec_type.NSEC;
  codec_type.NSEC3; codec_type.NSEC3PARAM; codec_type.DNSKEY; codec_type.CDNSKEY;
  codec_type.CDS; codec_type.DS].

(** [if !content.is_empty() { results.push((rt, content)) }] *)
Definition push_record s (node : DomainHash) (rt : codec_type.RecordType)
    (results : list (codec_type.RecordType * bytes)) : list (codec_type.RecordType * bytes) :=
  match records_get s node rt with
  | [] => results
  | content => results ++ [(rt, content)]
  end.

Fixpoint lookup_loop s (node : DomainHash) (record_types : list codec_type.RecordType)
    (results : list (codec_type.RecordType * bytes)) : list (codec_type.RecordType * bytes) :=
  match record_types with
  | [] => results
  | rt :: record_types' =>
      if bool_decide (rt ∈ BLOCKED) then lookup_loop s node record_types' results
      else lookup_loop s node record_types' (push_record s node rt results)
  end.

Definition lookup s (node : DomainHash) (record_types : list codec_type.RecordType) :
    list (codec_type.RecordType * bytes) :=
  let results := push_record s node codec_type.SS58 [] in
  let results := push_record s node codec_type.ORIGIN results in
  lookup_loop s node record_types results.

(** ** The privileged writes *)

Definition set_ss58_record (node : DomainHash) (owner : AccountId) : M unit :=
  let! content := ok_or (bounded_vec MaxContentLen (account_encode owner))
                        (ResolversError resolvers.InvalidPermission) in
  modify (upd_Records (<[(node, codec_type.SS58) := content]>)).

Definition set_origin_record (node : DomainHash) (block_hash : bytes) : M unit :=
  let! content := ok_or (bounded_vec MaxContentLen block_hash)
                        (ResolversError resolvers.InvalidPermission) in
  modify (upd_Records (<[(node, codec_type.ORIGIN) := content]>)).

(** [Records::<C>::iter_prefix(node)] *)
Definition records_of (node : DomainHash) (m : gmap (DomainHash * codec_type.RecordType) bytes) :
    list (codec_type.RecordType * bytes) :=
  map (fun p => (p.1.2, p.2)) (filter (fun p => p.1.1 = node) (map_to_list m)).

Definition clear_records_except_ss58 (node : DomainHash) : State -> State :=
  upd_Records (fun m =>
    let to_remove := map fst (filter (fun p => p.1 <> codec_type.SS58) (records_of node m)) in
    foldl (fun m rt => delete (node, rt) m) m to_remove).

Definition clear_all_records (node : DomainHash) (s : State) : State :=
  upd_Texts (filter (fun p => p.1.1 <> node)) (upd_Records (filter (fun p => p.1.1 <> node)) s).

(** [BuildGenesisConfig::build] *)
Definition resolvers_build (texts : list (DomainHash * TextKind * bytes)) (s : State) : State :=
  foldl (fun s '(node, text_kind, text) => upd_Texts (<[(node, text_kind) := text]>) s) s texts.

(** ** The calls *)
Context {RC : RegistryChecker}.

Definition name_to_node (name : bytes) : M DomainHash :=
  ok_or (parse_name_to_node name checker_base_node) (ResolversError resolvers.InvalidName).

(** [content] is a [BoundedVec] of at most [MaxContentLen] bytes. *)
Definition set_record (origin : RawOrigin) (name : bytes) (record_type : codec_type.RecordType)
    (content : bytes) : M unit :=
  let! who := ensure_signed origin in
  do! ensure (bool_decide (record_type <> codec_type.SS58)
              && bool_decide (record_type <> codec_type.ORIGIN))
             (ResolversError resolvers.Ss58RecordProtected) in
  let! node := name_to_node name in
  let! useable := reads (fun s => check_node_useable s node who) in
  do! ensure useable (ResolversError resolvers.InvalidPermission) in
  do! modify (upd_Records (<[(node, record_type) := content]>)) in
  deposit_event (ResolversEvent (resolvers.RecordsChanged node record_type content)).

Definition set_text (origin : RawOrigin) (name : bytes) (kind : TextKind) (content : bytes) :
    M unit :=
  let! who := ensure_signed origin in
  let! node := name_to_node name in
  let! useable := reads (fun s => check_node_useable s node who) in
  do! ensure useable (ResolversError resolvers.InvalidPermission) in
  do! modify (upd_Texts (<[(node, kind) := content]>)) in
  deposit_event (ResolversEvent (resolvers.TextsChanged node kind content)).

(** ** Theorems *)

(** What [lookup] returns, said once: the anchors, then the types asked for that
    are not blocked, each with its content, without the empty ones. *)
Definition lookup_spec s (node : DomainHash) (record_types : list codec_type.RecordType) :
    list (codec_type.RecordType * bytes) :=
  filter (fun p => p.2 <> [])
    (map (fun rt => (rt, records_get s node rt))
      ([codec_type.SS58; codec_type.ORIGIN] ++ filter (fun rt => rt ∉ BLOCKED) record_types)).

Lemma push_record_filter s node rt results :
  push_record s node rt results =
  results ++ filter (fun p => p.2 <> []) [(rt, records_get s node rt)].
Proof.
  unfold push_record. destruct (records_get s node rt) as [|b l] eqn:Hg.
  - rewrite filter_cons_False by naive_solver. by rewrite filter_nil, app_nil_r.
  - by rewrite filter_cons_True by done.
Qed.

Lemma lookup_loop_spec s node rts results :
  lookup_loop s node rts results =
  results ++ filter (fun p => p.2 <> [])
    (map (fun rt => (rt, records_get s node rt)) (filter (fun rt => rt ∉ BLOCKED) rts)).
Proof.
  revert results. induction rts as [|rt rts IH]; intros results.
  - by rewrite app_nil_r.
  - cbn [lookup_loop]. case_bool_decide as Hb.
    + rewrite (filter_cons_False _ _ rts) by naive_solver. apply IH.
    + rewrite (filter_cons_True _ _ rts) by done.
      rewrite IH, push_record_filter, <- (assoc_L (++)). f_equal. by rewrite <- filter_app.
Qed.

Lemma lookup_eq_spec s node rts : lookup s node rts = lookup_spec s node rts.
Proof.
  unfold lookup, lookup_spec. rewrite lookup_loop_spec, !push_record_filter.
  rewrite map_app, filter_app. f_equal.
  symmetry. exact (filter_app _ [_] [_]).
Qed.

Lemma elem_of_lookup s node rts rt c :
  (rt, c) ∈ lookup s node rts <->
  c <> [] /\ records_get s node rt = c /\
  (rt = codec_type.SS58 \/ rt = codec_type.ORIGIN \/ (rt ∈ rts /\ rt ∉ BLOCKED)).
Proof.
  rewrite lookup_eq_spec. unfold lookup_spec.
  rewrite list_elem_of_filter, list_elem_of_fmap. simpl. split.
  - intros (Hc & rt' & [= -> ->] & Hin). split; [done|]. split; [done|].
    rewrite !elem_of_cons, list_elem_of_filter in Hin. naive_solver.
  - intros (Hc & <- & Hin). split; [done|]. exists rt. split; [done|].
    rewrite !elem_of_cons, list_elem_of_filter. naive_solver.
Qed.

(** C13. [lookup] returns exactly the non-empty records of the two anchors SS58 and
    ORIGIN, always and first, followed by those of the requested types that are
    not blocked, in the order and with the repetitions of the request. *)
Theorem lookup_equals_spec (s : State) (node : DomainHash) (rts : list codec_type.RecordType) :
  lookup s node rts = lookup_spec s node rts /\
  (forall rt c, (rt, c) ∈ lookup s node rts <->
     c <> [] /\ records_get s node rt = c /\
     (rt = codec_type.SS58 \/ rt = codec_type.ORIGIN \/ (rt ∈ rts /\ rt ∉ BLOCKED))).
Proof. split; [apply lookup_eq_spec|]. intros rt c. apply elem_of_lookup. Qed.

Lemma foldl_delete_lookup (m : gmap (DomainHash * codec_type.RecordType) bytes) node l k :
  foldl (fun m rt => delete (node, rt) m) m l !! k =
  if bool_decide (k.1 = node /\ k.2 ∈ l) then None else m !! k.
Proof.
  revert m. induction l as [|rt l IH]; intros m; simpl.
  - rewrite bool_decide_false; [done|]. set_solver.
  - rewrite IH. destruct (decide (k = (node, rt))) as [->|Hne].
    + rewrite lookup_delete_eq. rewrite (bool_decide_true (_ /\ _ ∈ rt :: l)) by set_solver.
      by case_bool_decide.
    + rewrite lookup_delete_ne by done. repeat case_bool_decide; try done; destruct k; set_solver.
Qed.

Lemma elem_of_records_of node m rt c : (rt, c) ∈ records_of node m <-> m !! (node, rt) = Some c.
Proof.
  unfold records_of. rewrite list_elem_of_fmap. split.
  - intros ([[n rt'] c'] & [= -> ->] & Hin). apply list_elem_of_filter in Hin as [Hn Hin].
    simpl in *. subst. by apply elem_of_map_to_list in Hin.
  - intros Hm. exists ((node, rt), c). split; [done|].
    apply list_elem_of_filter. split; [done|]. by apply elem_of_map_to_list.
Qed.

Lemma clear_records_except_ss58_lookup node s k :
  Records (clear_records_except_ss58 node s) !! k =
  if bool_decide (k.1 = node /\ k.2 <> codec_type.SS58) then None else Records s !! k.
Proof.
  unfold clear_records_except_ss58. simpl_state. rewrite foldl_delete_lookup.
  destruct k as [n rt]. cbn [fst snd].
  assert (forall l : list (codec_type.RecordType * bytes),
    rt ∈ map fst l <-> exists c, (rt, c) ∈ l) as Hmap.
  { intros l. rewrite list_elem_of_fmap. split.
    - intros ([rt' c] & -> & ?). eauto.
    - intros [c ?]. by exists (rt, c). }
  rewrite (bool_decide_ext (n = node /\ rt ∈ map fst _)
    (n = node /\ rt <> codec_type.SS58 /\ is_Some (Records s !! (node, rt)))).
  - repeat case_bool_decide; try done; [exfalso; tauto|].
    destruct (Records s !! (n, rt)) eqn:Hr; naive_solver.
  - rewrite Hmap. unfold is_Some. setoid_rewrite list_elem_of_filter.
    setoid_rewrite elem_of_records_of. naive_solver.
Qed.

Lemma clear_all_records_lookup node s k :
  Records (clear_all_records node s) !! k =
  if bool_decide (k.1 = node) then None else Records s !! k.
Proof.
  unfold clear_all_records. simpl_state. rewrite map_lookup_filter.
  destruct (Records s !! k); simpl; repeat case_guard; case_bool_decide; naive_solver.
Qed.

Lemma clear_all_records_texts node s k :
  Texts (clear_all_records node s) !! k =
  if bool_decide (k.1 = node) then None else Texts s !! k.
Proof.
  unfold clear_all_records. simpl_state. rewrite map_lookup_filter.
  destruct (Texts s !! k); simpl; repeat case_guard; case_bool_decide; naive_solver.
Qed.

Lemma records_get_ext s s' node rt :
  Records s' !! (node, rt) = Records s !! (node, rt) ->
  records_get s' node rt = records_get s node rt.
Proof. unfold records_get. by intros ->. Qed.

Lemma lookup_spec_ext s s' node rts :
  (forall rt, records_get s' node rt = records_get s node rt) ->
  lookup_spec s' node rts = lookup_spec s node rts.
Proof.
  intros H. unfold lookup_spec. f_equal. apply map_ext. intros rt. by rewrite H.
Qed.

Lemma lookup_spec_empty s node rts :
  (forall rt, rt <> codec_type.SS58 -> records_get s node rt = []) ->
  lookup_spec s node rts = lookup_spec s node [].
Proof.
  intros H. unfold lookup_spec. rewrite !map_app, !filter_app. f_equal.
  rewrite filter_nil. simpl. induction rts as [|rt rts IH]; [done|].
  destruct (decide (rt ∈ BLOCKED)).
  - by rewrite filter_cons_False by naive_solver.
  - rewrite filter_cons_True by done. simpl map. rewrite filter_cons_False; [done|].
    simpl. rewrite H; [naive_solver|]. intros ->. set_solver.
Qed.

Lemma lookup_spec_none s node rts :
  (forall rt, records_get s node rt = []) -> lookup_spec s node rts = [].
Proof.
  intros H. unfold lookup_spec. induction (_ ++ _) as [|rt l IH]; [done|].
  simpl map. rewrite filter_cons_False; [done|]. simpl. rewrite H. naive_solver.
Qed.

(** Clearing a node's records on a change of hands leaves its SS58 record and
    every other node's records as they were and nothing else: a [lookup] of the
    node then returns at most the SS58 record.  Removing a node altogether also
    removes its SS58 record and its texts. *)
Theorem cleared_records (s : State) (node n : DomainHash) (rts : list codec_type.RecordType) :
  lookup (clear_records_except_ss58 node s) n rts =
    (if bool_decide (n = node)
     then filter (fun p => p.2 <> []) [(codec_type.SS58, records_get s node codec_type.SS58)]
     else lookup s n rts) /\
  lookup (clear_all_records node s) n rts = (if bool_decide (n = node) then [] else lookup s n rts) /\
  (forall k, Texts (clear_all_records node s) !! (n, k) =
     if bool_decide (n = node) then None else Texts s !! (n, k)).
Proof.
  rewrite !lookup_eq_spec. split_and!.
  - case_bool_decide as Hn; [subst n|].
    + rewrite lookup_spec_empty.
      * unfold lookup_spec, records_get. rewrite filter_nil, app_nil_r. cbn [map].
        rewrite !clear_records_except_ss58_lookup. simpl.
        rewrite bool_decide_false by naive_solver. rewrite bool_decide_true by done.
        rewrite !filter_cons. simpl. repeat case_decide; naive_solver.
      * intros rt Hrt. unfold records_get. rewrite clear_records_except_ss58_lookup.
        by rewrite bool_decide_true.
    + apply lookup_spec_ext. intros rt. apply records_get_ext.
      rewrite clear_records_except_ss58_lookup. by rewrite bool_decide_false by naive_solver.
  - case_bool_decide as Hn; [subst n|].
    + apply lookup_spec_none. intros rt. unfold records_get.
      rewrite clear_all_records_lookup. by rewrite bool_decide_true.
    + apply lookup_spec_ext. intros rt. apply records_get_ext.
      rewrite clear_all_records_lookup. by rewrite bool_decide_false.
  - intros k. by rewrite clear_all_records_texts.
Qed.

(** The users' calls. *)
Inductive resolvers_call :=
| SetRecord (origin : RawOrigin) (name : bytes) (rt : codec_type.RecordType) (content : bytes)
| SetText (origin : RawOrigin) (name : bytes) (kind : TextKind) (content : bytes).

Definition resolvers_exec (c : resolvers_call) : M unit :=
  with_storage_layer
    match c with
    | SetRecord origin name rt content => set_record origin name rt content
    | SetText origin name kind content => set_text origin name kind content
    end.

Lemma set_record_Ok o name rt c s s' u :
  set_record o name rt c s = (s', Ok u) <->
  exists who node, o = RawOrigin.Signed who /\ rt <> codec_type.SS58 /\ rt <> codec_type.ORIGIN /\
    parse_name_to_node name checker_base_node = Some node /\
    check_node_useable s node who = true /\
    s' = upd_events (fun l => l ++ [ResolversEvent (resolvers.RecordsChanged node rt c)])
           (upd_Records (<[(node, rt) := c]>) s).
Proof.
  destruct u. split.
  - unfold set_record, name_to_node. intros H. inv_call. do 2 eexists. by split_and!.
  - intros (who & node & -> & H1 & H2 & Hp & Hu & ->).
    unfold set_record, name_to_node, bind, ensure_signed, ensure, gets, ret.
    rewrite !bool_decide_true by done. simpl. rewrite Hp. simpl. by rewrite Hu.
Qed.

Lemma set_text_Ok o name k c s s' u :
  set_text o name k c s = (s', Ok u) <->
  exists who node, o = RawOrigin.Signed who /\
    parse_name_to_node name checker_base_node = Some node /\
    check_node_useable s node who = true /\
    s' = upd_events (fun l => l ++ [ResolversEvent (resolvers.TextsChanged node k c)])
           (upd_Texts (<[(node, k) := c]>) s).
Proof.
  destruct u. split.
  - unfold set_text, name_to_node. intros H. inv_call. do 2 eexists. by split_and!.
  - intros (who & node & -> & Hp & Hu & ->).
    unfold set_text, name_to_node, bind, ensure_signed, ensure, gets, ret. simpl.
    rewrite Hp. simpl. by rewrite Hu.
Qed.

(** No call of a user changes the SS58 or the ORIGIN record of any node,
    whatever the call returns. *)
Theorem anchors_protected (c : resolvers_call) (s : State) (n : DomainHash)
    (rt : codec_type.RecordType) :
  rt = codec_type.SS58 \/ rt = codec_type.ORIGIN ->
  Records (resolvers_exec c s).1 !! (n, rt) = Records s !! (n, rt).
Proof.
  intros Hrt. destruct (resolvers_exec c s) as [s' [u|e]] eqn:Hrun; unfold resolvers_exec in Hrun.
  - destruct c; inv_ok_step.
    + apply set_record_Ok in Hrun as (who & node & _ & H1 & H2 & _ & _ & ->). simpl_state.
      rewrite lookup_insert_ne; [done|]. naive_solver.
    + by apply set_text_Ok in Hrun as (who & node & _ & _ & _ & ->).
  - by apply with_storage_layer_Err in Hrun as [-> _].
Qed.

(** A successful [set_record] was signed by an account the registry allows to
    use the node; the content is then what [lookup] returns for a type that is not
    blocked, and no other record and no text has changed. *)
Theorem set_record_then_lookup (o : RawOrigin) (name : bytes) (rt : codec_type.RecordType)
    (c : bytes) (s s' : State) :
  set_record o name rt c s = (s', Ok tt) ->
  exists who node, o = RawOrigin.Signed who /\
    parse_name_to_node name checker_base_node = Some node /\
    check_node_useable s node who = true /\
    (rt ∉ BLOCKED -> c <> [] -> (rt, c) ∈ lookup s' node [rt]) /\
    (forall n k, (n, k) <> (node, rt) -> records_get s' n k = records_get s n k) /\
    (forall k, Texts s' !! k = Texts s !! k).
Proof.
  intros (who & node & -> & H1 & H2 & Hp & Hu & ->)%set_record_Ok.
  exists who, node. split_and!; try done.
  - intros Hb Hc. rewrite lookup_eq_spec. unfold lookup_spec.
    rewrite filter_cons_True by done. apply list_elem_of_filter. split; [done|].
    apply list_elem_of_fmap. exists rt. split; [|set_solver].
    unfold records_get. simpl_state. by rewrite lookup_insert_eq.
  - intros n k Hne. apply records_get_ext. simpl_state. by rewrite lookup_insert_ne.
Qed.

End resolvers.
