(* ===== verification/Registry.v ===== *)
(** * The registry: [pallets/pns-registrar/src/registry.rs]

    Names as tokens of class 0, the tree of subnames, and the offers of
    subdomains.  The registry calls the NFT pallet, the record hooks and the
    registrar's expiry checks (the classes of [Traits.v]).  Storage iteration
    order is not specified by the chain; loops here run over the elements of a
    set. *)

From Stdlib Require Import ZArith Lia.
From stdpp Require Import base tactics numbers gmap sets fin_sets fin_maps option list_basics list.
From S2P Require Import Prelude Types Storage Label Nft Traits.

Local Open Scope Z_scope.
Local Open Scope run_scope.

Section registry.
Context `{E : Env} `{C : Config} {HK : RecordHooks} {RG : RegistrarT}.
Implicit Types s : State.

Definition err {A} (e : registry.registry_Error) : M A := throw (RegistryError e).

Definition name_to_node (name : bytes) : M DomainHash :=
  ok_or (parse_name_to_node name basenode) (RegistryError registry.InvalidName).

Definition verify_with_owner (caller owner : AccountId) : M unit :=
  ensure (bool_decide (caller = owner)) (RegistryError registry.NoPermission).

Definition verify (caller : AccountId) (node : DomainHash) : M unit :=
  let! token := reads (fun s => tokens s 0 node) in
  let! info := ok_or token (RegistryError registry.NotExist) in
  verify_with_owner caller (ti_owner info).

(** [nft::Tokens::mutate] of a token's [children]; the [u32] addition wraps. *)
Definition set_children (token : Z * DomainHash) (info : TokenInfo) (n : Z) : M unit :=
  modify (upd_Tokens
    (<[token := mkTokenInfo (ti_metadata info) (ti_owner info) (mkNodeRecord n)]>)).

Definition add_children (node : DomainHash) (class_id : Z) : M unit :=
  let! data := reads (fun s => tokens s class_id node) in
  let! info := ok_or data (RegistryError registry.NotExist) in
  let node_children := children (ti_data info) in
  set_children (class_id, node) info (wrapping_add 32 node_children 1).

Definition add_children_with_check (node : DomainHash) (class_id capacity : Z) : M unit :=
  let! data := reads (fun s => tokens s class_id node) in
  let! info := ok_or data (RegistryError registry.NotExist) in
  let node_children := children (ti_data info) in
  do! ensure (node_children <? capacity) (RegistryError registry.CapacityNotEnough) in
  set_children (class_id, node) info (wrapping_add 32 node_children 1).

Definition sub_children (node : DomainHash) (class_id : Z) : M unit :=
  let! data := reads (fun s => tokens s class_id node) in
  let! info := ok_or data (RegistryError registry.NotExist) in
  let! n := ok_or (checked_sub (children (ti_data info)) 1) ArithmeticOverflow in
  set_children (class_id, node) info n.

(** What [clear_subnames] does to one child. *)
Definition clear_child (child : DomainHash) : M unit :=
  do! modify (clear_all_records child) in
  do! modify (upd_RuntimeOriginOf (delete child)) in
  let! taken := reads (fun s => SubnameRecords s !! child) in
  do! match taken with
      | Some record =>
          do! modify (upd_SubnameRecords (delete child)) in
          match sr_state record with
          | Offered | Rejected =>
              modify (upd_OfferedToAccount (fun o => o ∖ {[(sr_target record, child)]}))
          | Active =>
              modify (upd_AccountToSubnames (fun a => a ∖ {[(sr_target record, child)]}))
          end
      | None => ret tt
      end in
  let! token := reads (fun s => Tokens s !! (0, child)) in
  match token with
  | Some info =>
      do! modify (upd_AccountToSubnames (fun a => a ∖ {[(ti_owner info, child)]})) in
      ignore (Nft.burn (ti_owner info) (0, child))
  | None => ret tt
  end.

Definition clear_subnames (root_node : DomainHash) : M unit :=
  let! children := reads (fun s => elements (prefix root_node (SubNames s))) in
  do! for_each clear_child children in
  do! modify (upd_SubNames (clear_prefix root_node)) in
  let! token := reads (fun s => Tokens s !! (0, root_node)) in
  match token with
  | Some info => set_children (0, root_node) info 0
  | None => ret tt
  end.

Definition do_burn (caller : AccountId) (token : DomainHash) : M unit :=
  let class_id := 0 in
  let! token_info := reads (fun s => tokens s class_id token) in
  let! token_info := ok_or token_info (RegistryError registry.NotExist) in
  let token_owner := ti_owner token_info in
  do! verify_with_owner caller token_owner in
  let! origin := reads (fun s => RuntimeOriginOf s !! token) in
  let! origin := ok_or origin (RegistryError registry.BanBurnBaseNode) in
  do! match origin with
      | RuntimeOrigin origin =>
          do! ensure (children (ti_data token_info) =? 0)
                     (RegistryError registry.SubnodeNotClear) in
          do! sub_children origin class_id in
          do! modify (upd_SubNames (fun m => m ∖ {[(origin, token)]})) in
          modify (upd_AccountToSubnames (fun a => a ∖ {[(token_owner, token)]}))
      | Root =>
          do! clear_subnames token in
          do! clear_registrar_info token token_owner in
          modify (upd_AccountToSubnames (fun a => a ∖ {[(token_owner, token)]}))
      end in
  do! modify (upd_RuntimeOriginOf (delete token)) in
  do! modify (clear_all_records token) in
  do! Nft.burn token_owner (class_id, token) in
  deposit_event (RegistryEvent (registry.TokenBurned class_id token token token_owner caller)).

(** The two halves of [mint_subname] after the guards: the name exists and has
    expired, or it is new. *)
Definition mint_existing (label_node : DomainHash) (info : TokenInfo) (to : AccountId)
    (do_payments : option AccountId -> M unit) : M unit :=
  do! check_expires_registrable label_node in
  let from := ti_owner info in
  do! do_payments (Some from) in
  do! clear_subnames label_node in
  do! modify (clear_all_records label_node) in
  do! modify (upd_AccountToSubnames (fun a => a ∖ {[(from, label_node)]})) in
  do! Nft.transfer from to (0, label_node) in
  modify (upd_AccountToSubnames (fun a => {[(to, label_node)]} ∪ a)).

Definition mint_new (metadata : bytes) (node label_node : DomainHash) (to : AccountId)
    (capacity : Z) (do_payments : option AccountId -> M unit) : M unit :=
  do! do_payments None in
  do! Nft.mint to (0, label_node) metadata NodeRecord_default in
  do! modify (upd_AccountToSubnames (fun a => {[(to, label_node)]} ∪ a)) in
  let! origin := reads (fun s => RuntimeOriginOf s !! node) in
  match origin with
  | Some (RuntimeOrigin origin) =>
      do! check_expires_useable origin in
      do! add_children_with_check origin 0 capacity in
      do! add_children node 0 in
      do! modify (upd_RuntimeOriginOf (<[label_node := RuntimeOrigin origin]>)) in
      modify (upd_SubNames (fun m => {[(origin, label_node)]} ∪ m))
  | Some Root =>
      do! add_children_with_check node 0 capacity in
      do! modify (upd_RuntimeOriginOf (<[label_node := RuntimeOrigin node]>)) in
      modify (upd_SubNames (fun m => {[(node, label_node)]} ∪ m))
  | None =>
      do! add_children node 0 in
      modify (upd_RuntimeOriginOf (<[label_node := Root]>))
  end.

Definition pallet_mint_subname (owner : AccountId) (metadata : bytes)
    (node label_node : DomainHash) (to : AccountId) (capacity : Z)
    (do_payments : option AccountId -> M unit) : M unit :=
  let class_id := 0 in
  let! node_info := reads (fun s => tokens s class_id node) in
  let! node_info := ok_or node_info (RegistryError registry.NotExist) in
  let node_owner := ti_owner node_info in
  do! verify_with_owner owner node_owner in
  let! origin := reads (fun s => RuntimeOriginOf s !! node) in
  let root_node := match origin with Some (RuntimeOrigin root) => root | _ => node end in
  let! root_info := reads (fun s => Tokens s !! (class_id, root_node)) in
  do! match root_info with
      | Some root_info =>
          ensure (bool_decide (to <> ti_owner root_info))
                 (RegistryError registry.CannotOwnSubnameUnderOwnDomain)
      | None => ret tt
      end in
  let! existing := reads (fun s => Tokens s !! (class_id, label_node)) in
  do! match existing with
      | Some info => mint_existing label_node info to do_payments
      | None => mint_new metadata node label_node to capacity do_payments
      end in
  deposit_event (RegistryEvent (registry.TokenMinted class_id label_node node to)).

Definition do_transfer (from to : AccountId) (token : DomainHash) : M unit :=
  let class_id := 0 in
  let! token_info := reads (fun s => tokens s class_id token) in
  let! token_info := ok_or token_info (RegistryError registry.NotExist) in
  let owner := ti_owner token_info in
  do! verify_with_owner from owner in
  let! origin := reads (fun s => RuntimeOriginOf s !! token) in
  let! origin := ok_or origin (RegistryError registry.NotExist) in
  do! match origin with
      | RuntimeOrigin root =>
          do! check_expires_renewable root in
          let! root_info := reads (fun s => Tokens s !! (class_id, root)) in
          do! match root_info with
              | Some root_info =>
                  ensure (bool_decide (to <> ti_owner root_info))
                         (RegistryError registry.CannotOwnSubnameUnderOwnDomain)
              | None => ret tt
              end in
          do! modify (upd_AccountToSubnames (fun a => a ∖ {[(owner, token)]})) in
          modify (upd_AccountToSubnames (fun a => {[(to, token)]} ∪ a))
      | Root =>
          do! check_expires_renewable token in
          clear_subnames token
      end in
  do! Nft.transfer owner to (class_id, token) in
  do! modify (clear_records_except_ss58 token) in
  do! update_ss58 token to in
  let! parent_hash := reads parent_hash_32 in
  do! record_origin token parent_hash in
  deposit_event (RegistryEvent (registry.Transferred owner to class_id token)).

(** ** The [Registry], [NFT] and [Official] traits *)

Definition mint_subname (node_owner : AccountId) (node label_node : DomainHash) (to : AccountId)
    (capacity : Z) (do_payments : option AccountId -> M unit) : M unit :=
  pallet_mint_subname node_owner [] node label_node to capacity do_payments.

Definition available (caller : AccountId) (node : DomainHash) : M unit := verify caller node.

Definition owner_of s (node : DomainHash) : option AccountId := ti_owner <$> tokens s 0 node.

Definition has_active_subname s (account : AccountId) : bool :=
  bool_decide (prefix account (AccountToSubnames s) <> ∅).

Definition nft_balance s (who : AccountId) : Z :=
  truncate 128 (Z.of_nat (size (prefix who (TokensByOwner s)))).

Definition nft_owner s (token : Z * DomainHash) : option AccountId :=
  ti_owner <$> tokens s token.1 token.2.

Definition nft_transfer (from to : AccountId) (token : Z * DomainHash) : M unit :=
  do! ensure (token.1 =? 0) (RegistryError registry.NotExist) in
  do_transfer from to token.2.

(** [label_bytes] is a [BoundedVec] of at most 63 bytes. *)
Definition offer_subname (parent label_node : DomainHash) (label_bytes : bytes) (to : AccountId)
    (capacity : Z) : M unit :=
  let! origin := reads (fun s => RuntimeOriginOf s !! parent) in
  do! match origin with
      | Some Root => ret tt
      | _ => err registry.SubnameDepthExceeded
      end in
  let class_id := 0 in
  let! parent_token := reads (fun s => Tokens s !! (class_id, parent)) in
  do! match parent_token with
      | Some parent_token =>
          ensure (bool_decide (to <> ti_owner parent_token))
                 (RegistryError registry.CannotOwnSubnameUnderOwnDomain)
      | None => ret tt
      end in
  let! existing := reads (fun s => SubnameRecords s !! label_node) in
  do! ensure (bool_decide (existing = None)) (RegistryError registry.SubnameAlreadyExists) in
  do! add_children_with_check parent class_id capacity in
  do! modify (upd_SubnameRecords (<[label_node := mkSubnameRecord parent label_bytes to Offered]>)) in
  do! modify (upd_OfferedToAccount (fun o => {[(to, label_node)]} ∪ o)) in
  modify (upd_SubNames (fun m => {[(parent, label_node)]} ∪ m)).

Definition set_subname_state (label_node : DomainHash) (r : SubnameRecord AccountId)
    (st : SubnameState) : State -> State :=
  upd_SubnameRecords
    (<[label_node := mkSubnameRecord (sr_parent r) (sr_label r) (sr_target r) st]>).

Definition accept_subname_offer (label_node : DomainHash) (acceptor : AccountId) : M DomainHash :=
  let! holds := reads (fun s => has_valid_canonical_name s acceptor) in
  do! ensure (negb holds) (RegistryError registry.TargetAlreadyOwnsName) in
  let! active := reads (fun s => has_active_subname s acceptor) in
  do! ensure (negb active) (RegistryError registry.TargetAlreadyOwnsName) in
  let! maybe_record := reads (fun s => SubnameRecords s !! label_node) in
  let! record := ok_or maybe_record (RegistryError registry.SubnameNotFound) in
  do! ensure (bool_decide (sr_state record = Offered))
             (RegistryError registry.SubnameNotOffered) in
  do! ensure (bool_decide (sr_target record = acceptor))
             (RegistryError registry.NotSubnameTarget) in
  do! modify (upd_OfferedToAccount (fun o => o ∖ {[(acceptor, label_node)]})) in
  do! modify (upd_AccountToSubnames (fun a => {[(acceptor, label_node)]} ∪ a)) in
  do! modify (set_subname_state label_node record Active) in
  ret (sr_parent record).

Definition reject_subname_offer (label_node : DomainHash) (caller : AccountId) : M unit :=
  let! maybe_record := reads (fun s => SubnameRecords s !! label_node) in
  let! record := ok_or maybe_record (RegistryError registry.SubnameNotFound) in
  do! ensure (bool_decide (sr_state record = Offered))
             (RegistryError registry.SubnameNotOffered) in
  do! ensure (bool_decide (sr_target record = caller))
             (RegistryError registry.NotSubnameTarget) in
  do! modify (upd_OfferedToAccount (fun o => o ∖ {[(caller, label_node)]})) in
  modify (set_subname_state label_node record Rejected).

Definition revoke_subname (parent label_node : DomainHash) : M unit :=
  let! taken := reads (fun s => SubnameRecords s !! label_node) in
  do! modify (upd_SubnameRecords (delete label_node)) in
  let! record := ok_or taken (RegistryError registry.SubnameNotFound) in
  do! ensure (bool_decide (sr_parent record = parent))
             (RegistryError registry.NotSubnameOfferer) in
  do! match sr_state record with
      | Offered | Rejected =>
          modify (upd_OfferedToAccount (fun o => o ∖ {[(sr_target record, label_node)]}))
      | Active =>
          do! modify (upd_AccountToSubnames (fun a => a ∖ {[(sr_target record, label_node)]})) in
          modify (clear_all_records label_node)
      end in
  do! modify (upd_SubNames (fun m => m ∖ {[(parent, label_node)]})) in
  sub_children parent 0.

Definition release_subname (label_node : DomainHash) (by_ : AccountId) : M DomainHash :=
  let! taken := reads (fun s => SubnameRecords s !! label_node) in
  do! modify (upd_SubnameRecords (delete label_node)) in
  let! record := ok_or taken (RegistryError registry.SubnameNotFound) in
  do! ensure (bool_decide (sr_state record = Active)) (RegistryError registry.SubnameNotActive) in
  do! ensure (bool_decide (sr_target record = by_)) (RegistryError registry.NotSubnameTarget) in
  do! modify (upd_AccountToSubnames (fun a => a ∖ {[(by_, label_node)]})) in
  do! modify (upd_SubNames (fun m => m ∖ {[(sr_parent record, label_node)]})) in
  do! sub_children (sr_parent record) 0 in
  do! modify (clear_all_records label_node) in
  ret (sr_parent record).

Definition revoke_pending_offer_for_target (label_node : DomainHash) (target : AccountId) : M unit :=
  let! maybe_record := reads (fun s => SubnameRecords s !! label_node) in
  let! record := ok_or maybe_record (RegistryError registry.SubnameNotFound) in
  do! ensure (bool_decide (sr_state record = Offered))
             (RegistryError registry.SubnameNotOffered) in
  do! ensure (bool_decide (sr_target record = target))
             (RegistryError registry.NotSubnameTarget) in
  revoke_subname (sr_parent record) label_node.

Definition get_official_account : M AccountId :=
  let! official := reads (fun s => Official s) in
  ok_or official (RegistryError registry.OfficialNotInitiated).

(** ** The calls *)

Definition burn (origin : RawOrigin) (name : bytes) : M unit :=
  let! caller := ensure_signed origin in
  let! node := name_to_node name in
  do_burn caller node.

Context {O : ManagerOrigin}.

Definition set_official (origin : RawOrigin) (official : AccountId) : M unit :=
  let! _who := ensure_origin origin in
  let! old_official := reads (fun s => Official s) in
  do! modify (upd_Official (fun _ => None)) in
  do! modify (upd_Official (fun _ => Some official)) in
  do! match old_official with
      | Some old_official => Nft.transfer old_official official (0, basenode)
      | None => ret tt
      end in
  let! class := reads (fun s => Classes s !! 0) in
  match class with
  | Some info =>
      modify (upd_Classes
        (<[0 := mkClassInfo (ci_metadata info) (ci_total_issuance info) official]>))
  | None => ret tt
  end.

(** [BuildGenesisConfig::build] *)
Definition registry_build (origins : list (DomainHash * DomainTracing))
    (official : option AccountId) (s : State) : State :=
  let s := foldl (fun s '(node, origin) => upd_RuntimeOriginOf (<[node := origin]>) s) s origins in
  match official with
  | Some official => upd_Official (fun _ => Some official) s
  | None => s
  end.

End registry.
