(* ===== verification/Registrar.v ===== *)
(** * The registrar: [pallets/pns-registrar/src/registrar.rs]

    Registration, renewal, transfer and release of top-level names, the calls on
    subdomains, the reserved list and the gifts bought on the marketplace.  The
    registrar implements the expiry checks the registry calls (instance
    [registrar_T]) and the functions the marketplace calls (instance
    [registrar_NameRegistry]).  Timestamps are [u64]: the sums with the grace
    period wrap as the compiled code's do. *)

From Stdlib Require Import ZArith Lia.
From stdpp Require Import base tactics numbers gmap sets fin_sets fin_maps option list_basics list.
From S2P Require Import Prelude RustStr Types Storage Label Nft Traits PriceOracle Registry.

Local Open Scope Z_scope.
Local Open Scope run_scope.

(** ** The [Registrar] trait, as far as the registry needs it *)
Section checks.
Context `{E : Env} `{C : Config}.
Implicit Types s : State.

(** [info.expire + T::GracePeriod::get()] *)
Definition grace_end (expire : Z) : Z := wrapping_add 64 expire GracePeriod.

Definition check_expires_registrable (node : DomainHash) : M unit :=
  let! now := reads (fun s => now s) in
  let! info := reads (fun s => RegistrarInfos s !! node) in
  let! info := ok_or info (RegistrarError registrar.NotExistOrOccupied) in
  ensure (grace_end (ri_expire info) <? now) (RegistrarError registrar.Occupied).

Definition check_expires_renewable (node : DomainHash) : M unit :=
  let! now := reads (fun s => now s) in
  let! info := reads (fun s => RegistrarInfos s !! node) in
  let! info := ok_or info (RegistrarError registrar.NotExistOrOccupied) in
  ensure (now <? grace_end (ri_expire info)) (RegistrarError registrar.NotRenewable).

Definition check_expires_useable (node : DomainHash) : M unit :=
  let! now := reads (fun s => now s) in
  let! info := reads (fun s => RegistrarInfos s !! node) in
  let! info := ok_or info (RegistrarError registrar.NotExistOrOccupied) in
  ensure (now <? ri_expire info) (RegistrarError registrar.NotUseable).

Definition clear_registrar_info (node : DomainHash) (_owner : AccountId) : M unit :=
  modify (upd_RegistrarInfos (delete node)).

(** [RegistrarInfos::get(node).map(|info| now <= info.expire + grace).unwrap_or(false)] *)
Definition still_valid s (node : DomainHash) : bool :=
  match RegistrarInfos s !! node with
  | Some info => now s <=? grace_end (ri_expire info)
  | None => false
  end.

Definition has_valid_canonical_name s (account : AccountId) : bool :=
  match OwnerToPrimaryName s !! account with
  | None => false
  | Some node => still_valid s node
  end.

#[global] Instance registrar_T : RegistrarT := {|
  Traits.check_expires_registrable := check_expires_registrable;
  Traits.check_expires_renewable := check_expires_renewable;
  Traits.check_expires_useable := check_expires_useable;
  Traits.clear_registrar_info := clear_registrar_info;
  Traits.basenode := BaseNode;
  Traits.has_valid_canonical_name := has_valid_canonical_name
|}.

#[global, program] Instance registrar_T_laws : RegistrarLaws registrar_T := {|
  forget_info := fun n p =>
    mkRegistrarStorage (delete n (RegistrarInfos p)) (ReservedList p) (OwnerToPrimaryName p)
      (OfferedNames p)
|}.
Next Obligation. intros n. simpl. unfold check_expires_registrable. solve_pure. Qed.
Next Obligation. intros n. simpl. unfold check_expires_renewable. solve_pure. Qed.
Next Obligation. intros n. simpl. unfold check_expires_useable. solve_pure. Qed.
Next Obligation. done. Qed.

End checks.

Section registrar.
Context `{E : Env} `{C : Config} {HK : RecordHooks} {O : ManagerOrigin} {IO : IsOpen}.
Implicit Types s : State.

(** The check that an account holds no name, as [register], [transfer],
    [accept_offered_name], [for_redeem_code] and [transfer_name] make it: a name
    that has lapsed is dropped from [OwnerToPrimaryName]. *)
Definition ensure_no_name (account : AccountId) : M unit :=
  let! existing := reads (fun s => OwnerToPrimaryName s !! account) in
  do! match existing with
      | Some existing_node =>
          let! valid := reads (fun s => still_valid s existing_node) in
          if valid then throw (RegistrarError registrar.AlreadyHasCanonicalName)
          else modify (upd_OwnerToPrimaryName (delete account))
      | None => ret tt
      end in
  let! active := reads (fun s => has_active_subname s account) in
  ensure (negb active) (RegistrarError registrar.AlreadyHoldsSubdomain).

(** ** The calls *)

Definition add_reserved (origin : RawOrigin) (name : bytes) : M unit :=
  let! _who := ensure_origin origin in
  let! (label, _) := ok_or (new_with_len name) (RegistrarError registrar.ParseLabelFailed) in
  let node := encode_with_node label BaseNode in
  do! modify (upd_ReservedList (fun r => {[node]} ∪ r)) in
  deposit_event (RegistrarEvent (registrar.NameReserved node)).

Definition remove_reserved (origin : RawOrigin) (name : bytes) : M unit :=
  let! _who := ensure_origin origin in
  let! (label, _) := ok_or (new_with_len name) (RegistrarError registrar.ParseLabelFailed) in
  let node := encode_with_node label BaseNode in
  do! modify (upd_ReservedList (fun r => r ∖ {[node]})) in
  deposit_event (RegistrarEvent (registrar.NameUnReserved node)).

(** The [reject_offer] argument of [register]. *)
Definition reject_pending (caller : AccountId) (reject_name : bytes) : M unit :=
  let! rej_node := ok_or (parse_name_to_node reject_name BaseNode)
                         (RegistrarError registrar.ParseLabelFailed) in
  let! taken := reads (fun s => OfferedNames s !! rej_node) in
  match taken with
  | Some offer =>
      do! modify (upd_OfferedNames (delete rej_node)) in
      do! ensure (bool_decide (on_recipient offer = caller))
                 (RegistrarError registrar.NotOfferedNameRecipient) in
      do! do_burn caller rej_node in
      deposit_event (RegistrarEvent (registrar.OfferedNameRejected rej_node caller))
  | None =>
      do! map_err (fun _ => RegistrarError registrar.OfferedNameNotFound)
                  (revoke_pending_offer_for_target rej_node caller) in
      deposit_event (RegistrarEvent (registrar.OfferedNameRejected rej_node caller))
  end.

(** The previous owner of a re-registered name is freed to register again. *)
Definition forget_previous_owner (label_node : DomainHash) (maybe_pre_owner : option AccountId) :
    M unit :=
  match maybe_pre_owner with
  | Some pre_owner =>
      let! primary := reads (fun s => OwnerToPrimaryName s !! pre_owner) in
      if bool_decide (primary = Some label_node)
      then modify (upd_OwnerToPrimaryName (delete pre_owner))
      else ret tt
  | None => ret tt
  end.

(** The [do_payments] closure of [register]. *)
Definition register_payments (caller : AccountId) (label_node : DomainHash)
    (fee expire label_len : Z) (maybe_pre_owner : option AccountId) : M unit :=
  do! forget_previous_owner label_node maybe_pre_owner in
  do! burn_from caller fee in
  let! current_block := reads (fun s => saturated_into 32 (block_number s)) in
  let! info := reads (fun s => RegistrarInfos s !! label_node) in
  let capacity := match info with Some info => ri_capacity info | None => DefaultCapacity end in
  modify (upd_RegistrarInfos
    (<[label_node := mkRegistrarInfo expire capacity fee (truncate 32 label_len) current_block]>)).

Definition register (origin : RawOrigin) (name : bytes) (owner : LookupSource)
    (reject_offer : option bytes) : M unit :=
  let! caller := ensure_signed origin in
  let! owner := lookup_source owner in
  do! match reject_offer with
      | Some reject_name => reject_pending caller reject_name
      | None => ret tt
      end in
  do! ensure (bool_decide (name <> [])) (RegistrarError registrar.LabelInvalid) in
  let! open := reads (fun s => is_open s) in
  do! ensure open (RegistrarError registrar.RegistrarClosed) in
  let! (label, label_len) :=
    ok_or (new_with_len name) (RegistrarError registrar.ParseLabelFailed) in
  do! ensure (is_registrable label_len) (RegistrarError registrar.LabelInvalid) in
  let! official := get_official_account in
  let! now := reads (fun s => now s) in
  let duration := MaxRegistrationDuration in
  let! expire := ok_or (checked_add 64 now duration) ArithmeticOverflow in
  let base_node := BaseNode in
  let label_node := encode_with_node label base_node in
  let! reserved := reads (fun s => bool_decide (label_node ∈ ReservedList s)) in
  do! ensure (negb reserved) (RegistrarError registrar.Frozen) in
  do! ensure_no_name owner in
  let! fee := reads (fun s => registration_fee s label_len) in
  let! fee := ok_or fee ArithmeticOverflow in
  do! mint_subname official base_node label_node owner 0
        (register_payments caller label_node fee expire label_len) in
  do! modify (upd_OwnerToPrimaryName (<[owner := label_node]>)) in
  do! update_ss58 label_node owner in
  let! parent_hash := reads parent_hash_32 in
  do! record_origin label_node parent_hash in
  deposit_event (RegistrarEvent (registrar.NameRegistered name label_node owner expire fee)).

Definition renew (origin : RawOrigin) : M unit :=
  let! caller := ensure_signed origin in
  let! open := reads (fun s => is_open s) in
  do! ensure open (RegistrarError registrar.RegistrarClosed) in
  let! primary := reads (fun s => OwnerToPrimaryName s !! caller) in
  let! label_node := ok_or primary (RegistrarError registrar.NoCanonicalName) in
  let! info := reads (fun s => RegistrarInfos s !! label_node) in
  let! info := ok_or info (RegistrarError registrar.NotExistOrOccupied) in
  let! now := reads (fun s => now s) in
  do! ensure (now <=? grace_end (ri_expire info)) (RegistrarError registrar.NotRenewable) in
  let! price := reads (fun s => registration_fee s (ri_label_len info)) in
  let! price := ok_or price ArithmeticOverflow in
  do! burn_from caller price in
  let! expire := ok_or (checked_add 64 now MaxRegistrationDuration) ArithmeticOverflow in
  do! deposit_event (RegistrarEvent (registrar.NameRenewed label_node caller expire price)) in
  modify (upd_RegistrarInfos
    (<[label_node := mkRegistrarInfo expire (ri_capacity info) (ri_register_fee info)
                       (ri_label_len info) (ri_last_block info)]>)).

Definition transfer (origin : RawOrigin) (to : LookupSource) : M unit :=
  let! who := ensure_signed origin in
  let! to := lookup_source to in
  let! open := reads (fun s => is_open s) in
  do! ensure open (RegistrarError registrar.RegistrarClosed) in
  let! primary := reads (fun s => OwnerToPrimaryName s !! who) in
  let! node := ok_or primary (RegistrarError registrar.NoCanonicalName) in
  let! info := reads (fun s => RegistrarInfos s !! node) in
  do! match info with
      | Some info =>
          let! now := reads (fun s => now s) in
          ensure (now <? grace_end (ri_expire info)) (RegistrarError registrar.NotOwned)
      | None => ret tt
      end in
  do! ensure_no_name to in
  do! do_transfer who to node in
  do! modify (upd_OwnerToPrimaryName (delete who)) in
  modify (upd_OwnerToPrimaryName (<[to := node]>)).

Definition release_name (origin : RawOrigin) : M unit :=
  let! caller := ensure_signed origin in
  let! primary := reads (fun s => OwnerToPrimaryName s !! caller) in
  let! node := ok_or primary (RegistrarError registrar.NoCanonicalName) in
  do! modify (upd_OwnerToPrimaryName (delete caller)) in
  do_burn caller node.

Definition offer_subdomain (origin : RawOrigin) (label : bytes) (target : LookupSource) : M unit :=
  let! caller := ensure_signed origin in
  let! target := lookup_source target in
  let! open := reads (fun s => is_open s) in
  do! ensure open (RegistrarError registrar.RegistrarClosed) in
  let! primary := reads (fun s => OwnerToPrimaryName s !! caller) in
  let! parent_node := ok_or primary (RegistrarError registrar.NoCanonicalName) in
  let! now := reads (fun s => now s) in
  let! info := reads (fun s => RegistrarInfos s !! parent_node) in
  let! info := ok_or info (RegistrarError registrar.NotExistOrOccupied) in
  do! ensure (now <? ri_expire info) (RegistrarError registrar.NotUseable) in
  let! (sub_label, _) := ok_or (new_with_len label) (RegistrarError registrar.ParseLabelFailed) in
  let label_node := encode_with_node sub_label parent_node in
  let! bounded_label := ok_or (bounded_vec 63 label) (RegistrarError registrar.LabelTooLong) in
  do! offer_subname parent_node label_node bounded_label target (ri_capacity info) in
  deposit_event (RegistrarEvent (registrar.SubnameOffered parent_node label_node label target)).

(** The node of [label] under the top-level name [parent], as three calls compute it. *)
Definition subdomain_node (parent label : bytes) : M (DomainHash * DomainHash) :=
  let! (parent_label, _) :=
    ok_or (new_with_len parent) (RegistrarError registrar.ParseLabelFailed) in
  let parent_node := encode_with_node parent_label BaseNode in
  let! (sub_label, _) := ok_or (new_with_len label) (RegistrarError registrar.ParseLabelFailed) in
  ret (parent_node, encode_with_node sub_label parent_node).

Definition accept_subdomain (origin : RawOrigin) (parent label : bytes) : M unit :=
  let! caller := ensure_signed origin in
  let! (parent_node, label_node) := subdomain_node parent label in
  let! now := reads (fun s => now s) in
  let! info := reads (fun s => RegistrarInfos s !! parent_node) in
  let! info := ok_or info (RegistrarError registrar.NotExistOrOccupied) in
  do! ensure (now <? ri_expire info) (RegistrarError registrar.NotUseable) in
  do! accept_subname_offer label_node caller in
  do! update_ss58 label_node caller in
  deposit_event (RegistrarEvent (registrar.SubnameAccepted label_node caller)).

Definition reject_subdomain (origin : RawOrigin) (parent label : bytes) : M unit :=
  let! caller := ensure_signed origin in
  let! (_, label_node) := subdomain_node parent label in
  do! reject_subname_offer label_node caller in
  deposit_event (RegistrarEvent (registrar.SubnameRejected label_node caller)).

Definition revoke_subdomain (origin : RawOrigin) (label : bytes) : M unit :=
  let! caller := ensure_signed origin in
  let! primary := reads (fun s => OwnerToPrimaryName s !! caller) in
  let! parent_node := ok_or primary (RegistrarError registrar.NoCanonicalName) in
  let! (sub_label, _) := ok_or (new_with_len label) (RegistrarError registrar.ParseLabelFailed) in
  let label_node := encode_with_node sub_label parent_node in
  do! revoke_subname parent_node label_node in
  deposit_event (RegistrarEvent (registrar.SubnameRevoked label_node parent_node)).

Definition accept_offered_name (origin : RawOrigin) (name : bytes) : M unit :=
  let! caller := ensure_signed origin in
  let! (label, _) := ok_or (new_with_len name) (RegistrarError registrar.ParseLabelFailed) in
  let node := encode_with_node label BaseNode in
  let! taken := reads (fun s => OfferedNames s !! node) in
  do! modify (upd_OfferedNames (delete node)) in
  let! offer := ok_or taken (RegistrarError registrar.OfferedNameNotFound) in
  do! ensure (bool_decide (on_recipient offer = caller))
             (RegistrarError registrar.NotOfferedNameRecipient) in
  let! now := reads (fun s => now s) in
  let! info := reads (fun s => RegistrarInfos s !! node) in
  let! info := ok_or info (RegistrarError registrar.NotExistOrOccupied) in
  do! ensure (now <? ri_expire info) (RegistrarError registrar.NotUseable) in
  do! ensure_no_name caller in
  do! modify (upd_OwnerToPrimaryName (<[caller := node]>)) in
  do! update_ss58 node caller in
  let! parent_hash := reads parent_hash_32 in
  do! record_origin node parent_hash in
  deposit_event (RegistrarEvent (registrar.OfferedNameAccepted node caller)).

Definition release_subdomain (origin : RawOrigin) (parent label : bytes) : M unit :=
  let! caller := ensure_signed origin in
  let! (_, label_node) := subdomain_node parent label in
  let! parent_from_record := release_subname label_node caller in
  deposit_event (RegistrarEvent (registrar.SubnameReleased label_node parent_from_record)).

(** ** The rest of the [Registrar] trait: redemption codes *)

Definition redeem_payments (name : bytes) (label_node : DomainHash) (expire : Z)
    (maybe_pre_owner : option AccountId) : M unit :=
  do! forget_previous_owner label_node maybe_pre_owner in
  let! current_block := reads (fun s => saturated_into 32 (block_number s)) in
  let! info := reads (fun s => RegistrarInfos s !! label_node) in
  modify (upd_RegistrarInfos
    (<[label_node :=
        match info with
        | Some info => mkRegistrarInfo expire (ri_capacity info) 0 (ri_label_len info) current_block
        | None => mkRegistrarInfo expire DefaultCapacity 0 (truncate 32 (str_len name)) current_block
        end]>)).

Definition for_redeem_code (name : bytes) (to : AccountId) (duration : Z) (label : Label) : M unit :=
  let! official := get_official_account in
  let! now := reads (fun s => now s) in
  let duration := Z.min duration MaxRegistrationDuration in
  let! expire := ok_or (checked_add 64 now duration) ArithmeticOverflow in
  do! ensure (grace_end now <? grace_end expire) ArithmeticOverflow in
  do! ensure_no_name to in
  let base_node := BaseNode in
  let label_node := encode_with_node label base_node in
  do! mint_subname official base_node label_node to 0 (redeem_payments name label_node expire) in
  do! modify (upd_OwnerToPrimaryName (<[to := label_node]>)) in
  let! parent_hash := reads parent_hash_32 in
  do! record_origin label_node parent_hash in
  deposit_event (RegistrarEvent (registrar.NameRegistered name label_node to expire 0)).

Definition get_info s (id : DomainHash) : option RegistrarInfo := RegistrarInfos s !! id.

Definition all s : list (DomainHash * RegistrarInfo) := map_to_list (RegistrarInfos s).

(** ** The [NameRegistry] trait *)

Definition canonical_name s (account : AccountId) : option DomainHash :=
  OwnerToPrimaryName s !! account.

(** Removes the seller's canonical name if it is [node]. *)
Definition forget_seller (seller : AccountId) (node : DomainHash) : M unit :=
  let! primary := reads (fun s => OwnerToPrimaryName s !! seller) in
  if bool_decide (primary = Some node)
  then modify (upd_OwnerToPrimaryName (delete seller))
  else ret tt.

Definition transfer_name (from to : AccountId) (node : DomainHash) : M unit :=
  do! ensure_no_name to in
  do! do_transfer from to node in
  do! forget_seller from node in
  modify (upd_OwnerToPrimaryName (<[to := node]>)).

Definition offer_bought_name (seller buyer recipient : AccountId) (node : DomainHash) : M unit :=
  let! offered := reads (fun s => OfferedNames s !! node) in
  do! ensure (bool_decide (offered = None)) (RegistrarError registrar.NameAlreadyOffered) in
  let! existing := reads (fun s => OwnerToPrimaryName s !! recipient) in
  do! match existing with
      | Some existing =>
          let! valid := reads (fun s => still_valid s existing) in
          ensure (negb valid) (RegistrarError registrar.AlreadyHasCanonicalName)
      | None => ret tt
      end in
  let! active := reads (fun s => has_active_subname s recipient) in
  do! ensure (negb active) (RegistrarError registrar.AlreadyHoldsSubdomain) in
  do! do_transfer seller recipient node in
  do! forget_seller seller node in
  do! modify (upd_OfferedNames (<[node := mkOfferedNameRecord buyer recipient]>)) in
  deposit_event (RegistrarEvent (registrar.NameBoughtForRecipient node buyer recipient)).

#[global] Instance registrar_NameRegistry : NameRegistry := {|
  Traits.canonical_name := canonical_name;
  Traits.name_owner_of := owner_of;
  Traits.transfer_name := transfer_name;
  Traits.offer_bought_name := offer_bought_name
|}.

(** [BuildGenesisConfig::build] *)
Definition registrar_build (infos : list (DomainHash * RegistrarInfo))
    (reserved_list : list DomainHash) (reserved_names : list bytes) (s : State) : State :=
  let s := foldl (fun s '(node, info) => upd_RegistrarInfos (<[node := info]>) s) s infos in
  let s := foldl (fun s node => upd_ReservedList (fun r => {[node]} ∪ r) s) s reserved_list in
  foldl (fun s name =>
    match parse_name_to_node name BaseNode with
    | Some node => upd_ReservedList (fun r => {[node]} ∪ r) s
    | None => s
    end) s reserved_names.

End registrar.
