(* ===== verification/Marketplace.v ===== *)
(** * The marketplace: [pallets/pns-marketplace/src/lib.rs]

    Listing, delisting and buying names, for oneself or as a gift.  Names are
    reached through the [NameRegistry] class, records through the record hooks,
    and the price and the fee through the currency. *)

From Stdlib Require Import ZArith Lia.
From stdpp Require Import base tactics numbers gmap sets fin_maps option list_basics list.
From S2P Require Import Prelude Types Storage Label Traits.

Local Open Scope Z_scope.
Local Open Scope run_scope.

Section marketplace.
Context `{E : Env} `{C : Config} {HK : RecordHooks} {NR : NameRegistry}.
Implicit Types s : State.

Definition create_listing (origin : RawOrigin) (price expires_at : Z) : M unit :=
  let! who := ensure_signed origin in
  let! now := reads (fun s => now s) in
  do! ensure (now <? expires_at) (MarketplaceError marketplace.ExpiryNotInFuture) in
  let! primary := reads (fun s => canonical_name s who) in
  let! node := ok_or primary (MarketplaceError marketplace.NoCanonicalName) in
  let! listed := reads (fun s => Listings s !! node) in
  do! ensure (bool_decide (listed = None)) (MarketplaceError marketplace.AlreadyListed) in
  do! modify (upd_Listings (<[node := mkListing who price expires_at]>)) in
  deposit_event (MarketplaceEvent (marketplace.Listed node who price expires_at)).

Definition cancel_listing (origin : RawOrigin) : M unit :=
  let! who := ensure_signed origin in
  let! primary := reads (fun s => canonical_name s who) in
  let! node := ok_or primary (MarketplaceError marketplace.NoCanonicalName) in
  let! listed := reads (fun s => Listings s !! node) in
  do! ensure (bool_decide (listed <> None)) (MarketplaceError marketplace.NotListed) in
  do! modify (upd_Listings (delete node)) in
  deposit_event (MarketplaceEvent (marketplace.Delisted node who)).

(** [listing.price.saturating_mul(ProtocolFeeBps) / 10_000] on [u128]. *)
Definition protocol_fee (price : Z) : Z := saturating_mul 128 price ProtocolFeeBps / 10000.

(** The two ways the name changes hands once it is paid for. *)
Definition deliver_gift (l : Listing) (buyer recip : AccountId) (node : DomainHash) (fee : Z) :
    M unit :=
  do! ensure (bool_decide (recip <> buyer)) (MarketplaceError marketplace.BuyerIsRecipient) in
  do! ensure (bool_decide (recip <> seller l)) (MarketplaceError marketplace.SellerIsRecipient) in
  do! offer_bought_name (seller l) buyer recip node in
  deposit_event (MarketplaceEvent
    (marketplace.NameBoughtForRecipient node (seller l) buyer recip (price l) fee)).

Definition deliver (l : Listing) (buyer : AccountId) (node : DomainHash) (fee : Z) : M unit :=
  do! transfer_name (seller l) buyer node in
  do! modify (clear_records_except_ss58 node) in
  do! update_ss58 node buyer in
  let! parent_hash := reads parent_hash_32 in
  do! record_origin node parent_hash in
  deposit_event (MarketplaceEvent (marketplace.Sold node (seller l) buyer (price l) fee)).

Definition buy_name (origin : RawOrigin) (name : bytes) (recipient : option AccountId) : M unit :=
  let! buyer := ensure_signed origin in
  let! label := ok_or (Label_new name) (MarketplaceError marketplace.InvalidName) in
  let node := encode_with_node label BaseNode in
  let! listed := reads (fun s => Listings s !! node) in
  let! listing := ok_or listed (MarketplaceError marketplace.NotListed) in
  do! ensure (bool_decide (buyer <> seller listing)) (MarketplaceError marketplace.BuyerIsSeller) in
  let! now := reads (fun s => now s) in
  do! ensure (now <? expires_at listing) (MarketplaceError marketplace.ListingExpired) in
  let! owner := reads (fun s => name_owner_of s node) in
  do! ensure (bool_decide (Some (seller listing) = owner))
             (MarketplaceError marketplace.SellerNoLongerOwns) in
  do! transfer_balance buyer (seller listing) (price listing) in
  let fee := protocol_fee (price listing) in
  do! burn_from (seller listing) fee in
  do! modify (upd_Listings (delete node)) in
  match recipient with
  | Some recip => deliver_gift listing buyer recip node fee
  | None => deliver listing buyer node fee
  end.

Definition listing s (node : DomainHash) : option Listing := Listings s !! node.

End marketplace.
