(* ===== verification/RedeemCode.v ===== *)
(** * Redemption codes: [pallets/pns-registrar/src/redeem_code.rs]

    The manager mints nonces; a code signed by the official account over the name,
    a duration and a nonce registers the name without a fee and spends the nonce.
    The loops that mint nonces run on fuel, [None] when it runs out; nonces are
    [u32] and wrap. *)

From Stdlib Require Import ZArith Lia.
From stdpp Require Import base tactics numbers gmap sets fin_sets option list_basics list.
From S2P Require Import Prelude RustStr Types Storage Label Nft Traits Registry Registrar.

Local Open Scope Z_scope.
Local Open Scope run_scope.

(** [while nouce <= end { Redeems::insert(nouce); nouce += 1 }] *)
Fixpoint mint_loop (fuel : nat) (nouce end_ : Z) (redeems : gset Z) : option (gset Z) :=
  if negb (nouce <=? end_) then Some redeems else
  match fuel with
  | O => None
  | S fuel' => mint_loop fuel' (wrapping_add 32 nouce 1) end_ ({[nouce]} ∪ redeems)
  end.

(** [while nouce < end { ... }], the genesis builder's loop. *)
Fixpoint genesis_loop (fuel : nat) (nouce end_ : Z) (redeems : gset Z) : option (gset Z) :=
  if negb (nouce <? end_) then Some redeems else
  match fuel with
  | O => None
  | S fuel' => genesis_loop fuel' (wrapping_add 32 nouce 1) end_ ({[nouce]} ∪ redeems)
  end.

Section redeem_code.
Context `{E : Env} `{C : Config} {HK : RecordHooks} {O : ManagerOrigin}.
Implicit Types s : State.

(** [BuildGenesisConfig::build] *)
Definition redeem_code_build (fuel : nat) (redeems : option (Z * Z)) (s : State) : option State :=
  match redeems with
  | Some (start, end_) =>
      (fun r => upd_Redeems (fun _ => r) s) <$> genesis_loop fuel start end_ (Redeems s)
  | None => Some s
  end.

(** [None] when the loop does not end within [fuel] iterations. *)
Definition mint_redeem (fuel : nat) (origin : RawOrigin) (start end_ : Z) (s : State) :
    option (State * result DispatchError unit) :=
  match manager_try_origin origin s with
  | None => Some (s, Err BadOrigin)
  | Some _who =>
      if negb (start <? end_) then Some (s, Err (RedeemCodeError redeem_code.RangeInvaild)) else
      (fun r => (upd_Redeems (fun _ => r) s, Ok tt)) <$> mint_loop fuel start end_ (Redeems s)
  end.

Definition name_redeem (origin : RawOrigin) (name : bytes) (duration nouce : Z)
    (code : Signature) (owner : AccountId) : M unit :=
  let! _who := ensure_signed origin in
  let! unused := reads (fun s => bool_decide (nouce ∈ Redeems s)) in
  do! ensure unused (RedeemCodeError redeem_code.RedeemsHasBeenUsed) in
  let! (label, _) := ok_or (new_with_len name) (RedeemCodeError redeem_code.ParseLabelFailed) in
  let label_node := node label in
  let data := label_node ++ le_bytes 8 duration ++ le_bytes 4 nouce in
  let! signer := get_official_account in
  do! ensure (signature_verify code data signer) (RedeemCodeError redeem_code.InvalidSignature) in
  let node := encode_with_node label basenode in
  do! for_redeem_code name owner duration label in
  do! modify (upd_Redeems (fun r => r ∖ {[nouce]})) in
  deposit_event (RedeemCodeEvent (redeem_code.RedeemCodeUsed code node owner)).

Definition name_redeem_any (origin : RawOrigin) (name : bytes) (duration nouce : Z)
    (code : Signature) (owner : AccountId) : M unit :=
  let! _who := ensure_signed origin in
  let! unused := reads (fun s => bool_decide (nouce ∈ Redeems s)) in
  do! ensure unused (RedeemCodeError redeem_code.RedeemsHasBeenUsed) in
  let! (label, label_len) :=
    ok_or (new_with_len name) (RedeemCodeError redeem_code.ParseLabelFailed) in
  do! ensure (is_registrable label_len) (RedeemCodeError redeem_code.LabelLenInvalid) in
  let data := le_bytes 8 duration ++ le_bytes 4 nouce in
  let! signer := get_official_account in
  do! ensure (signature_verify code data signer) (RedeemCodeError redeem_code.InvalidSignature) in
  let node := encode_with_node label basenode in
  do! for_redeem_code name owner duration label in
  do! modify (upd_Redeems (fun r => r ∖ {[nouce]})) in
  deposit_event (RedeemCodeEvent (redeem_code.RedeemCodeUsed code node owner)).

(** ** Theorems *)

(** The loop ends when the bound leaves room for the counter to pass it. *)
Lemma mint_loop_ends fuel nouce end_ R :
  0 <= nouce <= end_ + 1 -> end_ < 2 ^ 32 - 1 -> end_ + 1 - nouce <= Z.of_nat fuel ->
  exists R', mint_loop fuel nouce end_ R = Some R' /\
    forall k, k ∈ R' <-> k ∈ R \/ nouce <= k <= end_.
Proof.
  assert (forall n (X : gset Z), end_ < n -> exists R', Some X = Some R' /\
    forall k, k ∈ R' <-> k ∈ X \/ n <= k <= end_) as Hstop.
  { intros n X Hlt. exists X. split; [done|]. intros k. split; [auto|]. intros [?|?]; [done|lia]. }
  revert nouce R. induction fuel as [|fuel IH]; intros nouce R Hn He Hf; cbn [mint_loop];
    destruct (Z.leb_spec nouce end_); cbn [negb]; auto; [lia|].
  rewrite wrapping_add_small by (unfold in_width; lia).
  destruct (IH (nouce + 1) ({[nouce]} ∪ R)) as (R' & -> & HR'); [lia..|].
  exists R'. split; [done|]. intros k. rewrite HR', elem_of_union, elem_of_singleton.
  split; [intros [[->|?]|?]|intros [?|?]]; auto with lia.
Qed.

(** With the largest bound the counter wraps and never passes it. *)
Lemma mint_loop_never_ends fuel nouce R :
  0 <= nouce < 2 ^ 32 -> mint_loop fuel nouce (2 ^ 32 - 1) R = None.
Proof.
  revert nouce R. induction fuel as [|fuel IH]; intros nouce R Hn; cbn [mint_loop];
    rewrite (proj2 (Z.leb_le _ _)) by lia; cbn [negb]; [done|].
  apply IH. unfold wrapping_add. apply Z.mod_pos_bound. lia.
Qed.

(** Minting a range of nonces ends and makes exactly the nonces of the range
    usable, both ends included, if the end is not the largest [u32]. *)
Theorem mint_redeem_mints_range (fuel : nat) (origin : RawOrigin) (who : AccountId)
    (start end_ : Z) (s : State)
    (Ho : manager_try_origin origin s = Some who) (Hrange : 0 <= start < end_)
    (Hend : end_ < 2 ^ 32 - 1) (Hfuel : end_ + 1 - start <= Z.of_nat fuel) :
  exists R, mint_redeem fuel origin start end_ s = Some (upd_Redeems (fun _ => R) s, Ok tt) /\
    forall k, k ∈ R <-> k ∈ Redeems s \/ start <= k <= end_.
Proof.
  unfold mint_redeem. rewrite Ho. rewrite (proj2 (Z.ltb_lt _ _)) by lia. cbn [negb].
  destruct (mint_loop_ends fuel start end_ (Redeems s)) as (R & -> & HR); [lia..|].
  by exists R.
Qed.

(** C29. Minting up to the largest [u32] never ends: the counter wraps to 0. *)
Theorem mint_redeem_diverges (fuel : nat) (origin : RawOrigin) (who : AccountId) (start : Z)
    (s : State) (Ho : manager_try_origin origin s = Some who) (Hrange : 0 <= start < 2 ^ 32 - 1) :
  mint_redeem fuel origin start (2 ^ 32 - 1) s = None.
Proof.
  unfold mint_redeem. rewrite Ho. rewrite (proj2 (Z.ltb_lt _ _)) by lia. cbn [negb].
  by rewrite mint_loop_never_ends by lia.
Qed.


(** ** Nonces *)

Context {HL : RecordHooksLaws HK}.

Lemma redeems_hook {A} (m : M A) :
  (forall s, same_but_resolvers s (m s).1) -> frames (fun s => Redeems s) m.
Proof. intros Hm s. by rewrite (Hm s). Qed.

Ltac solve_redeems :=
  repeat first
    [ progress solve_frames
    | match goal with
      | |- frames _ (record_origin _ _) => apply redeems_hook, record_origin_frame
      | |- frames _ (modify (Traits.clear_all_records _)) =>
          apply frames_modify; intros ?; by rewrite clear_all_records_frame
      end ].

Lemma redeems_clear_subnames n : frames (fun s => Redeems s) (clear_subnames n).
Proof.
  unfold clear_subnames, clear_child, Nft.burn, set_children. solve_redeems.
Qed.

Lemma redeems_for_redeem_code name to d lab :
  frames (fun s => Redeems s) (for_redeem_code name to d lab).
Proof.
  unfold for_redeem_code, get_official_account, ensure_no_name, mint_subname, pallet_mint_subname,
    verify_with_owner, mint_existing, mint_new, redeem_payments, forget_previous_owner,
    add_children_with_check, add_children, set_children, Nft.mint, Nft.transfer, deposit_event.
  solve_redeems; try apply redeems_clear_subnames.
Qed.

(** The two calls that redeem a code: for the name signed, or for any name. *)
Definition redeem_call (any : bool) :
    RawOrigin -> bytes -> Z -> Z -> Signature -> AccountId -> M unit :=
  if any then name_redeem_any else name_redeem.

Definition signed_data (any : bool) (lab : Label) (duration nouce : Z) : bytes :=
  (if any then [] else node lab) ++ le_bytes 8 duration ++ le_bytes 4 nouce.

Lemma redeem_used any who name d nouce code owner s :
  nouce ∉ Redeems s ->
  redeem_call any (RawOrigin.Signed who) name d nouce code owner s =
  (s, Err (RedeemCodeError redeem_code.RedeemsHasBeenUsed)).
Proof.
  intros Hn. destruct any; unfold redeem_call, name_redeem, name_redeem_any, bind, ensure_signed, ret,
    gets; by rewrite bool_decide_false.
Qed.

(** C28. A code is redeemed once: the nonce was minted and unused, the official
    account signed the name (or any name), the duration and the nonce; afterwards
    the nonce is spent, no other nonce is, and both calls refuse it. *)
Theorem redeem_code_single_use (any : bool) (who : AccountId) (name : bytes) (d nouce : Z)
    (code : Signature) (owner : AccountId) (s s' : State)
    (Hr : redeem_call any (RawOrigin.Signed who) name d nouce code owner s = (s', Ok tt)) :
  nouce ∈ Redeems s /\ Redeems s' = Redeems s ∖ {[nouce]} /\
  (exists official lab len, Official s = Some official /\ new_with_len name = Some (lab, len) /\
    signature_verify code (signed_data any lab d nouce) official = true) /\
  forall any' who' name' d' code' owner',
    redeem_call any' (RawOrigin.Signed who') name' d' nouce code' owner' s' =
    (s', Err (RedeemCodeError redeem_code.RedeemsHasBeenUsed)).
Proof.
  assert (nouce ∈ Redeems s /\ Redeems s' = Redeems s ∖ {[nouce]} /\
    exists official lab len, Official s = Some official /\ new_with_len name = Some (lab, len) /\
    signature_verify code (signed_data any lab d nouce) official = true) as (H1 & H2 & H3).
  { destruct any; unfold redeem_call, name_redeem_any, name_redeem, get_official_account in Hr; inv_call;
      match goal with Hf : for_redeem_code _ _ _ _ _ = _ |- _ =>
        apply (frames_run _ _ _ _ _ (redeems_for_redeem_code _ _ _ _)) in Hf end;
      simpl_state; (split_and!; [done|congruence|do 3 eexists; by split_and!]). }
  split_and!; try done. intros. apply redeem_used. rewrite H2. set_solver.
Qed.

End redeem_code.
