(* ===== verification/Auction.v ===== *)
(** * Auctions of names: [pallets/pns-registrar/src/auction.rs]

    A bid for an unregistered name opens an auction.  During its ending period the best
    bid so far is kept per sample of blocks ([Winning]); afterwards a random sample is
    drawn, the reserved bids are released, and the best bidder of that sample pays and
    receives the name.  The module is commented out of the crate.  The registry and
    registrar traits it calls are from an earlier version and no longer in the
    repository: they are parameters, like the reservable currency and the randomness.
    The weight [on_initialize] returns is not modelled. *)

From Stdlib Require Import ZArith Lia.
From stdpp Require Import base tactics numbers gmap sets fin_sets fin_maps option list_basics list sorting strings.
From S2P Require Import Prelude RustStr Types Storage.

Local Open Scope Z_scope.
Local Open Scope run_scope.

(** ** What the pallet takes from outside *)

(** The pallets the auction calls share the storage [Outside]. *)
Class AuctionLib `{E : Env} := {
  Outside : Type;
  OutsideError : Type;
  (** [T::Currency]; [unreserve] returns what was missing. *)
  reserve : AccountId -> Z -> Outside -> result OutsideError Outside;
  unreserve : AccountId -> Z -> Outside -> Outside * Z;
  pay : AccountId -> AccountId -> Z -> ExistenceRequirement -> Outside -> result OutsideError Outside;
  free_balance : Outside -> AccountId -> Z;
  reserved_balance : Outside -> AccountId -> Z;
  (** [traits::DomainName] *)
  DomainName : Type;
  domain_new : bytes -> option DomainName;
  domain_iter : DomainName -> list DomainHash;
  (** [T::Registrar] *)
  registrar_is_anctionable : Outside -> DomainName -> bool;
  for_auction_set_expires : DomainHash -> Outside -> Outside;
  (** [T::Registry]; a failing [mint] may leave changes behind. *)
  ClassData : Type;
  ClassData_Auction : ClassData;
  TokenData : Type;
  TokenData_Root : DomainHash -> TokenData;
  ResolverId : Type;
  ResolverId_default : ResolverId;
  registry_is_registered : Outside -> DomainHash -> bool;
  registry_mint : AccountId -> ClassData -> DomainHash -> ResolverId * Z * TokenData ->
    Outside -> Outside * result OutsideError unit;
  (** [T::Randomness]: a hash, and the block since which it was known. *)
  random : bytes -> Outside -> DomainHash * Z
}.

(** The constants of the pallet's [Config]; block numbers are [u32]. *)
Class AuctionConfig `{E : Env} := {
  Offical : AccountId;
  EndingPeriod : Z;
  MinimalAuctionPrice : Z;
  SampleLength : Z
}.

(** ** Data *)

Module AuctionStatus.

Inductive AuctionStatus :=
| StartingPeriod
| AuctionNotExist
| EndingPeriod (sample sub_sample : Z)
| VrfDelay (blocks : Z).

Definition is_in_progress (st : AuctionStatus) : bool :=
  match st with AuctionNotExist => false | _ => true end.

Definition is_starting (st : AuctionStatus) : bool :=
  match st with StartingPeriod => true | _ => false end.

Definition is_ending (st : AuctionStatus) : option (Z * Z) :=
  match st with EndingPeriod sample sub_sample => Some (sample, sub_sample) | _ => None end.

Definition is_vrf (st : AuctionStatus) : bool :=
  match st with VrfDelay _ => true | _ => false end.

End AuctionStatus.

Module auction.

Inductive auction_Error :=
| NameHasRegistered | AuctionNotExist | AuctionEnded | BidNotEnough | DomainBuildFailed
| UnAnctionable | GetNodeFailed.

Inductive auction_Event {E : Env} :=
| ControllerAdded (who : AccountId)
| AuctionStarted (start : Z) (node : DomainHash)
| WinningOffset (node : DomainHash) (offset : Z)
| Reserved (bidder : AccountId) (extra_reserved total_amount : Z)
| Unreserved (bidder : AccountId) (amount : Z)
| BidAccepted (bidder : AccountId) (node : DomainHash) (amount : Z)
| ReserveConfiscated (node : DomainHash) (winner : AccountId) (amount : Z).

Arguments ControllerAdded {E}.
Arguments AuctionStarted {E}.
Arguments WinningOffset {E}.
Arguments Reserved {E}.
Arguments Unreserved {E}.
Arguments BidAccepted {E}.
Arguments ReserveConfiscated {E}.

End auction.

(** How a function ends early: with an error of the pallet, of the origin check or of a
    pallet it calls, or with a panic. *)
Inductive AuctionFailure `{A : AuctionLib} :=
| AuctionError (e : auction.auction_Error)
| AuctionBadOrigin
| OutsideFailed (e : OutsideError)
| AuctionPanic.

Arguments AuctionError {E A}.
Arguments AuctionBadOrigin {E A}.
Arguments OutsideFailed {E A}.
Arguments AuctionPanic {E A}.

Record AuctionState `{A : AuctionLib} := mkAuctionState {
  AuctionInfo : gmap DomainHash Z;
  OngoingAuctions : gset DomainHash;
  ReservedAmounts : gmap (DomainHash * AccountId) Z;
  Winning : gmap (DomainHash * Z) (AccountId * Z);
  auction_block : Z;
  auction_events : list auction.auction_Event;
  outside_of : Outside
}.

Arguments mkAuctionState {E A}.

(** The order in which a [BTreeSet] of hashes is enumerated. *)
Fixpoint bytes_leb (a b : bytes) : bool :=
  match a, b with
  | [], _ => true
  | _ :: _, [] => false
  | x :: a', y :: b' => (x <? y) || ((x =? y) && bytes_leb a' b')
  end.

Definition bytes_le (a b : bytes) : Prop := bytes_leb a b = true.

#[global] Instance bytes_le_dec : RelDecision bytes_le.
Proof. intros a b. unfold bytes_le. apply _. Defined.

Definition btree_iter (X : gset DomainHash) : list DomainHash := merge_sort bytes_le (elements X).

(** [u32::decode] of the first bytes of a hash, little endian. *)
Definition decode_block_number (h : bytes) : option Z :=
  match h with
  | a :: b :: c :: d :: _ => Some (a + 2 ^ 8 * (b + 2 ^ 8 * (c + 2 ^ 8 * d)))
  | _ => None
  end.

Section auction_pallet.
Context `{E : Env} {A : AuctionLib} {K : AuctionConfig}.
Implicit Types s : AuctionState.

(** ** Storage *)

Definition set_info (f : gmap DomainHash Z -> gmap DomainHash Z) s : AuctionState :=
  mkAuctionState (f (AuctionInfo s)) (OngoingAuctions s) (ReservedAmounts s) (Winning s)
    (auction_block s) (auction_events s) (outside_of s).

Definition set_ongoing (f : gset DomainHash -> gset DomainHash) s : AuctionState :=
  mkAuctionState (AuctionInfo s) (f (OngoingAuctions s)) (ReservedAmounts s) (Winning s)
    (auction_block s) (auction_events s) (outside_of s).

Definition set_reserved (f : gmap (DomainHash * AccountId) Z -> gmap (DomainHash * AccountId) Z) s :
    AuctionState :=
  mkAuctionState (AuctionInfo s) (OngoingAuctions s) (f (ReservedAmounts s)) (Winning s)
    (auction_block s) (auction_events s) (outside_of s).

Definition set_winning
    (f : gmap (DomainHash * Z) (AccountId * Z) -> gmap (DomainHash * Z) (AccountId * Z)) s :
    AuctionState :=
  mkAuctionState (AuctionInfo s) (OngoingAuctions s) (ReservedAmounts s) (f (Winning s))
    (auction_block s) (auction_events s) (outside_of s).

Definition set_block (n : Z) s : AuctionState :=
  mkAuctionState (AuctionInfo s) (OngoingAuctions s) (ReservedAmounts s) (Winning s) n
    (auction_events s) (outside_of s).

Definition set_events (f : list auction.auction_Event -> list auction.auction_Event) s :
    AuctionState :=
  mkAuctionState (AuctionInfo s) (OngoingAuctions s) (ReservedAmounts s) (Winning s)
    (auction_block s) (f (auction_events s)) (outside_of s).

Definition set_outside (x : Outside) s : AuctionState :=
  mkAuctionState (AuctionInfo s) (OngoingAuctions s) (ReservedAmounts s) (Winning s)
    (auction_block s) (auction_events s) x.

Definition AM (T : Type) : Type := run AuctionState AuctionFailure T.

Definition auction_deposit_event (e : auction.auction_Event) : AM unit :=
  modify (set_events (fun l => l ++ [e])).

(** A call to another pallet that changes nothing when it fails. *)
Definition call_outside (f : Outside -> result OutsideError Outside) : AM unit := fun s =>
  match f (outside_of s) with
  | Ok x => (set_outside x s, Ok tt)
  | Err e => (s, Err (OutsideFailed e))
  end.

(** [m.unwrap_or_default()]: errors are dropped, panics are not. *)
Definition unwrap_or_default (m : AM unit) : AM unit := fun s =>
  match m s with
  | (s', Err AuctionPanic) => (s', Err AuctionPanic)
  | (s', _) => (s', Ok tt)
  end.

(** ** Operations *)

(** [T::SampleLength::get().max(One::one())] *)
Definition sample_length : Z := Z.max SampleLength 1.

Definition auction_status s (now : Z) (node : DomainHash) : AuctionStatus.AuctionStatus :=
  match AuctionInfo s !! node with
  | None => AuctionStatus.AuctionNotExist
  | Some start =>
      match checked_sub now start with
      | None => AuctionStatus.StartingPeriod
      | Some duration =>
          if duration <? EndingPeriod
          then AuctionStatus.EndingPeriod (duration / sample_length) (duration mod sample_length)
          else AuctionStatus.VrfDelay (duration - EndingPeriod)
      end
  end.

(** [offset.checked_sub(1).and_then(|sub_one| Winning::get(node, sub_one))] *)
Definition previous_winning s (node : DomainHash) (offset : Z) : option (AccountId * Z) :=
  match checked_sub offset 1 with
  | Some sub_one => Winning s !! (node, sub_one)
  | None => None
  end.

Definition do_new_auction (node : DomainHash) (amount : Z) : AM unit :=
  do! ensure (MinimalAuctionPrice <? amount) (AuctionError auction.BidNotEnough) in
  let! now := gets auction_block in
  do! modify (set_info (insert node now)) in
  do! modify (set_ongoing (fun X => {[node]} ∪ X)) in
  auction_deposit_event (auction.AuctionStarted now node).

(** The sample a bid counts for; the first bid opens the auction. *)
Definition bid_offset (node : DomainHash) (amount : Z) : AM Z :=
  let! now := gets auction_block in
  let! status := gets (fun s => auction_status s now node) in
  match status with
  | AuctionStatus.AuctionNotExist => do! do_new_auction node amount in ret 0
  | AuctionStatus.StartingPeriod => ret 0
  | AuctionStatus.EndingPeriod o _ => ret o
  | AuctionStatus.VrfDelay _ => throw (AuctionError auction.AuctionEnded)
  end.

(** A bid that beats the standing one. *)
Definition record_bid (bidder : AccountId) (node : DomainHash) (amount offset : Z) : AM unit :=
  let! already_reserved := gets (fun s => default 0 (ReservedAmounts s !! (node, bidder))) in
  do! match checked_sub amount already_reserved with
      | Some additional =>
          do! call_outside (reserve bidder additional) in
          do! modify (set_reserved (insert (node, bidder) amount)) in
          auction_deposit_event (auction.Reserved bidder additional amount)
      | None => ret tt
      end in
  do! modify (set_winning (insert (node, offset) (bidder, amount))) in
  auction_deposit_event (auction.BidAccepted bidder node amount).

Definition handle_bid (bidder : AccountId) (node : DomainHash) (amount : Z) : AM unit :=
  let! registered := gets (fun s => registry_is_registered (outside_of s) node) in
  do! ensure (negb registered) (AuctionError auction.NameHasRegistered) in
  let! offset := bid_offset node amount in
  let! current_winning := gets (fun s =>
    match Winning s !! (node, offset) with
    | Some w => Some w
    | None => previous_winning s node offset
    end) in
  if match current_winning with Some last => last.2 <? amount | None => true end
  then record_bid bidder node amount offset
  else ret tt.

Definition bid (origin : RawOrigin) (name : bytes) (amount : Z) : AM unit :=
  let! who := match origin with RawOrigin.Signed who => ret who | _ => throw AuctionBadOrigin end in
  let! domain := ok_or (domain_new name) (AuctionError auction.DomainBuildFailed) in
  let! anctionable := gets (fun s => registrar_is_anctionable (outside_of s) domain) in
  do! ensure anctionable (AuctionError auction.UnAnctionable) in
  let! node := ok_or (last (domain_iter domain)) (AuctionError auction.GetNodeFailed) in
  handle_bid who node amount.

(** [Winning::remove_prefix(node, None)] *)
Definition clear_winning (node : DomainHash) : AM unit :=
  modify (set_winning (filter (fun p => p.1.1 <> node))).

Definition check_auction_end (now : Z) (node : DomainHash) : AM (option (AccountId * Z)) :=
  let! info := gets (fun s => AuctionInfo s !! node) in
  match info with
  | None => ret None
  | Some start_time =>
      let late_end := saturating_add 32 start_time EndingPeriod in
      if late_end <=? now then
        let! (raw_offset, known_since) :=
          gets (fun s => random (b_str "pns_auction") (outside_of s)) in
        if late_end <=? known_since then
          let! raw := ok_or (decode_block_number raw_offset) AuctionPanic in
          do! ensure (negb (EndingPeriod =? 0)) AuctionPanic in
          let offset := raw mod EndingPeriod / sample_length in
          do! auction_deposit_event (auction.WinningOffset node offset) in
          let! res := gets (fun s => Winning s !! (node, offset)) in
          do! clear_winning node in
          do! modify (set_info (delete node)) in
          ret res
        else ret None
      else ret None
  end.

(** [ReservedAmounts::drain_prefix(node)]: the entries of the name, in the order of the
    storage, are removed one by one. *)
Definition reserved_for (node : DomainHash) s : list (AccountId * Z) :=
  omap (fun p => if decide (p.1.1 = node) then Some (p.1.2, p.2) else None)
    (map_to_list (ReservedAmounts s)).

Definition release_bid (node : DomainHash) (entry : AccountId * Z) : AM unit :=
  do! modify (set_reserved (delete (node, entry.1))) in
  modify (fun s => set_outside (unreserve entry.1 entry.2 (outside_of s)).1 s).

Definition manage_auction_end (node : DomainHash) (winner_data : AccountId * Z) : AM unit :=
  let! entries := gets (reserved_for node) in
  do! for_each (release_bid node) entries in
  let '(winner, bid_value) := winner_data in
  do! call_outside (pay winner Offical bid_value KeepAlive) in
  do! modify (fun s => set_outside (for_auction_set_expires node (outside_of s)) s) in
  fun s =>
    match registry_mint winner ClassData_Auction node (ResolverId_default, 10, TokenData_Root node)
            (outside_of s) with
    | (x, Ok _) => (set_outside x s, Ok tt)
    | (x, Err e) => (set_outside x s, Err (OutsideFailed e))
    end.

(** The body of the loop of [on_initialize]. *)
Definition sample_winning (n : Z) (node : DomainHash) : AM unit :=
  let! status := gets (fun s => auction_status s n node) in
  match status with
  | AuctionStatus.EndingPeriod offset _ =>
      let! present := gets (fun s => bool_decide (is_Some (Winning s !! (node, offset)))) in
      if present : bool then ret tt else
      let! found := gets (fun s => previous_winning s node offset) in
      let! winning_data := ok_or found AuctionPanic in
      modify (set_winning (insert (node, offset) winning_data))
  | _ => ret tt
  end.

Definition finish_auction (n : Z) (node : DomainHash) : AM unit :=
  let! ended := check_auction_end n node in
  match ended with
  | Some winner_data => unwrap_or_default (manage_auction_end node winner_data)
  | None => ret tt
  end.

Definition on_initialize (n : Z) : AM unit :=
  let! nodes := gets OngoingAuctions in
  for_each (fun node => do! sample_winning n node in finish_auction n node) (btree_iter nodes).

End auction_pallet.
