(* ===== verification/AuctionInv.v ===== *)
(** * What auctions guarantee

    The pallet of [Auction.v] as a transition system: bids, new blocks, and whatever the
    other pallets do in between.  Every auction keeps [node_inv]: the samples up to the
    current one have a best bid, best bids only rise, and their bidders have reserved
    what they bid.  So the hook of a new block never panics. *)

From Stdlib Require Import ZArith Lia.
From stdpp Require Import base tactics numbers gmap sets fin_sets fin_maps option list_basics list sorting relations strings.
From S2P Require Import Prelude RustStr Types Storage Auction.

Local Open Scope Z_scope.
Local Open Scope run_scope.

(** The hash of [Randomness] is longer than a block number, and the ending period is not
    empty. *)
Class AuctionLaws `{E : Env} (A : AuctionLib) (K : AuctionConfig) : Prop := {
  random_long : forall subject x, (4 <= length (random subject x).1)%nat;
  ending_period_pos : 0 < EndingPeriod
}.

(** [ReservableCurrency]: reserving moves free balance to the reserved balance, and
    unreserving what is reserved moves it back. *)
Class ReserveLaws `{E : Env} (A : AuctionLib) : Prop := {
  reserve_moves : forall a v x x' b, reserve a v x = Ok x' ->
    free_balance x' b = free_balance x b - (if decide (b = a) then v else 0) /\
    reserved_balance x' b = reserved_balance x b + (if decide (b = a) then v else 0);
  unreserve_moves : forall a v x b, 0 <= v <= reserved_balance x a ->
    free_balance (unreserve a v x).1 b = free_balance x b + (if decide (b = a) then v else 0) /\
    reserved_balance (unreserve a v x).1 b = reserved_balance x b - (if decide (b = a) then v else 0)
}.

Section auction_inv.
Context `{E : Env} {A : AuctionLib} {K : AuctionConfig}.
Implicit Types s : AuctionState.

(** ** The transition system *)

(** A call is rolled back on error; a new block runs the hook; the other pallets change
    their own storage.  Block numbers stay clear of the end of [u32]. *)
Inductive auction_step : AuctionState -> AuctionState -> Prop :=
| step_bid o name amount s : 0 <= amount ->
    auction_step s (with_storage_layer (bid o name amount) s).1
| step_block s s' :
    auction_block s + 1 + EndingPeriod < 2 ^ 32 ->
    on_initialize (auction_block s + 1) (set_block (auction_block s + 1) s) = (s', Ok tt) ->
    auction_step s s'
| step_outside x s : auction_step s (set_outside x s).

Definition auction_new (block : Z) (x : Outside) : AuctionState :=
  mkAuctionState ∅ ∅ ∅ ∅ block [] x.

(** States reached from a chain without auctions. *)
Definition auction_reachable s : Prop :=
  exists block x, 0 <= block /\ block + EndingPeriod < 2 ^ 32 /\
    rtc auction_step (auction_new block x) s.

(** ** The invariant *)

(** The sample of block [b] in an auction that started at [start]; the last one once the
    ending period is over. *)
Definition current_sample (b start : Z) : Z := Z.min (b - start) (EndingPeriod - 1) / sample_length.

Record auction_at (b start : Z) s (n : DomainHash) : Prop := {
  at_start : 0 <= start <= b;
  at_ongoing : n ∈ OngoingAuctions s;
  at_winning : forall k, is_Some (Winning s !! (n, k)) <-> 0 <= k <= current_sample b start;
  at_rising : forall k k' w w', Winning s !! (n, k) = Some w -> Winning s !! (n, k') = Some w' ->
    k <= k' -> w.2 <= w'.2;
  at_funded : forall k a v, Winning s !! (n, k) = Some (a, v) ->
    exists r, ReservedAmounts s !! (n, a) = Some r /\ v <= r;
  at_reserved : forall a r, ReservedAmounts s !! (n, a) = Some r ->
    0 <= r /\ exists w, Winning s !! (n, current_sample b start) = Some w /\ r <= w.2
}.

Definition node_inv (b : Z) s (n : DomainHash) : Prop :=
  match AuctionInfo s !! n with
  | Some start => auction_at b start s n
  | None => (forall k, Winning s !! (n, k) = None) /\ (forall a, ReservedAmounts s !! (n, a) = None)
  end.

Definition auction_inv s : Prop :=
  0 <= auction_block s /\ auction_block s + EndingPeriod < 2 ^ 32 /\
  forall n, node_inv (auction_block s) s n.

(** ** Theorems *)

(** *** Framing: a name's auction depends on its own entries only *)

Record same_at (n : DomainHash) s s' : Prop := {
  sa_info : AuctionInfo s' !! n = AuctionInfo s !! n;
  sa_ongoing : n ∈ OngoingAuctions s -> n ∈ OngoingAuctions s';
  sa_winning : forall k, Winning s' !! (n, k) = Winning s !! (n, k);
  sa_reserved : forall a, ReservedAmounts s' !! (n, a) = ReservedAmounts s !! (n, a)
}.

#[global] Instance same_at_preorder n : PreOrder (same_at n).
Proof.
  split; [done|]. intros s1 s2 s3 [I1 O1 W1 R1] [I2 O2 W2 R2].
  split; intros; rewrite ?I2, ?W2, ?R2; auto.
Qed.

Lemma node_inv_same b n s s' : same_at n s s' -> node_inv b s n -> node_inv b s' n.
Proof.
  intros [Hi Ho Hw Hr]. unfold node_inv. rewrite Hi. destruct (AuctionInfo s !! n) as [start|].
  - intros []. split; auto; setoid_rewrite Hw; try setoid_rewrite Hr; eauto.
  - intros [H1 H2]. split; intros; rewrite ?Hw, ?Hr; auto.
Qed.

Lemma sample_length_pos : 0 < sample_length.
Proof. unfold sample_length. lia. Qed.

(** A block later the sample is the same or the next one. *)
Lemma current_sample_succ b start :
  current_sample b start <= current_sample (b + 1) start <= current_sample b start + 1.
Proof.
  unfold current_sample. pose proof sample_length_pos as Hp. split.
  - apply Z.div_le_mono; lia.
  - replace (_ / _ + 1) with
      ((Z.min (b - start) (EndingPeriod - 1) + 1 * sample_length) / sample_length)
      by (apply Z.div_add; lia).
    apply Z.div_le_mono; lia.
Qed.

Lemma current_sample_ending b start :
  b - start < EndingPeriod -> current_sample b start = (b - start) / sample_length.
Proof. intros Hb. unfold current_sample. f_equal. lia. Qed.

(** After the ending period the sample stays the last one. *)
Lemma current_sample_late b start :
  EndingPeriod <= b + 1 - start -> current_sample (b + 1) start = current_sample b start.
Proof. intros Hb. unfold current_sample. f_equal. lia. Qed.

(** *** Bids *)

(** An auction at its current sample, all of whose bids and reservations are below [amount]. *)
Record open_below (b start amount : Z) s (n : DomainHash) : Prop := {
  ob_start : 0 <= start <= b;
  ob_ongoing : n ∈ OngoingAuctions s;
  ob_domain : forall k, is_Some (Winning s !! (n, k)) -> 0 <= k <= current_sample b start;
  ob_before : forall k, 0 <= k < current_sample b start -> is_Some (Winning s !! (n, k));
  ob_rising : forall k k' w w', Winning s !! (n, k) = Some w -> Winning s !! (n, k') = Some w' ->
    k <= k' -> w.2 <= w'.2;
  ob_funded : forall k a v, Winning s !! (n, k) = Some (a, v) ->
    exists r, ReservedAmounts s !! (n, a) = Some r /\ v <= r;
  ob_below : forall k w, Winning s !! (n, k) = Some w -> w.2 < amount;
  ob_reserved : forall a r, ReservedAmounts s !! (n, a) = Some r -> 0 <= r < amount
}.

Lemma current_sample_nonneg b start :
  0 < EndingPeriod -> start <= b -> 0 <= current_sample b start.
Proof.
  intros. unfold current_sample. apply Z.div_pos; [lia|apply sample_length_pos].
Qed.

(** A bid over the standing one becomes the best bid of the current sample. *)
Lemma auction_at_bid b start amount bidder n s s' :
  0 < EndingPeriod -> 0 <= amount -> open_below b start amount s n ->
  OngoingAuctions s' = OngoingAuctions s ->
  Winning s' = <[(n, current_sample b start) := (bidder, amount)]> (Winning s) ->
  ReservedAmounts s' = <[(n, bidder) := amount]> (ReservedAmounts s) ->
  auction_at b start s' n.
Proof.
  intros HE Ha [O1 O2 O3 O4 O5 O6 O7 O8] Ho Hw Hr.
  pose proof (current_sample_nonneg b start HE ltac:(lia)) as Hc. set (cur := current_sample b start) in *.
  assert (forall k, Winning s' !! (n, k) =
    if decide (k = cur) then Some (bidder, amount) else Winning s !! (n, k)) as Hw'.
  { intros k. rewrite Hw. case_decide as Hk; [subst; apply lookup_insert_eq|].
    apply lookup_insert_ne. congruence. }
  assert (forall a, ReservedAmounts s' !! (n, a) =
    if decide (a = bidder) then Some amount else ReservedAmounts s !! (n, a)) as Hr'.
  { intros a. rewrite Hr. case_decide; [subst; apply lookup_insert_eq|].
    apply lookup_insert_ne. congruence. }
  split; [done|by rewrite Ho|..].
  - intros k. rewrite Hw'. case_decide; [split; [lia|eauto]|]. split; [apply O3|].
    intros Hk. apply O4. fold cur. lia.
  - intros k k' w w'. rewrite !Hw'. repeat case_decide; intros ?? Hk; simplify_eq; simpl; [lia|..].
    + assert (k' <= cur) by (apply O3; eauto). lia.
    + specialize (O7 k w ltac:(done)). lia.
    + eauto.
  - intros k a v. rewrite Hw', Hr'. repeat case_decide; intros; simplify_eq; [eauto with lia|..|eauto].
    exists amount. split; [done|]. specialize (O7 k (bidder, v) ltac:(done)). simpl in O7. lia.
  - assert (Winning s' !! (n, cur) = Some (bidder, amount)) as Hcur by (by rewrite Hw', decide_True).
    intros a r. rewrite Hr'. fold cur. rewrite Hcur. case_decide; intros Har; simplify_eq;
      [|apply O8 in Har]; (split; [lia|]); eexists; (split; [done|]); simpl; lia.
Qed.

Lemma auction_at_open b start amount w n s :
  0 < EndingPeriod -> auction_at b start s n ->
  Winning s !! (n, current_sample b start) = Some w -> w.2 < amount -> open_below b start amount s n.
Proof.
  intros HE [A1 A2 A3 A4 A5 A6] Hw Hlt. split; auto.
  - intros k Hk. by apply A3.
  - intros k Hk. apply A3. lia.
  - intros k w' Hk. assert (k <= current_sample b start) by (apply A3; eauto).
    specialize (A4 _ _ _ _ Hk Hw ltac:(done)). lia.
  - intros a r Har. destruct (A6 _ _ Har) as (? & w' & Hw' & ?). simplify_eq. lia.
Qed.

Lemma record_bid_Ok bidder n amount k s s' :
  default 0 (ReservedAmounts s !! (n, bidder)) <= amount ->
  record_bid bidder n amount k s = (s', Ok tt) ->
  exists ev x, reserve bidder (amount - default 0 (ReservedAmounts s !! (n, bidder))) (outside_of s) = Ok x /\
    s' = mkAuctionState (AuctionInfo s) (OngoingAuctions s)
           (<[(n, bidder) := amount]> (ReservedAmounts s)) (<[(n, k) := (bidder, amount)]> (Winning s))
           (auction_block s) ev x.
Proof.
  intros Hle Hr. unfold record_bid, auction_deposit_event in Hr. inv_ok.
  unfold checked_sub in Hrun0. rewrite (proj2 (Z.leb_le _ _) Hle) in Hrun0. inv_ok.
  unfold call_outside in Hrun. destruct (reserve _ _ _) as [x|] eqn:Hx; [|done].
  injection Hrun as <-. eexists _, x. split; [done|]. reflexivity.
Qed.

Lemma bid_offset_Ok n amount s s' k :
  0 < EndingPeriod -> 0 <= auction_block s -> node_inv (auction_block s) s n ->
  bid_offset n amount s = (s', Ok k) ->
  exists start, k = current_sample (auction_block s) start /\ 
    ((s' = s /\ AuctionInfo s !! n = Some start) \/
     (AuctionInfo s !! n = None /\ start = auction_block s /\ exists ev,
      s' = mkAuctionState (<[n := start]> (AuctionInfo s)) ({[n]} ∪ OngoingAuctions s)
             (ReservedAmounts s) (Winning s) (auction_block s) ev (outside_of s))).
Proof.
  intros HE Hb Hinv Hr. unfold bid_offset, auction_status in Hr. inv_ok. unfold node_inv in Hinv.
  destruct (AuctionInfo s !! n) as [start|] eqn:Hi.
  - exists start. pose proof (at_start _ _ _ _ Hinv) as Hst.
    assert (checked_sub (auction_block s) start = Some (auction_block s - start)) as Hc
      by (apply checked_sub_Some; lia).
    rewrite Hc in Hr. destruct (Z.ltb_spec (auction_block s - start) EndingPeriod); inv_ok.
    rewrite current_sample_ending by done. auto.
  - unfold do_new_auction, auction_deposit_event in Hr. inv_ok.
    exists (auction_block s). split.
    + unfold current_sample. rewrite Z.sub_diag, Z.min_l by lia. done.
    + right. split_and!; [done..|]. eexists. reflexivity.
Qed.

Lemma record_bid_inv bidder n amount start s s' :
  let b := auction_block s in
  0 < EndingPeriod -> 0 <= amount -> AuctionInfo s !! n = Some start ->
  open_below b start amount s n -> record_bid bidder n amount (current_sample b start) s = (s', Ok tt) ->
  auction_block s' = b /\ node_inv b s' n /\ forall m, m <> n -> same_at m s s'.
Proof.
  intros b HE Ha Hi Ho Hr. apply record_bid_Ok in Hr as (ev & x & _ & ->).
  2:{ destruct (ReservedAmounts s !! (n, bidder)) as [r|] eqn:Hres; simpl; [|done].
      apply (ob_reserved _ _ _ _ _ Ho) in Hres. lia. }
  split_and!; [done|..].
  - unfold node_inv. simpl. rewrite Hi. by apply (auction_at_bid b start amount bidder n s).
  - intros m Hm. split; simpl; intros; try done; apply lookup_insert_ne; congruence.
Qed.

Lemma handle_bid_inv bidder n amount s s' :
  0 < EndingPeriod -> 0 <= amount -> auction_inv s -> handle_bid bidder n amount s = (s', Ok tt) ->
  auction_block s' = auction_block s /\ node_inv (auction_block s) s' n /\
  forall m, m <> n -> same_at m s s'.
Proof.
  intros HE Ha (Hb0 & Hb1 & Hinv) Hr. specialize (Hinv n). unfold handle_bid in Hr. inv_ok.
  apply bid_offset_Ok in Hrun1 as (start & -> & [[-> Hi]|(Hi & -> & ev & ->)]); [..|done|done|done].
  - unfold node_inv in Hinv. rewrite Hi in Hinv.
    pose proof (current_sample_nonneg _ _ HE (proj2 (at_start _ _ _ _ Hinv))) as Hc.
    destruct (Winning s !! _) as [w|] eqn:Hw.
    2:{ exfalso. apply (is_Some_None (A := AccountId * Z)). rewrite <- Hw. apply (at_winning _ _ _ _ Hinv). lia. }
    destruct (Z.ltb_spec w.2 amount).
    + apply (record_bid_inv bidder n amount start); [done..| |done].
      by apply (auction_at_open _ _ _ w).
    + inv_ok. split_and!; [done|by unfold node_inv; rewrite Hi|done].
  - unfold node_inv in Hinv. rewrite Hi in Hinv. destruct Hinv as [Hw Hres].
    assert (current_sample (auction_block s) (auction_block s) = 0) as Hz.
    { unfold current_sample. by rewrite Z.sub_diag, Z.min_l by lia. }
    rewrite Hz in Hr. unfold previous_winning in Hr. simpl in Hr. rewrite Hw in Hr.
    rewrite <- Hz in Hr.
    match type of Hr with record_bid _ _ _ _ ?t = _ =>
      destruct (record_bid_inv bidder n amount (auction_block s) t s' HE Ha) as (H1 & H2 & H3);
        [apply lookup_insert_eq| |exact Hr|] end.
    + split; simpl; [lia|set_solver|intros k; rewrite Hw; by intros []|intros k ?; lia|..];
        intros *; rewrite ?Hw, ?Hres; done.
    + split_and!; [done..|]. intros m Hm. etrans; [|by apply H3].
      split; simpl; intros; try done; [by apply lookup_insert_ne|set_solver].
Qed.

(** *** New blocks *)

Lemma auction_at_same b b' start n s :
  b <= b' -> current_sample b' start = current_sample b start ->
  auction_at b start s n -> auction_at b' start s n.
Proof. intros Hb Hc [A1 A2 A3 A4 A5 A6]. rewrite <- Hc in *. split; auto. lia. Qed.

(** A new sample starts with the best bid of the one before. *)
Lemma auction_at_next b start w n s s' :
  current_sample (b + 1) start = current_sample b start + 1 -> 0 <= current_sample b start ->
  auction_at b start s n -> Winning s !! (n, current_sample b start) = Some w ->
  OngoingAuctions s' = OngoingAuctions s -> ReservedAmounts s' = ReservedAmounts s ->
  Winning s' = <[(n, current_sample (b + 1) start) := w]> (Winning s) ->
  auction_at (b + 1) start s' n.
Proof.
  intros Hc H0 [A1 A2 A3 A4 A5 A6] Hcur Ho Hr Hw. rewrite Hc in Hw.
  set (cur := current_sample b start) in *.
  assert (forall k, Winning s' !! (n, k) =
    if decide (k = cur + 1) then Some w else Winning s !! (n, k)) as Hw'.
  { intros k. rewrite Hw. case_decide as Hk; [subst; apply lookup_insert_eq|].
    apply lookup_insert_ne. congruence. }
  split; [lia|by rewrite Ho|..]; rewrite ?Hc; setoid_rewrite Hw'; setoid_rewrite Hr || idtac.
  - intros k. case_decide; [split; [lia|eauto]|]. rewrite A3. fold cur. lia.
  - intros k k' v v'. repeat case_decide; intros ?? Hk; simplify_eq; [lia|..|eauto].
    + assert (k' <= cur) by (apply A3; eauto). lia.
    + apply (A4 k cur); [done..|]. apply A3. eauto.
  - intros k a v. case_decide; intros; simplify_eq; eauto.
  - intros a r Har. rewrite decide_True by done. destruct (A6 _ _ Har) as (? & w' & ? & ?).
    simplify_eq. eauto.
Qed.

Lemma sample_winning_inv b n s :
  0 < EndingPeriod -> 0 <= b -> node_inv b s n ->
  exists f, let s' := set_winning f s in
    sample_winning (b + 1) n s = (s', Ok tt) /\ node_inv (b + 1) s' n /\
    forall m, m <> n -> same_at m s s'.
Proof.
  intros HE Hb Hinv. unfold sample_winning, auction_status. unfold bind, gets at 1. cbv beta iota.
  assert (s = set_winning id s) as Hid by (by destruct s).
  unfold node_inv in Hinv. destruct (AuctionInfo s !! n) as [start|] eqn:Hi.
  2:{ exists id. cbv zeta. rewrite <- Hid. split_and!; [done|by unfold node_inv; rewrite Hi|done]. }
  pose proof (at_start _ _ _ _ Hinv) as Hst.
  pose proof (current_sample_nonneg b start HE ltac:(lia)) as H0.
  assert (checked_sub (b + 1) start = Some (b + 1 - start)) as -> by (apply checked_sub_Some; lia).
  destruct (Z.ltb_spec (b + 1 - start) EndingPeriod) as [Hlt|Hge].
  2:{ exists id. cbv zeta. rewrite <- Hid. split_and!; [done| |done]. unfold node_inv. rewrite Hi.
      apply (auction_at_same b); [lia|by apply current_sample_late|done]. }
  rewrite <- current_sample_ending by done.
  pose proof (current_sample_succ b start) as Hs. unfold gets. simpl. case_bool_decide as Hp.
  - exists id. cbv zeta. rewrite <- Hid. split_and!; [done| |done]. unfold node_inv. rewrite Hi.
    apply (at_winning _ _ _ _ Hinv) in Hp. apply (auction_at_same b); [lia|lia|done].
  - assert (current_sample (b + 1) start = current_sample b start + 1) as Hc.
    { rewrite (at_winning _ _ _ _ Hinv) in Hp. lia. }
    destruct (proj2 (at_winning _ _ _ _ Hinv (current_sample b start)) ltac:(lia)) as [w Hw].
    unfold previous_winning. rewrite (proj2 (checked_sub_Some _ _ (current_sample b start))) by lia.
    rewrite Hw. exists (insert (n, current_sample (b + 1) start) w). split_and!; [done|..].
    + unfold node_inv. simpl. rewrite Hi. by apply (auction_at_next b start w n s).
    + intros m Hm. split; simpl; intros; try done. apply lookup_insert_ne. congruence.
Qed.

(** *** The end of an auction *)

(** What releasing a list of bids does to the currency and to the reservations. *)
Definition unreserve_all (l : list (AccountId * Z)) (x : Outside) : Outside :=
  foldl (fun x e => (unreserve e.1 e.2 x).1) x l.

Definition drop_all (n : DomainHash) (l : list (AccountId * Z)) (R : gmap (DomainHash * AccountId) Z) :
    gmap (DomainHash * AccountId) Z :=
  foldl (fun R e => delete (n, e.1) R) R l.

Lemma release_all_Ok n l s :
  for_each (release_bid n) l s =
  (set_outside (unreserve_all l (outside_of s)) (set_reserved (drop_all n l) s), Ok tt).
Proof. revert s. induction l as [|e l IH]; intros s; [by destruct s|]. apply IH. Qed.

Lemma drop_all_lookup n l R m a :
  drop_all n l R !! (m, a) = if decide (m = n /\ a ∈ l.*1) then None else R !! (m, a).
Proof.
  revert R. induction l as [|e l IH]; intros R; simpl.
  { rewrite decide_False; [done|]. intros [_ Hin]. by apply elem_of_nil in Hin. }
  unfold drop_all in *. rewrite IH. destruct (decide ((m, a) = (n, e.1))) as [[= -> ->]|Hne].
  - rewrite lookup_delete_eq. rewrite (decide_True (P := _ /\ _ ∈ _ :: _)) by set_solver. by case_decide.
  - rewrite lookup_delete_ne by congruence. repeat case_decide; set_solver.
Qed.

Lemma elem_of_reserved_for n s a v :
  (a, v) ∈ reserved_for n s <-> ReservedAmounts s !! (n, a) = Some v.
Proof.
  unfold reserved_for. rewrite list_elem_of_omap. split.
  - intros ([[m b] u] & Hin & Heq). simpl in Heq. case_decide; simplify_eq.
    by apply elem_of_map_to_list in Hin.
  - intros Hl. exists ((n, a), v). rewrite elem_of_map_to_list. by rewrite decide_True.
Qed.

(** Draining the reservations of a name leaves none of it and all of the others. *)
Lemma drained n s m a :
  drop_all n (reserved_for n s) (ReservedAmounts s) !! (m, a) =
  if decide (m = n) then None else ReservedAmounts s !! (m, a).
Proof.
  rewrite drop_all_lookup. repeat case_decide; try done; [naive_solver|].
  subst m. destruct (ReservedAmounts s !! (n, a)) as [v|] eqn:Hv; [|done]. exfalso.
  apply elem_of_reserved_for in Hv. destruct H. split; [done|]. by apply (list_elem_of_fmap_2' fst _ (a, v)).
Qed.

Lemma manage_end_storage n wd s :
  exists x r, manage_auction_end n wd s =
    (set_outside x (set_reserved (drop_all n (reserved_for n s)) s), r) /\ r <> Err AuctionPanic.
Proof.
  unfold manage_auction_end. unfold bind at 1, gets. cbv beta iota.
  rewrite (bind_run _ _ _ _ _ (release_all_Ok n _ s)). destruct wd as [winner v].
  unfold bind, call_outside, modify. simpl. destruct (pay _ _ _ _ _) as [x|e]; simpl.
  - destruct (registry_mint _ _ _ _ _) as [x' [[]|e]]; by eexists x', _.
  - by eexists _, _.
Qed.

(** The sample drawn at random, and the storage once the auction of [n] is closed with it. *)
Definition drawn_sample (x : Outside) : Z :=
  default 0 (decode_block_number (random (b_str "pns_auction") x).1) mod EndingPeriod / sample_length.

Definition closed (n : DomainHash) s : AuctionState :=
  mkAuctionState (delete n (AuctionInfo s)) (OngoingAuctions s) (ReservedAmounts s)
    (filter (fun p => p.1.1 <> n) (Winning s)) (auction_block s)
    (auction_events s ++ [auction.WinningOffset n (drawn_sample (outside_of s))]) (outside_of s).

(** When an auction is over: its ending period has passed and the seed is younger. *)
Definition is_over (b start : Z) (x : Outside) : bool :=
  (start + EndingPeriod <=? b) && (start + EndingPeriod <=? (random (b_str "pns_auction") x).2).

Context {L : AuctionLaws A K}.

Lemma decode_long h : (4 <= length h)%nat -> is_Some (decode_block_number h).
Proof. destruct h as [|? [|? [|? [|? ?]]]]; simpl; intros; [lia..|eauto]. Qed.

Lemma drawn_sample_bounds b start x :
  start + EndingPeriod <= b -> 0 <= drawn_sample x <= current_sample b start.
Proof.
  intros Hb. pose proof ending_period_pos as HE. pose proof sample_length_pos as Hp.
  unfold drawn_sample, current_sample. rewrite Z.min_r by lia.
  match goal with |- context [?r mod EndingPeriod] =>
    pose proof (Z.mod_pos_bound r EndingPeriod HE) as Hr end.
  split; [apply Z.div_pos; lia|apply Z.div_le_mono; lia].
Qed.

Lemma check_auction_end_spec b n s :
  0 <= b -> b + EndingPeriod < 2 ^ 32 -> node_inv b s n ->
  match AuctionInfo s !! n with
  | Some start =>
      if is_over b start (outside_of s)
      then exists w, Winning s !! (n, drawn_sample (outside_of s)) = Some w /\
        check_auction_end b n s = (closed n s, Ok (Some w))
      else check_auction_end b n s = (s, Ok None)
  | None => check_auction_end b n s = (s, Ok None)
  end.
Proof.
  intros Hb Hu Hinv. unfold node_inv in Hinv.
  destruct (AuctionInfo s !! n) as [start|] eqn:Hi; unfold check_auction_end.
  all: unfold bind, gets; rewrite ?Hi; try done.
  pose proof ending_period_pos as HE. pose proof (at_start _ _ _ _ Hinv) as Hst. unfold is_over.
  assert (saturating_add 32 start EndingPeriod = start + EndingPeriod) as ->
    by (unfold saturating_add; lia).
  destruct (Z.leb_spec (start + EndingPeriod) b) as [Hle|]; simpl; [|done].
  pose proof (decode_long _ (random_long (b_str "pns_auction") (outside_of s))) as [r Hr].
  pose proof (drawn_sample_bounds b start (outside_of s) Hle) as Hk.
  apply (at_winning _ _ _ _ Hinv) in Hk as [w Hw]. rewrite Hw.
  unfold drawn_sample, closed in *. unfold drawn_sample. rewrite Hr in Hw |- *.
  destruct (random _ _) as [raw since]. simpl in *.
  destruct (Z.leb_spec (start + EndingPeriod) since); [|done].
  exists w. split; [done|]. rewrite Hr. unfold ok_or, ret, ensure.
  rewrite (proj2 (Z.eqb_neq _ _)) by lia. simpl. by rewrite Hw.
Qed.

(** A name whose auction is over has no entry left. *)
Lemma closed_inv b n s x :
  let s' := set_outside x (set_reserved (drop_all n (reserved_for n (closed n s))) (closed n s)) in
  node_inv b s' n /\ forall m, m <> n -> same_at m s s'.
Proof.
  intros s'. assert (ReservedAmounts s' = drop_all n (reserved_for n s) (ReservedAmounts s)) as Hr by done.
  split.
  - unfold node_inv. simpl. rewrite lookup_delete_eq. split.
    + intros k. rewrite map_lookup_filter_None. right. intros w _ Hf. by apply Hf.
    + intros a. change (ReservedAmounts s' !! (n, a) = None). by rewrite Hr, drained, decide_True.
  - intros m Hm. split; simpl; [by apply lookup_delete_ne|done|..].
    + intros k. rewrite map_lookup_filter. by destruct (Winning s !! (m, k)); simpl; rewrite ?option_guard_True.
    + intros a. change (ReservedAmounts s' !! (m, a) = ReservedAmounts s !! (m, a)).
      by rewrite Hr, drained, decide_False.
Qed.

Lemma finish_auction_inv b n s :
  0 <= b -> b + EndingPeriod < 2 ^ 32 -> node_inv b s n ->
  exists s', finish_auction b n s = (s', Ok tt) /\ auction_block s' = auction_block s /\
    node_inv b s' n /\ forall m, m <> n -> same_at m s s'.
Proof.
  intros Hb Hu Hinv. pose proof (check_auction_end_spec b n s Hb Hu Hinv) as Hc.
  unfold finish_auction. destruct (AuctionInfo s !! n) as [start|].
  2:{ rewrite (bind_run _ _ _ _ _ Hc). by exists s. }
  destruct (is_over b start (outside_of s)); [|rewrite (bind_run _ _ _ _ _ Hc); by exists s].
  destruct Hc as (w & _ & Hc). rewrite (bind_run _ _ _ _ _ Hc).
  destruct (manage_end_storage n w (closed n s)) as (x & r & Hm & Hr).
  destruct (closed_inv b n s x) as [H1 H2]. eexists. split.
  - unfold unwrap_or_default. rewrite Hm. destruct r as [[]|[]]; reflexivity || done.
  - split_and!; done.
Qed.

Lemma hook_loop_inv b l s :
  NoDup l -> 0 <= b -> b + 1 + EndingPeriod < 2 ^ 32 ->
  (forall n, n ∈ l -> node_inv b s n) -> (forall n, n ∉ l -> node_inv (b + 1) s n) ->
  exists s', for_each (fun n => do! sample_winning (b + 1) n in finish_auction (b + 1) n) l s =
    (s', Ok tt) /\ auction_block s' = auction_block s /\ forall n, node_inv (b + 1) s' n.
Proof.
  intros Hnd Hb Hu. revert s. induction Hnd as [|n l Hn Hnd IH]; intros s Hin Hout.
  { exists s. split_and!; [done..|]. intros n. apply Hout. by intros ?%elem_of_nil. }
  destruct (sample_winning_inv b n s ending_period_pos Hb (Hin n ltac:(left)))
    as (f & Hs1 & Hi1 & Hf1). set (s1 := set_winning f s) in *.
  destruct (finish_auction_inv (b + 1) n s1 ltac:(lia) Hu Hi1) as (s2 & Hs2 & Hb2 & Hi2 & Hf2).
  destruct (IH s2) as (s' & Hs' & Hb' & Hi').
  - intros m Hm. assert (m <> n) by set_solver.
    apply (node_inv_same _ _ s1), (node_inv_same _ _ s); auto. apply Hin. by right.
  - intros m Hm. destruct (decide (m = n)) as [->|Hne]; [done|].
    apply (node_inv_same _ _ s1), (node_inv_same _ _ s); auto. apply Hout. set_solver.
  - exists s'. split_and!; [|by rewrite Hb', Hb2|done]. cbn [for_each].
    unfold bind at 1 2. rewrite Hs1. cbv beta iota. by rewrite Hs2.
Qed.

Lemma on_initialize_inv s :
  auction_inv s -> auction_block s + 1 + EndingPeriod < 2 ^ 32 ->
  exists s', on_initialize (auction_block s + 1) (set_block (auction_block s + 1) s) = (s', Ok tt) /\
    auction_inv s'.
Proof.
  intros (Hb & _ & Hinv) Hu. set (b := auction_block s) in *.
  assert (forall n, same_at n s (set_block (b + 1) s)) as Hsame by (intros n; by split).
  destruct (hook_loop_inv b (btree_iter (OngoingAuctions s)) (set_block (b + 1) s)) as (s' & Hs' & Hb' & Hi').
  - unfold btree_iter. rewrite merge_sort_Permutation. apply NoDup_elements.
  - done.
  - done.
  - intros n _. by apply (node_inv_same _ _ s).
  - intros n Hn. apply (node_inv_same _ _ s); [done|]. specialize (Hinv n). unfold node_inv in *.
    destruct (AuctionInfo s !! n) as [start|]; [|done]. destruct Hn. unfold btree_iter.
    rewrite merge_sort_Permutation. apply elem_of_elements, Hinv.
  - exists s'. split; [exact Hs'|]. unfold auction_inv. rewrite Hb'. simpl. split_and!; [lia..|done].
Qed.

Lemma auction_step_inv s s' : auction_step s s' -> auction_inv s -> auction_inv s'.
Proof.
  intros Hstep Hinv. destruct Hstep as [o name amount s Ha|s s' Hu Hr|x s].
  - unfold with_storage_layer. destruct (bid o name amount s) as [s' [[]|]] eqn:Hr; [|done].
    simpl. unfold bid in Hr. inv_ok. destruct o; inv_ok.
    apply handle_bid_inv in Hr as (Hb & Hn & Hm); [|apply ending_period_pos|done|done].
    destruct Hinv as (? & ? & Hinv). unfold auction_inv. rewrite Hb. split_and!; [done..|]. intros m.
    match type of Hn with node_inv _ _ ?n =>
      destruct (decide (m = n)) as [->|Hne]; [done|by apply (node_inv_same _ _ s); [apply Hm|]] end.
  - destruct (on_initialize_inv s Hinv Hu) as (s1 & Hs1 & ?). congruence.
  - destruct Hinv as (? & ? & Hinv). split_and!; [done..|]. intros n. by apply (node_inv_same _ _ s).
Qed.

Lemma auction_reachable_inv s : auction_reachable s -> auction_inv s.
Proof.
  intros (b & x & Hb & Hu & Hr). assert (auction_inv (auction_new b x)) as H0.
  { split_and!; [done..|]. intros n. by split. }
  induction Hr as [|s1 s2 s3 Hstep _ IH]; [done|]. eauto using auction_step_inv.
Qed.

(** C32. The hook of a new block never panics: in every reachable state it returns, whatever
    bids were made and whatever the other pallets did, and no auction is left without a
    best bid for a sample that can be drawn. *)
Theorem auction_hook_never_panics (s : AuctionState) :
  auction_reachable s -> auction_block s + 1 + EndingPeriod < 2 ^ 32 ->
  exists s', on_initialize (auction_block s + 1) (set_block (auction_block s + 1) s) = (s', Ok tt) /\
    forall n start k, AuctionInfo s' !! n = Some start ->
      is_Some (Winning s' !! (n, k)) <-> 0 <= k <= current_sample (auction_block s') start.
Proof.
  intros Hr Hu. destruct (on_initialize_inv s (auction_reachable_inv s Hr) Hu) as (s' & Hs' & _ & _ & Hi).
  exists s'. split; [done|]. intros n start k Hn. specialize (Hi n). unfold node_inv in Hi.
  rewrite Hn in Hi. apply Hi.
Qed.

(** C30. Bids only rise and are backed: in every reachable state an open auction has a
    standing bid, no bid of an earlier sample is above a later one, the bidder of each
    sample has reserved at least that bid, and nobody has reserved more than the
    standing bid. *)
Theorem auction_bids_rise_and_are_backed (s : AuctionState) (n : DomainHash) (start : Z) :
  auction_reachable s -> AuctionInfo s !! n = Some start ->
  exists best, Winning s !! (n, current_sample (auction_block s) start) = Some best /\
    (forall k k' w w', Winning s !! (n, k) = Some w -> Winning s !! (n, k') = Some w' ->
       k <= k' -> w.2 <= w'.2 <= best.2) /\
    (forall k a v, Winning s !! (n, k) = Some (a, v) ->
       exists r, ReservedAmounts s !! (n, a) = Some r /\ v <= r <= best.2) /\
    (forall a r, ReservedAmounts s !! (n, a) = Some r -> 0 <= r <= best.2).
Proof.
  intros Hr Hn. destruct (auction_reachable_inv s Hr) as (Hb & _ & Hinv). specialize (Hinv n).
  unfold node_inv in Hinv. rewrite Hn in Hinv. destruct Hinv as [A1 A2 A3 A4 A5 A6].
  pose proof (current_sample_nonneg _ _ ending_period_pos (proj2 A1)) as H0.
  destruct (proj2 (A3 (current_sample (auction_block s) start)) ltac:(lia)) as [best Hbest].
  assert (forall a r, ReservedAmounts s !! (n, a) = Some r -> 0 <= r <= best.2) as Hle.
  { intros a r Har. destruct (A6 _ _ Har) as (? & w & Hw & ?). simplify_eq. lia. }
  exists best. split_and!; [done|..|done].
  - intros k k' w w' Hw Hw' Hk. split; [by apply (A4 k k')|].
    apply (A4 k' (current_sample (auction_block s) start)); [done..|]. apply A3. eauto.
  - intros k a v Hw. destruct (A5 _ _ _ Hw) as (r & Har & ?). exists r. split; [done|].
    apply Hle in Har. lia.
Qed.

(** *** Settlement *)

(** The account's reservation for the auction of [n]. *)
Definition reservation s (n : DomainHash) (a : AccountId) : Z :=
  default 0 (ReservedAmounts s !! (n, a)).

(** What happens outside once the bids are released: the winner pays, then receives the
    name; a failing step ends it. *)
Definition settle (n : DomainHash) (winner : AccountId) (v : Z) (x : Outside) : Outside :=
  match pay winner Offical v KeepAlive x with
  | Err _ => x
  | Ok x1 => (registry_mint winner ClassData_Auction n (ResolverId_default, 10, TokenData_Root n)
                (for_auction_set_expires n x1)).1
  end.

Lemma reserved_for_NoDup n s : NoDup (reserved_for n s).*1.
Proof.
  unfold reserved_for. pose proof (NoDup_fst_map_to_list (ReservedAmounts s)) as Hnd.
  induction (map_to_list (ReservedAmounts s)) as [|[[m a] v] l IH]; [constructor|].
  apply NoDup_cons in Hnd as [Hn Hnd]. simpl. case_decide; simpl; [|by apply IH].
  constructor; [|by apply IH]. intros ([b u] & -> & Hin)%list_elem_of_fmap.
  apply list_elem_of_omap in Hin as ([[m' b'] u'] & Hin & Heq). simpl in Heq. case_decide; simplify_eq.
  destruct Hn. by apply (list_elem_of_fmap_2' fst _ ((n, b), u)).
Qed.

Lemma unreserve_all_moves {RL : ReserveLaws A} l x b :
  NoDup l.*1 -> (forall a r, (a, r) ∈ l -> 0 <= r <= reserved_balance x a) ->
  (forall r, (b, r) ∈ l -> free_balance (unreserve_all l x) b = free_balance x b + r /\
     reserved_balance (unreserve_all l x) b = reserved_balance x b - r) /\
  (b ∉ l.*1 -> free_balance (unreserve_all l x) b = free_balance x b /\
     reserved_balance (unreserve_all l x) b = reserved_balance x b).
Proof.
  revert x. induction l as [|[a v] l IH]; intros x Hnd Hback.
  { split; [|done]. by intros r ?%elem_of_nil. }
  apply NoDup_cons in Hnd as [Ha Hnd]. simpl in Ha.
  pose proof (fun c => unreserve_moves a v x c (Hback a v ltac:(left))) as Hm.
  assert (forall c r, (c, r) ∈ l -> c <> a) as Hne.
  { intros c r Hin ->. destruct Ha. by apply (list_elem_of_fmap_2' fst _ (a, r)). }
  destruct (IH (unreserve a v x).1 Hnd) as [IH1 IH2].
  { intros c r Hin. destruct (Hm c) as [_ ->]. rewrite decide_False by eauto.
    rewrite Z.sub_0_r. apply Hback. by right. }
  destruct (Hm b) as [Hf Hr]. simpl in *. split.
  - intros r [[= -> ->]|Hin]%elem_of_cons.
    + rewrite decide_True in Hf, Hr by done. destruct (IH2 Ha) as [-> ->]. by rewrite Hf, Hr.
    + rewrite decide_False in Hf, Hr by eauto. destruct (IH1 r Hin) as [-> ->]. rewrite Hf, Hr. lia.
  - intros [Hb Hin]%not_elem_of_cons. rewrite decide_False in Hf, Hr by done.
    destruct (IH2 Hin) as [-> ->]. rewrite Hf, Hr. lia.
Qed.

Lemma refund {RL : ReserveLaws A} n s b :
  (forall a r, ReservedAmounts s !! (n, a) = Some r -> 0 <= r <= reserved_balance (outside_of s) a) ->
  let x := unreserve_all (reserved_for n s) (outside_of s) in
  free_balance x b = free_balance (outside_of s) b + reservation s n b /\
  reserved_balance x b = reserved_balance (outside_of s) b - reservation s n b.
Proof.
  intros Hback x. destruct (unreserve_all_moves (reserved_for n s) (outside_of s) b) as [H1 H2].
  { apply reserved_for_NoDup. }
  { intros a r Hin. apply Hback. by apply elem_of_reserved_for. }
  unfold reservation. destruct (ReservedAmounts s !! (n, b)) as [r|] eqn:Hr; simpl.
  - apply H1. by apply elem_of_reserved_for.
  - rewrite Z.add_0_r, Z.sub_0_r. apply H2. intros ([a v] & -> & Hin)%list_elem_of_fmap.
    apply elem_of_reserved_for in Hin. simpl in *. congruence.
Qed.

Lemma manage_end_Ok n winner v s :
  exists s', unwrap_or_default (manage_auction_end n (winner, v)) s = (s', Ok tt) /\
    outside_of s' = settle n winner v (unreserve_all (reserved_for n s) (outside_of s)) /\
    AuctionInfo s' = AuctionInfo s /\ Winning s' = Winning s /\
    ReservedAmounts s' = drop_all n (reserved_for n s) (ReservedAmounts s).
Proof.
  unfold unwrap_or_default, manage_auction_end, settle. unfold bind at 1, gets.
  rewrite (bind_run _ _ _ _ _ (release_all_Ok n _ s)). unfold bind, call_outside, modify. simpl.
  destruct (pay _ _ _ _ _) as [x|e]; simpl; [|by eexists].
  destruct (registry_mint _ _ _ _ _) as [x' [[]|e]]; by eexists.
Qed.

(** C31. An auction settles: once its ending period is over and the seed is young enough, the
    best bid of the sample drawn wins.  Every bidder gets back exactly what they had
    reserved for the name, the winner at least the bid; then the winner pays and the name
    is minted, and nothing of the auction is left.  Errors of the payment and of the mint
    are dropped: after a failing payment the name stays unsold, after a failing mint the
    winner has paid for nothing, and the auction is over in both cases. *)
Theorem auction_settles {RL : ReserveLaws A} (b : Z) (n : DomainHash) (start : Z) (s : AuctionState) :
  0 <= b -> b + EndingPeriod < 2 ^ 32 -> node_inv b s n -> AuctionInfo s !! n = Some start ->
  is_over b start (outside_of s) = true ->
  (forall a r, ReservedAmounts s !! (n, a) = Some r -> r <= reserved_balance (outside_of s) a) ->
  exists winner v x s', finish_auction b n s = (s', Ok tt) /\
    Winning s !! (n, drawn_sample (outside_of s)) = Some (winner, v) /\
    v <= reservation s n winner /\
    (forall a, free_balance x a = free_balance (outside_of s) a + reservation s n a /\
       reserved_balance x a = reserved_balance (outside_of s) a - reservation s n a) /\
    outside_of s' = settle n winner v x /\
    AuctionInfo s' !! n = None /\ (forall k, Winning s' !! (n, k) = None) /\
    (forall a, ReservedAmounts s' !! (n, a) = None).
Proof.
  intros Hb Hu Hinv Hn Hover Hback. pose proof (check_auction_end_spec b n s Hb Hu Hinv) as Hc.
  rewrite Hn, Hover in Hc. destruct Hc as ([winner v] & Hw & Hc).
  unfold node_inv in Hinv. rewrite Hn in Hinv.
  destruct (manage_end_Ok n winner v (closed n s)) as (s' & Hs' & Hx & Hinfo & Hwin & Hres).
  exists winner, v, (unreserve_all (reserved_for n s) (outside_of s)), s'. split_and!; [|done|..].
  - unfold finish_auction. by rewrite (bind_run _ _ _ _ _ Hc).
  - destruct (at_funded _ _ _ _ Hinv _ _ _ Hw) as (r & Hr & ?). unfold reservation. by rewrite Hr.
  - intros a. apply refund. intros c r Hr. split; [apply (at_reserved _ _ _ _ Hinv _ _ Hr)|eauto].
  - exact Hx.
  - rewrite Hinfo. apply lookup_delete_eq.
  - intros k. rewrite Hwin. simpl. apply map_lookup_filter_None. right. intros w _ Hf. by apply Hf.
  - intros a. rewrite Hres.
    change (drop_all n (reserved_for n s) (ReservedAmounts s) !! (n, a) = None).
    by rewrite drained, decide_True.
Qed.

(** A finished auction stays in the set the hook walks through. *)
Lemma hook_keeps_ongoing b : frames OngoingAuctions (on_initialize b).
Proof.
  assert (forall m, frames OngoingAuctions m -> frames OngoingAuctions (unwrap_or_default m)) as Hunwrap.
  { intros m Hm s. specialize (Hm s). unfold unwrap_or_default. by destruct (m s) as [s' [|[]]]. }
  assert (forall n wd, frames OngoingAuctions (manage_auction_end n wd)) as Hmanage.
  { intros n wd s. by destruct (manage_end_storage n wd s) as (x & r & -> & _). }
  unfold on_initialize, sample_winning, finish_auction, check_auction_end, clear_winning,
    auction_deposit_event. solve_frames. by apply Hunwrap.
Qed.

End auction_inv.
