(* ===== verification/Template.v ===== *)
(** * The sample pallet: [pallets/template/src/lib.rs]

    A stored number that any account can set and increment.  The runtime includes the
    pallet, so its two calls are calls of the chain. *)

From Stdlib Require Import ZArith Lia.
From stdpp Require Import base tactics numbers option.
From S2P Require Import Prelude Storage.

Local Open Scope Z_scope.
Local Open Scope run_scope.

Section template.
Context `{E : Env}.
Implicit Types s : State.

Definition do_something (origin : RawOrigin) (something : Z) : M unit :=
  let! who := ensure_signed origin in
  do! modify (upd_Something (fun _ => Some something)) in
  deposit_event (TemplateEvent (template.SomethingStored something who)).

Definition cause_error (origin : RawOrigin) : M unit :=
  let! _who := ensure_signed origin in
  let! stored := reads Something in
  match stored with
  | None => throw (TemplateError template.NoneValue)
  | Some old =>
      let! new := ok_or (checked_add 32 old 1) (TemplateError template.StorageOverflow) in
      modify (upd_Something (fun _ => Some new))
  end.

(** ** Theorems *)

(** The number stays a [u32]: an increment of the largest one is refused. *)
Lemma cause_error_width o s s' n :
  cause_error o s = (s', Ok tt) -> Something s = Some n -> in_width 32 n ->
  Something s' = Some (n + 1) /\ in_width 32 (n + 1).
Proof.
  intros Hr Hn Hw. unfold cause_error, ensure_signed in Hr. destruct o; try discriminate Hr.
  unfold bind, gets, ret in Hr. simpl in Hr. rewrite Hn in Hr.
  destruct (checked_add 32 n 1) as [m|] eqn:Hm; [|discriminate Hr].
  apply checked_add_Some in Hm as [-> Hb]. injection Hr as <-. simpl_state.
  unfold in_width in *. split; [done|lia].
Qed.

End template.
