(* ===== verification/Runtime.v ===== *)
(** * The runtime: [runtime/src/configs/mod.rs], [runtime/src/apis.rs] and
      [runtime/src/genesis_config_presets.rs]

    How the runtime wires the pallets together: its constants, the record hooks,
    the manager origin and the registry checker as instances of the classes of
    [Traits.v]; every call of the pallets under [pallets] as one type; the runtime
    API; and the genesis preset.  The origin and redemption-code pallets are not part of
    this runtime. *)

From Stdlib Require Import ZArith Lia.
From Stdlib Require Import Strings.String.
From stdpp Require Import base tactics numbers gmap sets fin_sets fin_maps option list_basics list.
From S2P Require Import Prelude RustStr Types Storage Label Nft Traits PriceOracle Resolvers.
From S2P Require Import Registry Registrar Marketplace Template.

Local Open Scope Z_scope.
Local Open Scope run_scope.

(** ** Constants *)

Definition MILLI_SECS_PER_BLOCK : Z := 6000.
Definition MINUTES : Z := 60000 / MILLI_SECS_PER_BLOCK.
Definition HOURS : Z := MINUTES * 60.
Definition DAYS : Z := HOURS * 24.

(** The constants of [configs/mod.rs]; [kusama] is the cargo feature. *)
Definition runtime_config (kusama : bool) : Config := {|
  GracePeriod := 30 * DAYS * MILLI_SECS_PER_BLOCK;
  DefaultCapacity := 10;
  BaseNode := NATIVE_BASENODE kusama;
  MinRegistrationDuration := 28 * DAYS * MILLI_SECS_PER_BLOCK;
  MaxRegistrationDuration := 365 * DAYS * MILLI_SECS_PER_BLOCK;
  MaxContentLen := 1024;
  MaxClassMetadata := 0;
  MaxTokenMetadata := 0;
  ProtocolFeeBps := 200
|}.

Section runtime.
Context `{E : Env} `{C : Config}.
Implicit Types s : State.

(** [EnsureRootAsAccountId] *)
#[global] Instance EnsureRootAsAccountId : ManagerOrigin := {|
  manager_try_origin := fun o _ =>
    match o with
    | RawOrigin.Root => Some (account_new (replicate 32 0))
    | _ => None
    end
|}.

(** [PnsIsOpen] *)
#[global] Instance PnsIsOpen : IsOpen := {| is_open := fun _ => true |}.

(** [PnsSs58Updater], [PnsOriginRecorder] and [PnsRecordCleaner] *)
#[global] Instance pns_hooks : RecordHooks := {|
  update_ss58 := Resolvers.set_ss58_record;
  record_origin := Resolvers.set_origin_record;
  Traits.clear_records_except_ss58 := Resolvers.clear_records_except_ss58;
  Traits.clear_all_records := Resolvers.clear_all_records
|}.

#[global] Instance pns_hooks_laws : RecordHooksLaws pns_hooks.
Proof.
  split; unfold same_but_resolvers; simpl.
  - intros n a s. unfold set_ss58_record, bind, ok_or, throw, ret, modify.
    destruct (bounded_vec _ _); by destruct s.
  - intros n h s. unfold set_origin_record, bind, ok_or, throw, ret, modify.
    destruct (bounded_vec _ _); by destruct s.
  - intros n s. by destruct s.
  - intros n s. by destruct s.
Qed.

(** [PnsRegistryChecker::check_node_useable] *)
Definition pns_check_node_useable s (node : DomainHash) (owner : AccountId) : bool :=
  match (verify owner node s).2 with
  | Err _ => false
  | Ok _ =>
      match get_info s node with
      | Some _ =>
          match (Registrar.check_expires_useable node s).2 with
          | Ok _ => true
          | Err _ => false
          end
      | None => true
      end
  end.

#[global] Instance PnsRegistryChecker : RegistryChecker := {|
  check_node_useable := pns_check_node_useable;
  checker_base_node := BaseNode
|}.

(** ** Calls *)

(** The calls of the pallets under [pallets]; those of the library pallets (balances,
    sudo and so on) are not modelled. *)
Inductive RuntimeCall :=
| SetExchangeRate (rate : Z)
| SetBasePrice (prices : list Z)
| SetRentPrice (prices : list Z)
| RegistryBurn (name : bytes)
| SetOfficial (official : AccountId)
| AddReserved (name : bytes)
| RemoveReserved (name : bytes)
| Register (name : bytes) (owner : LookupSource) (reject_offer : option bytes)
| Renew
| TransferName (to : LookupSource)
| ReleaseName
| OfferSubdomain (label : bytes) (target : LookupSource)
| AcceptSubdomain (parent label : bytes)
| RejectSubdomain (parent label : bytes)
| RevokeSubdomain (label : bytes)
| ReleaseSubdomain (parent label : bytes)
| AcceptOfferedName (name : bytes)
| SetRecordCall (name : bytes) (rt : codec_type.RecordType) (content : bytes)
| SetTextCall (name : bytes) (kind : TextKind) (content : bytes)
| CreateListing (price expires_at : Z)
| CancelListing
| BuyName (name : bytes) (recipient : option AccountId)
| DoSomething (something : Z)
| CauseError.

Definition call_body (origin : RawOrigin) (c : RuntimeCall) : M unit :=
  match c with
  | SetExchangeRate rate => set_exchange_rate origin rate
  | SetBasePrice prices => set_base_price origin prices
  | SetRentPrice prices => set_rent_price origin prices
  | RegistryBurn name => Registry.burn origin name
  | SetOfficial official => set_official origin official
  | AddReserved name => add_reserved origin name
  | RemoveReserved name => remove_reserved origin name
  | Register name owner reject_offer => register origin name owner reject_offer
  | Renew => renew origin
  | TransferName to => Registrar.transfer origin to
  | ReleaseName => release_name origin
  | OfferSubdomain label target => offer_subdomain origin label target
  | AcceptSubdomain parent label => accept_subdomain origin parent label
  | RejectSubdomain parent label => reject_subdomain origin parent label
  | RevokeSubdomain label => revoke_subdomain origin label
  | ReleaseSubdomain parent label => release_subdomain origin parent label
  | AcceptOfferedName name => accept_offered_name origin name
  | SetRecordCall name rt content => set_record origin name rt content
  | SetTextCall name kind content => set_text origin name kind content
  | CreateListing price expires_at => create_listing origin price expires_at
  | CancelListing => cancel_listing origin
  | BuyName name recipient => buy_name origin name recipient
  | DoSomething something => do_something origin something
  | CauseError => cause_error origin
  end.

(** A dispatched call: FRAME wraps it in a storage layer. *)
Definition dispatch (origin : RawOrigin) (c : RuntimeCall) : M unit :=
  with_storage_layer (call_body origin c).

(** ** The runtime API *)

(** The body [get_info] and [resolve_name] share. *)
Definition name_record s (node : DomainHash) : option (NameRecord AccountId) :=
  if bool_decide (is_Some (OfferedNames s !! node)) then None else
  match get_info s node with
  | None => None
  | Some info =>
      if ri_expire info <=? now s then None else
      match tokens s 0 node with
      | None => None
      | Some token =>
          Some (mkNameRecord (ti_owner token) (ri_expire info) (ri_capacity info)
                  (ri_register_fee info) (bool_decide (is_Some (Listings s !! node)))
                  (ri_last_block info) 0 DomainHash_default)
      end
  end.

Definition api_get_info s (id : DomainHash) : option (NameRecord AccountId) := name_record s id.

Definition api_all s : list (DomainHash * RegistrarInfo) := Registrar.all s.

Definition api_lookup s (id : DomainHash) (record_types : list codec_type.RecordType) :
    list (codec_type.RecordType * bytes) := Resolvers.lookup s id record_types.

Definition api_get_listing s (name : bytes) : option (ListingInfo AccountId) :=
  match new_with_len name with
  | None => None
  | Some (label, _) =>
      let node := encode_with_node label BaseNode in
      match Listings s !! node with
      | None => None
      | Some l => Some (mkListingInfo (seller l) (price l) (expires_at l) 0 DomainHash_default)
      end
  end.

Definition api_resolve_name s (name : bytes) : option (NameRecord AccountId) :=
  match new_with_len name with
  | None => None
  | Some (label, _) => name_record s (encode_with_node label BaseNode)
  end.

Definition api_lookup_by_name s (name : bytes) (record_types : list codec_type.RecordType) :
    list (codec_type.RecordType * bytes) :=
  let node := default DomainHash_default (parse_name_to_node name BaseNode) in
  Resolvers.lookup s node record_types.

Definition api_get_subname s (node : DomainHash) : option (SubnameRecord AccountId) :=
  SubnameRecords s !! node.

Definition api_account_dashboard s (owner : AccountId) : AccountDashboard :=
  mkAccountDashboard
    (OwnerToPrimaryName s !! owner)
    (elements (prefix owner (AccountToSubnames s)))
    (elements (prefix owner (OfferedToAccount s)))
    (map fst (filter (fun p => on_recipient p.2 = owner) (map_to_list (OfferedNames s)))).

(** ** The genesis preset *)

Definition UNIT : Z := 1000000000000.

Definition base_prices : list Z :=
  [1000 * UNIT; 100 * UNIT; 45 * UNIT; 25 * UNIT; 10 * UNIT; UNIT / 2; UNIT / 2; UNIT / 2;
   UNIT / 2; UNIT / 2; UNIT / 2].

Definition reserved_names : list bytes := map b_str [
  "polkadot"; "kusama"; "paseo"; "westend"; "fellowship"; "hub"; "polkadothub"; "assethub";
  "collectives"; "pusd"; "pop"; "revive"; "jam"; "people"; "dap"]%string.

(** A chain before genesis: empty storage, with the balances and the block given. *)
Definition empty_state (number : Z) (hash : bytes) (time : Z) (c : CurrencyState) : State :=
  mkState
    (mkNftStorage 0 ∅ ∅ ∅)
    (mkRegistryStorage ∅ ∅ ∅ ∅ ∅ None)
    (mkRegistrarStorage ∅ ∅ ∅ ∅)
    (mkResolversStorage ∅ ∅)
    (mkMarketplaceStorage ∅)
    (mkPriceOracleStorage (replicate 11 0) (replicate 11 0) 0)
    (mkOriginStorage ∅ true)
    (mkRedeemCodeStorage ∅)
    (mkTemplateStorage None)
    (mkSystemStorage number hash time c []).

Definition testnet_genesis (root : AccountId) : M unit :=
  do! Nft.genesis_build [(root, [], [(root, [], NodeRecord_default, BaseNode)])] in
  do! modify (price_oracle_build base_prices (replicate 11 0) 1) in
  do! modify (registry_build [] (Some root)) in
  modify (registrar_build [] [] reserved_names).

End runtime.
