(* ===== verification/Weights.v ===== *)
(** * Declared weights of the calls

    The [WeightInfo] traits of the pallets, their implementation for the unit type, and
    the weight every call of the runtime declares before it is dispatched.  Weights
    themselves are a library type. *)

From Stdlib Require Import ZArith Lia.
From stdpp Require Import base tactics numbers option list_basics list.
From S2P Require Import Prelude Types Storage Label Runtime.

Local Open Scope Z_scope.

(** [sp_weights::Weight] and the database's weights of [frame_system]. *)
Class WeightLib := {
  Weight : Type;
  weight_zero : Weight;
  from_parts : Z -> Z -> Weight;
  weight_add : Weight -> Weight -> Weight;
  saturating_add : Weight -> Weight -> Weight;
  db_reads : Z -> Weight;
  db_writes : Z -> Weight
}.

(** Documented of [Weight]: addition is by components. *)
Class WeightLaws (W : WeightLib) : Prop := {
  weight_add_zero : weight_add weight_zero weight_zero = weight_zero
}.

Section weights.
Context {W : WeightLib}.

(** ** The traits *)

Class PriceOracleWeights := {
  w_set_exchange_rate : Weight;
  w_set_base_price : Weight;
  w_set_rent_price : Weight
}.

Class RegistryWeights := { w_burn : Weight; w_set_official : Weight }.

Class RegistrarWeights := {
  w_offer_subdomain : Z -> Weight;
  w_accept_subdomain : Weight;
  w_reject_subdomain : Weight;
  w_revoke_subdomain : Weight;
  w_release_subdomain : Weight;
  w_accept_offered_name : Weight;
  w_register : Z -> Weight;
  w_renew : Weight;
  w_transfer : Weight;
  w_add_reserved : Weight;
  w_remove_reserved : Weight;
  w_release_name : Weight
}.

Class ResolversWeights := { w_set_text : Z -> Weight; w_set_record : Z -> Weight }.

Class MarketplaceWeights := {
  w_create_listing : Weight;
  w_cancel_listing : Weight;
  w_buy_name : Weight
}.

Class OriginWeights := {
  w_set_registrar_open : Weight;
  w_set_origin_true : Weight;
  w_set_origin_false : Weight;
  w_set_origin_for_root_true : Weight;
  w_set_origin_for_root_false : Weight
}.

Class RedeemCodeWeights := {
  w_mint_redeem : Z -> Weight;
  w_create_label : Z -> Weight;
  w_for_redeem_code : Z -> Weight;
  w_name_redeem_min : Weight;
  w_name_redeem_any_min : Weight
}.

Class TemplateWeights := { w_do_something : Weight; w_cause_error : Weight }.

(** The methods with a body of their own. *)
Definition set_origin_weight {O : OriginWeights} (approved : bool) : Weight :=
  if approved then w_set_origin_true else w_set_origin_false.

Definition set_origin_for_root_weight {O : OriginWeights} (approved : bool) : Weight :=
  if approved then w_set_origin_for_root_true else w_set_origin_for_root_false.

(** [u32] subtraction with overflow checks; [None] is the panic. *)
Definition sub_u32 (a b : Z) : option Z := if b <=? a then Some (a - b) else None.

Definition name_redeem_weight {R : RedeemCodeWeights} (len : Z) : option Weight :=
  x ← sub_u32 len LABEL_MIN_LEN;
  Some (weight_add (weight_add (w_create_label x) (w_for_redeem_code x)) w_name_redeem_min).

Definition name_redeem_any_weight {R : RedeemCodeWeights} (len : Z) : option Weight :=
  x ← sub_u32 len MIN_REGISTRABLE_LEN;
  Some (weight_add (weight_add (w_create_label x) (w_for_redeem_code x)) w_name_redeem_any_min).

(** [end.checked_sub(start).unwrap_or_default()] *)
Definition mint_redeem_weight {R : RedeemCodeWeights} (start end_ : Z) : Weight :=
  w_mint_redeem (default 0 (sub_u32 end_ start)).

(** ** [impl WeightInfo for ()] *)

#[export] Instance unit_oracle_weights : PriceOracleWeights := {|
  w_set_exchange_rate := weight_zero;
  w_set_base_price := weight_zero;
  w_set_rent_price := weight_zero
|}.

#[export] Instance unit_registry_weights : RegistryWeights := {|
  w_burn := weight_zero;
  w_set_official := weight_zero
|}.

#[export] Instance unit_registrar_weights : RegistrarWeights := {|
  w_offer_subdomain := fun _ => weight_zero;
  w_accept_subdomain := weight_zero;
  w_reject_subdomain := weight_zero;
  w_revoke_subdomain := weight_zero;
  w_release_subdomain := weight_zero;
  w_accept_offered_name := weight_zero;
  w_register := fun _ => weight_zero;
  w_renew := weight_zero;
  w_transfer := weight_zero;
  w_add_reserved := weight_zero;
  w_remove_reserved := weight_zero;
  w_release_name := weight_zero
|}.

#[export] Instance unit_resolvers_weights : ResolversWeights := {|
  w_set_text := fun _ => weight_zero;
  w_set_record := fun _ => weight_zero
|}.

#[export] Instance unit_marketplace_weights : MarketplaceWeights := {|
  w_create_listing := weight_zero;
  w_cancel_listing := weight_zero;
  w_buy_name := weight_zero
|}.

#[export] Instance unit_origin_weights : OriginWeights := {|
  w_set_registrar_open := weight_zero;
  w_set_origin_true := weight_zero;
  w_set_origin_false := weight_zero;
  w_set_origin_for_root_true := weight_zero;
  w_set_origin_for_root_false := weight_zero
|}.

#[export] Instance unit_redeem_weights : RedeemCodeWeights := {|
  w_mint_redeem := fun _ => weight_zero;
  w_create_label := fun _ => weight_zero;
  w_for_redeem_code := fun _ => weight_zero;
  w_name_redeem_min := weight_zero;
  w_name_redeem_any_min := weight_zero
|}.

(** The template pallet's measured weights. *)
#[export] Instance SubstrateWeight : TemplateWeights := {|
  w_do_something := saturating_add (from_parts 9000000 0) (db_writes 1);
  w_cause_error := saturating_add (saturating_add (from_parts 6000000 1489) (db_reads 1)) (db_writes 1)
|}.

(** ** The weight a call declares *)

Definition len_u32 (b : bytes) : Z := truncate 32 (Z.of_nat (length b)).

Definition call_weight `{E : Env} {PO : PriceOracleWeights} {RY : RegistryWeights}
    {RR : RegistrarWeights} {RS : ResolversWeights} {MP : MarketplaceWeights} {TP : TemplateWeights}
    (c : RuntimeCall) : Weight :=
  match c with
  | SetExchangeRate _ => w_set_exchange_rate
  | SetBasePrice _ => w_set_base_price
  | SetRentPrice _ => w_set_rent_price
  | RegistryBurn _ => w_burn
  | SetOfficial _ => w_set_official
  | AddReserved _ => w_add_reserved
  | RemoveReserved _ => w_remove_reserved
  | Register name _ _ => w_register (len_u32 name)
  | Renew => w_renew
  | TransferName _ => w_transfer
  | ReleaseName => w_release_name
  | OfferSubdomain label _ => w_offer_subdomain (len_u32 label)
  | AcceptSubdomain _ _ => w_accept_subdomain
  | RejectSubdomain _ _ => w_reject_subdomain
  | RevokeSubdomain _ => w_revoke_subdomain
  | ReleaseSubdomain _ _ => w_release_subdomain
  | AcceptOfferedName _ => w_accept_offered_name
  | SetRecordCall _ _ content => w_set_record (len_u32 content)
  | SetTextCall _ _ content => w_set_text (len_u32 content)
  | CreateListing _ _ => w_create_listing
  | CancelListing => w_cancel_listing
  | BuyName _ _ => w_buy_name
  | DoSomething _ => w_do_something
  | CauseError => w_cause_error
  end.

(** The weights of the runtime: the unit type's, except for the template pallet. *)
Definition runtime_call_weight `{E : Env} (c : RuntimeCall) : Weight := call_weight c.

Definition is_template_call `{E : Env} (c : RuntimeCall) : bool :=
  match c with DoSomething _ | CauseError => true | _ => false end.

(** ** Theorems *)

Lemma redeem_weight_unit {WL : WeightLaws W} len :
  0 <= len ->
  name_redeem_weight len = (if bool_decide (len = 0) then None else Some weight_zero) /\
  name_redeem_any_weight len = (if bool_decide (len = 0) then None else Some weight_zero).
Proof.
  intros Hlen. unfold name_redeem_weight, name_redeem_any_weight, sub_u32, LABEL_MIN_LEN,
    MIN_REGISTRABLE_LEN. case_bool_decide as H0.
  - subst. done.
  - rewrite (proj2 (Z.leb_le 1 len)) by lia. simpl. by rewrite !weight_add_zero.
Qed.

(** The calls of the name pallets declare no weight in this runtime, whatever
    their arguments: only the two calls of the template pallet have one.  The weight
    of redeeming a code cannot be computed for an empty name, where the subtraction
    overflows, and is zero for every other name. *)
Theorem name_calls_declare_no_weight `{E : Env} {WL : WeightLaws W} :
  (forall c, is_template_call c = false -> runtime_call_weight c = weight_zero) /\
  (forall name, name_redeem_weight (len_u32 name) = None <-> len_u32 name = 0) /\
  (forall name, name_redeem_any_weight (len_u32 name) = None <-> len_u32 name = 0) /\
  (forall name, len_u32 name <> 0 -> name_redeem_weight (len_u32 name) = Some weight_zero /\
    name_redeem_any_weight (len_u32 name) = Some weight_zero).
Proof.
  assert (forall name, 0 <= len_u32 name) as Hlen.
  { intros name. unfold len_u32, truncate. apply Z.mod_pos_bound. lia. }
  split_and!; [by intros []|..]; intros name; destruct (redeem_weight_unit _ (Hlen name)) as [H1 H2];
    rewrite ?H1, ?H2; case_bool_decide; naive_solver.
Qed.

End weights.
