(* ===== verification/Footprints.v ===== *)
(** * What the calls leave alone

    Which calls change the balances, the subdomain records and the listings, and how
    far.  The lemmas hold on success and on error and need no invariant. *)

From Stdlib Require Import ZArith Lia.
From stdpp Require Import base tactics numbers gmap sets fin_sets fin_maps option list_basics list.
From S2P Require Import Prelude RustStr Types Storage Label Nft Traits PriceOracle Resolvers.
From S2P Require Import Registry Registrar Marketplace Template Runtime.

Local Open Scope Z_scope.
Local Open Scope run_scope.

(** Unfold the functions of the pallets down to reads, guards and writes; the registry's
    larger ones have lemmas of their own below. *)
Ltac open_registry :=
  unfold Registry.burn, offer_subname, accept_subname_offer, reject_subname_offer,
    revoke_pending_offer_for_target, revoke_subname, release_subname, set_official,
    get_official_account, verify_with_owner, verify, add_children_with_check, add_children,
    sub_children, set_children, Registry.name_to_node, Traits.clear_registrar_info, registrar_T,
    clear_registrar_info, Nft.mint, Nft.burn, Nft.transfer.

Ltac open_registrar :=
  unfold register, renew, Registrar.transfer, release_name, offer_subdomain, accept_subdomain,
    reject_subdomain, revoke_subdomain, accept_offered_name, release_subdomain, add_reserved,
    remove_reserved, Registrar.transfer_name, Registrar.offer_bought_name,
    reject_pending, ensure_no_name, forget_previous_owner, subdomain_node, forget_seller.

Ltac open_others :=
  unfold set_exchange_rate, set_base_price, set_rent_price, create_listing, cancel_listing,
    deliver, deliver_gift, Traits.transfer_name, Traits.offer_bought_name, registrar_NameRegistry,
    do_something, cause_error, set_record, set_text, Resolvers.name_to_node, update_ss58,
    record_origin, Traits.clear_records_except_ss58, Traits.clear_all_records, pns_hooks,
    set_ss58_record, set_origin_record, deposit_event, lookup_source, ensure_signed.

Ltac open_calls := open_others; open_registrar; open_registry; open_others.

Create HintDb footprint.

Section footprints.
Context `{E : Env} `{C : Config}.
Implicit Types s : State.

Lemma pure_ensure_origin {O : ManagerOrigin} o : pure (ensure_origin o).
Proof. intros s. unfold ensure_origin. by destruct (manager_try_origin o s). Qed.

#[local] Hint Resolve pure_ensure_origin : run_pure.

(** ** Balances *)

(** At most the account that signed [o] pays or is paid. *)
Definition only_pays (o : RawOrigin) s s' : Prop := forall a, o <> RawOrigin.Signed a ->
  currency_free_balance (Balances s') a = currency_free_balance (Balances s) a.

#[global] Instance only_pays_preorder o : PreOrder (only_pays o).
Proof. split; [done|]. intros s1 s2 s3 H1 H2 a Ha. by rewrite H2, H1. Qed.

Lemma burn_from_pays {CL : CurrencyLaws E} who fee :
  steps (only_pays (RawOrigin.Signed who)) (burn_from who fee).
Proof.
  intros s. unfold burn_from. destruct (currency_withdraw _ _ _ _ _) as [[c i]|] eqn:Hw; [|done].
  intros a Ha. simpl_state. rewrite drop_free, (withdraw_free _ _ _ _ _ _ a Hw), decide_False by congruence.
  lia.
Qed.

Ltac solve_pays := open_calls; solve_steps; first [done | eauto with footprint].

Lemma clear_subnames_pays o n : steps (only_pays o) (clear_subnames n).
Proof. unfold clear_subnames, clear_child. solve_pays. Qed.

#[local] Hint Resolve burn_from_pays clear_subnames_pays : footprint.

Lemma do_burn_pays o a n : steps (only_pays o) (do_burn a n).
Proof. unfold do_burn. solve_pays. Qed.

Lemma do_transfer_pays o a b n : steps (only_pays o) (do_transfer a b n).
Proof. unfold do_transfer. solve_pays. Qed.

Lemma mint_subname_pays o official node n to k pay :
  (forall x, steps (only_pays o) (pay x)) ->
  steps (only_pays o) (mint_subname official node n to k pay).
Proof. intros Hp. unfold mint_subname, pallet_mint_subname, mint_existing, mint_new. solve_pays. Qed.

#[local] Hint Resolve do_burn_pays do_transfer_pays mint_subname_pays : footprint.

Lemma register_payments_pays {CL : CurrencyLaws E} who n fee ex len x :
  steps (only_pays (RawOrigin.Signed who)) (register_payments who n fee ex len x).
Proof. unfold register_payments. solve_pays. Qed.

#[local] Hint Resolve register_payments_pays : footprint.

Lemma call_pays {CL : CurrencyLaws E} o c :
  (forall name r, c <> BuyName name r) -> steps (only_pays o) (call_body o c).
Proof.
  intros Hc. destruct c; try (by destruct (Hc name recipient)); simpl; destruct o; solve_pays.
Qed.

(** ** Subdomain records *)

(** No subdomain has become active. *)
Definition no_new_active s s' : Prop := forall n r,
  SubnameRecords s' !! n = Some r -> sr_state r = Active -> SubnameRecords s !! n = Some r.

#[global] Instance no_new_active_preorder : PreOrder no_new_active.
Proof. split; unfold no_new_active; eauto. Qed.

Lemma no_new_active_delete n s : no_new_active s (upd_SubnameRecords (delete n) s).
Proof. intros m r. simpl_state. by intros [_ ?]%lookup_delete_Some. Qed.

Lemma no_new_active_insert n r s :
  sr_state r <> Active -> no_new_active s (upd_SubnameRecords (<[n := r]>) s).
Proof. intros Hr m r'. simpl_state. by intros [[_ <-]|[_ ?]]%lookup_insert_Some. Qed.

Ltac solve_active :=
  open_calls; solve_steps;
  first [ by intros ??
        | apply no_new_active_delete
        | apply no_new_active_insert; simpl; discriminate
        | eauto with footprint ].

Lemma clear_subnames_active n : steps no_new_active (clear_subnames n).
Proof. unfold clear_subnames, clear_child. solve_active. Qed.

Lemma burn_from_active who fee : steps no_new_active (burn_from who fee).
Proof. intros s. unfold burn_from. by destruct (currency_withdraw _ _ _ _ _) as [[]|]; intros ??. Qed.

Lemma transfer_balance_active x y v : steps no_new_active (transfer_balance x y v).
Proof. intros s. unfold transfer_balance. by destruct (currency_transfer _ _ _ _ _); intros ??. Qed.

#[local] Hint Resolve clear_subnames_active burn_from_active transfer_balance_active : footprint.

Lemma do_burn_active a n : steps no_new_active (do_burn a n).
Proof. unfold do_burn. solve_active. Qed.

Lemma do_transfer_active a b n : steps no_new_active (do_transfer a b n).
Proof. unfold do_transfer. solve_active. Qed.

Lemma mint_subname_active official node n to k pay :
  (forall x, steps no_new_active (pay x)) -> steps no_new_active (mint_subname official node n to k pay).
Proof. intros Hp. unfold mint_subname, pallet_mint_subname, mint_existing, mint_new. solve_active. Qed.

Lemma register_payments_active who n fee ex len x :
  steps no_new_active (register_payments who n fee ex len x).
Proof. unfold register_payments. solve_active. Qed.

#[local] Hint Resolve do_burn_active do_transfer_active mint_subname_active
  register_payments_active : footprint.

Lemma reject_pending_active who rej : steps no_new_active (reject_pending who rej).
Proof. solve_active. Qed.

(** Only accepting an offer makes a subdomain active. *)
Lemma call_active o c :
  (forall parent label, c <> AcceptSubdomain parent label) -> steps no_new_active (call_body o c).
Proof.
  intros Hc. destruct c; try (by destruct (Hc parent label)); simpl; try unfold buy_name; solve_active.
Qed.

(** ** Listings *)

(** A new listing is the one [c] makes. *)
Definition listings_from (c : RuntimeCall) s s' : Prop := forall n l, Listings s' !! n = Some l ->
  Listings s !! n = Some l \/ exists ex, c = CreateListing (price l) ex.

#[global] Instance listings_from_preorder c : PreOrder (listings_from c).
Proof.
  split; [by left|]. intros s1 s2 s3 H1 H2 n l [Hl|?]%H2; [|by right]. by apply H1.
Qed.

Lemma listings_from_delete c n s : listings_from c s (upd_Listings (delete n) s).
Proof. intros m l. simpl_state. intros [_ ?]%lookup_delete_Some. by left. Qed.

Lemma listings_from_create n who p ex s :
  listings_from (CreateListing p ex) s (upd_Listings (<[n := mkListing who p ex]>) s).
Proof. intros m l. simpl_state. intros [[_ <-]|[_ ?]]%lookup_insert_Some; eauto. Qed.

Ltac solve_listings :=
  open_calls; solve_steps;
  first [ by left | apply listings_from_delete | apply listings_from_create | eauto with footprint ].

Lemma clear_subnames_listings c n : steps (listings_from c) (clear_subnames n).
Proof. unfold clear_subnames, clear_child. solve_listings. Qed.

Lemma burn_from_listings c who fee : steps (listings_from c) (burn_from who fee).
Proof. intros s. unfold burn_from. destruct (currency_withdraw _ _ _ _ _) as [[]|]; by left. Qed.

Lemma transfer_balance_listings c x y v : steps (listings_from c) (transfer_balance x y v).
Proof. intros s. unfold transfer_balance. destruct (currency_transfer _ _ _ _ _); by left. Qed.

#[local] Hint Resolve clear_subnames_listings burn_from_listings transfer_balance_listings : footprint.

Lemma do_burn_listings c a n : steps (listings_from c) (do_burn a n).
Proof. unfold do_burn. solve_listings. Qed.

Lemma do_transfer_listings c a b n : steps (listings_from c) (do_transfer a b n).
Proof. unfold do_transfer. solve_listings. Qed.

Lemma mint_subname_listings c official node n to k pay :
  (forall x, steps (listings_from c) (pay x)) ->
  steps (listings_from c) (mint_subname official node n to k pay).
Proof. intros Hp. unfold mint_subname, pallet_mint_subname, mint_existing, mint_new. solve_listings. Qed.

Lemma register_payments_listings c who n fee ex len x :
  steps (listings_from c) (register_payments who n fee ex len x).
Proof. unfold register_payments. solve_listings. Qed.

#[local] Hint Resolve do_burn_listings do_transfer_listings mint_subname_listings
  register_payments_listings : footprint.

Lemma call_listings o c : steps (listings_from c) (call_body o c).
Proof. destruct c; simpl; try unfold buy_name; solve_listings. Qed.

End footprints.
