(* ===== verification/RecordFootprints.v ===== *)
(** * Which records an operation writes

    The operations of the registry on a name write the records and texts of the name and
    of its subdomains only, on success and on error. *)

From Stdlib Require Import ZArith Lia.
From stdpp Require Import base tactics numbers gmap sets fin_sets fin_maps option list_basics list.
From S2P Require Import Prelude RustStr Types Storage Label Nft Traits PriceOracle Resolvers.
From S2P Require Import Registry Registrar Marketplace Template Runtime Footprints.

Local Open Scope Z_scope.
Local Open Scope run_scope.

Section records.
Context `{E : Env} `{C : Config}.
Implicit Types s : State.

(** The records and texts of [n] are as they were. *)
Definition same_records s s' (n : DomainHash) : Prop :=
  (forall k, Records s' !! (n, k) = Records s !! (n, k)) /\
  (forall k, Texts s' !! (n, k) = Texts s !! (n, k)).

(** If the subdomains of [t] are in [A], they stay there, and no node outside [A] has other
    records and texts than before. *)
Definition within (A : DomainHash -> Prop) (t : DomainHash) s s' : Prop :=
  (forall n, (t, n) ∈ SubNames s -> A n) ->
  (forall n, (t, n) ∈ SubNames s' -> A n) /\ forall n, ~ A n -> same_records s s' n.

#[global] Instance within_preorder A t : PreOrder (within A t).
Proof.
  split; [by intros s Hs|]. intros s1 s2 s3 H1 H2 Hs. destruct (H1 Hs) as [Hs2 H12].
  destruct (H2 Hs2) as [Hs3 H23]. split; [done|]. intros n Hn.
  destruct (H12 n Hn), (H23 n Hn). split; congruence.
Qed.

Lemma within_same A t s s' :
  st_resolvers s' = st_resolvers s -> SubNames s' ⊆ SubNames s -> within A t s s'.
Proof. intros Hr Hsub Hs. unfold same_records. rewrite Hr. split; [set_solver|done]. Qed.

Lemma within_insert_subname A t p n s :
  A n -> within A t s (upd_SubNames (fun m => {[(p, n)]} ∪ m) s).
Proof. intros Hn Hs. split; [|done]. intros m. simpl_state. set_solver. Qed.

Lemma within_resolvers A t s s' :
  same_but_resolvers s s' -> (forall n, ~ A n -> same_records s s' n) -> within A t s s'.
Proof. intros Hs' Hn Hs. split; [|done]. by rewrite Hs'. Qed.

Lemma same_records_clear_all c s n : n <> c -> same_records s (Resolvers.clear_all_records c s) n.
Proof.
  intros Hne. split; intros k; [rewrite clear_all_records_lookup|rewrite clear_all_records_texts];
    by rewrite bool_decide_false.
Qed.

Lemma same_records_clear c s n : n <> c -> same_records s (Resolvers.clear_records_except_ss58 c s) n.
Proof.
  intros Hne. split; intros k; [|done].
  rewrite clear_records_except_ss58_lookup, bool_decide_false; naive_solver.
Qed.

Lemma same_records_insert c k v s n : n <> c -> same_records s (upd_Records (<[(c, k) := v]>) s) n.
Proof. intros Hne. split; intros k'; [|done]. simpl_state. rewrite lookup_insert_ne; naive_solver. Qed.

Ltac solve_within :=
  open_calls; solve_steps;
  first [ apply within_same; [done|simpl_state; set_solver]
        | by apply within_insert_subname
        | apply within_resolvers;
          [by match goal with |- same_but_resolvers ?x _ => destruct x end|];
          intros ? ?; first
            [ apply same_records_clear_all | apply same_records_clear | apply same_records_insert ];
          by intros ->
        | eauto with footprint ].

Lemma clear_child_within A t c : A c -> steps (within A t) (clear_child c).
Proof. intros Hc. unfold clear_child. solve_within. Qed.

#[local] Hint Resolve clear_child_within : footprint.

Lemma clear_subnames_within A t : steps (within A t) (clear_subnames t).
Proof.
  intros s Hs. revert s Hs.
  assert (forall l, (forall n, n ∈ l -> A n) -> steps (within A t)
    (do! for_each clear_child l in
     do! modify (upd_SubNames (clear_prefix t)) in
     let! token := reads (fun s => Tokens s !! (0, t)) in
     match token with Some info => set_children (0, t) info 0 | None => ret tt end)) as Hl.
  { intros l Hl. solve_within. }
  intros s Hs. unfold clear_subnames. simpl. refine (Hl _ _ s Hs). intros n Hn.
  apply Hs. by apply elem_of_elements, elem_of_prefix in Hn.
Qed.

#[local] Hint Resolve clear_subnames_within : footprint.

Lemma do_burn_within A a t : A t -> steps (within A t) (do_burn a t).
Proof. intros Ht. unfold do_burn. solve_within. Qed.

Lemma do_transfer_within A a b t : A t -> steps (within A t) (do_transfer a b t).
Proof. intros Ht. unfold do_transfer. solve_within. Qed.

Lemma mint_subname_within A official node t to k pay :
  A t -> (forall x, steps (within A t) (pay x)) ->
  steps (within A t) (mint_subname official node t to k pay).
Proof.
  intros Ht Hp. unfold mint_subname, pallet_mint_subname, mint_existing, mint_new. solve_within.
Qed.

Lemma burn_from_within A t who fee : steps (within A t) (burn_from who fee).
Proof.
  intros s. unfold burn_from. destruct (currency_withdraw _ _ _ _ _) as [[]|]; by apply within_same.
Qed.

#[local] Hint Resolve burn_from_within : footprint.

Lemma register_payments_within A t who n fee ex len x :
  steps (within A t) (register_payments who n fee ex len x).
Proof. unfold register_payments. solve_within. Qed.

(** No node has become a subdomain. *)
Definition fewer_subnames s s' : Prop := SubNames s' ⊆ SubNames s.

#[global] Instance fewer_subnames_preorder : PreOrder fewer_subnames.
Proof.
  split; [intros s; unfold fewer_subnames; set_solver|].
  intros s1 s2 s3. unfold fewer_subnames. set_solver.
Qed.

Lemma reject_pending_fewer who rej : steps fewer_subnames (reject_pending who rej).
Proof.
  unfold reject_pending, do_burn, clear_subnames, clear_child. open_calls. solve_steps;
    unfold fewer_subnames; simpl_state; unfold clear_prefix; set_solver.
Qed.

(** The calls that touch no record. *)
Definition records_untouched (c : RuntimeCall) : bool :=
  match c with
  | RegistryBurn _ | Register _ _ _ | TransferName _ | ReleaseName | AcceptSubdomain _ _
  | RevokeSubdomain _ | ReleaseSubdomain _ _ | AcceptOfferedName _ | SetRecordCall _ _ _
  | SetTextCall _ _ _ | BuyName _ _ => false
  | _ => true
  end.

Lemma burn_from_resolvers who fee : frames st_resolvers (burn_from who fee).
Proof. intros s. unfold burn_from. by destruct (currency_withdraw _ _ _ _ _) as [[]|]. Qed.

#[local] Hint Resolve pure_ensure_origin : run_pure.

Lemma records_frame o c : records_untouched c = true -> frames st_resolvers (call_body o c).
Proof.
  intros Hc. destruct c; try discriminate Hc; simpl; open_calls; solve_frames; apply burn_from_resolvers.
Qed.

End records.
