(* ===== verification/Authority.v ===== *)
(** * The DNS authority: [pallets/pns-ddns/src/authority.rs]

    The zone of names as a DNS authority: which stored records a query sees, and
    how their bytes become DNS records.  Names and the query types are those of
    the hickory library, a parameter here; the chain is reached through the
    runtime API, of which [lookup] calls [lookup_by_name].  [Panic] is a Rust
    panic of the request's task. *)

From Stdlib Require Import ZArith Lia.
From Stdlib Require Import Strings.String.
From stdpp Require Import base tactics numbers gmap option list_basics list.
From S2P Require Import Prelude RustStr RustNet Types Storage Label Traits Resolvers Registry Registrar Marketplace Runtime.

Local Open Scope Z_scope.

(** [hickory_proto::rr]: domain names, and the query types the conversion to
    [codec_type::RecordType] does not list. *)
Class Hickory := {
  Name : Type;
  name_from_str : bytes -> option Name;
  LowerName : Type;
  #[global] LowerName_eq_dec :: EqDecision LowerName;
  lower_from_name : Name -> LowerName;
  lower_to_name : LowerName -> Name;
  lower_to_string : LowerName -> bytes;
  OtherType : Type;
  #[global] OtherType_eq_dec :: EqDecision OtherType
}.

#[global] Instance hickory_type_eq_dec `{EqDecision Other} :
  EqDecision (hickory.HickoryRecordType Other).
Proof. solve_decision. Defined.

(** The response codes the sources name; [OtherCode] is any other one. *)
Inductive ResponseCode := NoError | NXDomain | ServFail | NotImp | Refused | OtherCode (code : Z).

#[global] Instance ResponseCode_eq_dec : EqDecision ResponseCode.
Proof. solve_decision. Defined.

Inductive LookupError := NameExists | ResponseCodeError (c : ResponseCode).

Inductive ZoneType := Primary.

Section authority.
Context `{H : Hickory}.

Abbreviation QueryType := (hickory.HickoryRecordType OtherType).

Inductive RData :=
| RA (octets : list Z)
| RAAAA (octets : list Z)
| RCNAME (target : Name)
| RTXT (strings : list bytes)
| RMX (preference : Z) (exchange : Name)
| RNS (target : Name)
| RSRV (priority weight port : Z) (target : Name)
| RSOA (mname rname : Name) (serial refresh retry expire minimum : Z)
| RUnknown (code : QueryType) (rdata : bytes).

Record DnsRecord := mkDnsRecord { rec_name : Name; rec_ttl : Z; rec_data : RData }.

(** [PnsLookup]; [additionals] is never set. *)
Record PnsLookup := mkPnsLookup { records : list DnsRecord; additionals : option (list DnsRecord) }.

Definition with_records (l : list DnsRecord) : PnsLookup := mkPnsLookup l None.

Definition empty_lookup : PnsLookup := mkPnsLookup [] None.

Definition is_empty (l : PnsLookup) : bool := bool_decide (records l = []).

(** What the lookup keeps, and the additional records taken from it. *)
Definition take_additionals (l : PnsLookup) : PnsLookup * option PnsLookup :=
  (mkPnsLookup (records l) None, (fun add => mkPnsLookup add None) <$> additionals l).

Definition is_polkadot_only (rt : codec_type.RecordType) : bool :=
  match rt with
  | codec_type.SS58 | codec_type.VALIDATOR | codec_type.PARA | codec_type.PROXY
  | codec_type.PUBKEY1 | codec_type.PUBKEY2 | codec_type.PUBKEY3 | codec_type.AVATAR
  | codec_type.CONTRACT | codec_type.CONTENT | codec_type.IPFS | codec_type.ORIGIN => true
  | _ => false
  end.

(** [name_s.strip_suffix(suffix)] *)
Definition strip_suffix (suffix s : bytes) : option bytes :=
  let k := (length s - length suffix)%nat in
  if bool_decide (drop k s = suffix) then Some (take k s) else None.

Definition extract_label (name origin : LowerName) : option bytes :=
  if bool_decide (name = origin) then Some [] else
  let name_s := lower_to_string name in
  let origin_s := lower_to_string origin in
  let suffix := b_str "." ++ origin_s in
  strip_suffix suffix name_s.

(** [None] is the panic of [unwrap]. *)
Definition synthesize_soa (origin : LowerName) (serial : Z) : option DnsRecord :=
  match name_from_str (b_str "ns1.dot."), name_from_str (b_str "hostmaster.dot.") with
  | Some mname, Some rname =>
      Some (mkDnsRecord (lower_to_name origin) 300 (RSOA mname rname serial 3600 900 86400 300))
  | _, _ => None
  end.

Definition synthesize_ns (origin : LowerName) : option DnsRecord :=
  match name_from_str (b_str "ns1.dot.") with
  | Some ns_name => Some (mkDnsRecord (lower_to_name origin) 300 (RNS ns_name))
  | None => None
  end.

(** [u16::from_be_bytes] *)
Definition be16 (hi lo : Z) : Z := hi * 256 + lo.

(** A name stored as text. *)
Definition name_of_data (data : bytes) : option Name :=
  match from_utf8 data with Some text => name_from_str text | None => None end.

Definition rpc_rdata (data : bytes) (queried_type : QueryType) : option RData :=
  match from_utf8 data with
  | None => None
  | Some text =>
      match parse_ipv4 text with
      | Some ip4 =>
          if bool_decide (queried_type = hickory.A) || bool_decide (queried_type = hickory.ANY)
          then Some (RA ip4) else None
      | None =>
          match parse_ipv6 text with
          | Some ip6 =>
              if bool_decide (queried_type = hickory.AAAA) || bool_decide (queried_type = hickory.ANY)
              then Some (RAAAA ip6) else None
          | None =>
              match name_from_str text with
              | Some name =>
                  if bool_decide (queried_type = hickory.CNAME)
                     || bool_decide (queried_type = hickory.ANY)
                  then Some (RCNAME name) else None
              | None => None
              end
          end
      end
  end.

(** The match of [pns_record_to_dns]. *)
Definition rdata_of (pns_type : codec_type.RecordType) (data : bytes) (queried_type : QueryType) :
    option RData :=
  match pns_type with
  | codec_type.A => if (length data =? 4)%nat then Some (RA data) else None
  | codec_type.AAAA => if (length data =? 16)%nat then Some (RAAAA data) else None
  | codec_type.CNAME => RCNAME <$> name_of_data data
  | codec_type.TXT => Some (RTXT [from_utf8_lossy data])
  | codec_type.MX =>
      match data with
      | d0 :: d1 :: _ :: _ => RMX (be16 d0 d1) <$> name_of_data (drop 2 data)
      | _ => None
      end
  | codec_type.NS => RNS <$> name_of_data data
  | codec_type.SRV =>
      match data with
      | d0 :: d1 :: d2 :: d3 :: d4 :: d5 :: _ :: _ =>
          RSRV (be16 d0 d1) (be16 d2 d3) (be16 d4 d5) <$> name_of_data (drop 6 data)
      | _ => None
      end
  | codec_type.RPC => rpc_rdata data queried_type
  | _ =>
      let htype : QueryType := record_type_from pns_type in
      if negb (bool_decide (htype = queried_type)) && negb (bool_decide (queried_type = hickory.ANY))
      then None else Some (RUnknown htype data)
  end.

Definition pns_record_to_dns (owner_name : Name) (pns_type : codec_type.RecordType) (data : bytes)
    (queried_type : QueryType) : option DnsRecord :=
  if is_polkadot_only pns_type then None else
  mkDnsRecord owner_name 300 <$> rdata_of pns_type data queried_type.

Definition MAX_CNAME_DEPTH : nat := 8.

(** The loop of [lookup] over the stored records. *)
Fixpoint collect (owner_name : Name) (rtype : QueryType) (cname_depth : nat)
    (raw : list (codec_type.RecordType * bytes)) : list DnsRecord :=
  match raw with
  | [] => []
  | (pns_type, data) :: raw' =>
      let cname_depth := if bool_decide (pns_type = codec_type.CNAME) then S cname_depth
                         else cname_depth in
      if bool_decide (pns_type = codec_type.CNAME) && (MAX_CNAME_DEPTH <? cname_depth)%nat then []
      else option_list (pns_record_to_dns owner_name pns_type data rtype) ++
           collect owner_name rtype cname_depth raw'
  end.

(** ** The authority *)

Inductive Outcome :=
| Panic
| Continue (r : result LookupError PnsLookup)
| Skip.

(** What the authority asks of the node: the best block's number, and the runtime
    API at it ([None] is an API error). *)
Record Client := mkClient {
  best_number : Z;
  lookup_by_name : bytes -> list codec_type.RecordType -> option (list (codec_type.RecordType * bytes))
}.

Record BlockChainAuthority := mkAuthority { client : Client; origin : LowerName }.

(** [None] is the panic of [expect]. *)
Definition authority_new (c : Client) : option BlockChainAuthority :=
  match name_from_str (b_str "dot.") with
  | Some name => Some (mkAuthority c (lower_from_name name))
  | None => None
  end.

Definition zone_type (a : BlockChainAuthority) : ZoneType := Primary.

Definition is_axfr_allowed (a : BlockChainAuthority) : bool := false.

Definition update (a : BlockChainAuthority) : result ResponseCode bool := Err NotImp.

(** The zone apex. *)
Definition lookup_apex (a : BlockChainAuthority) (rtype : QueryType) (serial : Z) : Outcome :=
  let rs := match rtype with
            | hickory.SOA | hickory.ANY => (fun r => [r]) <$> synthesize_soa (origin a) serial
            | hickory.NS => (fun r => [r]) <$> synthesize_ns (origin a)
            | _ => Some []
            end in
  match rs with
  | None => Panic
  | Some [] => Continue (Err NameExists)
  | Some rs => Continue (Ok (with_records rs))
  end.

Definition authority_lookup (a : BlockChainAuthority) (name : LowerName) (rtype : QueryType) :
    Outcome :=
  let serial := truncate 32 (saturated_into 64 (best_number (client a))) in
  if bool_decide (name = origin a) then lookup_apex a rtype serial else
  match extract_label name (origin a) with
  | None => Continue (Err (ResponseCodeError NXDomain))
  | Some label =>
      if bool_decide (rtype = hickory.SOA) then Continue (Err NameExists) else
      let filter := if bool_decide (rtype = hickory.ANY) then Some codec_type.all
                    else (fun rt => [rt]) <$> record_type_into rtype in
      match filter with
      | None => Panic
      | Some filter =>
          match lookup_by_name (client a) label filter with
          | None => Continue (Err (ResponseCodeError ServFail))
          | Some [] => Continue (Err (ResponseCodeError NXDomain))
          | Some raw_records =>
              match collect (lower_to_name name) rtype 0 raw_records with
              | [] => Continue (Err NameExists)
              | dns_records => Continue (Ok (with_records dns_records))
              end
          end
      end
  end.

Definition search (a : BlockChainAuthority) (name : LowerName) (rtype : QueryType) : Outcome :=
  authority_lookup a name rtype.

Definition get_nsec_records (a : BlockChainAuthority) (name : LowerName) : Outcome := Skip.

End authority.

(** The authority over a chain in state [s]. *)
Definition chain_client `{E : Env} `{C : Config} (s : State) : Client :=
  mkClient (block_number s) (fun label filter => Some (api_lookup_by_name s label filter)).

(** ** Theorems *)

Section theorems.
Context `{H : Hickory} `{E : Env} `{C : Config}.
Implicit Types s : State.

(** The node a query's label stands for. *)
Definition label_node (label : bytes) : DomainHash :=
  default DomainHash_default (parse_name_to_node label BaseNode).

Lemma collect_from nm rtype d raw r :
  r ∈ collect nm rtype d raw ->
  exists pt data, (pt, data) ∈ raw /\ pns_record_to_dns nm pt data rtype = Some r.
Proof.
  revert d. induction raw as [|[pt data] raw IH]; intros d; simpl; [by intros ?%elem_of_nil|].
  match goal with |- context [if ?b && ?c then _ else _] => destruct (b && c) end;
    [by intros ?%elem_of_nil|].
  intros [Hr|Hr]%elem_of_app.
  - exists pt, data. split; [left|].
    destruct (pns_record_to_dns nm pt data rtype); simpl in Hr; [|by apply elem_of_nil in Hr].
    by apply list_elem_of_singleton in Hr as ->.
  - destruct (IH _ Hr) as (pt' & data' & ? & ?). exists pt', data'. split; [by right|done].
Qed.

Lemma collect_skip nm rtype d pt data raw :
  is_polkadot_only pt = true -> collect nm rtype d ((pt, data) :: raw) = collect nm rtype d raw.
Proof.
  intros Hpt. cbn [collect]. rewrite bool_decide_false by (by intros ->). cbn [andb].
  unfold pns_record_to_dns. by rewrite Hpt.
Qed.

Lemma to_dns_public nm pt data rtype r :
  pns_record_to_dns nm pt data rtype = Some r ->
  is_polkadot_only pt = false /\ rec_name r = nm /\ rdata_of pt data rtype = Some (rec_data r).
Proof.
  unfold pns_record_to_dns. destruct (is_polkadot_only pt); [done|].
  by intros (rd & -> & ->)%fmap_Some.
Qed.

(** A successful answer below the apex was collected from the chain's records. *)
Lemma lookup_answer s org name rtype l :
  authority_lookup (mkAuthority (chain_client s) org) name rtype = Continue (Ok l) -> name <> org ->
  exists label types, extract_label name org = Some label /\
    (if bool_decide (rtype = hickory.ANY) then Some codec_type.all
     else (fun rt => [rt]) <$> record_type_into rtype) = Some types /\
    records l = collect (lower_to_name name) rtype 0 (api_lookup_by_name s label types).
Proof.
  unfold authority_lookup. cbn [origin client chain_client lookup_by_name]. intros Hl Hne.
  rewrite bool_decide_false in Hl by done.
  destruct (extract_label name org) as [label|]; [|done].
  destruct (bool_decide (rtype = hickory.SOA)); [done|].
  destruct (if bool_decide (rtype = hickory.ANY) then _ else _) as [types|]; [|done].
  exists label, types. do 2 (split; [done|]). revert Hl.
  destruct (api_lookup_by_name s label types) as [|x raw]; [done|].
  destruct (collect _ _ _ (x :: raw)) as [|r rs]; [done|]. by intros [= <-].
Qed.

(** C33. DNS exposes nothing private and invents nothing: every record of an answer
    below the zone apex carries the queried name and comes from a non-empty record
    stored for its node, of a type that is not one of the name service's own; and
    unless the query is ANY, of exactly the type asked for. *)
Theorem dns_answers_are_stored_public_records (s : State) (org name : LowerName)
    (rtype : hickory.HickoryRecordType OtherType) (l : PnsLookup) (r : DnsRecord)
    (Hl : authority_lookup (mkAuthority (chain_client s) org) name rtype = Continue (Ok l))
    (Hname : name <> org) (Hr : r ∈ records l) :
  rec_name r = lower_to_name name /\
  exists label pt data, extract_label name org = Some label /\
    Records s !! (label_node label, pt) = Some data /\ data <> [] /\
    is_polkadot_only pt = false /\ rdata_of pt data rtype = Some (rec_data r) /\
    (rtype <> hickory.ANY -> record_type_into rtype = Some pt).
Proof.
  destruct (lookup_answer _ _ _ _ _ Hl Hname) as (label & types & Hx & Ht & Hrec).
  rewrite Hrec in Hr. apply collect_from in Hr as (pt & data & Hin & Hdns).
  apply to_dns_public in Hdns as (Hpub & Hnm & Hrd). split; [done|].
  apply elem_of_lookup in Hin as (Hne & Hget & Hty). exists label, pt, data.
  unfold records_get in Hget. fold (label_node label) in Hget.
  destruct (Records s !! (label_node label, pt)) as [c|] eqn:Hc; simpl in Hget; [subst c|by subst].
  split_and!; try done. intros Hany. rewrite bool_decide_false in Ht by done.
  apply fmap_Some in Ht as (rt & -> & ->). f_equal.
  destruct Hty as [->|[->|[->%list_elem_of_singleton _]]]; done.
Qed.

(** An address record set for a name is what DNS answers: a query of type A for
    the name returns the stored four octets, and nothing else. *)
Theorem dns_answers_address (s : State) (org name : LowerName) (label : bytes) (node : DomainHash)
    (data : bytes)
    (Hname : name <> org) (Hlabel : extract_label name org = Some label)
    (Hnode : parse_name_to_node label BaseNode = Some node)
    (Hrec : Records s !! (node, codec_type.A) = Some data) (Hlen : length data = 4%nat) :
  authority_lookup (mkAuthority (chain_client s) org) name hickory.A =
  Continue (Ok (with_records [mkDnsRecord (lower_to_name name) 300 (RA data)])).
Proof.
  unfold authority_lookup. cbn [origin client chain_client lookup_by_name].
  rewrite bool_decide_false by done. rewrite Hlabel.
  assert (api_lookup_by_name s label [codec_type.A] =
    filter (fun p => p.2 <> []) [(codec_type.SS58, records_get s node codec_type.SS58);
      (codec_type.ORIGIN, records_get s node codec_type.ORIGIN); (codec_type.A, data)]) as Hapi.
  { unfold api_lookup_by_name. rewrite Hnode, lookup_eq_spec. unfold lookup_spec. simpl.
    unfold records_get. by rewrite Hrec. }
  rewrite !bool_decide_false by done. cbn [record_type_into fmap option_fmap option_map].
  rewrite Hapi. clear Hapi Hrec. destruct data as [|? data]; [done|].
  assert (collect (lower_to_name name) hickory.A 0 [(codec_type.A, z :: data)] =
    [mkDnsRecord (lower_to_name name) 300 (RA (z :: data))]) as Hc.
  { cbn [collect]. rewrite bool_decide_false by done. cbn [andb]. unfold pns_record_to_dns, rdata_of.
    by rewrite Hlen. }
  destruct (records_get s node codec_type.SS58), (records_get s node codec_type.ORIGIN);
    repeat first [rewrite filter_cons_True by done | rewrite filter_cons_False by naive_solver];
    rewrite filter_nil, ?collect_skip by done; by rewrite Hc.
Qed.

(** A stored RPC record is never served: a query that is not ANY does not ask
    for it unless its type is RPC itself, and then its content is not turned into
    a DNS record. *)
Theorem rpc_records_are_not_served (s : State) (label data : bytes) (nm : Name)
    (rtype : hickory.HickoryRecordType OtherType) (rt : codec_type.RecordType)
    (Hany : rtype <> hickory.ANY) (Hrt : record_type_into rtype = Some rt)
    (Hin : (codec_type.RPC, data) ∈ api_lookup_by_name s label [rt]) :
  pns_record_to_dns nm codec_type.RPC data rtype = None.
Proof.
  apply elem_of_lookup in Hin as (_ & _ & [?|[?|[<-%list_elem_of_singleton _]]]); [done..|].
  assert (rtype = hickory.Unknown 65281) as ->.
  { by apply record_type_from_into in Hrt. }
  unfold pns_record_to_dns, rdata_of, rpc_rdata. simpl.
  destruct (from_utf8 data) as [t|]; [|done].
  by destruct (parse_ipv4 t), (parse_ipv6 t), (name_from_str t).
Qed.

(** A DNS answer depends on the stored records only: neither the end of a name's
    term nor a pending gift of it changes what the authority returns. *)
Theorem dns_reads_records_only (s s' : State) (org name : LowerName)
    (rtype : hickory.HickoryRecordType OtherType)
    (Hrec : Records s' = Records s) (Hblock : block_number s' = block_number s) :
  authority_lookup (mkAuthority (chain_client s') org) name rtype =
  authority_lookup (mkAuthority (chain_client s) org) name rtype.
Proof.
  assert (forall label types, api_lookup_by_name s' label types = api_lookup_by_name s label types) as Hapi.
  { intros. unfold api_lookup_by_name. rewrite !lookup_eq_spec. unfold lookup_spec, records_get.
    by rewrite Hrec. }
  unfold authority_lookup, lookup_apex. cbn [origin client chain_client lookup_by_name best_number].
  rewrite Hblock. destruct (bool_decide (name = org)); [done|].
  destruct (extract_label name org); [|done]. destruct (bool_decide (rtype = hickory.SOA)); [done|].
  destruct (if bool_decide (rtype = hickory.ANY) then _ else _); [|done]. by rewrite Hapi.
Qed.

(** C36. The lookup of a name below the apex panics exactly on a query type that the
    conversion to stored types does not list. *)
Theorem dns_lookup_panics_iff (s : State) (org name : LowerName) (label : bytes)
    (rtype : hickory.HickoryRecordType OtherType)
    (Hname : name <> org) (Hlabel : extract_label name org = Some label) :
  authority_lookup (mkAuthority (chain_client s) org) name rtype = Panic <->
  exists o, rtype = hickory.other o.
Proof.
  unfold authority_lookup. cbn [origin client chain_client lookup_by_name].
  rewrite bool_decide_false by done. rewrite Hlabel. split.
  - case_bool_decide; [done|]. case_bool_decide; simpl.
    + by repeat case_match.
    + destruct rtype; try (by repeat case_match); eauto.
      destruct (is_private_code code) eqn:Hp.
      * destruct (into_private (Other := OtherType) _ Hp) as (r & -> & _). by repeat case_match.
      * rewrite into_unknown by done. by repeat case_match.
  - intros [o ->]. by rewrite !bool_decide_false by done.
Qed.

End theorems.
