(* ===== verification/Frontends.v ===== *)
(** * JSON-RPC and HTTP: [node/src/pns_rpc.rs] and [pallets/pns-ddns/src/lib.rs]

    The two front ends of the node over the runtime API at the best block.  Record
    types cross the JSON-RPC boundary as numbers, converted by the hickory library: a
    parameter.  An error of the runtime API becomes an error object in JSON-RPC and an
    empty answer over HTTP. *)

From Stdlib Require Import ZArith Lia.
From Stdlib Require Import Strings.String.
From stdpp Require Import base tactics numbers gmap option list_basics list.
From S2P Require Import Prelude RustStr Types Storage Label Traits Resolvers Registry Registrar Marketplace Runtime Authority.

Local Open Scope Z_scope.

(** [RecordType::from(u16)] and [u16::from(RecordType)]. *)
Class TypeCodes `{H : Hickory} := {
  type_from_u16 : Z -> hickory.HickoryRecordType OtherType;
  type_to_u16 : hickory.HickoryRecordType OtherType -> Z
}.

(** Every number is the code of the type it denotes. *)
Class TypeCodesLaws `{H : Hickory} (T : TypeCodes) : Prop := {
  type_code_roundtrip : forall n, in_width 16 n -> type_to_u16 (type_from_u16 n) = n
}.

(** [sp_api::ApiError] and how it prints with [{:?}]. *)
Class ApiErrors := {
  ApiError : Type;
  api_error_debug : ApiError -> bytes
}.

Section frontends.
Context `{E : Env} `{C : Config} `{H : Hickory} {T : TypeCodes} {AE : ApiErrors}.

(** ** The client *)

(** The runtime API at a block. *)
Record Api := mkApi {
  call_get_info : DomainHash -> result ApiError (option (NameRecord AccountId));
  call_all : result ApiError (list (DomainHash * RegistrarInfo));
  call_lookup : DomainHash -> list codec_type.RecordType ->
    result ApiError (list (codec_type.RecordType * bytes));
  call_resolve_name : bytes -> result ApiError (option (NameRecord AccountId));
  call_get_listing : bytes -> result ApiError (option (ListingInfo AccountId));
  call_lookup_by_name : bytes -> list codec_type.RecordType ->
    result ApiError (list (codec_type.RecordType * bytes));
  call_get_subname : DomainHash -> result ApiError (option (SubnameRecord AccountId));
  call_account_dashboard : AccountId -> result ApiError AccountDashboard
}.

Record Node := mkNode { best_hash : DomainHash; best_height : Z; runtime_api : DomainHash -> Api }.

(** ** JSON-RPC *)

Record ErrorObject := mkErrorObject { error_code : Z; message : bytes; error_data : option bytes }.

Definition INTERNAL_ERROR_CODE : Z := -32603.

Definition runtime_error (e : ApiError) : ErrorObject :=
  mkErrorObject INTERNAL_ERROR_CODE (b_str "Runtime error") (Some (api_error_debug e)).

Inductive RpcOutcome (A : Type) :=
| RpcPanic
| RpcReturn (r : result ErrorObject A).

(** [map_err] to an error object, then [map]. *)
Definition rpc_of {A A'} (f : A -> A') (r : result ApiError A) : result ErrorObject A' :=
  match r with Ok a => Ok (f a) | Err e => Err (runtime_error e) end.

Definition stamp_name (n : Node) (r : NameRecord AccountId) : NameRecord AccountId :=
  mkNameRecord (nr_owner r) (nr_expire r) (nr_capacity r) (nr_register_fee r) (nr_for_sale r)
    (nr_last_block r) (best_height n) (best_hash n).

Definition stamp_listing (n : Node) (r : ListingInfo AccountId) : ListingInfo AccountId :=
  mkListingInfo (li_seller r) (li_price r) (li_expires_at r) (best_height n) (best_hash n).

Definition rpc_get_info (n : Node) (node : DomainHash) :
    result ErrorObject (option (NameRecord AccountId)) :=
  rpc_of (option_map (stamp_name n)) (call_get_info (runtime_api n (best_hash n)) node).

Definition rpc_resolve_name (n : Node) (name : bytes) :
    result ErrorObject (option (NameRecord AccountId)) :=
  rpc_of (option_map (stamp_name n)) (call_resolve_name (runtime_api n (best_hash n)) name).

Definition rpc_get_listing (n : Node) (name : bytes) :
    result ErrorObject (option (ListingInfo AccountId)) :=
  rpc_of (option_map (stamp_listing n)) (call_get_listing (runtime_api n (best_hash n)) name).

(** [RecordType::from(code as u16).into()]; [None] is its panic. *)
Definition type_of_code (code : Z) : option codec_type.RecordType :=
  record_type_into (type_from_u16 (truncate 16 code)).

Definition code_of_type (rt : codec_type.RecordType) : Z := type_to_u16 (record_type_from rt).

(** The body [lookup] and [lookup_by_name] share. *)
Definition rpc_records (record_types : list Z)
    (call : list codec_type.RecordType -> result ApiError (list (codec_type.RecordType * bytes))) :
    RpcOutcome (list (Z * bytes)) :=
  match mapM type_of_code record_types with
  | None => RpcPanic _
  | Some pns_types =>
      RpcReturn _ (rpc_of (map (fun r => (code_of_type r.1, r.2))) (call pns_types))
  end.

Definition rpc_lookup (n : Node) (node : DomainHash) (record_types : list Z) :
    RpcOutcome (list (Z * bytes)) :=
  rpc_records record_types (call_lookup (runtime_api n (best_hash n)) node).

Definition rpc_lookup_by_name (n : Node) (name : bytes) (record_types : list Z) :
    RpcOutcome (list (Z * bytes)) :=
  rpc_records record_types (call_lookup_by_name (runtime_api n (best_hash n)) name).

Definition rpc_all (n : Node) : result ErrorObject (list (DomainHash * RegistrarInfo)) :=
  rpc_of id (call_all (runtime_api n (best_hash n))).

Definition rpc_account_dashboard (n : Node) (account : AccountId) : result ErrorObject AccountDashboard :=
  rpc_of id (call_account_dashboard (runtime_api n (best_hash n)) account).

(** ** HTTP *)

Definition http_get_info (n : Node) (id : DomainHash) : option (NameRecord AccountId) :=
  match call_get_info (runtime_api n (best_hash n)) id with
  | Ok res => res
  | Err _ => None
  end.

Definition http_get_info_from_name (n : Node) (name : bytes) : option (NameRecord AccountId) :=
  match new_with_len name with
  | Some (label, _) => http_get_info n (encode_with_node label BaseNode)
  | None => None
  end.

Definition http_all (n : Node) : list (DomainHash * RegistrarInfo) :=
  match call_all (runtime_api n (best_hash n)) with
  | Ok res => res
  | Err _ => []
  end.

(** ** A node over a chain *)

Definition chain_api (s : State) : Api := {|
  call_get_info := fun id => Ok (api_get_info s id);
  call_all := Ok (api_all s);
  call_lookup := fun id rts => Ok (api_lookup s id rts);
  call_resolve_name := fun name => Ok (api_resolve_name s name);
  call_get_listing := fun name => Ok (api_get_listing s name);
  call_lookup_by_name := fun name rts => Ok (api_lookup_by_name s name rts);
  call_get_subname := fun node => Ok (api_get_subname s node);
  call_account_dashboard := fun a => Ok (api_account_dashboard s a)
|}.

(** The node whose best block left the chain in state [s]. *)
Definition chain_node (s : State) (hash : DomainHash) : Node :=
  mkNode hash (block_number s) (fun _ => chain_api s).

(** ** Theorems *)

Lemma mapM_type_of_code codes rts rt :
  mapM type_of_code codes = Some rts ->
  rt ∈ rts <-> exists code, code ∈ codes /\ type_of_code code = Some rt.
Proof.
  intros Hm%mapM_Some. induction Hm as [|code rt' codes rts Hc Hm IH]; [set_solver|].
  rewrite elem_of_cons, IH. setoid_rewrite elem_of_cons. naive_solver.
Qed.

(** The code of a type a requested code denotes is that code, cut to 16 bits. *)
Lemma code_of_type_of_code {TL : TypeCodesLaws T} code rt :
  type_of_code code = Some rt -> code_of_type rt = truncate 16 code.
Proof.
  intros Hr. unfold code_of_type. rewrite (record_type_from_into _ _ Hr).
  apply type_code_roundtrip. unfold in_width, truncate. by apply Z.mod_pos_bound.
Qed.

(** C34. The lookup over JSON-RPC panics exactly when a requested code denotes a type that
    has no stored counterpart.  Otherwise it returns exactly the non-empty records of
    the two anchors and of the requested types that are not blocked, each under the
    code it was asked by, cut to 16 bits. *)
Theorem rpc_lookup_answers {TL : TypeCodesLaws T} (s : State) (hash node : DomainHash)
    (codes : list Z) :
  (rpc_lookup (chain_node s hash) node codes = RpcPanic _ <->
   exists code, code ∈ codes /\ type_of_code code = None) /\
  forall r, rpc_lookup (chain_node s hash) node codes = RpcReturn _ r ->
  exists l, r = Ok l /\ forall c data, (c, data) ∈ l <->
    data <> [] /\ exists rt, c = code_of_type rt /\ records_get s node rt = data /\
      (rt = codec_type.SS58 \/ rt = codec_type.ORIGIN \/
       (rt ∉ BLOCKED /\ exists code, code ∈ codes /\ type_of_code code = Some rt /\
          c = truncate 16 code)).
Proof.
  unfold rpc_lookup, rpc_records. destruct (mapM type_of_code codes) as [rts|] eqn:Hm.
  - split.
    { split; [done|]. intros (code & Hin & Hn). apply mapM_Some in Hm.
      destruct (proj1 (list_elem_of_lookup _ _) Hin) as [i Hi].
      destruct (Forall2_lookup_l _ _ _ _ _ Hm Hi) as (rt & _ & Hrt). congruence. }
    intros r [= <-]. eexists. split; [done|]. intros c data. unfold api_lookup.
    rewrite list_elem_of_fmap. split.
    + intros ([rt d] & [= -> ->] & Hin). apply elem_of_lookup in Hin as (Hne & Hget & Hrt).
      split; [done|]. exists rt. split_and!; [done..|].
      destruct Hrt as [?|[?|[Hin Hb]]]; [by auto..|]. right; right. split; [done|].
      apply (mapM_type_of_code _ _ _ Hm) in Hin as (code & ? & ?). exists code.
      split_and!; auto. by apply code_of_type_of_code.
    + intros (Hne & rt & -> & Hget & Hrt). exists (rt, data). split; [done|].
      apply elem_of_lookup. split_and!; [done..|].
      destruct Hrt as [?|[?|[Hb (code & ? & ? & ?)]]]; auto. right; right. split; [|done].
      apply (mapM_type_of_code _ _ _ Hm). eauto.
  - split; [|done]. split; [|done]. intros _. apply mapM_None in Hm.
    apply Exists_exists in Hm as (code & ? & ?). eauto.
Qed.

(** Over HTTP a name resolves as the runtime API resolves it. *)
Lemma http_info_resolves (s : State) (hash : DomainHash) (name : bytes) :
  http_get_info_from_name (chain_node s hash) name = api_resolve_name s name.
Proof.
  unfold http_get_info_from_name, api_resolve_name. by destruct (new_with_len name) as [[]|].
Qed.

End frontends.
