(* ===== verification/HttpServer.v ===== *)
(** * The HTTP server: [pallets/pns-ddns/src/lib.rs]

    The routes of [ServerDeps::init_server] over the handlers of [Frontends].  The
    router and the extractors ([axum]) are parameters: which route a path takes and how
    a captured segment is read.  An HTTP request is a method and a path. *)

From Stdlib Require Import ZArith Lia.
From Stdlib Require Import Strings.String.
From stdpp Require Import base tactics numbers gmap option list_basics list.
From S2P Require Import Prelude RustStr Types Storage Label Traits Resolvers Registry Registrar Marketplace Runtime Authority Frontends.

Local Open Scope Z_scope.

Inductive HttpMethod := GET | HEAD | OtherMethod.

(** The answer of a handler, without its body for HEAD, or what [axum] answers itself:
    no route for the path, a method the route does not take, a parameter that cannot be
    read. *)
Inductive HttpResponse (B : Type) :=
| Answer (body : option B)
| NotFound
| MethodNotAllowed
| BadRequest.

Arguments Answer {B} body.
Arguments NotFound {B}.
Arguments MethodNotAllowed {B}.
Arguments BadRequest {B}.

(** A route of [get]: its pattern, and what it does with the parameter the pattern
    captured; [None] when the parameter cannot be read. *)
Definition get_route (B : Type) : Type := bytes * (option bytes -> option B).

(** [axum]: [router_serve] is a [Router] with these routes; [path_hash] and [path_string]
    read a captured segment as a hash and as text. *)
Class AxumLib := {
  router_serve : forall {B}, list (get_route B) -> HttpMethod -> bytes -> HttpResponse B;
  path_hash : bytes -> option DomainHash;
  path_string : bytes -> option bytes
}.

(** A segment a parameter can capture. *)
Definition segment (seg : bytes) : Prop := seg <> [] /\ 47 ∉ seg.

(** How a route of [get] answers. *)
Definition get_answer {B} (m : HttpMethod) (r : option B) : HttpResponse B :=
  match m, r with
  | OtherMethod, _ => MethodNotAllowed
  | _, None => BadRequest
  | GET, Some b => Answer (Some b)
  | HEAD, Some _ => Answer None
  end.

(** Documented of [axum], for routers with these patterns: a pattern without a parameter
    matches itself, a parameter at the end matches one whole segment; [get] takes GET
    and HEAD; a segment of letters, digits and hyphens is read as itself. *)
Class AxumLaws (A : AxumLib) (patterns : list bytes) : Prop := {
  serve_static : forall B (rs : list (get_route B)) i p h m, map fst rs = patterns ->
    rs !! i = Some (p, h) -> 58 ∉ p -> router_serve rs m p = get_answer m (h None);
  serve_param : forall B (rs : list (get_route B)) i prefix param h seg m, map fst rs = patterns ->
    rs !! i = Some (prefix ++ 47 :: 58 :: param, h) -> 58 ∉ prefix -> 47 ∉ param -> segment seg ->
    router_serve rs m (prefix ++ 47 :: seg) = get_answer m (h (Some seg));
  plain_string : forall seg, Forall (fun c => is_ascii_alphanumeric c = true \/ c = 45) seg ->
    path_string seg = Some seg
}.

Section http.
Context `{E : Env} `{C : Config} `{H : Hickory} {T : TypeCodes} {AE : ApiErrors} {AX : AxumLib}.

Inductive Body :=
| JsonRecord (r : option (NameRecord AccountId))
| JsonAll (l : list (DomainHash * RegistrarInfo)).

(** [Router::new().route(..)]: the extractors and the handler of each route. *)
Definition routes (n : Node) : list (get_route Body) :=
  [(b_str "/get_info/:id"%string,
    fun param => seg ← param; id ← path_hash seg; Some (JsonRecord (http_get_info n id)));
   (b_str "/info/:name"%string,
    fun param => seg ← param; name ← path_string seg;
                 Some (JsonRecord (http_get_info_from_name n name)));
   (b_str "/all"%string, fun _ => Some (JsonAll (http_all n)))].

Definition patterns : list bytes :=
  [b_str "/get_info/:id"%string; b_str "/info/:name"%string; b_str "/all"%string].

Inductive HttpServer :=
| HttpPanicked
| HttpServing (answer : HttpMethod -> bytes -> HttpResponse Body).

(** [init_server]: [unwrap] panics when the listener cannot be bound. *)
Definition init_server (bind : bytes -> bool) (n : Node) (socket : bytes) : HttpServer :=
  if bind socket then HttpServing (router_serve (routes n)) else HttpPanicked.

(** ** Theorems *)

Lemma alphanumeric_segment l :
  l <> [] -> Forall (fun c => is_ascii_alphanumeric c = true \/ c = 45) l -> segment l.
Proof.
  intros Hne Hl. split; [done|]. intros Hin. rewrite Forall_forall in Hl.
  by destruct (Hl _ Hin).
Qed.

(** Over HTTP, the address of a label answers with the record the chain resolves it to;
    the list of names is what the runtime API lists; everything but GET and HEAD on a
    route is refused. *)
Theorem http_answers {AL : AxumLaws AX patterns} (s : State) (hash : DomainHash) (name socket : bytes)
    (bind : bytes -> bool) (answer : HttpMethod -> bytes -> HttpResponse Body)
    (Hserve : init_server bind (chain_node s hash) socket = HttpServing answer)
    (Hne : name <> []) (Hname : Forall (fun c => is_ascii_alphanumeric c = true \/ c = 45) name) :
  answer GET (b_str "/info/"%string ++ name) = Answer (Some (JsonRecord (api_resolve_name s name))) /\
  answer HEAD (b_str "/info/"%string ++ name) = Answer None /\
  answer GET (b_str "/all"%string) = Answer (Some (JsonAll (api_all s))) /\
  answer OtherMethod (b_str "/all"%string) = MethodNotAllowed.
Proof.
  unfold init_server in Hserve. destruct (bind socket); [|done]. injection Hserve as <-.
  pose proof (alphanumeric_segment _ Hne Hname) as Hseg.
  assert (forall m, router_serve (routes (chain_node s hash)) m (b_str "/info/"%string ++ name) =
    get_answer m (Some (JsonRecord (api_resolve_name s name)))) as H1.
  { intros m. rewrite <- (http_info_resolves s hash).
    rewrite (serve_param _ (routes (chain_node s hash)) 1 (b_str "/info"%string) (b_str "name"%string)
      _ name m eq_refl eq_refl) by first [done | apply (bool_decide_eq_true_1 _); reflexivity].
    simpl. by rewrite (plain_string _ Hname). }
  assert (forall m, router_serve (routes (chain_node s hash)) m (b_str "/all"%string) =
    get_answer m (Some (JsonAll (api_all s)))) as H2.
  { intros m. rewrite (serve_static _ (routes (chain_node s hash)) 2 _ _ m eq_refl eq_refl); [done|].
    apply (bool_decide_eq_true_1 _). reflexivity. }
  by rewrite !H1, !H2.
Qed.

End http.
