(* ===== verification/DnsGuards.v ===== *)
(** * The guards of the DNS server: [pallets/pns-ddns/src/dns_server.rs]

    The parts of the request handler that have a state of their own: the key of a
    source subnet, the double-buffered bloom filter, the schedule of penalties, the
    queue that paces responses, the metrics ([metrics.rs]), the configuration
    ([lib.rs]) and the choice of processor cores.  The bloom filter of the
    [bloomfilter] crate is a parameter.  Instants and durations are nanoseconds. *)

From Stdlib Require Import ZArith Lia.
From Stdlib Require Import SpecFloat.
From stdpp Require Import base tactics numbers gmap option list_basics list sorting.
From S2P Require Import Prelude RustStr.

Local Open Scope Z_scope.

Definition from_millis (ms : Z) : Z := ms * 1000000.

Definition from_secs (s : Z) : Z := s * 1000000000.

(** ** The subnet of a source *)

(** The octets of an address; those of an IPv6 address after the third in one list. *)
Inductive IpAddr :=
| V4 (o0 o1 o2 o3 : Z)
| V6 (o0 o1 o2 : Z) (rest : list Z).

Abbreviation SubnetKey := (Z * Z * Z * Z)%type.

Definition subnet_key (addr : IpAddr) : SubnetKey :=
  match addr with
  | V4 o0 o1 o2 _ => (o0, o1, o2, 4)
  | V6 o0 o1 o2 _ => (o0, o1, o2, 6)
  end.

(** ** The double-buffered bloom filter *)

(** [bloomfilter::Bloom<String>]; the last argument of [bloom_new] stands for the
    random seed of the hash functions. *)
Class BloomLib := {
  Bloom : Type;
  bloom_new : Z -> spec_float -> nat -> Bloom;
  bloom_check : bytes -> Bloom -> bool;
  bloom_set : bytes -> Bloom -> Bloom;
  bloom_clear : Bloom -> Bloom
}.

(** A filter has no false negatives, and an empty one has no elements. *)
Class BloomLaws (B : BloomLib) : Prop := {
  bloom_check_new : forall k n fp i, bloom_check k (bloom_new n fp i) = false;
  bloom_check_set : forall k b, bloom_check k (bloom_set k b) = true;
  bloom_check_mono : forall k k' b, bloom_check k b = true -> bloom_check k (bloom_set k' b) = true;
  bloom_check_clear : forall k b, bloom_check k (bloom_clear b) = false
}.

(** [f64] arithmetic: 53 bits of precision, exponents up to 1024. *)
Definition f64_of_u64 (n : Z) : spec_float := binary_normalize 53 1024 n 0 false.

Definition f64_div (a b : spec_float) : spec_float := SFdiv 53 1024 a b.

Definition f64_mul (a b : spec_float) : spec_float := SFmul 53 1024 a b.

(** [x as u64]: towards zero, saturating; not a number becomes 0. *)
Definition f64_to_u64 (x : spec_float) : Z :=
  match x with
  | S754_finite false m e => Z.min (Z.shiftl (Zpos m) e) (2 ^ 64 - 1)
  | S754_infinity false => 2 ^ 64 - 1
  | _ => 0
  end.

(** The literals [0.80] and [0.01]: a literal denotes the nearest [f64]. *)
Definition lit_0_80 : spec_float := f64_div (f64_of_u64 80) (f64_of_u64 100).

Definition lit_0_01 : spec_float := f64_div (f64_of_u64 1) (f64_of_u64 100).

Section bloom.
Context `{B : BloomLib}.

Record BloomState := mkBloomState { primary : Bloom; secondary : Bloom; primary_count : Z }.

Record DoubleBloom := mkDoubleBloom { state : BloomState; saturation_count : Z }.

Definition double_bloom_new (capacity : Z) (fp_rate : spec_float) : DoubleBloom :=
  let saturation_count := f64_to_u64 (f64_mul (f64_of_u64 capacity) lit_0_80) in
  mkDoubleBloom (mkBloomState (bloom_new capacity fp_rate 0) (bloom_new capacity fp_rate 1) 0)
    saturation_count.

Definition double_bloom_check (name : bytes) (d : DoubleBloom) : bool :=
  bloom_check name (primary (state d)) || bloom_check name (secondary (state d)).

Definition double_bloom_set (name : bytes) (d : DoubleBloom) : DoubleBloom :=
  let s := state d in
  let s := mkBloomState (bloom_set name (primary s)) (secondary s)
             (wrapping_add 64 (primary_count s) 1) in
  let s := if saturation_count d <=? primary_count s
           then mkBloomState (secondary s) (bloom_clear (primary s)) 0
           else s in
  mkDoubleBloom s (saturation_count d).

End bloom.

(** ** Penalties *)

Record PenaltyState := mkPenaltyState { strikes : Z; blocked_until : Z }.

(** [existing.strikes.saturating_add(1)] on [u8], and the block it earns. *)
Definition block_dur (strikes : Z) : Z :=
  match strikes with
  | 1 => from_secs 1
  | 2 => from_secs 10
  | _ => from_secs 60
  end.

(** The new state [record_penalty] computes. *)
Definition next_penalty (now : Z) (existing : option PenaltyState) : PenaltyState :=
  match existing with
  | Some existing =>
      let strikes := saturating_add 8 (strikes existing) 1 in
      mkPenaltyState strikes (now + block_dur strikes)
  | None => mkPenaltyState 1 (now + from_secs 1)
  end.

(** What [is_penalised] answers for the state found in the cache. *)
Definition blocks (now : Z) (found : option PenaltyState) : bool :=
  match found with
  | Some state => now <? blocked_until state
  | None => false
  end.

(** ** The response queue *)

(** [1.max(min_ms / 4)] milliseconds. *)
Definition tick_period (min_ms : Z) : Z := from_millis (Z.max 1 (min_ms / 4)).

(** The loop of a tick: the waiters to wake, and the queue that is left. *)
Fixpoint release {W} (min now : Z) (queue : list (Z * W)) : list W * list (Z * W) :=
  match queue with
  | [] => ([], [])
  | (entry, s) :: queue' =>
      if entry + min <=? now
      then let '(woken, rest) := release min now queue' in (s :: woken, rest)
      else ([], queue)
  end.

(** ** Metrics *)

Inductive Metric :=
| drop_inflight_cap | drop_any_query | drop_src_rate_limit | drop_zone_rate_limit
| drop_penalty_backoff | drop_bloom_pre_filter | drop_storage_timeout
| drop_storage_rate_limit | drop_label_validation | drop_cname_depth
| neg_cache_hit | first_seen_miss | first_seen_hit
| storage_lookups | storage_timeouts
| resp_noerror | resp_nxdomain | resp_refused | resp_servfail | resp_notimp.

#[global] Instance Metric_eq_dec : EqDecision Metric.
Proof. solve_decision. Defined.

(** One [AtomicU64] per metric. *)
Definition DnsMetrics : Type := Metric -> Z.

Definition metrics_new : DnsMetrics := fun _ => 0.

Definition metric_add (m : Metric) (ms : DnsMetrics) : DnsMetrics :=
  fun m' => if bool_decide (m' = m) then wrapping_add 64 (ms m) 1 else ms m'.

(** The fields of the line [log_snapshot] writes. *)
Definition log_snapshot (ms : DnsMetrics) : list (Metric * Z) :=
  map (fun m => (m, ms m))
    [drop_inflight_cap; drop_any_query; drop_src_rate_limit; drop_zone_rate_limit;
     drop_penalty_backoff; drop_bloom_pre_filter; drop_storage_timeout;
     drop_storage_rate_limit; drop_label_validation; drop_cname_depth;
     neg_cache_hit; first_seen_miss; first_seen_hit; storage_lookups; storage_timeouts;
     resp_noerror; resp_nxdomain; resp_refused; resp_servfail; resp_notimp].

(** ** Configuration and cores *)

Record DnsConfig := mkDnsConfig {
  port : Z;
  workers : Z;
  cores : option (list Z);
  min_response_ms : Z
}.

Definition dns_config_default : DnsConfig := mkDnsConfig 53 2 None 5.

(** [sort_by(|a, b| b.id.cmp(&a.id))]: stable, largest identifier first. *)
Fixpoint insert_core (c : Z) (sorted : list Z) : list Z :=
  match sorted with
  | [] => [c]
  | c' :: sorted' => if c' <=? c then c :: sorted else c' :: insert_core c sorted'
  end.

Definition sort_cores (l : list Z) : list Z := foldr insert_core [] l.

(** [all] is the result of [core_affinity::get_core_ids]. *)
Definition determine_dns_cores (all : option (list Z)) (requested : option (list Z))
    (workers : Z) : list Z :=
  match all with
  | None | Some [] => []
  | Some all_cores =>
      if (length all_cores <? 3)%nat then [] else
      match requested with
      | Some ids =>
          take (Z.to_nat workers)
            (omap (fun id => if bool_decide (id ∈ all_cores) then Some id else None) ids)
      | None => take (Z.to_nat workers) (sort_cores all_cores)
      end
  end.

(** ** Theorems *)

Section bloom_theorems.
Context `{B : BloomLib} {BL : BloomLaws B}.

Definition set_all (d : DoubleBloom) (names : list bytes) : DoubleBloom :=
  foldl (fun d name => double_bloom_set name d) d names.

(** The state after [names] were set in a new filter: only the names since the last
    promotion are there. *)
Record bloom_holds (sat : Z) (names : list bytes) (d : DoubleBloom) : Prop := {
  bh_sat : saturation_count d = sat;
  bh_count : primary_count (state d) = Z.of_nat (length names) mod sat;
  bh_recent : forall k,
    k ∈ drop (length names - Z.to_nat (Z.of_nat (length names) mod sat)) names ->
    bloom_check k (primary (state d)) = true;
  bh_promoted : Z.of_nat (length names) mod sat = 0 ->
    forall k, bloom_check k (primary (state d)) = false;
  bh_secondary : forall k, bloom_check k (secondary (state d)) = false
}.

Lemma mod_succ n sat :
  0 < sat -> 0 <= n ->
  (n + 1) mod sat = if sat <=? n mod sat + 1 then 0 else n mod sat + 1.
Proof.
  intros Hs Hn. pose proof (Z.mod_pos_bound n sat Hs). pose proof (Z.div_mod n sat ltac:(lia)).
  destruct (Z.leb_spec sat (n mod sat + 1)).
  - apply Z.mod_divide; [lia|]. exists (n / sat + 1). lia.
  - symmetry. apply (Z.mod_unique _ _ (n / sat)); lia.
Qed.

Lemma bloom_holds_set sat names d k :
  0 < sat < 2 ^ 64 -> bloom_holds sat names d ->
  bloom_holds sat (names ++ [k]) (double_bloom_set k d).
Proof.
  intros Hs [Hsat Hcount Hrecent Hprom Hsec]. set (n := Z.of_nat (length names)) in *.
  assert (Z.of_nat (length (names ++ [k])) = n + 1) as Hn by (rewrite length_app; simpl; lia).
  pose proof (Z.mod_pos_bound n sat ltac:(lia)) as Hb.
  pose proof (Z.mod_le n sat ltac:(lia) ltac:(lia)) as Hle.
  pose proof (mod_succ n sat ltac:(lia) ltac:(lia)) as Hm.
  unfold double_bloom_set; simpl. rewrite Hsat, Hcount.
  unfold wrapping_add. rewrite (Z.mod_small (n mod sat + 1) (2 ^ 64)) by lia.
  destruct (Z.leb_spec sat (n mod sat + 1)) as [Hp|Hp]; rewrite <- Hn in Hm; split; simpl;
    rewrite ?Hm; auto using bloom_check_clear; try lia.
  - intros k' Hk'. rewrite drop_ge in Hk' by lia. by apply elem_of_nil in Hk'.
  - intros k'. rewrite length_app; simpl.
    replace (length names + 1 - Z.to_nat (n mod sat + 1))%nat
      with (length names - Z.to_nat (n mod sat))%nat by lia.
    rewrite drop_app_le by lia. intros [Hk'| ->%list_elem_of_singleton]%elem_of_app.
    + apply bloom_check_mono. auto.
    + apply bloom_check_set.
Qed.

Lemma f64_to_u64_bound x : 0 <= f64_to_u64 x < 2 ^ 64.
Proof.
  destruct x as [|[]| |[] m e]; simpl; try lia.
  pose proof (proj2 (Z.shiftl_nonneg (Zpos m) e)). lia.
Qed.

(** The double-buffered filter keeps its names only until the next promotion:
    after any sequence of insertions, every name set since the last promotion is
    found, but the secondary filter is always empty, so right after a promotion no
    name is found, not even the one just set. *)
Theorem double_bloom_forgets (capacity : Z) (fp_rate : spec_float) (names : list bytes) :
  let d0 := double_bloom_new capacity fp_rate in
  let d := set_all d0 names in
  let recent := Z.of_nat (length names) mod saturation_count d0 in
  0 < saturation_count d0 ->
  (forall k, k ∈ drop (length names - Z.to_nat recent) names -> double_bloom_check k d = true) /\
  (forall k, bloom_check k (secondary (state d)) = false) /\
  (recent = 0 -> forall k, double_bloom_check k d = false).
Proof.
  intros d0 d recent Hs.
  assert (bloom_holds (saturation_count d0) names d) as [_ _ Hr Hp Hsec].
  { subst d. clear recent. induction names as [|k names IH] using rev_ind.
    - split; simpl; auto using bloom_check_new. intros k Hk. by apply elem_of_nil in Hk.
    - unfold set_all. rewrite foldl_app. simpl. apply bloom_holds_set; [|done].
      split; [done|]. apply f64_to_u64_bound. }
  split_and!; [|done|]; unfold double_bloom_check.
  - intros k Hk. by rewrite (Hr _ Hk).
  - intros H0 k. by rewrite (Hp H0), Hsec.
Qed.

End bloom_theorems.

(** The handler's filter promotes after 80000 insertions. *)
Lemma handler_saturation `{B : BloomLib} :
  saturation_count (double_bloom_new 100000 lit_0_01) = 80000.
Proof. vm_compute. reflexivity. Qed.

(** The state after strikes at the given instants, none of them forgotten. *)
Definition strike_all (times : list Z) : option PenaltyState :=
  foldl (fun p now => Some (next_penalty now p)) None times.

Lemma strike_all_snoc times now :
  strike_all (times ++ [now]) = Some (next_penalty now (strike_all times)).
Proof. unfold strike_all. by rewrite foldl_app. Qed.

Lemma strike_all_strikes times now :
  let n := Z.of_nat (length times) + 1 in
  strike_all (times ++ [now]) =
  Some (mkPenaltyState (Z.min n 255) (now + block_dur (Z.min n 255))).
Proof.
  revert now. induction times as [|t times IH] using rev_ind; intros now; [done|].
  simpl. rewrite strike_all_snoc, IH, length_app. simpl. unfold saturating_add.
  replace (Z.min (Z.min (Z.of_nat (length times) + 1) 255 + 1) (2 ^ 8 - 1))
    with (Z.min (Z.of_nat (length times + 1) + 1) 255) by lia. done.
Qed.

(** The penalty of a subnet grows with its strikes: the first blocks it for one
    second from the strike, the second for ten, and every further one for sixty;
    the count of strikes stops at 255 and does not wrap back to a lighter penalty. *)
Theorem penalties_escalate (times : list Z) (now t : Z) :
  let n := Z.of_nat (length times) + 1 in
  let blocked := from_secs (if n =? 1 then 1 else if n =? 2 then 10 else 60) in
  (strikes <$> strike_all (times ++ [now])) = Some (Z.min n 255) /\
  blocks t (strike_all (times ++ [now])) = (t <? now + blocked).
Proof.
  simpl. rewrite strike_all_strikes. split; [done|]. simpl. f_equal. f_equal. unfold block_dur.
  set (n := Z.of_nat (length times) + 1) in *.
  destruct (Z.eqb_spec n 1) as [->|]; [done|]. destruct (Z.eqb_spec n 2) as [->|]; [done|].
  destruct (Z.min n 255) as [|[p|[p|p|]|]|] eqn:Hm; try done; lia.
Qed.

(** A tick wakes the longest prefix of waiters that are due. *)
Lemma release_spec {W} min now (q : list (Z * W)) woken rest :
  release min now q = (woken, rest) ->
  exists due, q = due ++ rest /\ woken = map snd due /\
    Forall (fun e => e.1 + min <= now) due /\
    (forall e, head rest = Some e -> now < e.1 + min).
Proof.
  revert woken rest. induction q as [|[t w] q IH]; simpl; intros woken rest.
  - intros [= <- <-]. by exists [].
  - destruct (Z.leb_spec (t + min) now).
    + destruct (release min now q) as [wk r] eqn:E. intros [= <- <-].
      destruct (IH _ _ eq_refl) as (due & -> & -> & Hd & Hr).
      exists ((t, w) :: due). split_and!; auto.
    + intros [= <- <-]. exists []. split_and!; auto. by intros e [= <-].
Qed.

Lemma release_all {W} min now (q : list (Z * W)) :
  Forall (fun e => e.1 + min <= now) q -> release min now q = (map snd q, []).
Proof.
  induction 1 as [|[t w] q Hd _ IH]; simpl in *; [done|].
  rewrite IH. by destruct (Z.leb_spec (t + min) now); [|lia].
Qed.

Lemma insert_core_perm c l : insert_core c l ≡ₚ c :: l.
Proof.
  induction l as [|c' l IH]; simpl; [done|]. destruct (c' <=? c); [done|].
  rewrite IH. apply Permutation_swap.
Qed.

Lemma sort_cores_perm l : sort_cores l ≡ₚ l.
Proof. induction l as [|c l IH]; simpl; [done|]. by rewrite insert_core_perm, IH. Qed.

Lemma insert_core_sorted c l : StronglySorted Z.ge l -> StronglySorted Z.ge (insert_core c l).
Proof.
  induction 1 as [|c' l Hl IH Hall]; simpl; [by repeat constructor|].
  destruct (Z.leb_spec c' c).
  - constructor; [by constructor|]. constructor; [lia|].
    eapply Forall_impl; [exact Hall|]. simpl. lia.
  - constructor; [done|]. rewrite insert_core_perm. constructor; [lia|done].
Qed.

Lemma sort_cores_sorted l : StronglySorted Z.ge (sort_cores l).
Proof. induction l; simpl; [constructor|]. by apply insert_core_sorted. Qed.

Lemma sorted_take_drop n l a b :
  StronglySorted Z.ge l -> a ∈ take n l -> b ∈ drop n l -> b <= a.
Proof.
  intros Hs. revert n. induction Hs as [|c l Hl IH Hall]; intros [|n]; simpl.
  - by intros ?%elem_of_nil.
  - by intros ?%elem_of_nil.
  - by intros ?%elem_of_nil.
  - intros [->|Ha]%elem_of_cons Hb; [|eauto].
    rewrite Forall_forall in Hall. specialize (Hall b).
    assert (b ∈ l) as Hbl by (rewrite <- (take_drop n l); set_solver).
    specialize (Hall Hbl). lia.
Qed.

(** The cores the server pins its workers to are cores of the machine, at most
    one per worker, and none on a machine with fewer than three; without a request
    of the operator they are the ones with the largest identifiers, as many as there
    are workers if the machine has them. *)
Theorem dns_cores_selected (all : list Z) (requested : option (list Z)) (workers : Z) :
  let r := determine_dns_cores (Some all) requested workers in
  (forall c, c ∈ r -> c ∈ all) /\ (length r <= Z.to_nat workers)%nat /\
  ((length all < 3)%nat -> r = []) /\
  (requested = None -> (3 <= length all)%nat ->
    length r = Nat.min (Z.to_nat workers) (length all) /\
    forall c c', c ∈ r -> c' ∈ all -> c' ∉ r -> c' < c).
Proof.
  assert (forall r : list Z, r = [] -> (length all < 3)%nat -> (forall c, c ∈ r -> c ∈ all) /\
    (length r <= Z.to_nat workers)%nat) as Hnil.
  { intros r -> _. split; [|simpl; lia]. by intros c ?%elem_of_nil. }
  simpl. destruct all as [|c0 all0].
  { destruct (Hnil [] eq_refl); simpl in *; [lia|]. split_and!; auto. lia. }
  unfold determine_dns_cores. set (all := c0 :: all0).
  destruct (Nat.ltb_spec (length all) 3) as [Hlt|].
  { destruct (Hnil [] eq_refl Hlt). split_and!; auto. lia. }
  pose proof (sort_cores_perm all) as Hp.
  destruct requested as [ids|]; (split_and!; [|rewrite length_take; lia|lia|]); try done.
  - intros c Hc. apply (subseteq_take _ _ _) in Hc. apply list_elem_of_omap in Hc as (id & _ & Hid).
    case_bool_decide; by simplify_eq.
  - intros c Hc. apply (subseteq_take _ _ _) in Hc. by rewrite Hp in Hc.
  - intros _ _. split; [by rewrite length_take, Hp|]. intros c c' Hc Hc' Hout.
    rewrite <- Hp, <- (take_drop (Z.to_nat workers) (sort_cores all)) in Hc'.
    apply elem_of_app in Hc' as [?|Hc']; [done|].
    pose proof (sorted_take_drop _ _ _ _ (sort_cores_sorted all) Hc Hc').
    assert (c' <> c) by (intros ->; done). lia.
Qed.
