(* ===== verification/DnsServer.v ===== *)
(** * The DNS request handler: [pallets/pns-ddns/src/dns_server.rs]

    [HardenedHandler::handle_request] runs concurrently for many requests over
    shared counters, limiters, caches and one response queue.  It is modelled as a
    program ([prog]) of atomic operations ([op]) on the shared state ([Server]), and
    the server as a transition system ([step]) that interleaves the programs of the
    requests in flight with the task that owns the response queue.  Rate limiters
    ([governor]), caches ([moka]) and the handler behind it (hickory's catalog over
    the authority) are parameters. *)

From Stdlib Require Import ZArith Lia.
From Stdlib Require Import Strings.String.
From stdpp Require Import base tactics numbers gmap sets fin_sets fin_maps option list_basics list.
From S2P Require Import Prelude RustStr Types Authority DnsGuards.

Local Open Scope Z_scope.

(** ** Libraries *)

(** [governor::RateLimiter]: [check] at an instant, [true] when the request is within
    the quota. *)
Class LimiterLib := {
  Limiter : Type -> Type;
  limiter_per_second : forall {K}, Z -> Limiter K;
  limiter_check : forall {K} `{EqDecision K}, Z -> K -> Limiter K -> Limiter K * bool
}.

(** [moka::sync::Cache]: capacity and time to live at creation, then operations at an
    instant.  [cache_may c k v] says that the cache may still return [v] for [k]. *)
Class CacheLib := {
  Cache : Type -> Type -> Type;
  cache_new : forall {K V}, Z -> Z -> Cache K V;
  cache_get : forall {K V} `{EqDecision K}, Z -> K -> Cache K V -> Cache K V * option V;
  cache_insert : forall {K V} `{EqDecision K}, Z -> K -> V -> Cache K V -> Cache K V;
  cache_invalidate : forall {K V} `{EqDecision K}, Z -> K -> Cache K V -> Cache K V;
  cache_may : forall {K V} `{EqDecision K}, Cache K V -> K -> V -> Prop
}.

(** A cache returns what was inserted last for a key, or nothing: entries leave it at
    any time. *)
Class CacheLaws (L : CacheLib) : Prop := {
  cache_new_may : forall K V `{EqDecision K} n ttl (k : K) (v : V), ~ cache_may (cache_new n ttl) k v;
  cache_get_may : forall K V `{EqDecision K} now (k : K) (v : V) c,
    (cache_get now k c).2 = Some v -> cache_may c k v;
  cache_get_keeps : forall K V `{EqDecision K} now (k k' : K) (v : V) c,
    cache_may (cache_get now k c).1 k' v -> cache_may c k' v;
  cache_insert_may : forall K V `{EqDecision K} now (k k' : K) (v v' : V) c,
    cache_may (cache_insert now k v c) k' v' -> (k' = k /\ v' = v) \/ (k' <> k /\ cache_may c k' v');
  cache_invalidate_may : forall K V `{EqDecision K} now (k k' : K) (v : V) c,
    cache_may (cache_invalidate now k c) k' v -> k' <> k /\ cache_may c k' v
}.

Section handler.
Context `{H : Hickory} {B : BloomLib} {L : LimiterLib} {CL : CacheLib}.

(** ** Requests *)

(** A parsed request: its source address and its queries. *)
Record Request := mkRequest {
  src : IpAddr;
  queries : list (LowerName * hickory.HickoryRecordType OtherType)
}.

Definition is_any (request : Request) : bool :=
  existsb (fun q => bool_decide (q.2 = hickory.ANY)) (queries request).

(** [split] always has a first piece. *)
Definition zone_key (request : Request) : option bytes :=
  (fun q => default [] (head (split 46 (lower_to_string q.1)))) <$> head (queries request).

Definition labels_valid (request : Request) : bool :=
  forallb (fun q => forallb (fun label => str_len label <=? 63) (split 46 (lower_to_string q.1)))
    (queries request).

Definition query_name (request : Request) : bytes :=
  default [] ((fun q => lower_to_string q.1) <$> head (queries request)).

(** ** The shared state *)

(** The task of the response queue: the channel to it, its queue, and the waiters
    whose channel has been signalled.  A waiter is the number of its request. *)
Record ResponseQueue := mkResponseQueue {
  channel : list (Z * nat);
  queue : list (Z * nat);
  released : gset nat;
  min_wait : Z
}.

Record Server := mkServer {
  inflight : Z;
  src_rl : Limiter SubnetKey;
  global_response_rl : Limiter SubnetKey;
  zone_rl : Limiter bytes;
  penalty_cache : Cache SubnetKey PenaltyState;
  bloom : DoubleBloom;
  neg_cache : Cache bytes unit;
  first_seen : Cache bytes unit;
  storage_rl : Limiter unit;
  response_queue : ResponseQueue;
  metrics : DnsMetrics
}.

Definition max_inflight : Z := 100.

(** [NonZeroU32::new] is used on positive constants only. *)
Definition make_subnet_rl (per_sec : Z) : Limiter SubnetKey := limiter_per_second per_sec.

(** [HardenedHandler::new] *)
Definition handler_new (config : DnsConfig) : Server := {|
  inflight := 0;
  src_rl := make_subnet_rl 10;
  global_response_rl := make_subnet_rl 500;
  zone_rl := limiter_per_second 50;
  penalty_cache := cache_new 65536 (from_secs 300);
  bloom := double_bloom_new 100000 lit_0_01;
  neg_cache := cache_new 20000 (from_secs 60);
  first_seen := cache_new 1000 (from_secs 10);
  storage_rl := limiter_per_second 1000;
  response_queue := mkResponseQueue [] [] ∅ (from_millis (min_response_ms config));
  metrics := metrics_new
|}.

(** ** Programs *)

(** How a lookup of the inner handler ends: with the code of the response it sent, by
    the timeout, or by a panic. *)
Inductive LookupResult := Answered (code : ResponseCode) | TimedOut | LookupPanicked.

(** The atomic operations of a request. *)
Inductive op : Set -> Type :=
| FetchAddInflight : op Z
| FetchSubInflight : op unit
| Bump (m : Metric) : op unit
| Now : op Z
| CheckSrc (k : SubnetKey) : op bool
| CheckGlobal (k : SubnetKey) : op bool
| CheckZone (zone : bytes) : op bool
| CheckStorage : op bool
| PenaltyGet (k : SubnetKey) : op (option PenaltyState)
| PenaltyInsert (k : SubnetKey) (p : PenaltyState) : op unit
| BloomCheck (name : bytes) : op bool
| BloomSet (name : bytes) : op unit
| NegGet (name : bytes) : op bool
| NegInsert (name : bytes) : op unit
| FirstSeenGet (name : bytes) : op bool
| FirstSeenInsert (name : bytes) : op unit
| FirstSeenInvalidate (name : bytes) : op unit
| QueueSend (entry : Z) : op unit
| QueueAwait : op unit
| SendResponse (code : ResponseCode) : op bool
| StartLookup : op Z
| FinishLookup (start : Z) : op LookupResult.

(** What a request's task returns: the code of its [ResponseInfo], or a panic. *)
Inductive TaskResult := Done (code : ResponseCode) | Panicked.

Inductive prog (A : Type) : Type :=
| Ret (a : A)
| Act {X : Set} (o : op X) (k : X -> prog A).

End handler.

Arguments Ret {A} a.
Arguments Act {A X} o k.

Fixpoint prog_bind {A C} (p : prog A) (f : A -> prog C) : prog C :=
  match p with
  | Ret a => f a
  | Act o k => Act o (fun x => prog_bind (k x) f)
  end.

Definition act {X : Set} (o : op X) : prog X := Act o Ret.

Declare Scope prog_scope.
Delimit Scope prog_scope with prog.
Notation "'let*' x := m 'in' k" := (prog_bind m (fun x => k))
  (at level 200, x name, m at level 100, k at level 200) : prog_scope.
Notation "'do*' m 'in' k" := (prog_bind m (fun _ => k))
  (at level 200, m at level 100, k at level 200) : prog_scope.
Local Open Scope prog_scope.

Section handle_request.
Context `{H : Hickory} {B : BloomLib} {L : LimiterLib} {CL : CacheLib}.

(** ** The handler *)

Definition bump (m : Metric) : prog unit := act (Bump m).

(** [drop_info]: nothing is sent, the code is [Refused]. *)
Definition drop_info : prog TaskResult := Ret (Done Refused).

(** An error message; the returned code is the same whether sending works or not. *)
Definition send_error (code : ResponseCode) : prog TaskResult :=
  do* act (SendResponse code) in Ret (Done code).

Definition record_penalty (key : SubnetKey) : prog unit :=
  let* now := act Now in
  let* existing := act (PenaltyGet key) in
  act (PenaltyInsert key (next_penalty now existing)).

Definition is_penalised (key : SubnetKey) : prog bool :=
  let* found := act (PenaltyGet key) in
  match found with
  | Some _ => let* now := act Now in Ret (blocks now found)
  | None => Ret false
  end.

(** [ResponseQueue::wait] *)
Definition wait : prog unit :=
  let* entry := act Now in
  do* act (QueueSend entry) in
  act QueueAwait.

(** The negative caches after an answer of the inner handler. *)
Definition note_answer (query_name : bytes) (code : ResponseCode) : prog unit :=
  if bool_decide (code = NXDomain) then
    let* seen := act (FirstSeenGet query_name) in
    do* (if seen : bool then
           do* act (NegInsert query_name) in
           do* act (BloomSet query_name) in
           do* act (FirstSeenInvalidate query_name) in
           bump first_seen_hit
         else
           do* act (FirstSeenInsert query_name) in
           bump first_seen_miss) in
    bump resp_nxdomain
  else bump resp_noerror.

(** Step 8. *)
Definition storage_lookup (query_name : bytes) : prog TaskResult :=
  do* bump storage_lookups in
  let* start := act StartLookup in
  let* inner_result := act (FinishLookup start) in
  match inner_result with
  | Answered code => do* note_answer query_name code in Ret (Done code)
  | TimedOut =>
      do* bump drop_storage_timeout in
      do* bump storage_timeouts in
      Ret (Done ServFail)
  | LookupPanicked => Ret Panicked
  end.

(** Steps 6 to 13. *)
Definition serve (request : Request) : prog TaskResult :=
  let query_name := query_name request in
  do* act (BloomCheck query_name) in
  let* cached := act (NegGet query_name) in
  if cached : bool then do* bump neg_cache_hit in send_error NXDomain else
  let* admitted := act CheckStorage in
  if negb admitted then do* bump drop_storage_rate_limit in drop_info else
  if negb (labels_valid request) then do* bump drop_label_validation in drop_info else
  do* wait in
  storage_lookup query_name.

(** Steps 2 to 5a, then the rest. *)
Definition checked (request : Request) : prog TaskResult :=
  let src_key := subnet_key (src request) in
  if is_any request then do* bump drop_any_query in send_error NotImp else
  let* admitted := act (CheckSrc src_key) in
  if negb admitted then do* bump drop_src_rate_limit in drop_info else
  let* admitted := act (CheckGlobal src_key) in
  if negb admitted then drop_info else
  let* admitted := match zone_key request with
                   | Some zone => act (CheckZone zone)
                   | None => Ret true
                   end in
  if negb admitted then
    do* bump drop_zone_rate_limit in
    do* record_penalty src_key in
    drop_info
  else
  let* penalised := is_penalised src_key in
  if penalised : bool then do* bump drop_penalty_backoff in drop_info else
  serve request.

(** [InFlightGuard]: the counter goes down when the task ends, also by a panic. *)
Definition guarded (p : prog TaskResult) : prog TaskResult :=
  let* r := p in
  do* act FetchSubInflight in
  Ret r.

Definition handle_request (request : Request) : prog TaskResult :=
  let* current := act FetchAddInflight in
  if max_inflight <=? current then
    do* act FetchSubInflight in
    do* bump drop_inflight_cap in
    drop_info
  else guarded (checked request).

End handle_request.

(** ** The server as a transition system *)

Section server.
Context `{H : Hickory} {B : BloomLib} {L : LimiterLib} {CL : CacheLib}.

Definition with_inflight (n : Z) (s : Server) : Server :=
  mkServer n (src_rl s) (global_response_rl s) (zone_rl s) (penalty_cache s) (bloom s) (neg_cache s)
    (first_seen s) (storage_rl s) (response_queue s) (metrics s).

Definition with_limiters (a b : Limiter SubnetKey) (c : Limiter bytes) (d : Limiter unit)
    (s : Server) : Server :=
  mkServer (inflight s) a b c (penalty_cache s) (bloom s) (neg_cache s) (first_seen s) d
    (response_queue s) (metrics s).

Definition with_caches (p : Cache SubnetKey PenaltyState) (b : DoubleBloom) (n f : Cache bytes unit)
    (s : Server) : Server :=
  mkServer (inflight s) (src_rl s) (global_response_rl s) (zone_rl s) p b n f (storage_rl s)
    (response_queue s) (metrics s).

Definition with_queue (q : ResponseQueue) (s : Server) : Server :=
  mkServer (inflight s) (src_rl s) (global_response_rl s) (zone_rl s) (penalty_cache s) (bloom s)
    (neg_cache s) (first_seen s) (storage_rl s) q (metrics s).

Definition with_metrics (m : DnsMetrics) (s : Server) : Server :=
  mkServer (inflight s) (src_rl s) (global_response_rl s) (zone_rl s) (penalty_cache s) (bloom s)
    (neg_cache s) (first_seen s) (storage_rl s) (response_queue s) m.

(** What the environment decides: whether a response could be sent, and how a lookup
    ends. *)
Record choice := mkChoice { sent : bool; looked : LookupResult }.

(** One operation of request [tid] at instant [now]; [None] when it has to wait. *)
Definition exec (now : Z) (tid : nat) (ch : choice) {X : Set} (o : op X) (s : Server) :
    option (Server * X) :=
  match o in op X return option (Server * X) with
  | FetchAddInflight => Some (with_inflight (wrapping_add 64 (inflight s) 1) s, inflight s)
  | FetchSubInflight => Some (with_inflight (wrapping_add 64 (inflight s) (-1)) s, tt)
  | Bump m => Some (with_metrics (metric_add m (metrics s)) s, tt)
  | Now => Some (s, now)
  | CheckSrc k =>
      let '(l, ok) := limiter_check now k (src_rl s) in
      Some (with_limiters l (global_response_rl s) (zone_rl s) (storage_rl s) s, ok)
  | CheckGlobal k =>
      let '(l, ok) := limiter_check now k (global_response_rl s) in
      Some (with_limiters (src_rl s) l (zone_rl s) (storage_rl s) s, ok)
  | CheckZone zone =>
      let '(l, ok) := limiter_check now zone (zone_rl s) in
      Some (with_limiters (src_rl s) (global_response_rl s) l (storage_rl s) s, ok)
  | CheckStorage =>
      let '(l, ok) := limiter_check now tt (storage_rl s) in
      Some (with_limiters (src_rl s) (global_response_rl s) (zone_rl s) l s, ok)
  | PenaltyGet k =>
      let '(c, v) := cache_get now k (penalty_cache s) in
      Some (with_caches c (bloom s) (neg_cache s) (first_seen s) s, v)
  | PenaltyInsert k p =>
      let c := cache_insert now k p (penalty_cache s) in
      Some (with_caches c (bloom s) (neg_cache s) (first_seen s) s, tt)
  | BloomCheck name => Some (s, double_bloom_check name (bloom s))
  | BloomSet name =>
      let b := double_bloom_set name (bloom s) in
      Some (with_caches (penalty_cache s) b (neg_cache s) (first_seen s) s, tt)
  | NegGet name =>
      let '(c, v) := cache_get now name (neg_cache s) in
      Some (with_caches (penalty_cache s) (bloom s) c (first_seen s) s, bool_decide (v <> None))
  | NegInsert name =>
      let c := cache_insert now name tt (neg_cache s) in
      Some (with_caches (penalty_cache s) (bloom s) c (first_seen s) s, tt)
  | FirstSeenGet name =>
      let '(c, v) := cache_get now name (first_seen s) in
      Some (with_caches (penalty_cache s) (bloom s) (neg_cache s) c s, bool_decide (v <> None))
  | FirstSeenInsert name =>
      let c := cache_insert now name tt (first_seen s) in
      Some (with_caches (penalty_cache s) (bloom s) (neg_cache s) c s, tt)
  | FirstSeenInvalidate name =>
      let c := cache_invalidate now name (first_seen s) in
      Some (with_caches (penalty_cache s) (bloom s) (neg_cache s) c s, tt)
  | QueueSend entry =>
      let q := response_queue s in
      Some (with_queue (mkResponseQueue (channel q ++ [(entry, tid)]) (queue q) (released q)
                          (min_wait q)) s, tt)
  | QueueAwait => if bool_decide (tid ∈ released (response_queue s)) then Some (s, tt) else None
  | SendResponse _ => Some (s, sent ch)
  | StartLookup => Some (s, now)
  | FinishLookup start =>
      match looked ch with
      | TimedOut => if start + from_millis 100 <=? now then Some (s, TimedOut) else None
      | r => Some (s, r)
      end
  end.

(** The queue's task receives a waiter, and wakes waiters on a tick. *)
Definition queue_recv (s : Server) : option Server :=
  let q := response_queue s in
  match channel q with
  | item :: rest =>
      Some (with_queue (mkResponseQueue rest (queue q ++ [item]) (released q) (min_wait q)) s)
  | [] => None
  end.

Definition queue_tick (now : Z) (s : Server) : Server :=
  let q := response_queue s in
  let '(woken, rest) := release (min_wait q) now (queue q) in
  with_queue (mkResponseQueue (channel q) rest (list_to_set woken ∪ released q) (min_wait q)) s.

(** The history of the server. *)
Inductive ServerEvent :=
| Arrived (tid : nat) (request : Request) (at_ : Z)
| Replied (tid : nat) (code : ResponseCode)
| LookupStarted (tid : nat) (at_ : Z)
| LookupEnded (tid : nat) (r : LookupResult)
| FirstSeen (tid : nat) (name : bytes)
| Finished (tid : nat) (r : TaskResult).

Definition event_of (tid : nat) {X : Set} (o : op X) : X -> list ServerEvent :=
  match o in op X return X -> list ServerEvent with
  | SendResponse code => fun ok : bool => if ok then [Replied tid code] else []
  | StartLookup => fun now => [LookupStarted tid now]
  | FinishLookup _ => fun r => [LookupEnded tid r]
  | FirstSeenInsert name => fun _ => [FirstSeen tid name]
  | _ => fun _ => []
  end.

Record World := mkWorld {
  clock : Z;
  server : Server;
  tasks : gmap nat (prog TaskResult);
  next_tid : nat;
  history : list ServerEvent
}.

Definition world_new (config : DnsConfig) (now : Z) : World :=
  mkWorld now (handler_new config) ∅ 0 [].

(** A request arrives (the requests held in memory are far fewer than [2^63]), a
    request's task runs one operation or ends, the queue's task receives or ticks. *)
Inductive step : World -> World -> Prop :=
| step_arrive w now request :
    clock w <= now -> Z.of_nat (size (tasks w)) < 2 ^ 63 ->
    step w (mkWorld now (server w) (<[next_tid w := handle_request request]> (tasks w))
              (S (next_tid w)) (history w ++ [Arrived (next_tid w) request now]))
| step_run w now tid ch (X : Set) (o : op X) k s x :
    clock w <= now -> tasks w !! tid = Some (Act o k) ->
    exec now tid ch o (server w) = Some (s, x) ->
    step w (mkWorld now s (<[tid := k x]> (tasks w)) (next_tid w) (history w ++ event_of tid o x))
| step_exit w tid r :
    tasks w !! tid = Some (Ret r) ->
    step w (mkWorld (clock w) (server w) (delete tid (tasks w)) (next_tid w)
              (history w ++ [Finished tid r]))
| step_recv w s :
    queue_recv (server w) = Some s ->
    step w (mkWorld (clock w) s (tasks w) (next_tid w) (history w))
| step_tick w now :
    clock w <= now ->
    step w (mkWorld now (queue_tick now (server w)) (tasks w) (next_tid w) (history w)).

Definition reachable_world (config : DnsConfig) (now : Z) : World -> Prop :=
  rtc step (world_new config now).

End server.
