(* ===== verification/DnsStart.v ===== *)
(** * Starting the DNS server: [pallets/pns-ddns/src/dns_server.rs]

    [start_dns_server] picks the cores, spawns a thread with a runtime of its own and
    runs [run_dns_server] there, which builds the catalog and the handler, binds the
    UDP socket and serves.  The runtime ([tokio]), the processor affinity
    ([core_affinity]), the socket and hickory's catalog and server are parameters; the
    text of the address is read back with the standard library's parser. *)

From Stdlib Require Import ZArith Lia.
From Stdlib Require Import Strings.String.
From stdpp Require Import base tactics numbers gmap sets fin_sets fin_maps option list_basics list.
From S2P Require Import Prelude RustStr RustNet Types Authority DnsGuards DnsServer.

Local Open Scope Z_scope.

(** ** Addresses *)

(** [Display] of an unsigned integer; [fuel] digits at most. *)
Fixpoint dec_digits (fuel : nat) (n : Z) (acc : list Z) : list Z :=
  match fuel with
  | O => acc
  | S fuel' => if n <? 10 then n :: acc else dec_digits fuel' (n / 10) (n mod 10 :: acc)
  end.

(** A [u16] has five digits at most. *)
Definition fmt_u16 (n : Z) : bytes := map (fun d => 48 + d) (dec_digits 5 n []).

(** [format!("0.0.0.0:{}", port)] *)
Definition listen_addr (port : Z) : bytes := b_str "0.0.0.0:"%string ++ fmt_u16 port.

(** [Parser::read_port]: any number of digits, as long as the value fits. *)
Definition read_port (l : bytes) : option (Z * bytes) :=
  let (ds, rest) := read_digits 10 l in
  if (length ds =? 0)%nat then None else
  let v := digits_value 10 ds in
  if v <? 2 ^ 16 then Some (v, rest) else None.

(** [text.parse::<SocketAddrV4>().ok()] *)
Definition parse_socket_addr_v4 (text : bytes) : option (list Z * Z) :=
  parse_with (fun l =>
    match read_ipv4_addr l with
    | None => None
    | Some (ip, l1) =>
        match read_given_char 58 l1 with
        | None => None
        | Some l2 =>
            match read_port l2 with
            | None => None
            | Some (p, l3) => Some ((ip, p), l3)
            end
        end
    end) text.

(** ** Worker threads *)

(** The lines the start-up logs. *)
Inductive StartLog :=
| Starting (port workers min_response_ms : Z)
| AffinityFailed (core : Z)
| BindFailed (port : Z)
| ListenerBound (port : Z)
| ExitedWithError.

(** [on_thread_start]: the next core of the shared iterator, if there is one.  [pins] is
    [core_affinity::set_for_current]; the result is the rest of the iterator, the core the
    thread now runs on and the log. *)
Definition on_thread_start (pins : Z -> bool) (aff_iter : list Z) :
    list Z * option Z * list StartLog :=
  match aff_iter with
  | [] => ([], None, [])
  | core_id :: rest =>
      if pins core_id then (rest, Some core_id, []) else (rest, None, [AffinityFailed core_id])
  end.

(** [n] threads start, in the order they take the lock. *)
Fixpoint threads_start (pins : Z -> bool) (n : nat) (aff_iter : list Z) :
    list (option Z) * list StartLog :=
  match n with
  | O => ([], [])
  | S n' =>
      let '(rest, core, log) := on_thread_start pins aff_iter in
      let '(cores, logs) := threads_start pins n' rest in
      (core :: cores, log ++ logs)
  end.

(** ** Libraries *)

(** [tokio]'s runtime and sockets, [core_affinity], hickory's [Catalog] and
    [ServerFuture].  [build_runtime] is the builder with the number of workers set,
    [false] if a builder method panics or [build] fails; [block_until_done] is whether
    serving ended without an error. *)
Class StartLib `{H : Hickory} := {
  get_core_ids : option (list Z);
  set_for_current : Z -> bool;
  build_runtime : Z -> bool;
  Catalog : Type;
  catalog_new : Catalog;
  catalog_upsert : LowerName -> list BlockChainAuthority -> Catalog -> Catalog;
  UdpSocket : Type;
  udp_bind : bytes -> option UdpSocket;
  block_until_done : UdpSocket -> bool
}.

(** Documented of [Builder::worker_threads]: it panics unless the number is positive. *)
Class StartLaws `{H : Hickory} (L : StartLib) : Prop := {
  workers_positive : forall n, build_runtime n = true -> 0 < n
}.

Section start.
Context `{H : Hickory} {B : BloomLib} {L : LimiterLib} {CL : CacheLib} {SL : StartLib}.

(** ** The server's thread *)

(** A server that serves: its catalog, its handler, its socket and the seconds between
    two snapshots of the metrics. *)
Record Serving := mkServing {
  sv_catalog : Catalog;
  sv_handler : Server;
  sv_addr : bytes;
  sv_socket : UdpSocket;
  sv_metrics_every : Z
}.

(** How the thread's work ends: by a panic, without a socket, or after serving. *)
Inductive ThreadEnd := ThreadPanicked | NotBound | Served (s : Serving).

Definition run_dns_server (c : Client) (port workers min_ms : Z) : ThreadEnd * list StartLog :=
  match authority_new c, name_from_str (b_str "dot."%string) with
  | Some authority, Some name =>
      let dot_origin := lower_from_name name in
      let catalog := catalog_upsert dot_origin [authority] catalog_new in
      let config_for_handler := mkDnsConfig port workers None min_ms in
      let handler := handler_new config_for_handler in
      let addr := listen_addr port in
      match udp_bind addr with
      | None => (NotBound, [BindFailed port])
      | Some socket =>
          (Served (mkServing catalog handler addr socket 60),
           ListenerBound port :: (if block_until_done socket then [] else [ExitedWithError]))
      end
  | _, _ => (ThreadPanicked, [])
  end.

(** The spawned thread: [expect] on the runtime, then [block_on]. *)
Definition dns_thread (c : Client) (config : DnsConfig) : ThreadEnd * list StartLog :=
  if build_runtime (workers config)
  then run_dns_server c (port config) (workers config) (min_response_ms config)
  else (ThreadPanicked, []).

(** What [start_dns_server] leaves behind: the cores for the workers, the thread and the log. *)
Record Started := mkStarted {
  affinity_cores : list Z;
  thread : ThreadEnd * list StartLog;
  start_log : list StartLog
}.

Definition start_dns_server (c : Client) (config : DnsConfig) : Started :=
  mkStarted (determine_dns_cores get_core_ids (cores config) (workers config))
    (dns_thread c config)
    [Starting (port config) (workers config) (min_response_ms config)].

(** ** Theorems *)

Lemma dec_digits_value fuel n acc :
  0 <= n < 10 ^ Z.of_nat fuel -> (0 < fuel)%nat ->
  exists ds, dec_digits fuel n acc = ds ++ acc /\ ds <> [] /\ Forall (fun d => 0 <= d < 10) ds /\
    forall z, foldl (fun a d => a * 10 + d) z ds = z * 10 ^ Z.of_nat (length ds) + n.
Proof.
  revert n acc. induction fuel as [|fuel IH]; intros n acc Hn Hf; [lia|]. simpl.
  destruct (n <? 10) eqn:Hlt.
  - exists [n]. split_and!; [done..|repeat constructor; lia|]. intros z. simpl. lia.
  - assert (0 <= n / 10 < 10 ^ Z.of_nat fuel) as Hq.
    { rewrite Nat2Z.inj_succ, Z.pow_succ_r in Hn by lia. split; [apply Z.div_pos; lia|].
      apply Z.div_lt_upper_bound; lia. }
    assert (0 < fuel)%nat as Hf'.
    { destruct fuel; [|lia]. simpl in Hq. pose proof (Z.div_le_mono 10 n 10). lia. }
    destruct (IH (n / 10) (n mod 10 :: acc) Hq Hf') as (ds & Hds & Hne & Hd & Hv).
    exists (ds ++ [n mod 10]). split_and!.
    + by rewrite Hds, <- app_assoc.
    + by destruct ds.
    + apply Forall_app. split; [done|]. repeat constructor; apply Z.mod_pos_bound; lia.
    + intros z. rewrite foldl_app, Hv, length_app. simpl. rewrite Nat2Z.inj_add, Z.pow_add_r by lia.
      pose proof (Z.div_mod n 10). change (10 ^ Z.of_nat 1) with 10. nia.
Qed.

Lemma read_digits_text ds :
  Forall (fun d => 0 <= d < 10) ds -> read_digits 10 (map (fun d => 48 + d) ds) = (ds, []).
Proof.
  induction 1 as [|d ds Hd _ IH]; [done|]. cbn [map read_digits]. unfold to_digit, between.
  rewrite (proj2 (Z.leb_le 48 (48 + d))), (proj2 (Z.leb_le (48 + d) 57)) by lia. cbn [andb].
  replace (48 + d - 48) with d by lia. rewrite (proj2 (Z.ltb_lt _ _)), IH by lia. done.
Qed.

Lemma read_port_text n : 0 <= n < 2 ^ 16 -> read_port (fmt_u16 n) = Some (n, []).
Proof.
  intros Hn. unfold fmt_u16, read_port.
  destruct (dec_digits_value 5 n []) as (ds & Hds & Hne & Hd & Hv); [lia..|].
  rewrite app_nil_r in Hds. rewrite Hds, read_digits_text by done.
  destruct ds as [|d ds]; [done|]. cbn [length Nat.eqb].
  assert (digits_value 10 (d :: ds) = n) as -> by (unfold digits_value; rewrite Hv; lia).
  by rewrite (proj2 (Z.ltb_lt _ _)) by lia.
Qed.

(** The address the server binds is the given port on every interface. *)
Lemma listen_addr_parses p :
  0 <= p < 2 ^ 16 -> parse_socket_addr_v4 (listen_addr p) = Some ([0; 0; 0; 0], p).
Proof.
  intros Hp. unfold parse_socket_addr_v4, parse_with, listen_addr.
  change (read_ipv4_addr (b_str "0.0.0.0:"%string ++ fmt_u16 p)) with
    (Some ([0; 0; 0; 0], 58 :: fmt_u16 p)).
  cbn [read_given_char Z.eqb Pos.eqb]. by rewrite read_port_text.
Qed.

(** The threads take the cores one by one, in the order of the selection. *)
Lemma threads_take_cores n l :
  (threads_start (fun _ => true) n l).1 = take n (map Some l ++ repeat None (n - length l)).
Proof.
  revert l. induction n as [|n IH]; intros l; [done|]. destruct l as [|c l]; simpl.
  - specialize (IH []). simpl in IH. destruct (threads_start _ n []). simpl in *. f_equal.
    rewrite IH. by rewrite Nat.sub_0_r.
  - specialize (IH l). destruct (threads_start _ n l). simpl in *. by f_equal.
Qed.

(** C21. The DNS server starts as configured or says why not: its thread serves the zone
    "dot." from the chain, with the handler the options describe, on the given port of
    every interface, or it ends because the socket could not be bound, or it panics
    because its runtime could not be built, which no number of workers but a positive
    one avoids; and the workers are pinned to at most as many cores as there are
    workers. *)
Theorem dns_server_starts_as_configured {SLW : StartLaws SL} (c : Client) (config : DnsConfig)
    (zone : Name) (Hzone : name_from_str (b_str "dot."%string) = Some zone)
    (Hport : 0 <= port config < 2 ^ 16) :
  let started := start_dns_server c config in
  match (thread started).1 with
  | Served sv =>
      sv_handler sv = handler_new config /\
      sv_catalog sv = catalog_upsert (lower_from_name zone)
                        [mkAuthority c (lower_from_name zone)] catalog_new /\
      parse_socket_addr_v4 (sv_addr sv) = Some ([0; 0; 0; 0], port config) /\
      udp_bind (sv_addr sv) = Some (sv_socket sv) /\ 0 < workers config
  | NotBound => udp_bind (listen_addr (port config)) = None /\
      (thread started).2 = [BindFailed (port config)]
  | ThreadPanicked => build_runtime (workers config) = false
  end /\
  (workers config <= 0 -> (thread started).1 = ThreadPanicked) /\
  (length (affinity_cores started) <= Z.to_nat (workers config))%nat.
Proof.
  cbv zeta. unfold start_dns_server, dns_thread, run_dns_server, authority_new. cbn [thread affinity_cores].
  rewrite Hzone. split_and!.
  - destruct (build_runtime (workers config)) eqn:Hb; [|done].
    destruct (udp_bind (listen_addr (port config))) as [so|] eqn:Hso; [|done]. simpl.
    split_and!; try done; [by apply listen_addr_parses|by apply workers_positive].
  - intros Hw. destruct (build_runtime (workers config)) eqn:Hb; [|done].
    apply workers_positive in Hb. lia.
  - unfold determine_dns_cores. destruct get_core_ids as [[|c0 all]|]; simpl; try lia.
    case_match; simpl; [lia|]. destruct (cores config); rewrite length_take; lia.
Qed.

End start.
