(* ===== verification/DnsInv.v ===== *)
(** * What the DNS server guarantees under concurrency

    Theorems about [DnsServer.v], over every interleaving of the requests in flight
    with the task of the response queue.  A request's program is checked once against
    a typestate ([ok]); [typestate_sound] lifts a relation between the world and the
    typestates of its tasks from single steps to all reachable worlds. *)

From Stdlib Require Import ZArith Lia.
From stdpp Require Import base tactics numbers gmap sets fin_sets fin_maps option list_basics list.
From S2P Require Import Prelude RustStr Types Authority DnsGuards DnsServer.

Local Open Scope Z_scope.
Local Open Scope prog_scope.

(** ** Typestates *)

Section typestate.
Context `{H : Hickory} {B : BloomLib} {L : LimiterLib} {CL : CacheLib}.
Context {G : Type} (allowed : forall X : Set, G -> op X -> Prop)
  (next : forall X : Set, G -> op X -> X -> G).

(** From typestate [g] the program only runs allowed operations, and ends in [post]. *)
Fixpoint ok {A} (g : G) (p : prog A) (post : G -> A -> Prop) : Prop :=
  match p with
  | Ret a => post g a
  | @Act _ X o k => allowed X g o /\ forall x : X, ok (next X g o x) (k x) post
  end.

Context (start : Request -> Z -> G) (final : G -> Prop).

Definition typed (w : World) (γ : gmap nat G) : Prop :=
  dom γ = dom (tasks w) /\ (forall tid, tid ∈ dom γ -> (tid < next_tid w)%nat) /\
  forall tid p g, tasks w !! tid = Some p -> γ !! tid = Some g -> ok g p (fun g _ => final g).

(** What a relation has to satisfy to hold in every reachable world. *)
Record step_closed (R : World -> gmap nat G -> Prop) (config : DnsConfig) (now : Z) : Prop := {
  sc_program : forall request at_, ok (start request at_) (handle_request request) (fun g _ => final g);
  sc_init : R (world_new config now) ∅;
  sc_arrive : forall w γ now' request,
    R w γ -> typed w γ -> clock w <= now' -> Z.of_nat (size (tasks w)) < 2 ^ 63 ->
    R (mkWorld now' (server w) (<[next_tid w := handle_request request]> (tasks w))
         (S (next_tid w)) (history w ++ [Arrived (next_tid w) request now']))
      (<[next_tid w := start request now']> γ);
  sc_run : forall w γ now' tid ch (X : Set) (o : op X) k s x g,
    R w γ -> typed w γ -> clock w <= now' -> tasks w !! tid = Some (Act o k) ->
    exec now' tid ch o (server w) = Some (s, x) -> γ !! tid = Some g -> allowed X g o ->
    R (mkWorld now' s (<[tid := k x]> (tasks w)) (next_tid w) (history w ++ event_of tid o x))
      (<[tid := next X g o x]> γ);
  sc_exit : forall w γ tid r g,
    R w γ -> typed w γ -> tasks w !! tid = Some (Ret r) -> γ !! tid = Some g -> final g ->
    R (mkWorld (clock w) (server w) (delete tid (tasks w)) (next_tid w)
         (history w ++ [Finished tid r])) (delete tid γ);
  sc_recv : forall w γ s,
    R w γ -> typed w γ -> queue_recv (server w) = Some s ->
    R (mkWorld (clock w) s (tasks w) (next_tid w) (history w)) γ;
  sc_tick : forall w γ now',
    R w γ -> typed w γ -> clock w <= now' ->
    R (mkWorld now' (queue_tick now' (server w)) (tasks w) (next_tid w) (history w)) γ
}.

Lemma typed_lookup w γ tid p :
  typed w γ -> tasks w !! tid = Some p -> exists g, γ !! tid = Some g.
Proof.
  intros [Hd _] Hp. apply elem_of_dom_2 in Hp. rewrite <- Hd in Hp. by apply elem_of_dom in Hp.
Qed.

Lemma typed_fresh w γ : typed w γ -> γ !! next_tid w = None.
Proof.
  intros (_ & Hlt & _). apply not_elem_of_dom. intros Hin%Hlt. lia.
Qed.

Lemma typed_size w γ : typed w γ -> size γ = size (tasks w).
Proof. intros [Hd _]. rewrite <- !size_dom. by rewrite Hd. Qed.

Lemma typed_insert w now s tid p g h γ n :
  typed w γ -> (tid < n)%nat -> (next_tid w <= n)%nat -> ok g p (fun g _ => final g) ->
  typed (mkWorld now s (<[tid := p]> (tasks w)) n h) (<[tid := g]> γ).
Proof.
  intros (Hd & Hlt & Hok) Htid Hn Hp. split_and!; simpl.
  - by rewrite !dom_insert_L, Hd.
  - intros t. rewrite dom_insert_L, elem_of_union, elem_of_singleton.
    intros [->|Ht%Hlt]; lia.
  - intros t p' g' [[<- <-]|[Hne Ht]]%lookup_insert_Some; [by rewrite lookup_insert_eq; intros [= <-]|].
    rewrite lookup_insert_ne by done. eauto.
Qed.

Lemma typed_step R config now w w' γ :
  step_closed R config now -> typed w γ -> R w γ -> step w w' ->
  exists γ', typed w' γ' /\ R w' γ'.
Proof.
  intros Hc Ht HR Hs. destruct Hs as [w now' request Hle Hsz|w now' tid ch X o k s x Hle Hp He
    |w tid r Hp|w s Hq|w now' Hle].
  - exists (<[next_tid w := start request now']> γ). split; [|by eapply sc_arrive].
    apply typed_insert; [done|lia..|]. by eapply sc_program.
  - destruct (typed_lookup _ _ _ _ Ht Hp) as [g Hg].
    destruct (proj2 (proj2 Ht) _ _ _ Hp Hg) as [Ha Hk].
    exists (<[tid := next X g o x]> γ). split; [|by eapply sc_run].
    apply typed_insert; [done| |lia|apply Hk].
    apply (proj1 (proj2 Ht)). by eapply elem_of_dom_2.
  - destruct (typed_lookup _ _ _ _ Ht Hp) as [g Hg].
    pose proof (proj2 (proj2 Ht) _ _ _ Hp Hg) as Hf. simpl in Hf.
    exists (delete tid γ). split; [|by eapply sc_exit].
    destruct Ht as (Hd & Hlt & Hok). split_and!; simpl.
    + by rewrite !dom_delete_L, Hd.
    + intros t. rewrite dom_delete_L. intros [Ht _]%elem_of_difference. auto.
    + intros t p g' [_ ?]%lookup_delete_Some [_ ?]%lookup_delete_Some. eauto.
  - exists γ. split; [done|]. by eapply sc_recv.
  - exists γ. split; [done|]. by eapply sc_tick.
Qed.

Lemma typestate_sound R config now w :
  step_closed R config now -> reachable_world config now w ->
  exists γ, typed w γ /\ R w γ.
Proof.
  intros Hc Hr. unfold reachable_world in Hr.
  assert (exists γ, typed (world_new config now) γ /\ R (world_new config now) γ) as Hinit.
  { exists ∅. split; [|by eapply sc_init]. split_and!; simpl; [done|set_solver|].
    intros tid p g Hp. by rewrite lookup_empty in Hp. }
  revert Hinit. induction Hr as [|w1 w2 w3 Hs _ IH]; [done|].
  intros (γ & Ht & HR). apply IH. by eapply typed_step.
Qed.

End typestate.

(** Walks through the tree of a concrete program. *)
Ltac walk :=
  lazymatch goal with
  | |- _ /\ _ => split; [|walk]
  | |- forall _, _ => intros ?; cbn [ok prog_bind act bump drop_info send_error]; walk
  | |- context [if ?b then _ else _] => destruct b eqn:?; cbn; walk
  | |- context [match ?x with Some _ => _ | None => _ end] => destruct x eqn:?; cbn; walk
  | |- context [match ?x with Answered _ => _ | TimedOut => _ | LookupPanicked => _ end] =>
      destruct x eqn:?; cbn; walk
  | |- _ => idtac
  end.

(** ** The counter of requests in flight *)

(** What a request did with the counter: not yet counted, counted over the cap, counted
    with a guard, not counted any more. *)
Inductive slot := Fresh | Over | Held | Free.

#[global] Instance slot_eq_dec : EqDecision slot.
Proof. solve_decision. Defined.

Definition slot_allowed (X : Set) (g : slot) (o : op X) : Prop :=
  match o with
  | FetchAddInflight => g = Fresh
  | FetchSubInflight => g = Over \/ g = Held
  | Bump _ => g = Held \/ g = Free
  | _ => g = Held
  end.

Definition slot_next (X : Set) (g : slot) (o : op X) : X -> slot :=
  match o in op X return X -> slot with
  | FetchAddInflight => fun current => if max_inflight <=? current then Over else Held
  | FetchSubInflight => fun _ => Free
  | _ => fun _ => g
  end.

Definition counted (g : slot) : Prop := g = Over \/ g = Held.

#[global] Instance counted_dec g : Decision (counted g).
Proof. unfold counted. apply _. Defined.

(** A task between its admission and the release of its guard, as far as its next
    operation shows it: it checks a limit or a cache, waits, looks up or replies. *)
Definition busy (p : prog TaskResult) : bool :=
  match p with
  | Ret _ => false
  | Act o _ => match o with FetchAddInflight | FetchSubInflight | Bump _ => false | _ => true end
  end.

Definition map_count {A} (P : A -> Prop) `{forall a, Decision (P a)} (m : gmap nat A) : nat :=
  size (filter (fun kv => P kv.2) m).

Lemma map_count_insert {A} (P : A -> Prop) `{forall a, Decision (P a)} (m : gmap nat A) i a :
  map_count P (<[i := a]> m) = ((if decide (P a) then 1 else 0) + map_count P (delete i m))%nat.
Proof.
  unfold map_count. rewrite <- insert_delete_eq, map_filter_insert. simpl.
  destruct (decide (P a)).
  - rewrite map_size_insert_None; [done|]. apply map_lookup_filter_None_2. left.
    by rewrite lookup_delete_eq.
  - by rewrite delete_delete_eq.
Qed.

Lemma map_count_delete {A} (P : A -> Prop) `{forall a, Decision (P a)} (m : gmap nat A) i a :
  m !! i = Some a ->
  map_count P m = ((if decide (P a) then 1 else 0) + map_count P (delete i m))%nat.
Proof. intros Hi. rewrite <- (insert_id _ _ _ Hi) at 1. apply map_count_insert. Qed.

Lemma map_count_le {A C} (P : A -> Prop) (Q : C -> Prop) `{forall a, Decision (P a)}
    `{forall a, Decision (Q a)} (m : gmap nat A) (m' : gmap nat C) :
  (forall i a, m !! i = Some a -> P a -> exists c, m' !! i = Some c /\ Q c) ->
  (map_count P m <= map_count Q m')%nat.
Proof.
  intros Hi. unfold map_count. rewrite <- !size_dom. apply subseteq_size.
  intros i [a Ha]%elem_of_dom. apply map_lookup_filter_Some in Ha as [Ha HP].
  destruct (Hi _ _ Ha HP) as (c & Hc & HQ). apply elem_of_dom. exists c.
  by apply map_lookup_filter_Some.
Qed.

Section slots.
Context `{H : Hickory} {B : BloomLib} {L : LimiterLib} {CL : CacheLib}.

Definition slots (w : World) (γ : gmap nat slot) : Prop :=
  inflight (server w) = Z.of_nat (map_count counted γ) /\
  Z.of_nat (map_count (fun g => g = Held) γ) <= max_inflight /\
  Z.of_nat (size γ) <= 2 ^ 63.

Lemma handle_request_slots request :
  ok slot_allowed slot_next Fresh (handle_request request) (fun g _ => g = Free).
Proof.
  unfold handle_request, guarded, checked, serve, storage_lookup, note_answer, wait, record_penalty,
    is_penalised, send_error. cbn. walk; unfold slot_allowed; auto.
Qed.

(** What an operation does to the counter and to the slot of its task. *)
Lemma exec_slot now tid ch (X : Set) (o : op X) sv sv' x g :
  exec now tid ch o sv = Some (sv', x) -> slot_allowed X g o ->
  (g = Fresh /\ inflight sv' = wrapping_add 64 (inflight sv) 1 /\
     slot_next X g o x = if max_inflight <=? inflight sv then Over else Held) \/
  (counted g /\ inflight sv' = wrapping_add 64 (inflight sv) (-1) /\ slot_next X g o x = Free) \/
  (inflight sv' = inflight sv /\ slot_next X g o x = g).
Proof.
  destruct o; simpl; intros; repeat case_match; simplify_eq/=; auto 6; congruence.
Qed.

Lemma slots_closed config now : step_closed slot_allowed slot_next (fun _ _ => Fresh)
  (fun g => g = Free) slots config now.
Proof.
  split.
  - intros request _. apply handle_request_slots.
  - split_and!; simpl; unfold max_inflight; rewrite ?map_size_empty; try done; lia.
  - intros w γ now' request (Hi & Hc & Hz) Ht _ Hsz. pose proof (typed_fresh _ _ _ _ _ Ht) as Hf.
    rewrite <- (typed_size _ _ _ _ _ Ht) in Hsz.
    unfold slots; simpl. rewrite !map_count_insert, delete_id, map_size_insert_None by done. simpl. lia.
  - intros w γ now' tid ch X o k s x g (Hi & Hc & Hz) Ht _ _ He Hg Ha.
    unfold slots; simpl. rewrite !map_count_insert, map_size_insert_Some by eauto.
    pose proof (map_count_delete counted _ _ _ Hg) as Hn1.
    pose proof (map_count_delete (fun g => g = Held) _ _ _ Hg) as Hn2.
    assert (map_count counted γ <= size γ)%nat as Hle.
    { apply map_subseteq_size, map_filter_subseteq. }
    assert (map_count (fun g => g = Held) (delete tid γ) <= map_count counted (delete tid γ))%nat as Hlt.
    { apply map_count_le. intros i a Ha' ->. exists Held. split; [done|by right]. }
    destruct (exec_slot _ _ _ _ _ _ _ _ _ He Ha) as [(-> & Hi' & ->)|[(Hcn & Hi' & ->)|(Hi' & ->)]];
      rewrite Hi', Hi; unfold wrapping_add, max_inflight in *.
    + rewrite decide_False in Hn1 by (intros [?|?]; done). rewrite decide_False in Hn2 by done.
      rewrite Z.mod_small by lia.
      destruct (Z.leb_spec 100 (Z.of_nat (map_count counted γ))); simpl; lia.
    + rewrite decide_True in Hn1 by done.
      rewrite Z.mod_small by lia. simpl. destruct (decide (g = Held)); lia.
    + lia.
  - intros w γ tid r g (Hi & Hc & Hz) Ht _ Hg ->. unfold slots; simpl.
    pose proof (map_count_delete counted _ _ _ Hg) as Hn1.
    pose proof (map_count_delete (fun g => g = Held) _ _ _ Hg) as Hn2.
    rewrite decide_False in Hn1 by (intros [?|?]; done). rewrite decide_False in Hn2 by done.
    rewrite map_size_delete_Some by eauto. lia.
  - intros w γ s (Hi & Hc & Hz) Ht Hq. unfold queue_recv in Hq. case_match; simplify_eq/=. done.
  - intros w γ now' (Hi & Hc & Hz) Ht _. unfold slots, queue_tick. simpl. by case_match.
Qed.

(** C17. In every interleaving at most [max_inflight] requests are past the first check
    at a time, whether they check limits, wait, look up or reply next ([busy]; a request
    about to bump a metric or to leave is not counted); the counter is never negative
    and never above the number of requests, and it is back at zero when no request is
    left, also after panics. *)
Theorem inflight_capped (config : DnsConfig) (now : Z) (w : World) :
  reachable_world config now w ->
  Z.of_nat (map_count (fun p => busy p = true) (tasks w)) <= max_inflight /\
  0 <= inflight (server w) <= Z.of_nat (size (tasks w)) /\
  (tasks w = ∅ -> inflight (server w) = 0).
Proof.
  intros Hr. destruct (typestate_sound _ _ _ _ _ _ _ _ (slots_closed config now) Hr)
    as (γ & Ht & Hi & Hc & _).
  assert (map_count counted γ <= size (tasks w))%nat as Hle.
  { rewrite <- (typed_size _ _ _ _ _ Ht). apply map_subseteq_size, map_filter_subseteq. }
  split_and!; [|lia..|].
  - etrans; [|exact Hc]. apply inj_le, map_count_le. intros tid p Hp Hb.
    destruct (typed_lookup _ _ _ _ _ _ _ Ht Hp) as [g Hg].
    pose proof (proj2 (proj2 Ht) _ _ _ Hp Hg) as Hok. exists g. split; [done|].
    destruct p as [|X o k]; [done|]. destruct Hok as [Ha _]. by destruct o.
  - intros He. rewrite Hi, He, map_size_empty in *. lia.
Qed.

End slots.

(** ** The pace of lookups *)

(** Where a request stands with the response queue. *)
Inductive stage := Idle | Stamped (t : Z) | Sent | Awake | Past.

Section pace.
Context `{H : Hickory} {B : BloomLib} {L : LimiterLib} {CL : CacheLib}.

(** A request, the instant it arrived, and its stage. *)
Abbreviation pace_state := (Request * Z * stage)%type.

Definition pace_allowed (X : Set) (g : pace_state) (o : op X) : Prop :=
  match o with
  | QueueSend t => g.2 = Stamped t
  | QueueAwait => g.2 = Sent
  | StartLookup => g.2 = Awake /\ is_any g.1.1 = false /\ labels_valid g.1.1 = true
  | _ => True
  end.

Definition pace_next (X : Set) (g : pace_state) (o : op X) : X -> pace_state :=
  match o in op X return X -> pace_state with
  | Now => fun t => (g.1, Stamped t)
  | QueueSend _ => fun _ => (g.1, Sent)
  | QueueAwait => fun _ => (g.1, Awake)
  | StartLookup => fun _ => (g.1, Past)
  | _ => fun _ => g
  end.

(** A lookup that waited for [min] since its request arrived, and was allowed. *)
Definition paced (min : Z) (h : list ServerEvent) (tid : nat) (t : Z) : Prop :=
  exists request at_, Arrived tid request at_ ∈ h /\ at_ + min <= t /\
    is_any request = false /\ labels_valid request = true.

Record pace (min : Z) (w : World) (γ : gmap nat pace_state) : Prop := {
  pc_min : min_wait (response_queue (server w)) = min;
  pc_task : forall tid req a st, γ !! tid = Some (req, a, st) ->
    Arrived tid req a ∈ history w /\ a <= clock w /\ (forall t, st = Stamped t -> a <= t) /\
    (st = Awake -> a + min <= clock w);
  pc_queue : forall t tid, (t, tid) ∈ channel (response_queue (server w)) ++ queue (response_queue (server w)) ->
    (tid < next_tid w)%nat /\ forall req a st, γ !! tid = Some (req, a, st) -> a <= t;
  pc_released : forall tid, tid ∈ released (response_queue (server w)) ->
    (tid < next_tid w)%nat /\ forall req a st, γ !! tid = Some (req, a, st) -> a + min <= clock w;
  pc_history : forall tid t, LookupStarted tid t ∈ history w -> paced min (history w) tid t
}.

Lemma paced_app min h h' tid t : paced min h tid t -> paced min (h ++ h') tid t.
Proof. intros (req & a & Ha & ?). exists req, a. split; [|done]. apply elem_of_app. by left. Qed.

Lemma handle_request_pace request a :
  ok pace_allowed pace_next (request, a, Idle) (handle_request request) (fun _ _ => True).
Proof.
  unfold handle_request, guarded, checked, serve, storage_lookup, note_answer, wait, record_penalty,
    is_penalised, send_error. cbn. walk; cbn; auto using negb_false_iff.
  all: split_and!; auto; by apply negb_false_iff.
Qed.

(** A step of one task that leaves the released waiters alone. *)
Lemma pace_update min w γ now s tid p req a st st' h :
  pace min w γ -> clock w <= now -> γ !! tid = Some (req, a, st) ->
  min_wait (response_queue s) = min ->
  released (response_queue s) = released (response_queue (server w)) ->
  (forall t tid', (t, tid') ∈ channel (response_queue s) ++ queue (response_queue s) ->
     (t, tid') ∈ channel (response_queue (server w)) ++ queue (response_queue (server w)) \/
     (tid' = tid /\ (tid < next_tid w)%nat /\ a <= t)) ->
  (forall t, st' = Stamped t -> a <= t) -> (st' = Awake -> a + min <= now) ->
  (forall tid' t, LookupStarted tid' t ∈ h -> paced min (history w) tid' t) ->
  pace min (mkWorld now s (<[tid := p]> (tasks w)) (next_tid w) (history w ++ h))
    (<[tid := (req, a, st')]> γ).
Proof.
  intros [Hmin Htask Hqueue Hrel Hhist] Hle Hg Hmin' Hrel' Hq Hst Hawake Hh.
  destruct (Htask _ _ _ _ Hg) as (Harr & Hac & _ & _).
  assert (forall tid' req' a' st'', <[tid := (req, a, st')]> γ !! tid' = Some (req', a', st'') ->
    exists st0, γ !! tid' = Some (req', a', st0)) as Hlook.
  { intros tid' req' a' st'' [[<- [= <- <- <-]]|[_ ?]]%lookup_insert_Some; eauto. }
  split; simpl; rewrite ?Hrel'; auto.
  - intros tid' req' a' st'' [[<- [= <- <- <-]]|[_ Hg']]%lookup_insert_Some.
    + split_and!; auto; [apply elem_of_app; by left|lia].
    + destruct (Htask _ _ _ _ Hg') as (Ha' & ? & Hs' & Hw').
      split_and!; auto; [apply elem_of_app; by left|lia|]. intros ?%Hw'. lia.
  - intros t tid' [Hin|(-> & ? & ?)]%Hq.
    + destruct (Hqueue _ _ Hin) as [? Ha']. split; [done|].
      intros req' a' st'' (st0 & Hg')%Hlook. eauto.
    + split; [done|]. intros req' a' st''. rewrite lookup_insert_eq. by intros [= <- <- <-].
  - intros tid' Hin. destruct (Hrel _ Hin) as [? Ha']. split; [done|].
    intros req' a' st'' (st0 & Hg')%Hlook. specialize (Ha' _ _ _ Hg'). lia.
  - intros tid' t [Hin|Hin]%elem_of_app; apply paced_app; auto.
Qed.

(** Operations that touch neither the queue nor the stage. *)
Lemma pace_run min w γ now tid ch (X : Set) (o : op X) k s x req a st :
  pace min w γ -> (tid < next_tid w)%nat -> clock w <= now ->
  exec now tid ch o (server w) = Some (s, x) -> γ !! tid = Some (req, a, st) ->
  pace_allowed X (req, a, st) o ->
  pace min (mkWorld now s (<[tid := k x]> (tasks w)) (next_tid w) (history w ++ event_of tid o x))
    (<[tid := pace_next X (req, a, st) o x]> γ).
Proof.
  intros Hp Hlt Hle He Hg Ha. destruct (pc_task _ _ _ Hp _ _ _ _ Hg) as (Harr & Hac & Hst & Haw).
  pose proof (pc_min _ _ _ Hp) as Hmin.
  assert (forall st', response_queue s = response_queue (server w) ->
    (forall t, st' = Stamped t -> a <= t) -> (st' = Awake -> a + min <= now) ->
    (forall tid' t, LookupStarted tid' t ∈ event_of tid o x -> paced min (history w) tid' t) ->
    pace min (mkWorld now s (<[tid := k x]> (tasks w)) (next_tid w) (history w ++ event_of tid o x))
      (<[tid := (req, a, st')]> γ)) as Hsame.
  { intros st' Hq Hs Hw Hh. eapply pace_update; rewrite ?Hq; eauto. }
  destruct o; simpl in *; repeat case_match; simplify_eq/=;
    try (apply Hsame; [done|auto|intros ?%Haw; lia|]; intros ??; set_solver).
  - apply Hsame; [done| |done|set_solver]. intros t [= <-]. lia.
  - eapply pace_update; eauto; try done; [|set_solver].
    intros t tid'. simpl. rewrite <- app_assoc, !elem_of_app, list_elem_of_singleton.
    intros [?|[[= -> ->]|?]]; auto 6.
  - apply Hsame; [done|done| |set_solver]. intros _.
    match goal with Hin : bool_decide _ = true |- _ =>
      destruct (pc_released _ _ _ Hp _ (proj1 (bool_decide_eq_true _) Hin)) as [_ Hr] end.
    specialize (Hr _ _ _ Hg). lia.
  - destruct Ha as (-> & Hany & Hlab). apply Hsame; [done|done|done|].
    intros tid' t [= -> ->]%list_elem_of_singleton.
    exists req, a. split_and!; auto. specialize (Haw eq_refl). lia.
Qed.

Lemma pace_closed config now : step_closed pace_allowed pace_next (fun request a => (request, a, Idle))
  (fun _ => True) (pace (from_millis (min_response_ms config))) config now.
Proof.
  split.
  - intros. apply handle_request_pace.
  - split; simpl; try done; intros *; rewrite ?lookup_empty; set_solver.
  - intros w γ now' request [Hmin Htask Hqueue Hrel Hhist] Ht Hle _.
    assert (forall tid, (tid < next_tid w)%nat -> <[next_tid w := (request, now', Idle)]> γ !! tid = γ !! tid)
      as Hne by (intros; apply lookup_insert_ne; lia).
    split; simpl; [done|..].
    + intros tid req a st [[<- [= <- <- <-]]|[_ Hg]]%lookup_insert_Some.
      * split_and!; auto; [set_solver|lia|done..].
      * destruct (Htask _ _ _ _ Hg) as (? & ? & ? & Hw).
        split_and!; auto; [set_solver|lia|]. intros ?%Hw. lia.
    + intros t tid [? Ha]%Hqueue. split; [lia|]. intros req a st. rewrite Hne by done. eauto.
    + intros tid [? Ha]%Hrel. split; [lia|]. intros req a st. rewrite Hne by done.
      intros ?%Ha. lia.
    + intros tid t [Hin|?]%elem_of_app; [by apply paced_app, Hhist|set_solver].
  - intros w γ now' tid ch X o k s x [[req a] st] Hp Ht Hle _ He Hg Ha.
    eapply pace_run; eauto. apply (proj1 (proj2 Ht)). by eapply elem_of_dom_2.
  - intros w γ tid r g [Hmin Htask Hqueue Hrel Hhist] Ht _ Hg _.
    split; simpl; [done|..].
    + intros tid' req a st [_ Hg']%lookup_delete_Some.
      destruct (Htask _ _ _ _ Hg') as (? & ?). split; [set_solver|done].
    + intros t tid' [? Ha]%Hqueue. split; [done|]. intros req a st [_ ?]%lookup_delete_Some. eauto.
    + intros tid' [? Ha]%Hrel. split; [done|]. intros req a st [_ ?]%lookup_delete_Some. eauto.
    + intros tid' t [Hin|?]%elem_of_app; [by apply paced_app, Hhist|set_solver].
  - intros w γ s [Hmin Htask Hqueue Hrel Hhist] Ht Hq. unfold queue_recv in Hq.
    case_match; simplify_eq/=. split; simpl; auto.
    intros t tid Hin. apply Hqueue. set_solver.
  - intros w γ now' [Hmin Htask Hqueue Hrel Hhist] Ht Hle. unfold queue_tick.
    destruct (release _ _ _) as [woken rest] eqn:Hr.
    destruct (release_spec _ _ _ _ _ Hr) as (due & Hq & -> & Hdue & _).
    split; simpl; [done|..|done].
    + intros tid req a st Hg. destruct (Htask _ _ _ _ Hg) as (? & ? & ? & Hw).
      split_and!; auto; [lia|]. intros ?%Hw. lia.
    + intros t tid Hin. apply Hqueue. rewrite Hq. set_solver.
    + intros tid [Hin|Hin]%elem_of_union.
      * apply elem_of_list_to_set, list_elem_of_fmap in Hin as ([t tid'] & -> & Hin). simpl.
        rewrite Forall_forall in Hdue. specialize (Hdue _ Hin). simpl in Hdue.
        destruct (Hqueue t tid') as [? Ha]; [rewrite Hq; set_solver|]. split; [done|].
        intros req a st ?%Ha. lia.
      * destruct (Hrel _ Hin) as [? Ha]. split; [done|]. intros req a st ?%Ha. lia.
Qed.

(** C19. Every lookup of the chain's storage was let through: its request asks for no
    ANY record and has no label longer than 63 bytes, and it waited in the response
    queue until the configured minimum time had passed since the request arrived. *)
Theorem lookups_are_guarded_and_paced (config : DnsConfig) (now : Z) (w : World)
    (tid : nat) (t : Z) :
  reachable_world config now w -> LookupStarted tid t ∈ history w ->
  exists request at_, Arrived tid request at_ ∈ history w /\
    at_ + from_millis (min_response_ms config) <= t /\
    is_any request = false /\ labels_valid request = true.
Proof.
  intros Hr Hin. destruct (typestate_sound _ _ _ _ _ _ _ _ (pace_closed config now) Hr)
    as (γ & _ & Hp). by apply (pc_history _ _ _ Hp).
Qed.

End pace.
