(* ===== verification/DnsProgress.v ===== *)
(** * Negative answers and progress of the DNS server

    Two more guarantees over every interleaving, by the typestates of [DnsInv.v]: a
    name enters the negative cache only after two lookups found that it does not
    exist, and no request can get stuck. *)

From Stdlib Require Import ZArith Lia.
From stdpp Require Import base tactics numbers gmap sets fin_sets fin_maps option list_basics list.
From S2P Require Import Prelude RustStr Types Authority DnsGuards DnsServer DnsInv.

Local Open Scope Z_scope.
Local Open Scope prog_scope.

(** ** The negative cache *)

(** What a request knows about its name: nothing, how its lookup ended, that another
    lookup failed before, or that it recorded its own failure. *)
Inductive verdict := Unknown | Ended (r : LookupResult) | Confirmed | Recorded.

Section negative.
Context `{H : Hickory} {B : BloomLib} {L : LimiterLib} {CL : CacheLib} {CLW : CacheLaws CL}.

Abbreviation nx_result := (Answered NXDomain).
Abbreviation neg_state := (Request * verdict)%type.

Definition neg_allowed (X : Set) (g : neg_state) (o : op X) : Prop :=
  match o with
  | FinishLookup _ => g.2 = Unknown
  | FirstSeenGet n | FirstSeenInsert n => g.2 = Ended nx_result /\ n = query_name g.1
  | NegInsert n => g.2 = Confirmed /\ n = query_name g.1
  | _ => True
  end.

Definition neg_next (X : Set) (g : neg_state) (o : op X) : X -> neg_state :=
  match o in op X return X -> neg_state with
  | FinishLookup _ => fun r => (g.1, Ended r)
  | FirstSeenGet _ => fun hit : bool => if hit then (g.1, Confirmed) else g
  | FirstSeenInsert _ => fun _ => (g.1, Recorded)
  | _ => fun _ => g
  end.

(** Request [tid] asked for [name], and its lookup said that it does not exist. *)
Definition found_missing (h : list ServerEvent) (tid : nat) (name : bytes) : Prop :=
  (exists request at_, Arrived tid request at_ ∈ h /\ query_name request = name) /\
  LookupEnded tid nx_result ∈ h.

(** The facts a verdict stands for. *)
Definition verdict_holds (h : list ServerEvent) (tid : nat) (req : Request) (v : verdict) : Prop :=
  match v with
  | Unknown => True
  | Ended r => LookupEnded tid r ∈ h
  | Confirmed => LookupEnded tid nx_result ∈ h /\
      exists other, other <> tid /\ found_missing h other (query_name req)
  | Recorded => True
  end /\
  (v <> Recorded -> forall n, FirstSeen tid n ∉ h).

Record negative (w : World) (γ : gmap nat neg_state) : Prop := {
  ng_task : forall tid req v, γ !! tid = Some (req, v) ->
    (exists at_, Arrived tid req at_ ∈ history w) /\ verdict_holds (history w) tid req v;
  ng_fresh : forall tid n, FirstSeen tid n ∈ history w -> (tid < next_tid w)%nat;
  ng_first : forall n, cache_may (first_seen (server w)) n tt ->
    exists tid, FirstSeen tid n ∈ history w /\ found_missing (history w) tid n;
  ng_neg : forall n, cache_may (neg_cache (server w)) n tt ->
    exists a b, a <> b /\ found_missing (history w) a n /\ found_missing (history w) b n
}.

Lemma found_missing_app h h' tid n : found_missing h tid n -> found_missing (h ++ h') tid n.
Proof.
  intros [(req & at_ & Ha & Hn) He]. split; [exists req, at_; split; [|done]|];
    apply elem_of_app; by left.
Qed.

Lemma handle_request_negative request :
  ok neg_allowed neg_next (request, Unknown) (handle_request request) (fun _ _ => True).
Proof.
  unfold handle_request, guarded, checked, serve, storage_lookup, note_answer, wait, record_penalty,
    is_penalised, send_error. cbn. walk; cbn; auto.
  all: case_bool_decide; simplify_eq; cbn; repeat (split || intros ? || case_match); auto.
Qed.

Lemma verdict_holds_app h h' tid req v :
  (forall n, FirstSeen tid n ∉ h') -> verdict_holds h tid req v -> verdict_holds (h ++ h') tid req v.
Proof.
  intros Hf [Hv Hn]. split; [|intros Hne n; specialize (Hn Hne n); set_solver].
  destruct v; auto; [set_solver|]. destruct Hv as (? & other & ? & ?).
  split; [set_solver|]. eauto using found_missing_app.
Qed.

Lemma verdict_ended h tid req r :
  verdict_holds h tid req Unknown -> verdict_holds (h ++ [LookupEnded tid r]) tid req (Ended r).
Proof.
  intros [_ Hno]. split; [set_solver|]. intros _ n. specialize (Hno ltac:(done) n). set_solver.
Qed.

Lemma negative_update w γ now s tid p req v v' h :
  negative w γ -> (tid < next_tid w)%nat -> γ !! tid = Some (req, v) ->
  verdict_holds (history w ++ h) tid req v' ->
  (forall tid' n, FirstSeen tid' n ∈ h -> tid' = tid) ->
  (forall n, cache_may (first_seen s) n tt -> cache_may (first_seen (server w)) n tt \/
     exists tid, FirstSeen tid n ∈ history w ++ h /\ found_missing (history w ++ h) tid n) ->
  (forall n, cache_may (neg_cache s) n tt -> cache_may (neg_cache (server w)) n tt \/
     exists a b, a <> b /\ found_missing (history w ++ h) a n /\ found_missing (history w ++ h) b n) ->
  negative (mkWorld now s (<[tid := p]> (tasks w)) (next_tid w) (history w ++ h))
    (<[tid := (req, v')]> γ).
Proof.
  intros [Htask Hfresh Hfirst Hneg] Hlt Hg Hv Hh Hf Hn. split; simpl.
  - intros tid' req' v'' [[<- [= <- <-]]|[Hne Hg']]%lookup_insert_Some.
    + destruct (Htask _ _ _ Hg) as [[at_ ?] _]. split; [exists at_; set_solver|done].
    + destruct (Htask _ _ _ Hg') as [[at_ ?] Hv']. split; [exists at_; set_solver|].
      apply verdict_holds_app; [|done]. intros n ?%Hh. congruence.
  - intros tid' n [?%Hfresh| ->%Hh]%elem_of_app; auto.
  - intros n [(t & ? & ?)%Hfirst|?]%Hf; [|done]. exists t. split; [set_solver|].
    by apply found_missing_app.
  - intros n [(a & b & ? & ? & ?)%Hneg|?]%Hn; [|done]. exists a, b.
    split_and!; auto using found_missing_app.
Qed.

Lemma negative_run w γ now tid ch (X : Set) (o : op X) k s x req v :
  negative w γ -> (tid < next_tid w)%nat -> exec now tid ch o (server w) = Some (s, x) ->
  γ !! tid = Some (req, v) -> neg_allowed X (req, v) o ->
  negative (mkWorld now s (<[tid := k x]> (tasks w)) (next_tid w) (history w ++ event_of tid o x))
    (<[tid := neg_next X (req, v) o x]> γ).
Proof.
  intros Hn Hlt He Hg Ha. destruct (ng_task _ _ Hn _ _ _ Hg) as ([at_ Harr] & Hvh).
  assert (forall n, n = query_name req -> LookupEnded tid nx_result ∈ history w ->
    found_missing (history w) tid n) as Hown by (intros n -> ?; split; eauto).
  destruct o; simpl in *; repeat case_match; simplify_eq/=;
    try (apply (negative_update _ _ _ _ _ _ _ _ _ _ Hn Hlt Hg);
         [by apply verdict_holds_app; [set_solver|]|set_solver|by auto|by auto]).
  all: repeat match goal with Hc : cache_get ?t ?n ?c = (?c', ?r) |- _ =>
    pose proof (fun k v => cache_get_keeps _ _ t n k v c) as Hkeep;
    pose proof (fun v => cache_get_may _ _ t n v c) as Hhit; rewrite Hc in Hkeep, Hhit; clear Hc;
    simpl in Hkeep, Hhit end.
  all: apply (negative_update _ _ _ _ _ _ _ _ _ _ Hn Hlt Hg); simpl; [|set_solver| |]; auto.
  - by apply verdict_holds_app; [set_solver|].
  - by apply verdict_holds_app; [set_solver|].
  - destruct Ha as [-> ->]. destruct Hvh as [[He' (b & Hb & Hfm)] _].
    intros n [[-> _]|[_ ?]]%cache_insert_may; [right|by left].
    exists tid, b. rewrite app_nil_r. auto.
  - (* a hit in [first_seen] was recorded by another request *)
    destruct Ha as [-> ->]. destruct Hvh as [He' Hno]. rewrite app_nil_r.
    destruct o as [[]|]; [|done].
    destruct (ng_first _ _ Hn _ (Hhit _ eq_refl)) as (b & Hb & Hfm).
    split; [|auto]. split; [done|]. exists b. split; [|done]. intros ->.
    by apply (Hno ltac:(done) _ Hb).
  - by apply verdict_holds_app; [set_solver|].
  - split; [done|]. by intros [].
  - destruct Ha as [-> ->]. destruct Hvh as [He' _].
    intros n [[-> _]|[_ ?]]%cache_insert_may; [right|by left].
    exists tid. split; [set_solver|]. apply found_missing_app. auto.
  - by apply verdict_holds_app; [set_solver|].
  - intros n [_ ?]%cache_invalidate_may. by left.
  - by apply verdict_ended.
  - by apply verdict_ended.
  - by apply verdict_ended.
Qed.

Lemma negative_closed config now : step_closed neg_allowed neg_next (fun request _ => (request, Unknown))
  (fun _ => True) negative config now.
Proof.
  split.
  - intros. apply handle_request_negative.
  - split; simpl; intros *; rewrite ?lookup_empty; try set_solver; intros Hm; by apply cache_new_may in Hm.
  - intros w γ now' request Hn Ht _ _. pose proof (typed_fresh _ _ _ _ _ Ht) as Hf.
    destruct Hn as [Htask Hfresh Hfirst Hneg]. split; simpl.
    + intros tid req v [[<- [= <- <-]]|[_ Hg]]%lookup_insert_Some.
      * split; [exists now'; set_solver|]. split; [done|]. intros _ n [Hin%Hfresh|?]%elem_of_app; [lia|set_solver].
      * destruct (Htask _ _ _ Hg) as [[at_ ?] Hv]. split; [exists at_; set_solver|].
        apply verdict_holds_app; [set_solver|done].
    + intros tid n [?%Hfresh|?]%elem_of_app; [lia|set_solver].
    + intros n (t & ? & ?)%Hfirst. exists t. split; [set_solver|]. by apply found_missing_app.
    + intros n (a & b & ? & ? & ?)%Hneg. exists a, b. split_and!; auto using found_missing_app.
  - intros w γ now' tid ch X o k s x [req v] Hn Ht Hle _ He Hg Ha.
    eapply negative_run; eauto. apply (proj1 (proj2 Ht)). by eapply elem_of_dom_2.
  - intros w γ tid r g [Htask Hfresh Hfirst Hneg] Ht _ Hg _. split; simpl.
    + intros tid' req v [_ Hg']%lookup_delete_Some.
      destruct (Htask _ _ _ Hg') as [[at_ ?] Hv]. split; [exists at_; set_solver|].
      apply verdict_holds_app; [set_solver|done].
    + intros tid' n [?%Hfresh|?]%elem_of_app; [lia|set_solver].
    + intros n (t & ? & ?)%Hfirst. exists t. split; [set_solver|]. by apply found_missing_app.
    + intros n (a & b & ? & ? & ?)%Hneg. exists a, b. split_and!; auto using found_missing_app.
  - intros w γ s [Htask Hfresh Hfirst Hneg] Ht Hq. unfold queue_recv in Hq.
    case_match; simplify_eq/=. by split.
  - intros w γ now' [Htask Hfresh Hfirst Hneg] Ht Hle. unfold queue_tick.
    destruct (release _ _ _). by split.
Qed.

(** C20. A negative answer is cached only when it is confirmed: in every interleaving, a
    name for which the negative cache answers was looked up by two different requests,
    and both lookups found that it does not exist. *)
Theorem negative_cache_needs_two_lookups (config : DnsConfig) (now : Z) (w : World)
    (t : Z) (name : bytes) :
  reachable_world config now w -> (cache_get t name (neg_cache (server w))).2 = Some tt ->
  exists a b, a <> b /\ found_missing (history w) a name /\ found_missing (history w) b name.
Proof.
  intros Hr Hget. destruct (typestate_sound _ _ _ _ _ _ _ _ (negative_closed config now) Hr)
    as (γ & _ & Hn). by apply (ng_neg _ _ Hn), (cache_get_may _ _ t).
Qed.

End negative.

(** ** Progress *)

Inductive waiting := Running | InQueue.

Section progress.
Context `{H : Hickory} {B : BloomLib} {L : LimiterLib} {CL : CacheLib}.

Definition wait_allowed (X : Set) (g : waiting) (o : op X) : Prop :=
  match o with QueueAwait => g = InQueue | _ => True end.

Definition wait_next (X : Set) (g : waiting) (o : op X) : X -> waiting :=
  match o in op X return X -> waiting with
  | QueueSend _ => fun _ => InQueue
  | QueueAwait => fun _ => Running
  | _ => fun _ => g
  end.

(** A waiter is known to the task that will wake it. *)
Definition known (q : ResponseQueue) (tid : nat) : Prop :=
  tid ∈ released q \/ exists t, (t, tid) ∈ channel q ++ queue q.

Definition waits (w : World) (γ : gmap nat waiting) : Prop :=
  forall tid, γ !! tid = Some InQueue -> known (response_queue (server w)) tid.

Lemma handle_request_waits request :
  ok wait_allowed wait_next Running (handle_request request) (fun _ _ => True).
Proof.
  unfold handle_request, guarded, checked, serve, storage_lookup, note_answer, wait, record_penalty,
    is_penalised, send_error. cbn. walk; cbn; auto.
Qed.

Lemma waits_closed config now : step_closed wait_allowed wait_next (fun _ _ => Running)
  (fun _ => True) waits config now.
Proof.
  split.
  - intros. apply handle_request_waits.
  - intros tid. by rewrite lookup_empty.
  - intros w γ now' request Hw _ _ _ tid [[_ ?]|[_ ?]]%lookup_insert_Some; [done|]. by apply Hw.
  - intros w γ now' tid ch X o k s x g Hw _ _ _ He Hg Ha tid'.
    assert (response_queue s = response_queue (server w) -> wait_next X g o x = g ->
      <[tid := wait_next X g o x]> γ !! tid' = Some InQueue -> known (response_queue s) tid') as Hsame.
    { intros -> -> [[<- ->]|[_ ?]]%lookup_insert_Some; by apply Hw. }
    destruct o; simpl in *; repeat case_match; simplify_eq/=; try (by apply Hsame).
    + intros [[<- _]|[_ [?|[t Ht]]%Hw]]%lookup_insert_Some; [right; exists entry|by left|right; exists t];
        simpl in *; set_solver.
    + intros [[_ ?]|[_ ?]]%lookup_insert_Some; [done|]. by apply Hw.
  - intros w γ tid r g Hw _ _ _ _ tid' [_ ?]%lookup_delete_Some. by apply Hw.
  - intros w γ s Hw _ Hq tid [?|[t Ht]]%Hw; unfold queue_recv in Hq; case_match; simplify_eq/=;
      [by left|right; exists t; simpl]. set_solver.
  - intros w γ now' Hw _ _ tid [Hin|[t Ht]]%Hw; unfold queue_tick;
      destruct (release _ _ _) as [woken rest] eqn:Hr; [left; simpl; set_solver|].
    destruct (release_spec _ _ _ _ _ Hr) as (due & Hq & -> & _). unfold known; simpl in *.
    rewrite Hq in Ht. apply elem_of_app in Ht as [?|[Hd|?]%elem_of_app]; [right; exists t; set_solver| |right; exists t; set_solver].
    left. apply elem_of_union_l, elem_of_list_to_set, list_elem_of_fmap. by exists (t, tid).
Qed.

(** The queue's task receives everything that was sent. *)
Lemma receive_all w :
  exists w', rtc step w w' /\ tasks w' = tasks w /\
    channel (response_queue (server w')) = [] /\
    released (response_queue (server w')) = released (response_queue (server w)) /\
    queue (response_queue (server w')) =
      queue (response_queue (server w)) ++ channel (response_queue (server w)).
Proof.
  remember (channel (response_queue (server w))) as ch eqn:Hch.
  revert w Hch. induction ch as [|item ch IH]; intros w Hch.
  - exists w. rewrite app_nil_r. by split_and!.
  - assert (exists s, queue_recv (server w) = Some s /\ channel (response_queue s) = ch /\
      released (response_queue s) = released (response_queue (server w)) /\
      queue (response_queue s) = queue (response_queue (server w)) ++ [item]) as (s & Hs & Hc & Hr & Hq).
    { unfold queue_recv. rewrite <- Hch. by eexists. }
    destruct (IH (mkWorld (clock w) s (tasks w) (next_tid w) (history w)) (eq_sym Hc))
      as (w' & Hst & Ht & Hc' & Hr' & Hq').
    exists w'. simpl in *. split_and!; [|done|done|congruence|].
    + eapply rtc_l; [|exact Hst]. by apply step_recv.
    + by rewrite Hq', Hq, <- app_assoc.
Qed.

Lemma entries_bound (q : list (Z * nat)) lo min :
  exists now, lo <= now /\ Forall (fun e => e.1 + min <= now) q.
Proof.
  induction q as [|[t tid] q (now & Hlo & Hq)]; [exists lo; split; [lia|constructor]|].
  exists (Z.max now (t + min)). split; [lia|]. constructor; [simpl; lia|].
  eapply Forall_impl; [exact Hq|]. intros e He. simpl in *. lia.
Qed.

(** Once it has received everything, a late enough tick wakes every waiter. *)
Lemma wake_all w :
  exists w', rtc step w w' /\ tasks w' = tasks w /\
    forall tid, known (response_queue (server w)) tid -> tid ∈ released (response_queue (server w')).
Proof.
  destruct (receive_all w) as (w1 & Hst & Ht & Hc & Hr & Hq).
  destruct (entries_bound (queue (response_queue (server w1))) (clock w1)
    (min_wait (response_queue (server w1)))) as (now & Hle & Hall).
  exists (mkWorld now (queue_tick now (server w1)) (tasks w1) (next_tid w1) (history w1)).
  split_and!; [|done|].
  - eapply rtc_r; [exact Hst|]. by apply step_tick.
  - intros tid Hk. unfold queue_tick. rewrite (release_all _ _ _ Hall). simpl.
    destruct Hk as [Hin|[t Hin]]; [rewrite Hr; set_solver|].
    apply elem_of_union_l, elem_of_list_to_set, list_elem_of_fmap. exists (t, tid). split; [done|].
    rewrite Hq. set_solver.
Qed.

(** Every operation but the wait for the queue can always run. *)
Lemma exec_total now tid (X : Set) (o : op X) s :
  (exists s' x, exec now tid (mkChoice true (Answered NoError)) o s = Some (s', x)) \/
  (exists E : X = unit, eq_rect X op o unit E = QueueAwait).
Proof. destruct o; simpl; eauto; try (case_match; eauto). by right; exists eq_refl. Qed.

Lemma task_can_run config now w tid (X : Set) (o : op X) k :
  reachable_world config now w -> tasks w !! tid = Some (Act o k) ->
  exists w' x, rtc step w w' /\ tasks w' !! tid = Some (k x).
Proof.
  intros Hr Hp.
  assert (exists w1 ch s x, rtc step w w1 /\ tasks w1 = tasks w /\
    exec (clock w1) tid ch o (server w1) = Some (s, x)) as (w1 & ch & s & x & Hst & Ht & He).
  { destruct (exec_total (clock w) tid X o (server w)) as [(s & x & He)|[-> Ho]].
    { by exists w, (mkChoice true (Answered NoError)), s, x. }
    simpl in Ho. subst o.
    destruct (typestate_sound _ _ _ _ _ _ _ _ (waits_closed config now) Hr) as (γ & Htyped & Hw).
    destruct (typed_lookup _ _ _ _ _ _ _ Htyped Hp) as [g Hg].
    destruct (proj2 (proj2 Htyped) _ _ _ Hp Hg) as [Ha _]. simpl in Ha. subst g.
    destruct (wake_all w) as (w1 & Hst & Ht & Hrel).
    exists w1, (mkChoice true TimedOut), (server w1), tt. split_and!; [done|done|]. simpl.
    rewrite bool_decide_true; [done|]. apply Hrel. by apply Hw. }
  exists (mkWorld (clock w1) s (<[tid := k x]> (tasks w1)) (next_tid w1) (history w1 ++ event_of tid o x)), x.
  split; [|by simpl; rewrite lookup_insert_eq].
  eapply rtc_r; [exact Hst|]. eapply step_run; [done|by rewrite Ht|exact He].
Qed.

(** C18. No request gets stuck: from every reachable world the server has a run in which
    a given request in flight ends, by a result or by a panic, and leaves the server. *)
Theorem requests_can_finish (config : DnsConfig) (now : Z) (w : World) (tid : nat)
    (p : prog TaskResult) :
  reachable_world config now w -> tasks w !! tid = Some p ->
  exists w' r, rtc step w w' /\ Finished tid r ∈ history w' /\ tasks w' !! tid = None.
Proof.
  revert w. induction p as [r|X o k IH]; intros w Hr Hp.
  - eexists _, r. split; [apply rtc_once, step_exit; exact Hp|]. simpl.
    split; [set_solver|by rewrite lookup_delete_eq].
  - destruct (task_can_run _ _ _ _ _ _ _ Hr Hp) as (w1 & x & Hst & Hp1).
    destruct (IH x w1) as (w2 & r & Hst2 & Hf); [unfold reachable_world in *; by etrans|done|].
    exists w2, r. split; [by etrans|done].
Qed.

End progress.
