(* ===== verification/Sample.v ===== *)
(** * A concrete chain

    An instance of [Env] on which every definition runs: accounts are numbers,
    the currency is a map of balances with an existential deposit, the hash is a
    polynomial checksum padded to 32 elements whose first element tells the depth
    of a node, and a signature is the signer with the data signed.  It satisfies the
    currency's laws, and the examples of the other files are evaluated on it. *)

From Stdlib Require Import ZArith Lia.
From Stdlib Require Import Strings.String.
From stdpp Require Import base tactics numbers gmap sets fin_sets fin_maps option list_basics list.
From S2P Require Import Prelude RustStr Types Storage Label Nft Traits PriceOracle Resolvers.
From S2P Require Import Registry Registrar Marketplace Runtime.

Local Open Scope Z_scope.

Record Ledger := mkLedger { free : gmap Z Z; issuance : Z }.

Definition ED : Z := 1000000000.

Definition balance (c : Ledger) (a : Z) : Z := default 0 (free c !! a).

Definition keeps_alive (k : ExistenceRequirement) (b : Z) : bool :=
  match k with KeepAlive => ED <=? b | AllowDeath => 0 <=? b end.

Definition ledger_withdraw (who v : Z) (r : WithdrawReasons) (k : ExistenceRequirement)
    (c : Ledger) : result unit (Ledger * Z) :=
  if (0 <=? v) && keeps_alive k (balance c who - v)
  then Ok (mkLedger (<[who := balance c who - v]> (free c)) (issuance c), v)
  else Err tt.

Definition ledger_drop (i : Z) (c : Ledger) : Ledger := mkLedger (free c) (Z.max 0 (issuance c - i)).

Definition ledger_transfer (x y v : Z) (k : ExistenceRequirement) (c : Ledger) :
    result unit Ledger :=
  if bool_decide (x = y) then Ok c
  else if (0 <=? v) && keeps_alive k (balance c x - v) && (ED <=? balance c y + v)
  then Ok (mkLedger (<[y := balance c y + v]> (<[x := balance c x - v]> (free c))) (issuance c))
  else Err tt.

(** The depth of the node hashed: [63] is the first byte of the base node, which
    no label starts with. *)
Definition depth_tag (x : bytes) : Z :=
  match x with
  | 63 :: _ => 1000
  | 1000 :: _ => 1001
  | _ => 0
  end.

Definition checksum (x : bytes) : Z :=
  foldl (fun acc b => (acc * 257 + b + 1) mod 2147483647) 0 x.

Definition sample_hash_fn (x : bytes) : bytes := depth_tag x :: checksum x :: replicate 30 0.

#[global] Instance sample_env : Env := {|
  AccountId := Z;
  AccountId_eq_dec := _;
  AccountId_countable := _;
  account_encode := le_bytes 32;
  account_new := fun b => foldr (fun x acc => x + 256 * acc) 0 b;
  LookupSource := Z;
  lookup_account := fun x => if 0 <=? x then Some x else None;
  keccak_256 := sample_hash_fn;
  Signature := Z * bytes;
  signature_verify := fun sig data signer => bool_decide (sig = (signer, data));
  CurrencyState := Ledger;
  CurrencyError := unit;
  currency_free_balance := balance;
  currency_total_issuance := issuance;
  currency_withdraw := ledger_withdraw;
  currency_drop_imbalance := ledger_drop;
  currency_transfer := ledger_transfer
|}.

#[global] Instance sample_currency_laws : CurrencyLaws sample_env.
Proof.
  split; simpl; unfold ledger_withdraw, ledger_transfer, ledger_drop.
  - intros who v r c c' i. case_match; naive_solver.
  - intros who v r c c' i a. case_match; [|done]. intros [= <- <-]. unfold balance. simpl.
    rewrite lookup_insert. repeat case_decide; simpl; subst; try lia; congruence.
  - intros who v r c c' i. case_match; naive_solver.
  - done.
  - simpl. lia.
  - intros x y v c c' a. rewrite bool_decide_eq_true || idtac. case_bool_decide; [done|].
    case_match; [|done]. intros [= <-] _. unfold balance. simpl.
    rewrite !lookup_insert. repeat case_decide; simpl; subst; try lia; congruence.
  - intros x y v c c'. case_bool_decide; [naive_solver|]. case_match; naive_solver.
Qed.

#[global] Instance sample_config : Config := runtime_config false.

(** Account 1 is the root of the genesis preset; accounts 2 to 9 have 2000 units each. *)
Definition sample_balances : Ledger :=
  mkLedger (list_to_map ((fun a => (a, 2000 * UNIT)) <$> [1; 2; 3; 4; 5; 6; 7; 8; 9]))
           (9 * 2000 * UNIT).

Definition sample_hash : bytes := replicate 32 7.

Definition sample_genesis : State * result DispatchError unit :=
  testnet_genesis 1 (empty_state 1 sample_hash 1000 sample_balances).

Definition genesis_state : State := sample_genesis.1.

(** Dispatches calls one after the other, whatever they return. *)
Fixpoint run_calls (calls : list (RawOrigin * RuntimeCall)) (s : State) : State :=
  match calls with
  | [] => s
  | (o, c) :: calls' => run_calls calls' (dispatch o c s).1
  end.

(** Whether a run succeeded; examples are evaluated on booleans. *)
Definition succeeds {A} (r : State * result DispatchError A) : bool :=
  match r.2 with Ok _ => true | Err _ => false end.

Lemma succeeds_Ok (r : State * result DispatchError unit) : succeeds r = true -> r = (r.1, Ok tt).
Proof. destruct r as [s [[]|e]]; unfold succeeds; naive_solver. Qed.

Lemma sample_genesis_ok : succeeds sample_genesis = true.
Proof. by vm_compute. Qed.
