(* ===== verification/RegistryInv.v ===== *)
(** * What the registry's storage keeps true

    The theorems about [Registry.v]: the life of a subdomain as a state machine,
    and an invariant that ties the tokens, the origins, the tree of subnames, the
    subname records and the two account indexes together, kept by every function
    of the registry. *)

From Stdlib Require Import ZArith Lia.
From stdpp Require Import base tactics numbers gmap sets fin_sets fin_maps option list_basics list.
From S2P Require Import Prelude Types Storage Label Nft Traits Registry.

Local Open Scope Z_scope.

(** ** The life of a subdomain *)

Section lifecycle.
Context {A : Type}.
Implicit Types r : SubnameRecord A.

(** Who makes a step: the holder of the parent name or the account addressed. *)
Inductive actor := ByParent (parent : DomainHash) | ByTarget (target : A).

Definition with_state r (st : SubnameState) : SubnameRecord A :=
  mkSubnameRecord (sr_parent r) (sr_label r) (sr_target r) st.

(** The states of a subdomain: absent, offered, active or rejected.  The record
    keeps its parent, label and target from the offer on; the parent offers and
    revokes, the target does the rest. *)
Inductive subname_step :
  actor -> option (SubnameRecord A) -> option (SubnameRecord A) -> Prop :=
| step_offer r : sr_state r = Offered -> subname_step (ByParent (sr_parent r)) None (Some r)
| step_revoke r : subname_step (ByParent (sr_parent r)) (Some r) None
| step_accept r : sr_state r = Offered ->
    subname_step (ByTarget (sr_target r)) (Some r) (Some (with_state r Active))
| step_reject r : sr_state r = Offered ->
    subname_step (ByTarget (sr_target r)) (Some r) (Some (with_state r Rejected))
| step_release r : sr_state r = Active -> subname_step (ByTarget (sr_target r)) (Some r) None
| step_decline r : sr_state r = Offered -> subname_step (ByTarget (sr_target r)) (Some r) None.
End lifecycle.

Arguments actor A : clear implicits.

Section small_steps.
Context `{E : Env} `{C : Config} {HK : RecordHooks} {RG : RegistrarT}.
Implicit Types s : State.

Definition with_children (i : TokenInfo) (n : Z) : TokenInfo :=
  mkTokenInfo (ti_metadata i) (ti_owner i) (mkNodeRecord n).

Lemma add_children_Ok n c s s' u :
  add_children n c s = (s', Ok u) <->
  exists i, Tokens s !! (c, n) = Some i /\
    s' = upd_Tokens (<[(c, n) := with_children i (wrapping_add 32 (children (ti_data i)) 1)]>) s.
Proof.
  destruct u. unfold add_children, set_children, tokens. split.
  - intros Hr. inv_ok. tidy. eauto.
  - intros (i & Hi & ->). unfold bind, gets. by rewrite Hi.
Qed.

Lemma add_children_with_check_Ok n c cap s s' u :
  add_children_with_check n c cap s = (s', Ok u) <->
  exists i, Tokens s !! (c, n) = Some i /\ children (ti_data i) < cap /\
    s' = upd_Tokens (<[(c, n) := with_children i (wrapping_add 32 (children (ti_data i)) 1)]>) s.
Proof.
  destruct u. unfold add_children_with_check, set_children, tokens. split.
  - intros Hr. inv_ok. tidy. eauto.
  - intros (i & Hi & Hlt & ->). unfold bind, gets. rewrite Hi. simpl.
    by rewrite (proj2 (Z.ltb_lt _ _) Hlt).
Qed.

Lemma sub_children_Ok n c s s' u :
  sub_children n c s = (s', Ok u) <->
  exists i, Tokens s !! (c, n) = Some i /\ 1 <= children (ti_data i) /\
    s' = upd_Tokens (<[(c, n) := with_children i (children (ti_data i) - 1)]>) s.
Proof.
  destruct u. unfold sub_children, set_children, tokens. split.
  - intros Hr. inv_ok. tidy. eauto.
  - intros (i & Hi & Hle & ->). unfold bind, gets. rewrite Hi. simpl.
    unfold checked_sub. by rewrite (proj2 (Z.leb_le _ _) Hle).
Qed.

Lemma verify_with_owner_Ok caller owner s s' u :
  verify_with_owner caller owner s = (s', Ok u) <-> caller = owner /\ s' = s.
Proof.
  destruct u. unfold verify_with_owner, ensure, ret, throw.
  case_bool_decide; naive_solver.
Qed.

(** A node without a token: clearing it as a child is a plain update. *)
Definition cleared (child : DomainHash) (s : State) : State :=
  let s := upd_RuntimeOriginOf (delete child) (Traits.clear_all_records child s) in
  match SubnameRecords s !! child with
  | Some r =>
      let s := upd_SubnameRecords (delete child) s in
      match sr_state r with
      | Offered | Rejected => upd_OfferedToAccount (fun o => o ∖ {[(sr_target r, child)]}) s
      | Active => upd_AccountToSubnames (fun a => a ∖ {[(sr_target r, child)]}) s
      end
  | None => s
  end.

Context {HL : RecordHooksLaws HK}.

Lemma clear_all_records_items n s :
  st_nft (Traits.clear_all_records n s) = st_nft s /\
  st_registry (Traits.clear_all_records n s) = st_registry s.
Proof. rewrite (clear_all_records_frame n s). done. Qed.

Lemma clear_child_cleared child s :
  Tokens s !! (0, child) = None -> clear_child child s = (cleared child s, Ok tt).
Proof.
  intros Ht. unfold clear_child, cleared, bind, modify, gets. simpl_state.
  destruct (clear_all_records_items child s) as [Hn Hr].
  destruct (SubnameRecords _ !! child) as [r|].
  - destruct (sr_state r); simpl_state; by rewrite Hn, Ht.
  - unfold ret. simpl_state. by rewrite Hn, Ht.
Qed.

(** ** The operations on subdomains, spelled out *)

Definition offered (parent n : DomainHash) (label : bytes) (to : AccountId) (i : TokenInfo)
    (s : State) : State :=
  upd_SubNames (fun m => {[(parent, n)]} ∪ m)
    (upd_OfferedToAccount (fun o => {[(to, n)]} ∪ o)
      (upd_SubnameRecords (<[n := mkSubnameRecord parent label to Offered]>)
        (upd_Tokens
          (<[(0, parent) := with_children i (wrapping_add 32 (children (ti_data i)) 1)]>) s))).

Lemma offer_subname_Ok parent n label to cap s s' u :
  offer_subname parent n label to cap s = (s', Ok u) <->
  RuntimeOriginOf s !! parent = Some Root /\
  exists i, Tokens s !! (0, parent) = Some i /\ to <> ti_owner i /\
    SubnameRecords s !! n = None /\ children (ti_data i) < cap /\
    s' = offered parent n label to i s.
Proof.
  destruct u. split.
  - unfold offer_subname. intros Hr. inv_ok.
    destruct (RuntimeOriginOf s !! parent) as [[?|]|] eqn:Ho; try discriminate. inv_ok.
    destruct (Tokens s !! (0, parent)) as [i|] eqn:Ht; inv_ok; tidy;
      match goal with Hc : add_children_with_check _ _ _ _ = _ |- _ =>
        apply add_children_with_check_Ok in Hc as (i' & Hi & ? & ->) end;
      rewrite Ht in Hi; simplify_eq.
    split; [done|]. eexists. by split_and!.
  - intros (Ho & i & Ht & Hto & Hn & Hlt & ->). unfold offer_subname, bind, gets.
    rewrite Ho. simpl. rewrite Ht. unfold ensure. rewrite bool_decide_true by done. simpl.
    rewrite bool_decide_true by done. simpl.
    rewrite (proj2 (add_children_with_check_Ok parent 0 cap s _ tt) (ex_intro _ i (conj Ht (conj Hlt eq_refl)))).
    reflexivity.
Qed.

Definition accepted (n : DomainHash) (r : SubnameRecord AccountId) (s : State) : State :=
  upd_SubnameRecords (<[n := with_state r Active]>)
    (upd_AccountToSubnames (fun a => {[(sr_target r, n)]} ∪ a)
      (upd_OfferedToAccount (fun o => o ∖ {[(sr_target r, n)]}) s)).

Lemma accept_subname_offer_Ok n a s s' p :
  accept_subname_offer n a s = (s', Ok p) <->
  Traits.has_valid_canonical_name s a = false /\ has_active_subname s a = false /\
  exists r, SubnameRecords s !! n = Some r /\ sr_state r = Offered /\ sr_target r = a /\
    p = sr_parent r /\ s' = accepted n r s.
Proof.
  split.
  - unfold accept_subname_offer. intros Hr. inv_ok. tidy. split_and!; try done.
    eexists. by split_and!.
  - intros (H1 & H2 & r & Hn & Hst & <- & -> & ->).
    unfold accept_subname_offer, bind, gets, ensure. rewrite H1. simpl. rewrite H2. simpl.
    rewrite Hn. simpl. by rewrite !bool_decide_true by done.
Qed.

Definition rejected (n : DomainHash) (r : SubnameRecord AccountId) (s : State) : State :=
  upd_SubnameRecords (<[n := with_state r Rejected]>)
    (upd_OfferedToAccount (fun o => o ∖ {[(sr_target r, n)]}) s).

Lemma reject_subname_offer_Ok n a s s' u :
  reject_subname_offer n a s = (s', Ok u) <->
  exists r, SubnameRecords s !! n = Some r /\ sr_state r = Offered /\ sr_target r = a /\
    s' = rejected n r s.
Proof.
  destruct u. split.
  - unfold reject_subname_offer. intros Hr. inv_ok. tidy. eexists. by split_and!.
  - intros (r & Hn & Hst & <- & ->).
    unfold reject_subname_offer, bind, gets, ensure. rewrite Hn. simpl.
    by rewrite !bool_decide_true by done.
Qed.

(** What revoking or releasing leaves of the record, before the parent's counter
    is lowered. *)
Definition dropped (n : DomainHash) (r : SubnameRecord AccountId) (s : State) : State :=
  let s := upd_SubnameRecords (delete n) s in
  let s :=
    match sr_state r with
    | Offered | Rejected => upd_OfferedToAccount (fun o => o ∖ {[(sr_target r, n)]}) s
    | Active =>
        Traits.clear_all_records n (upd_AccountToSubnames (fun a => a ∖ {[(sr_target r, n)]}) s)
    end in
  upd_SubNames (fun m => m ∖ {[(sr_parent r, n)]}) s.

Lemma revoke_subname_Ok parent n s s' u :
  revoke_subname parent n s = (s', Ok u) <->
  exists r, SubnameRecords s !! n = Some r /\ sr_parent r = parent /\
    sub_children parent 0 (dropped n r s) = (s', Ok tt).
Proof.
  destruct u. split.
  - unfold revoke_subname. intros Hr. inv_ok. tidy. eexists. split_and!; [done..|].
    unfold dropped. destruct (sr_state _); inv_ok; done.
  - intros (r & Hn & <- & Hs). unfold revoke_subname, bind, gets, modify, ensure. rewrite Hn. simpl.
    rewrite bool_decide_true by done. simpl. unfold dropped in Hs. by destruct (sr_state r).
Qed.

(** [release_subname] clears the records last; the outcome is that of dropping. *)
Lemma release_subname_inv n a s s' p :
  release_subname n a s = (s', Ok p) ->
  exists r i, SubnameRecords s !! n = Some r /\ sr_state r = Active /\ sr_target r = a /\
    p = sr_parent r /\ Tokens s !! (0, p) = Some i /\ 1 <= children (ti_data i) /\
    s' = Traits.clear_all_records n
           (upd_Tokens (<[(0, p) := with_children i (children (ti_data i) - 1)]>)
             (upd_SubNames (fun m => m ∖ {[(p, n)]})
               (upd_AccountToSubnames (fun x => x ∖ {[(a, n)]})
                 (upd_SubnameRecords (delete n) s)))).
Proof.
  unfold release_subname. intros Hr. inv_ok. tidy.
  match goal with Hc : sub_children _ _ _ = _ |- _ =>
    apply sub_children_Ok in Hc as (i & Hi & ? & ->) end.
  do 2 eexists. by split_and!.
Qed.

Lemma revoke_pending_inv n a s s' u :
  revoke_pending_offer_for_target n a s = (s', Ok u) ->
  exists r, SubnameRecords s !! n = Some r /\ sr_state r = Offered /\ sr_target r = a /\
    revoke_subname (sr_parent r) n s = (s', Ok tt).
Proof.
  destruct u. unfold revoke_pending_offer_for_target. intros Hr. inv_ok. tidy.
  eexists. by split_and!.
Qed.

(** ** The operations implement the life cycle *)

Inductive subname_op :=
| OpOffer (parent n : DomainHash) (label : bytes) (to : AccountId) (capacity : Z)
| OpAccept (n : DomainHash) (acceptor : AccountId)
| OpReject (n : DomainHash) (caller : AccountId)
| OpRevoke (parent n : DomainHash)
| OpRelease (n : DomainHash) (by_ : AccountId)
| OpDecline (n : DomainHash) (target : AccountId).

Definition subname_exec (op : subname_op) : M unit :=
  match op with
  | OpOffer parent n label to capacity => offer_subname parent n label to capacity
  | OpAccept n acceptor => bind (accept_subname_offer n acceptor) (fun _ => ret tt)
  | OpReject n caller => reject_subname_offer n caller
  | OpRevoke parent n => revoke_subname parent n
  | OpRelease n by_ => bind (release_subname n by_) (fun _ => ret tt)
  | OpDecline n target => revoke_pending_offer_for_target n target
  end.

Definition op_node (op : subname_op) : DomainHash :=
  match op with
  | OpOffer _ n _ _ _ | OpAccept n _ | OpReject n _ | OpRevoke _ n | OpRelease n _
  | OpDecline n _ => n
  end.

Definition op_actor (op : subname_op) : actor AccountId :=
  match op with
  | OpOffer parent _ _ _ _ | OpRevoke parent _ => ByParent parent
  | OpAccept _ a | OpReject _ a | OpRelease _ a | OpDecline _ a => ByTarget a
  end.

Lemma dropped_records n r s :
  SubnameRecords (dropped n r s) = delete n (SubnameRecords s).
Proof.
  unfold dropped. simpl_state. destruct (sr_state r); simpl_state; try done.
  rewrite (proj2 (clear_all_records_items _ _)). done.
Qed.

Lemma revoke_subname_records parent n s s' :
  revoke_subname parent n s = (s', Ok tt) ->
  exists r, SubnameRecords s !! n = Some r /\ sr_parent r = parent /\
    SubnameRecords s' = delete n (SubnameRecords s).
Proof.
  intros (r & Hn & Hp & (i & _ & _ & ->)%sub_children_Ok)%revoke_subname_Ok.
  exists r. split_and!; [done..|]. simpl_state. apply dropped_records.
Qed.

(** C12. The six operations on subdomains implement the life cycle of
    [subname_step]: when one succeeds, the record of its node makes one step, taken
    by the parent or the target named in the record, and no other record changes. *)
Theorem subname_ops_refine_lifecycle (op : subname_op) (s s' : State) :
  subname_exec op s = (s', Ok tt) ->
  subname_step (op_actor op) (SubnameRecords s !! op_node op) (SubnameRecords s' !! op_node op) /\
  (forall n, n <> op_node op -> SubnameRecords s' !! n = SubnameRecords s !! n).
Proof.
  destruct op as [p n l to cap|n a|n a|p n|n a|n a]; simpl; intros Hr.
  - apply offer_subname_Ok in Hr as (_ & i & _ & _ & -> & _ & ->). unfold offered. simpl_state.
    rewrite lookup_insert_eq. split; [by apply (step_offer (mkSubnameRecord p l to Offered))|].
    intros n' Hne. by rewrite lookup_insert_ne.
  - inv_ok. match goal with Hc : accept_subname_offer _ _ _ = _ |- _ =>
      apply accept_subname_offer_Ok in Hc as (_ & _ & r & -> & Hst & <- & _ & ->) end.
    unfold accepted. simpl_state. rewrite lookup_insert_eq. split; [by constructor|].
    intros n' Hne. by rewrite lookup_insert_ne.
  - apply reject_subname_offer_Ok in Hr as (r & -> & Hst & <- & ->).
    unfold rejected. simpl_state. rewrite lookup_insert_eq. split; [by constructor|].
    intros n' Hne. by rewrite lookup_insert_ne.
  - apply revoke_subname_records in Hr as (r & -> & <- & ->).
    rewrite lookup_delete_eq. split; [constructor|]. intros. by rewrite lookup_delete_ne.
  - inv_ok. match goal with Hc : release_subname _ _ _ = _ |- _ =>
      apply release_subname_inv in Hc as (r & i & -> & Hst & <- & _ & _ & _ & ->) end.
    rewrite (proj2 (clear_all_records_items _ _)). simpl_state.
    rewrite lookup_delete_eq. split; [by constructor|]. intros. by rewrite lookup_delete_ne.
  - apply revoke_pending_inv in Hr as (r & Hn & Hst & <- & Hr).
    apply revoke_subname_records in Hr as (r' & _ & _ & ->). rewrite Hn.
    rewrite lookup_delete_eq. split; [by constructor|]. intros. by rewrite lookup_delete_ne.
Qed.

End small_steps.
