(* ===== verification/RegistryTree.v ===== *)
(** * The invariant of the registry

    [tree_inv] ties the storage of the NFT pallet and of the registry together:
    every name but the base node is a top-level one with origin [Root], every
    subname record hangs under a live name, the index of subnames, the index of
    offers and the names' counters of children say what the records say, and the
    index of held names has nothing but top-level names and active subnames.
    Every function of the registry that the runtime reaches keeps it.

    Nodes are hashes; [NodeLevels] is the assumption that hashing does not
    confuse the levels of the tree, for the labels in use. *)

From Stdlib Require Import ZArith Lia.
From stdpp Require Import base tactics numbers gmap sets fin_sets fin_maps option list_basics list.
From S2P Require Import Prelude Types Storage Label Nft Traits Registry RegistryInv.

Local Open Scope Z_scope.

(** No collision between levels, for the hashes of the labels in use (a set the
    hash function has to be free of collisions on, not all strings): nodes under
    the base node are recognisable, and neither the base node nor a node under a
    top-level one is among them. *)
Class NodeLevels {E : Env} (base : DomainHash) := {
  label_used : DomainHash -> Prop;
  is_top : DomainHash -> bool;
  top_of_base : forall h, label_used h -> is_top (child_node base h) = true;
  sub_of_top : forall p h, is_top p = true -> label_used h ->
    is_top (child_node p h) = false /\ child_node p h <> base;
  base_not_top : is_top base = false
}.

Section tree.
Context `{E : Env} `{C : Config} {HK : RecordHooks} {RG : RegistrarT} {NL : NodeLevels basenode}.
Implicit Types s : State.

Record tree_inv (N : NftStorage) (G : RegistryStorage) : Prop := {
  tree_nft : nft_inv N;
  tree_token : forall n i, Tokens N !! (0, n) = Some i -> n <> basenode ->
    RuntimeOriginOf G !! n = Some Root;
  tree_origin : forall n o, RuntimeOriginOf G !! n = Some o ->
    o = Root /\ is_top n = true /\ is_Some (Tokens N !! (0, n));
  tree_subnames : forall p n, (p, n) ∈ SubNames G <->
    exists r, SubnameRecords G !! n = Some r /\ sr_parent r = p;
  tree_record : forall n r, SubnameRecords G !! n = Some r ->
    RuntimeOriginOf G !! sr_parent r = Some Root /\ is_top n = false /\ n <> basenode;
  tree_offered : forall a n, (a, n) ∈ OfferedToAccount G <->
    exists r, SubnameRecords G !! n = Some r /\ sr_target r = a /\ sr_state r = Offered;
  tree_active : forall n r, SubnameRecords G !! n = Some r -> sr_state r = Active ->
    (sr_target r, n) ∈ AccountToSubnames G;
  tree_account : forall a n, (a, n) ∈ AccountToSubnames G ->
    is_top n = true \/
    exists r, SubnameRecords G !! n = Some r /\ sr_target r = a /\ sr_state r = Active;
  tree_children : forall n i, Tokens N !! (0, n) = Some i -> n <> basenode ->
    children (ti_data i) = Z.of_nat (size (prefix n (SubNames G)))
}.

Lemma top_not_base n : is_top n = true -> n <> basenode.
Proof. intros Hn ->. by rewrite base_not_top in Hn. Qed.

(** A node with a subname record has no token. *)
Lemma tree_record_no_token N G n r :
  tree_inv N G -> SubnameRecords G !! n = Some r -> Tokens N !! (0, n) = None.
Proof.
  intros Hinv Hr. destruct (tree_record _ _ Hinv _ _ Hr) as (_ & Htop & Hb).
  destruct (Tokens N !! (0, n)) as [i|] eqn:Hi; [|done].
  apply (tree_token _ _ Hinv) in Hi; [|done].
  destruct (tree_origin _ _ Hinv _ _ Hi) as (_ & ? & _). congruence.
Qed.

(** ** Changing a counter of children *)

(** What a token insertion that only changes data preserves. *)
Lemma token_data_lookup (m : gmap (Z * DomainHash) TokenInfo) k i d n i' :
  m !! k = Some i -> <[k := with_children i d]> m !! n = Some i' ->
  exists i0, m !! n = Some i0 /\ ti_owner i0 = ti_owner i' /\
    (if decide (n = k) then i' = with_children i d else i0 = i').
Proof.
  intros Hk. destruct (decide (n = k)) as [->|Hne].
  - rewrite lookup_insert_eq. intros [= <-]. by exists i.
  - rewrite lookup_insert_ne by done. eauto.
Qed.

Definition set_token (k : Z * DomainHash) (i : TokenInfo) (N : NftStorage) : NftStorage :=
  mkNftStorage (NextClassId N) (Classes N) (<[k := i]> (Tokens N)) (TokensByOwner N).

Lemma nft_inv_with_children N k i d :
  nft_inv N -> Tokens N !! k = Some i -> nft_inv (set_token k (with_children i d) N).
Proof.
  intros [H1 H2 H3 H4] Hk. split; unfold set_token; simpl.
  - intros a t. rewrite H1. destruct (decide (t = k)) as [->|].
    + rewrite lookup_insert_eq. naive_solver.
    + by rewrite lookup_insert_ne by done.
  - intros c t i' Hi. destruct (token_data_lookup _ _ _ _ _ _ Hk Hi) as (i0 & Hi0 & _). eauto.
  - intros c ci Hc. rewrite (count_insert_old _ _ _ _ _ Hk). by apply H3.
  - exact H4.
Qed.

(** The base node's counter is free: [tree_inv] does not constrain it. *)
Lemma tree_inv_base_children N G i d :
  tree_inv N G -> Tokens N !! (0, basenode) = Some i ->
  tree_inv (set_token (0, basenode) (with_children i d) N) G.
Proof.
  intros [T1 T2 T3 T4 T5 T6 T7 T8 T9] Hi. split; try done; unfold set_token; simpl.
  - by apply nft_inv_with_children.
  - intros n i' Hn Hb. rewrite lookup_insert_ne in Hn by naive_solver. eauto.
  - intros n o Hn. destruct (T3 _ _ Hn) as (? & ? & [i' Hi']). split_and!; [done..|].
    rewrite lookup_insert_ne; [eauto|]. intros [= <-]. by apply (top_not_base basenode).
  - intros n i' Hn Hb. rewrite lookup_insert_ne in Hn by naive_solver. eauto.
Qed.

(** ** Offering, accepting, rejecting *)

Lemma tree_inv_offered p n l to i s :
  tree_inv s s -> RuntimeOriginOf s !! p = Some Root -> Tokens s !! (0, p) = Some i ->
  SubnameRecords s !! n = None -> is_top n = false -> n <> basenode ->
  children (ti_data i) + 1 < 2 ^ 32 ->
  tree_inv (offered p n l to i s) (offered p n l to i s).
Proof.
  intros Hinv Hp Hi Hn Htop Hb Hlt.
  assert (p <> basenode) as Hpb by (by apply top_not_base, (tree_origin _ _ Hinv _ _ Hp)).
  pose proof (tree_children _ _ Hinv _ _ Hi Hpb) as Hc.
  destruct Hinv as [T1 T2 T3 T4 T5 T6 T7 T8 T9].
  split; unfold offered; simpl_state.
  - by apply (nft_inv_with_children (st_nft s)).
  - intros n' i' Hi' Hb'. destruct (token_data_lookup _ _ _ _ _ _ Hi Hi') as (i0 & ? & _). eauto.
  - intros n' o Ho. destruct (T3 _ _ Ho) as (? & ? & Hs). split_and!; [done..|].
    destruct (decide ((0, p) = (0, n'))) as [<-|]; [by rewrite lookup_insert_eq|].
    by rewrite lookup_insert_ne.
  - intros q n'. rewrite elem_of_union, elem_of_singleton, T4. destruct (decide (n = n')) as [<-|].
    + rewrite lookup_insert_eq, Hn. naive_solver.
    + rewrite lookup_insert_ne by done. naive_solver.
  - intros n' r. destruct (decide (n = n')) as [<-|].
    + rewrite lookup_insert_eq. intros [= <-]. done.
    + rewrite lookup_insert_ne by done. apply T5.
  - intros a n'. rewrite elem_of_union, elem_of_singleton, T6. destruct (decide (n = n')) as [<-|].
    + rewrite lookup_insert_eq, Hn. naive_solver.
    + rewrite lookup_insert_ne by done. naive_solver.
  - intros n' r. destruct (decide (n = n')) as [<-|].
    + rewrite lookup_insert_eq. by intros [= <-].
    + rewrite lookup_insert_ne by done. apply T7.
  - intros a n' [?|(r & Hr & ?)]%T8; [by left|right]. exists r.
    rewrite lookup_insert_ne by congruence. done.
  - intros n' i' Hi' Hb'. destruct (token_data_lookup _ _ _ _ _ _ Hi Hi') as (i0 & Hi0 & _ & Hd).
    destruct (decide ((0, n') = (0, p))) as [[= ->]|Hne].
    + subst i'. simpl. rewrite size_prefix_insert.
      * rewrite wrapping_add_small; [lia|]. unfold in_width. lia.
      * rewrite T4. intros (r & Hr & _). congruence.
    + subst i0. rewrite prefix_insert_ne by congruence. eauto.
Qed.

Lemma tree_inv_accepted n r s :
  tree_inv s s -> SubnameRecords s !! n = Some r -> sr_state r = Offered ->
  tree_inv (accepted n r s) (accepted n r s).
Proof.
  intros [T1 T2 T3 T4 T5 T6 T7 T8 T9] Hn Hst. split; unfold accepted; simpl_state; try done.
  - intros p n'. rewrite T4. destruct (decide (n = n')) as [<-|];
      [rewrite lookup_insert_eq | by rewrite lookup_insert_ne by done]. naive_solver.
  - intros n' r'. destruct (decide (n = n')) as [<-|].
    + rewrite lookup_insert_eq. intros [= <-]. exact (T5 _ _ Hn).
    + rewrite lookup_insert_ne by done. apply T5.
  - intros a n'. rewrite elem_of_difference, elem_of_singleton, T6.
    destruct (decide (n = n')) as [<-|].
    + rewrite lookup_insert_eq. naive_solver.
    + rewrite lookup_insert_ne by done. naive_solver.
  - intros n' r'. rewrite elem_of_union, elem_of_singleton. destruct (decide (n = n')) as [<-|].
    + rewrite lookup_insert_eq. intros [= <-]. by left.
    + rewrite lookup_insert_ne by done. right. eauto.
  - intros a n'. rewrite elem_of_union, elem_of_singleton. destruct (decide (n = n')) as [<-|].
    + rewrite lookup_insert_eq. intros [[= ->]|[?|(r' & Hr' & ? & ?)]%T8]; [right; by eexists|by left|].
      simplify_eq. right. by eexists.
    + rewrite lookup_insert_ne by done. intros [[= -> ->]|?]; [done|]. by apply T8.
Qed.

Lemma tree_inv_rejected n r s :
  tree_inv s s -> SubnameRecords s !! n = Some r -> sr_state r = Offered ->
  tree_inv (rejected n r s) (rejected n r s).
Proof.
  intros [T1 T2 T3 T4 T5 T6 T7 T8 T9] Hn Hst. split; unfold rejected; simpl_state; try done.
  - intros p n'. rewrite T4. destruct (decide (n = n')) as [<-|];
      [rewrite lookup_insert_eq | by rewrite lookup_insert_ne by done]. naive_solver.
  - intros n' r'. destruct (decide (n = n')) as [<-|].
    + rewrite lookup_insert_eq. intros [= <-]. exact (T5 _ _ Hn).
    + rewrite lookup_insert_ne by done. apply T5.
  - intros a n'. rewrite elem_of_difference, elem_of_singleton, T6.
    destruct (decide (n = n')) as [<-|].
    + rewrite lookup_insert_eq. naive_solver.
    + rewrite lookup_insert_ne by done. naive_solver.
  - intros n' r'. destruct (decide (n = n')) as [<-|].
    + rewrite lookup_insert_eq. by intros [= <-].
    + rewrite lookup_insert_ne by done. apply T7.
  - intros a n' [?|(r' & Hr' & ? & ?)]%T8; [by left|right].
    exists r'. rewrite lookup_insert_ne by congruence. done.
Qed.

(** ** Dropping subnames *)

(** [G'] is [G] without the records of [K] and their entries in the account indexes. *)
Record without (K : gset DomainHash) (G G' : RegistryStorage) : Prop := {
  wo_origin : RuntimeOriginOf G' = RuntimeOriginOf G;
  wo_records : forall m, SubnameRecords G' !! m =
    if decide (m ∈ K) then None else SubnameRecords G !! m;
  wo_offered : forall a m, (a, m) ∈ OfferedToAccount G' <-> (a, m) ∈ OfferedToAccount G /\ m ∉ K;
  wo_account : forall a m, (a, m) ∈ AccountToSubnames G' <-> (a, m) ∈ AccountToSubnames G /\ m ∉ K;
  wo_official : Official G' = Official G
}.

Lemma without_record K G G' n r :
  without K G G' -> SubnameRecords G' !! n = Some r -> n ∉ K /\ SubnameRecords G !! n = Some r.
Proof. intros W. rewrite (wo_records _ _ _ W). case_decide; naive_solver. Qed.

Lemma tree_inv_without N G G' K p i :
  tree_inv N G -> without K G G' ->
  (forall q m, (q, m) ∈ SubNames G' <-> (q, m) ∈ SubNames G /\ m ∉ K) ->
  (forall n, n ∈ K -> (p, n) ∈ SubNames G) ->
  Tokens N !! (0, p) = Some i ->
  tree_inv (set_token (0, p)
    (with_children i (Z.of_nat (size (prefix p (SubNames G'))))) N) G'.
Proof.
  intros Hinv W W3 HK' Hi. pose proof (fun n r => without_record K G G' n r W) as Hrec.
  assert (forall q, q <> p -> prefix q (SubNames G') = prefix q (SubNames G)) as Hpre.
  { intros q Hq. apply set_eq. intros m. rewrite !elem_of_prefix, W3.
    split; [naive_solver|]. intros Hm. split; [done|]. intros Hk%HK'.
    apply (tree_subnames _ _ Hinv) in Hm as (? & ? & ?), Hk as (? & ? & ?). congruence. }
  destruct Hinv as [T1 T2 T3 T4 T5 T6 T7 T8 T9], W as [W1 W2 W4 W5 _].
  split; unfold set_token; simpl.
  - by apply nft_inv_with_children.
  - intros n i' Hn Hb. rewrite W1. destruct (token_data_lookup _ _ _ _ _ _ Hi Hn) as (i0 & ? & _). eauto.
  - intros n o. rewrite W1. intros Ho. destruct (T3 _ _ Ho) as (? & ? & Hs). split_and!; [done..|].
    destruct (decide ((0, p) = (0, n))) as [<-|]; [by rewrite lookup_insert_eq|].
    by rewrite lookup_insert_ne.
  - intros q n. rewrite W3, T4, W2. case_decide; naive_solver.
  - intros n r Hr. rewrite W1. apply T5. by apply Hrec.
  - intros a n. rewrite W4, T6, W2. case_decide; naive_solver.
  - intros n r Hr Hst. rewrite W5. destruct (Hrec _ _ Hr). eauto.
  - intros a n [Ha Hk]%W5. apply T8 in Ha as [?|(r & Hr & ?)]; [by left|right].
    exists r. rewrite W2. by rewrite decide_False.
  - intros n i' Hn Hb. destruct (token_data_lookup _ _ _ _ _ _ Hi Hn) as (i0 & Hi0 & _ & Hd).
    destruct (decide ((0, n) = (0, p))) as [[= ->]|Hne]; [by subst|].
    subst i0. rewrite Hpre by congruence. eauto.
Qed.

(** Under the invariant the entries of a subname in the account indexes are its
    record's. *)
Lemma offered_entry N G n r a :
  tree_inv N G -> SubnameRecords G !! n = Some r -> (a, n) ∈ OfferedToAccount G ->
  a = sr_target r /\ sr_state r = Offered.
Proof. intros Hinv Hr (r' & ? & ? & ?)%(tree_offered _ _ Hinv). naive_solver. Qed.

Lemma account_entry N G n r a :
  tree_inv N G -> SubnameRecords G !! n = Some r -> (a, n) ∈ AccountToSubnames G ->
  a = sr_target r /\ sr_state r = Active.
Proof.
  intros Hinv Hr [Htop|(r' & ? & ? & ?)]%(tree_account _ _ Hinv); [|naive_solver].
  destruct (tree_record _ _ Hinv _ _ Hr) as (_ & ? & _). congruence.
Qed.

(** A subname whose traces are its record and that record's index entries. *)
Record clearable (G : RegistryStorage) (n : DomainHash) : Prop := {
  cl_origin : RuntimeOriginOf G !! n = None;
  cl_record : exists r, SubnameRecords G !! n = Some r /\
    (forall a, (a, n) ∈ OfferedToAccount G -> a = sr_target r /\ sr_state r = Offered) /\
    (forall a, (a, n) ∈ AccountToSubnames G -> a = sr_target r /\ sr_state r = Active)
}.

Lemma tree_clearable N G n r : tree_inv N G -> SubnameRecords G !! n = Some r -> clearable G n.
Proof.
  intros Hinv Hr. split.
  - destruct (RuntimeOriginOf G !! n) as [o|] eqn:Ho; [|done].
    destruct (tree_origin _ _ Hinv _ _ Ho) as (_ & ? & _).
    destruct (tree_record _ _ Hinv _ _ Hr) as (_ & ? & _). congruence.
  - exists r. split_and!; [done|..]; eauto using offered_entry, account_entry.
Qed.

Lemma without_clearable K G G' n :
  without K G G' -> n ∉ K -> clearable G n -> clearable G' n.
Proof.
  intros [W1 W2 W3 W4 _] Hn [C1 (r & Hr & C2 & C3)]. split.
  - by rewrite W1.
  - exists r. rewrite W2, decide_False by done. split_and!; [done|..].
    + intros a [? _]%W3. eauto.
    + intros a [? _]%W4. eauto.
Qed.

Lemma without_trans K1 K2 G1 G2 G3 :
  without K1 G1 G2 -> without K2 G2 G3 -> without (K1 ∪ K2) G1 G3.
Proof.
  intros [A1 A2 A3 A4 A5] [B1 B2 B3 B4 B5]. split.
  - congruence.
  - intros m. rewrite B2, A2. repeat case_decide; set_solver.
  - intros a m. rewrite B3, A3. set_solver.
  - intros a m. rewrite B4, A4. set_solver.
  - congruence.
Qed.

Lemma without_empty G : without ∅ G G.
Proof.
  split; [done| |set_solver|set_solver|done]. intros m. by rewrite decide_False by set_solver.
Qed.

(** Removing the record's entry of an index removes the node from the index. *)
Lemma index_remove (X : gset (AccountId * DomainHash)) n t a m :
  (forall b, (b, n) ∈ X -> b = t) ->
  (a, m) ∈ X ∖ {[(t, n)]} <-> (a, m) ∈ X /\ m ∉ ({[n]} : gset DomainHash).
Proof.
  intros HX. rewrite elem_of_difference, !elem_of_singleton. split; [|naive_solver].
  intros [Hin Hne]. split; [done|]. intros ->. apply Hne. f_equal. eauto.
Qed.

Lemma index_keep (X : gset (AccountId * DomainHash)) n a m :
  (forall b, (b, n) ∉ X) -> (a, m) ∈ X <-> (a, m) ∈ X /\ m ∉ ({[n]} : gset DomainHash).
Proof. intros HX. rewrite elem_of_singleton. naive_solver. Qed.

Context {HL : RecordHooksLaws HK}.

(** What lies outside the storage the registry's functions work on. *)
Definition outside s :=
  (st_registrar s, st_marketplace s, st_price_oracle s, st_origin s, st_redeem_code s, st_template s,
   st_system s).

Lemma clear_all_records_outside n s : outside (Traits.clear_all_records n s) = outside s.
Proof. by rewrite (clear_all_records_frame n s). Qed.

Lemma cleared_frame n s :
  st_nft (cleared n s) = st_nft s /\ SubNames (cleared n s) = SubNames s /\
  outside (cleared n s) = outside s.
Proof.
  rewrite <- (clear_all_records_outside n s).
  destruct (clear_all_records_items n s) as [<- Hr].
  replace (SubNames s) with (SubNames (Traits.clear_all_records n s)) by (by rewrite Hr).
  unfold cleared, outside. simpl_state.
  destruct (SubnameRecords _ !! n) as [r|]; [|done]. by destruct (sr_state r).
Qed.

Lemma cleared_without n s : clearable s n -> without {[n]} s (cleared n s).
Proof.
  intros [C1 (r & Hr & C2 & C3)]. destruct (clear_all_records_items n s) as [_ Heq].
  unfold cleared. simpl_state. rewrite !Heq, Hr.
  assert (forall m, delete n (SubnameRecords s) !! m =
    if decide (m ∈ ({[n]} : gset DomainHash)) then None else SubnameRecords s !! m) as Hrec.
  { intros m. destruct (decide (m = n)) as [->|].
    - by rewrite lookup_delete_eq, decide_True by set_solver.
    - by rewrite lookup_delete_ne, decide_False by set_solver. }
  destruct (sr_state r) eqn:Hst; split; simpl_state; rewrite ?Heq, ?delete_id by done;
    try done; intros; first [apply index_remove | apply index_keep]; naive_solver.
Qed.

Lemma for_each_cleared l s :
  (forall n, n ∈ l -> Tokens s !! (0, n) = None) ->
  for_each clear_child l s = (foldl (fun s c => cleared c s) s l, Ok tt).
Proof.
  revert s. induction l as [|n l IH]; intros s Hl; [done|]. cbn [for_each foldl].
  erewrite bind_run; [|apply clear_child_cleared, Hl; set_solver].
  apply IH. intros m Hm. destruct (cleared_frame n s) as (-> & _). apply Hl. set_solver.
Qed.

Lemma fold_cleared l s :
  NoDup l -> (forall n, n ∈ l -> clearable s n) ->
  let s' := foldl (fun s c => cleared c s) s l in
  without (list_to_set l) s s' /\ st_nft s' = st_nft s /\ SubNames s' = SubNames s /\
  outside s' = outside s.
Proof.
  revert s. induction l as [|n l IH]; intros s Hnd Hl; [split; [apply without_empty|done]|].
  apply NoDup_cons in Hnd as [Hn Hnd]. cbn [foldl].
  pose proof (cleared_without n s (Hl n ltac:(set_solver))) as W.
  destruct (cleared_frame n s) as (F1 & F2 & F3).
  destruct (IH (cleared n s) Hnd) as (I1 & I2 & I3 & I4).
  { intros m Hm. apply (without_clearable _ _ _ _ W); [set_solver|]. apply Hl. set_solver. }
  split_and!; try congruence. exact (without_trans _ _ _ _ _ W I1).
Qed.

(** Under the invariant [clear_subnames] does not fail; it removes exactly the
    subnames of [p] and sets its counter to zero. *)
Lemma clear_subnames_spec p i s :
  tree_inv s s -> Tokens s !! (0, p) = Some i ->
  exists s', clear_subnames p s = (s', Ok tt) /\ tree_inv s' s' /\ outside s' = outside s /\
    without (prefix p (SubNames s)) s s' /\ SubNames s' = clear_prefix p (SubNames s) /\
    st_nft s' = set_token (0, p) (with_children i 0) (st_nft s).
Proof.
  intros Hinv Hi. set (l := elements (prefix p (SubNames s))).
  assert (forall n, n ∈ l -> exists r, SubnameRecords s !! n = Some r) as Hl.
  { intros n Hn. apply elem_of_elements, elem_of_prefix in Hn.
    apply (tree_subnames _ _ Hinv) in Hn as (r & ? & _). eauto. }
  destruct (fold_cleared l s) as (W & F1 & F2 & F3); [apply NoDup_elements| |].
  { intros n [r Hr]%Hl. eapply tree_clearable; eauto. }
  set (t := foldl (fun s c => cleared c s) s l) in *.
  replace (list_to_set l) with (prefix p (SubNames s)) in W by (subst l; by rewrite list_to_set_elements_L).
  exists (upd_Tokens (<[(0, p) := with_children i 0]>) (upd_SubNames (clear_prefix p) t)).
  split; [|split; [|split_and!]].
  - unfold clear_subnames. erewrite bind_run by reflexivity. fold l.
    erewrite bind_run; [|apply for_each_cleared; intros n [r Hr]%Hl; eapply tree_record_no_token; eauto].
    fold t. unfold bind, modify, gets. simpl_state. by rewrite F1, Hi.
  - pose proof (tree_inv_without s s (upd_SubNames (clear_prefix p) t) (prefix p (SubNames s)) p i Hinv)
      as HT. simpl_state. rewrite F1, F2. unfold set_token in HT.
    rewrite F2, prefix_clear_prefix, size_empty in HT. apply HT; [|..|done].
    + by destruct W.
    + intros q m. rewrite elem_of_clear_prefix, elem_of_prefix. simpl.
      split; [|naive_solver]. intros [H1 H2]. split; [done|]. intros Hm. apply (tree_subnames _ _ Hinv) in H2 as (? & ? & ?), Hm as (? & ? & ?). congruence.
    + intros n. by rewrite elem_of_prefix.
  - exact F3.
  - by destruct W.
  - simpl_state. by rewrite F2.
  - simpl_state. by rewrite F1.
Qed.

(** ** Revoking and releasing *)

Lemma tree_inv_drop_one N G G' n r i :
  tree_inv N G -> SubnameRecords G !! n = Some r -> without {[n]} G G' ->
  SubNames G' = SubNames G ∖ {[(sr_parent r, n)]} -> Tokens N !! (0, sr_parent r) = Some i ->
  tree_inv (set_token (0, sr_parent r) (with_children i (children (ti_data i) - 1)) N) G'.
Proof.
  intros Hinv Hr W Hs Hi.
  assert ((sr_parent r, n) ∈ SubNames G) as Hin by (apply (tree_subnames _ _ Hinv); eauto).
  destruct (tree_record _ _ Hinv _ _ Hr) as (Ho & _ & _).
  assert (sr_parent r <> basenode) as Hb by (by apply top_not_base, (tree_origin _ _ Hinv _ _ Ho)).
  replace (children (ti_data i) - 1) with (Z.of_nat (size (prefix (sr_parent r) (SubNames G')))).
  - apply (tree_inv_without N G G' {[n]}); try done; [|set_solver].
    intros q m. rewrite Hs, elem_of_difference, elem_of_singleton. split.
    + intros [Hq Hne]. split; [done|]. intros ->%elem_of_singleton. apply Hne.
      apply (tree_subnames _ _ Hinv) in Hq as (? & ? & ?). congruence.
    + intros [Hq Hne]. set_solver.
  - rewrite (tree_children _ _ Hinv _ _ Hi Hb), (size_prefix_remove _ _ _ Hin), Hs. lia.
Qed.

Lemma dropped_frame n r s :
  st_nft (dropped n r s) = st_nft s /\ outside (dropped n r s) = outside s /\
  SubNames (dropped n r s) = SubNames s ∖ {[(sr_parent r, n)]}.
Proof.
  unfold dropped. destruct (sr_state r); [done| |done].
  match goal with |- context [Traits.clear_all_records n ?t] =>
    rewrite (clear_all_records_frame n t) end. done.
Qed.

Lemma dropped_without n r s :
  tree_inv s s -> SubnameRecords s !! n = Some r -> without {[n]} s (dropped n r s).
Proof.
  intros Hinv Hr.
  pose proof (fun a => offered_entry _ _ n r a Hinv Hr) as C2.
  pose proof (fun a => account_entry _ _ n r a Hinv Hr) as C3.
  assert (forall m, delete n (SubnameRecords s) !! m =
    if decide (m ∈ ({[n]} : gset DomainHash)) then None else SubnameRecords s !! m) as Hrec.
  { intros m. destruct (decide (m = n)) as [->|].
    - by rewrite lookup_delete_eq, decide_True by set_solver.
    - by rewrite lookup_delete_ne, decide_False by set_solver. }
  unfold dropped. destruct (sr_state r) eqn:Hst; [| |];
    try match goal with |- context [Traits.clear_all_records n ?t] =>
      rewrite (clear_all_records_frame n t) end;
    split; simpl_state; try done; intros; first [apply index_remove | apply index_keep]; naive_solver.
Qed.

Lemma revoke_subname_inv p n s s' :
  tree_inv s s -> revoke_subname p n s = (s', Ok tt) ->
  tree_inv s' s' /\ outside s' = outside s /\ Official s' = Official s.
Proof.
  intros Hinv (r & Hr & <- & (i & Hi & Hle & ->)%sub_children_Ok)%revoke_subname_Ok.
  destruct (dropped_frame n r s) as (F1 & F2 & F3). rewrite F1 in Hi.
  pose proof (dropped_without n r s Hinv Hr) as W. simpl_state. rewrite F1.
  split_and!; [|exact F2|by apply W].
  exact (tree_inv_drop_one _ _ _ _ _ _ Hinv Hr W F3 Hi).
Qed.

Lemma release_subname_keeps n a s s' p :
  tree_inv s s -> release_subname n a s = (s', Ok p) ->
  tree_inv s' s' /\ outside s' = outside s /\ Official s' = Official s.
Proof.
  intros Hinv (r & i & Hr & Hst & <- & -> & Hi & Hle & ->)%release_subname_inv.
  match goal with |- context [Traits.clear_all_records n ?t] =>
    rewrite (clear_all_records_frame n t); set (t0 := t) end.
  pose proof (dropped_without n r s Hinv Hr) as W. destruct (dropped_frame n r s) as (_ & _ & F3).
  split_and!; [|done..]. simpl_state.
  apply (tree_inv_drop_one s s t0 n r i Hinv Hr); [|done|done].
  destruct W as [W1 W2 W3 W4 W5]. unfold dropped in *. rewrite Hst in *.
  match type of W1 with context [Traits.clear_all_records n ?t] =>
    rewrite (clear_all_records_frame n t) in * end.
  simpl_state. done.
Qed.

End tree.
