(* ===== verification/RegistryOps.v ===== *)
(** * Burning, transferring and minting names keep the registry's invariant

    The functions of [Registry.v] that create, move and destroy names, run from a
    state with [tree_inv]: what they leave, and that the invariant holds again. *)

From Stdlib Require Import ZArith Lia.
From stdpp Require Import base tactics numbers gmap sets fin_sets fin_maps option list_basics list.
From S2P Require Import Prelude Types Storage Label Nft Traits Registry RegistryInv RegistryTree.

Local Open Scope Z_scope.

Section ops.
Context `{E : Env} `{C : Config} {HK : RecordHooks} {HL : RecordHooksLaws HK}.
Context {RG : RegistrarT} {RL : RegistrarLaws RG} {NL : NodeLevels basenode}.
Implicit Types s : State.

(** ** Burning *)

Definition burn_storage (t : DomainHash) (owner : AccountId) (G : RegistryStorage) :
    RegistryStorage :=
  mkRegistryStorage (delete t (RuntimeOriginOf G)) (SubNames G)
    (AccountToSubnames G ∖ {[(owner, t)]}) (SubnameRecords G) (OfferedToAccount G) (Official G).

Lemma tree_inv_burned t i ci s :
  tree_inv s s -> Tokens s !! (0, t) = Some i -> Classes s !! 0 = Some ci ->
  RuntimeOriginOf s !! t = Some Root -> prefix t (SubNames s) = ∅ ->
  tree_inv (burned (0, t) i ci s) (burn_storage t (ti_owner i) s).
Proof.
  intros Hinv Ht Hc Ho Hp.
  pose proof (nft_inv_burned _ _ _ _ (tree_nft _ _ Hinv) Ht Hc) as Hnft.
  destruct (tree_origin _ _ Hinv _ _ Ho) as (_ & Htop & _).
  destruct Hinv as [T1 T2 T3 T4 T5 T6 T7 T8 T9].
  split; unfold burned, burn_storage in *; simpl_state; try done.
  - intros n i' [Hne Hi]%lookup_delete_Some Hb. rewrite lookup_delete_ne by congruence. eauto.
  - intros n o [Hne Hi]%lookup_delete_Some. rewrite lookup_delete_ne by congruence. eauto.
  - intros n r Hr. destruct (T5 _ _ Hr) as (? & ? & ?). split_and!; try done.
    rewrite lookup_delete_ne; [done|]. intros ->.
    assert (n ∈ prefix (sr_parent r) (SubNames s)) as Hin by (apply elem_of_prefix, T4; eauto).
    rewrite Hp in Hin. set_solver.
  - intros n r Hr Hst. apply elem_of_difference. split; [eauto|].
    intros [= _ ->]%elem_of_singleton. destruct (T5 _ _ Hr) as (_ & ? & _). congruence.
  - intros a n [? _]%elem_of_difference. eauto.
  - intros n i' [Hne Hi]%lookup_delete_Some Hb. eauto.
Qed.

(** What a successful burn of a top-level name did. *)
Record burn_outcome (caller : AccountId) (t : DomainHash) (s s' : State) : Prop := {
  bo_token : exists i, Tokens s !! (0, t) = Some i /\ ti_owner i = caller;
  bo_inv : tree_inv s' s';
  bo_tokens : Tokens s' = delete (0, t) (Tokens s);
  bo_origin : RuntimeOriginOf s' = delete t (RuntimeOriginOf s);
  bo_account : forall a m, (a, m) ∈ AccountToSubnames s' <->
    (a, m) ∈ AccountToSubnames s /\ (a, m) <> (caller, t) /\ (t, m) ∉ SubNames s;
  bo_subnames : SubNames s' = clear_prefix t (SubNames s);
  bo_official : Official s' = Official s;
  bo_outside : outside s' = outside
    (upd_events (fun l => l ++ [RegistryEvent (registry.TokenBurned 0 t t caller caller)])
      (with_registrar (forget_info t) s))
}.

(** The run of a successful burn, step by step. *)
Lemma do_burn_Ok caller t s s' :
  tree_inv s s -> do_burn caller t s = (s', Ok tt) ->
  exists i s1 ci, Tokens s !! (0, t) = Some i /\ ti_owner i = caller /\
    RuntimeOriginOf s !! t = Some Root /\ clear_subnames t s = (s1, Ok tt) /\
    Classes s1 !! 0 = Some ci /\
    let s2 := upd_AccountToSubnames (fun a => a ∖ {[(caller, t)]})
                (with_registrar (forget_info t) s1) in
    s' = upd_events (fun l => l ++ [RegistryEvent (registry.TokenBurned 0 t t caller caller)])
           (burned (0, t) (with_children i 0) ci
             (Traits.clear_all_records t (upd_RuntimeOriginOf (delete t) s2))).
Proof.
  intros Hinv Hr. unfold do_burn, tokens in Hr. inv_ok.
  match goal with Hv : verify_with_owner _ _ _ = _ |- _ =>
    apply verify_with_owner_Ok in Hv as [-> ->] end.
  rename a0 into i, a3 into o, Hopt into Ho, Hopt0 into Ht.
  destruct (tree_origin _ _ Hinv _ _ Ho) as (-> & Htop & _).
  destruct (clear_subnames_spec t i s Hinv Ht) as (s1 & Hclr & Hinv1 & _ & _ & _ & Hn1).
  exists i, s1.
  inv_ok. unfold deposit_event in *. inv_ok.
  rewrite Hclr in Hrun. simplify_eq.
  rewrite clear_registrar_info_run in *. simplify_eq.
  match goal with Hb : Nft.burn _ _ _ = _ |- _ =>
    apply burn_Ok in Hb as (i' & ci & Hi' & Ho' & Hc & _ & ->) end.
  exists ci. rewrite (proj1 (clear_all_records_items _ _)) in Hi', Hc. simpl_state.
  rewrite Hn1 in Hi', Hc. unfold set_token in Hi', Hc. simpl in Hi', Hc.
  rewrite lookup_insert_eq in Hi'. simplify_eq. rewrite Hn1. by split_and!.
Qed.

Lemma do_burn_outcome caller t s s' :
  tree_inv s s -> do_burn caller t s = (s', Ok tt) -> burn_outcome caller t s s'.
Proof.
  intros Hinv Hr. destruct (do_burn_Ok _ _ _ _ Hinv Hr) as (i & s1 & ci & Hi & Hown & Ho & Hclr & Hci & Hs).
  destruct (clear_subnames_spec t i s Hinv Hi) as (s1' & Hclr' & Hinv1 & Hout & W & Hsub & Hn1).
  rewrite Hclr in Hclr'. simplify_eq Hclr'. intros <-. cbv zeta in Hs.
  match type of Hs with context [Traits.clear_all_records t ?x] =>
    rewrite (clear_all_records_frame t x) in Hs end.
  assert (Tokens s1 !! (0, t) = Some (with_children i 0)) as Hi1.
  { rewrite Hn1. apply lookup_insert_eq. }
  clear Hr. subst s'. unfold outside in Hout. simplify_eq Hout. intros O1 O2 O3 O4 O5 O6 O7.
  split; unfold burned in *; simpl_state.
  - eauto.
  - subst caller. refine (tree_inv_burned t (with_children i 0) ci s1 Hinv1 Hi1 Hci _ _).
    + by rewrite (wo_origin _ _ _ W).
    + rewrite Hsub. apply prefix_clear_prefix.
  - rewrite Hn1. simpl. by rewrite delete_insert_eq.
  - by rewrite (wo_origin _ _ _ W).
  - intros a m. rewrite elem_of_difference, (wo_account _ _ _ W), elem_of_prefix. set_solver.
  - exact Hsub.
  - apply W.
  - unfold outside. simpl_state. by rewrite O1, O2, O3, O4, O5, O6, O7.
Qed.

(** ** Transferring *)

Lemma tree_inv_transferred t i to s :
  tree_inv s s -> Tokens s !! (0, t) = Some i -> ti_owner i <> to ->
  tree_inv (transferred (0, t) i to s) s.
Proof.
  intros Hinv Ht Hne.
  pose proof (nft_inv_transferred _ _ _ _ (tree_nft _ _ Hinv) Ht Hne) as Hnft.
  destruct Hinv as [T1 T2 T3 T4 T5 T6 T7 T8 T9].
  assert (forall n i', Tokens (transferred (0, t) i to s) !! (0, n) = Some i' ->
    exists i0, Tokens s !! (0, n) = Some i0 /\ ti_data i0 = ti_data i') as Hdata.
  { intros n i'. unfold transferred. simpl_state. destruct (decide ((0, t) = (0, n))) as [<-|].
    - rewrite lookup_insert_eq. intros [= <-]. eauto.
    - rewrite lookup_insert_ne by done. eauto. }
  split; try done.
  - intros n i' (i0 & ? & _)%Hdata Hb. eauto.
  - intros n o Ho. destruct (T3 _ _ Ho) as (? & ? & Hs). split_and!; try done.
    unfold transferred. simpl_state. destruct (decide ((0, t) = (0, n))) as [<-|].
    + by rewrite lookup_insert_eq.
    + by rewrite lookup_insert_ne.
  - intros n i' (i0 & ? & <-)%Hdata Hb. eauto.
Qed.

Definition moved (t : DomainHash) (i : TokenInfo) (to : AccountId) s : State :=
  if bool_decide (ti_owner i = to) then s else transferred (0, t) i to s.

(** The run of a successful transfer, step by step. *)
Lemma do_transfer_Ok from to t s s' :
  tree_inv s s -> do_transfer from to t s = (s', Ok tt) ->
  exists i s1 s2 s3, Tokens s !! (0, t) = Some i /\ ti_owner i = from /\
    RuntimeOriginOf s !! t = Some Root /\ check_expires_renewable t s = (s, Ok tt) /\
    clear_subnames t s = (s1, Ok tt) /\
    update_ss58 t to
      (Traits.clear_records_except_ss58 t (moved t (with_children i 0) to s1)) = (s2, Ok tt) /\
    record_origin t (parent_hash_32 s2) s2 = (s3, Ok tt) /\
    s' = upd_events (fun l => l ++ [RegistryEvent (registry.Transferred from to 0 t)]) s3.
Proof.
  intros Hinv Hr. unfold do_transfer, tokens in Hr. inv_ok.
  match goal with Hv : verify_with_owner _ _ _ = _ |- _ =>
    apply verify_with_owner_Ok in Hv as [-> ->] end.
  match goal with Ho : RuntimeOriginOf (st_registry s) !! t = Some _ |- _ =>
    destruct (tree_origin _ _ Hinv _ _ Ho) as (-> & Htop & _); rename Ho into Horig end.
  match goal with Hi : Tokens (st_nft s) !! (0, t) = Some ?x |- _ => rename x into i, Hi into Ht end.
  destruct (clear_subnames_spec t i s Hinv Ht) as (s1 & Hclr & Hinv1 & _ & _ & _ & Hn1).
  inv_ok. unfold deposit_event in *. inv_ok.
  match goal with Hc : check_expires_renewable t s = (?x, Ok ?u) |- _ =>
    pose proof (pure_run _ _ _ _ (check_renewable_pure t) Hc); subst x; destruct u end.
  match goal with Hc : clear_subnames t s = (?x, Ok ?u) |- _ =>
    is_var u; rewrite Hclr in Hc; simplify_eq end.
  match goal with Hb : Nft.transfer _ _ _ _ = _ |- _ =>
    apply transfer_Ok in Hb as (i' & Hi' & Ho' & ->) end.
  rewrite Hn1 in Hi'. unfold set_token in Hi'. simpl in Hi'. rewrite lookup_insert_eq in Hi'.
  simplify_eq. repeat match goal with u : unit |- _ => destruct u end.
  do 4 eexists. split_and!; try done. 
Qed.

(** What a successful transfer of a top-level name did. *)
Record transfer_outcome (from to : AccountId) (t : DomainHash) (s s' : State) : Prop := {
  to_token : exists i, Tokens s !! (0, t) = Some i /\ ti_owner i = from;
  to_inv : tree_inv s' s';
  to_owner : owner_of s' t = Some to;
  to_tokens : forall n, n <> t -> Tokens s' !! (0, n) = Tokens s !! (0, n);
  to_origin : RuntimeOriginOf s' = RuntimeOriginOf s;
  to_root : RuntimeOriginOf s !! t = Some Root;
  to_account : forall a m, (a, m) ∈ AccountToSubnames s' <->
    (a, m) ∈ AccountToSubnames s /\ (t, m) ∉ SubNames s;
  to_subnames : SubNames s' = clear_prefix t (SubNames s);
  to_official : Official s' = Official s;
  to_outside : outside s' = outside
    (upd_events (fun l => l ++ [RegistryEvent (registry.Transferred from to 0 t)]) s)
}.

Lemma moved_nft t i to s :
  tree_inv s s -> Tokens s !! (0, t) = Some i ->
  tree_inv (moved t i to s) s /\ owner_of (moved t i to s) t = Some to /\
  (forall n, n <> t -> Tokens (moved t i to s) !! (0, n) = Tokens s !! (0, n)) /\
  st_registry (moved t i to s) = st_registry s /\ outside (moved t i to s) = outside s.
Proof.
  intros Hinv Hi. unfold moved, owner_of, tokens. case_bool_decide as Ho.
  - rewrite Hi. simpl. by rewrite Ho.
  - split_and!; try done.
    + by apply tree_inv_transferred.
    + unfold transferred. simpl_state. by rewrite lookup_insert_eq.
    + intros n Hn. unfold transferred. simpl_state. rewrite lookup_insert_ne; [done|congruence].
Qed.

Lemma do_transfer_outcome from to t s s' :
  tree_inv s s -> do_transfer from to t s = (s', Ok tt) -> transfer_outcome from to t s s'.
Proof.
  intros Hinv Hr.
  destruct (do_transfer_Ok _ _ _ _ _ Hinv Hr) as (i & s1 & s2 & s3 & Hi & Ho & Hroot & _ & Hclr & H2 & H3 & ->).
  destruct (clear_subnames_spec t i s Hinv Hi) as (s1' & Hclr' & Hinv1 & Hout & W & Hsub & Hn1).
  rewrite Hclr in Hclr'. simplify_eq Hclr'. intros <-.
  assert (Tokens s1 !! (0, t) = Some (with_children i 0)) as Hi1.
  { rewrite Hn1. apply lookup_insert_eq. }
  destruct (moved_nft t (with_children i 0) to s1 Hinv1 Hi1) as (M1 & M2 & M3 & M4 & M5).
  set (sm := moved t (with_children i 0) to s1) in *.
  assert (same_but_resolvers sm s3) as Hsame.
  { pose proof (clear_records_except_ss58_frame t sm) as F1.
    pose proof (update_ss58_frame t to (Traits.clear_records_except_ss58 t sm)) as F2.
    pose proof (record_origin_frame t (parent_hash_32 s2) s2) as F3.
    rewrite H2 in F2. rewrite H3 in F3. simpl in F2, F3.
    eauto using same_but_resolvers_trans. }
  rewrite Hsame. unfold outside in Hout, M5. simplify_eq Hout. simplify_eq M5. intros.
  split; unfold owner_of, tokens in *; simpl_state; rewrite ?M4; try done.
  - eauto.
  - intros n Hn. rewrite M3 by done. rewrite Hn1. simpl. rewrite lookup_insert_ne; [done|congruence].
  - apply W.
  - intros a m. by rewrite (wo_account _ _ _ W), elem_of_prefix.
  - apply W.
  - unfold outside. simpl_state. congruence.
Qed.

(** ** Minting *)

Definition mint_storage (n : DomainHash) (to : AccountId) (G : RegistryStorage) : RegistryStorage :=
  mkRegistryStorage (<[n := Root]> (RuntimeOriginOf G)) (SubNames G)
    ({[(to, n)]} ∪ AccountToSubnames G) (SubnameRecords G) (OfferedToAccount G) (Official G).

Lemma tree_inv_minted n meta ci to s :
  tree_inv s s -> Classes s !! 0 = Some ci -> Tokens s !! (0, n) = None -> is_top n = true ->
  tree_inv (minted 0 n meta ci to NodeRecord_default s) (mint_storage n to s).
Proof.
  intros Hinv Hc Hn Htop.
  pose proof (nft_inv_minted 0 n meta ci to NodeRecord_default s (tree_nft _ _ Hinv) Hc Hn) as Hnft.
  assert (RuntimeOriginOf s !! n = None) as Ho.
  { destruct (RuntimeOriginOf s !! n) as [o|] eqn:Ho; [|done].
    destruct (tree_origin _ _ Hinv _ _ Ho) as (_ & _ & [? ?]). congruence. }
  destruct Hinv as [T1 T2 T3 T4 T5 T6 T7 T8 T9].
  split; unfold minted, mint_storage in *; simpl_state; try done.
  - intros n' i Hi Hb. destruct (decide (n = n')) as [<-|]; [by rewrite lookup_insert_eq|].
    rewrite lookup_insert_ne in Hi by congruence. rewrite lookup_insert_ne by done. eauto.
  - intros n' o. destruct (decide (n = n')) as [<-|].
    + rewrite !lookup_insert_eq. by intros [= <-].
    + rewrite !lookup_insert_ne by congruence. eauto.
  - intros n' r Hr. destruct (T5 _ _ Hr) as (? & ? & ?). split_and!; try done.
    rewrite lookup_insert_ne; [done|congruence].
  - intros n' r Hr Hst. apply elem_of_union_r. eauto.
  - intros a n' [[= -> ->]%elem_of_singleton|?]%elem_of_union; [by left|eauto].
  - intros n' i. destruct (decide (n = n')) as [<-|].
    + rewrite lookup_insert_eq. intros [= <-] _. simpl.
      replace (prefix n (SubNames s)) with (∅ : gset DomainHash); [done|].
      symmetry. apply set_eq. intros m. split; [|set_solver].
      intros (r & Hr & <-)%elem_of_prefix%T4. destruct (T5 _ _ Hr). congruence.
    + rewrite lookup_insert_ne by congruence. eauto.
Qed.

Section mint.
Context (n : DomainHash) (to : AccountId) (pay : option AccountId -> M unit).

(** The payment closure leaves names alone. *)
Hypothesis pay_frame : forall x s s', pay x s = (s', Ok tt) ->
  st_nft s' = st_nft s /\ st_registry s' = st_registry s.

Record mint_outcome (official : AccountId) (s s' : State) : Prop := {
  mo_base : exists i, Tokens s !! (0, basenode) = Some i /\ ti_owner i = official /\ to <> official;
  mo_expired : forall i, Tokens s !! (0, n) = Some i -> check_expires_registrable n s = (s, Ok tt);
  mo_paid : exists s1, pay (owner_of s n) s = (s1, Ok tt) /\
    outside s' = outside
      (upd_events (fun l => l ++ [RegistryEvent (registry.TokenMinted 0 n basenode to)]) s1);
  mo_inv : tree_inv s' s';
  mo_owner : owner_of s' n = Some to;
  mo_owners : forall m, m <> n -> owner_of s' m = owner_of s m;
  mo_origin : RuntimeOriginOf s' = <[n := Root]> (RuntimeOriginOf s);
  mo_account : forall a m, (a, m) ∈ AccountToSubnames s' <->
    (a, m) = (to, n) \/
    ((a, m) ∈ AccountToSubnames s /\ (n, m) ∉ SubNames s /\
     (forall o, owner_of s n = Some o -> (a, m) <> (o, n)));
  mo_subnames : SubNames s' = clear_prefix n (SubNames s);
  mo_official : Official s' = Official s
}.

Lemma clear_prefix_id (m : gset (DomainHash * DomainHash)) p :
  (forall q, (p, q) ∉ m) -> clear_prefix p m = m.
Proof.
  intros Hm. apply set_eq. intros [x y]. rewrite elem_of_clear_prefix. simpl. naive_solver.
Qed.

(** A name without a token has no subnames. *)
Lemma no_token_no_subnames s q :
  tree_inv s s -> Tokens s !! (0, n) = None -> (n, q) ∉ SubNames s.
Proof.
  intros Hinv Hn (r & Hr & Hp)%(tree_subnames _ _ Hinv).
  destruct (tree_record _ _ Hinv _ _ Hr) as (Ho & _). rewrite Hp in Ho.
  destruct (tree_origin _ _ Hinv _ _ Ho) as (_ & _ & [? ?]). congruence.
Qed.

(** The new-name branch, for a name under the base node. *)
Lemma mint_new_run s s' cap :
  tree_inv s s -> Tokens s !! (0, n) = None ->
  mint_new [] basenode n to cap pay s = (s', Ok tt) ->
  exists s1 ci b, pay None s = (s1, Ok tt) /\ Classes s !! 0 = Some ci /\
    Tokens (minted 0 n [] ci to NodeRecord_default s1) !! (0, basenode) = Some b /\
    s' = upd_RuntimeOriginOf (<[n := Root]>)
           (upd_Tokens (<[(0, basenode) := with_children b (wrapping_add 32 (children (ti_data b)) 1)]>)
             (upd_AccountToSubnames (fun a => {[(to, n)]} ∪ a)
               (minted 0 n [] ci to NodeRecord_default s1))).
Proof.
  intros Hinv Hn Hr. unfold mint_new in Hr. inv_ok.
  match goal with Hp : pay None s = (?x, Ok ?u) |- _ => destruct u; rename x into sp end.
  match goal with Hp : pay None s = _ |- _ => destruct (pay_frame _ _ _ Hp) as [P1 P2] end.
  match goal with Hm : Nft.mint _ _ _ _ _ = _ |- _ =>
    apply mint_Ok in Hm as (_ & ci & Hci & _ & ->) end.
  simpl_state. assert (RuntimeOriginOf (minted 0 n [] ci to NodeRecord_default sp) !! basenode = None) as Hb.
  { unfold minted. simpl_state. rewrite P2.
    destruct (RuntimeOriginOf s !! basenode) as [o|] eqn:Ho; [|done].
    destruct (tree_origin _ _ Hinv _ _ Ho) as (_ & Htop & _). by apply top_not_base in Htop. }
  rewrite Hb in Hr. inv_ok.
  match goal with Ha : add_children _ _ _ = _ |- _ =>
    apply add_children_Ok in Ha as (b & Hb' & ->) end.
  exists sp, ci, b. rewrite P1 in Hci. by split_and!.
Qed.

Lemma mint_existing_run i s s' :
  tree_inv s s -> Tokens s !! (0, n) = Some i ->
  mint_existing n i to pay s = (s', Ok tt) ->
  exists s1 s2, check_expires_registrable n s = (s, Ok tt) /\
    pay (Some (ti_owner i)) s = (s1, Ok tt) /\ clear_subnames n s1 = (s2, Ok tt) /\
    s' = upd_AccountToSubnames (fun a => {[(to, n)]} ∪ a)
           (moved n (with_children i 0) to
             (upd_AccountToSubnames (fun a => a ∖ {[(ti_owner i, n)]})
               (Traits.clear_all_records n s2))).
Proof.
  intros Hinv Hn Hr. unfold mint_existing in Hr. inv_ok.
  match goal with Hc : check_expires_registrable n s = (?x, Ok ?u) |- _ =>
    pose proof (pure_run _ _ _ _ (check_registrable_pure n) Hc); subst x; destruct u end.
  match goal with Hp : pay _ s = (?x, Ok ?u) |- _ =>
    destruct u; rename x into sp; destruct (pay_frame _ _ _ Hp) as [P1 P2] end.
  destruct (clear_subnames_spec n i sp) as (sc & Hclr & _ & _ & _ & _ & Hn2);
    [by rewrite P1, P2|by rewrite P1|].
  match goal with Hc : clear_subnames n sp = (?x, Ok ?u) |- _ =>
    is_var u; rewrite Hclr in Hc; simplify_eq end.
  match goal with Ht : Nft.transfer _ _ _ _ = _ |- _ =>
    apply transfer_Ok in Ht as (i' & Hi' & _ & ->) end.
  simpl_state. rewrite (proj1 (clear_all_records_items _ _)), Hn2 in Hi'.
  unfold set_token in Hi'. simpl in Hi'. rewrite lookup_insert_eq in Hi'. simplify_eq.
  exists sp. eexists. by split_and!.
Qed.

Lemma mint_new_outcome i s s' cap :
  tree_inv s s -> is_top n = true -> Tokens s !! (0, n) = None ->
  Tokens s !! (0, basenode) = Some i -> to <> ti_owner i ->
  mint_new [] basenode n to cap pay s = (s', Ok tt) ->
  mint_outcome (ti_owner i) s
    (upd_events (fun l => l ++ [RegistryEvent (registry.TokenMinted 0 n basenode to)]) s').
Proof.
  intros Hinv Htop Hn Hi Hto Hr.
  destruct (mint_new_run _ _ _ Hinv Hn Hr) as (s1 & ci & b & Hpay & Hci & Hb & ->).
  destruct (pay_frame _ _ _ Hpay) as [P1 P2]. pose proof (top_not_base n Htop) as Hne.
  assert (tree_inv s1 s1) as Hinv1 by (by rewrite P1, P2).
  assert (Classes s1 !! 0 = Some ci) as Hci1 by (by rewrite P1).
  assert (Tokens s1 !! (0, n) = None) as Hn1 by (by rewrite P1).
  pose proof (tree_inv_minted n [] ci to s1 Hinv1 Hci1 Hn1 Htop) as HT.
  pose proof (tree_inv_base_children _ _ b (wrapping_add 32 (children (ti_data b)) 1) HT Hb) as HT'.
  unfold minted, mint_storage, set_token, owner_of, tokens in *. simpl_state.
  assert (owner_of s n = None) as Hown by (unfold owner_of, tokens; by rewrite Hn).
  split; unfold owner_of, tokens; simpl_state; rewrite ?P2; try done.
  - eauto.
  - congruence.
  - rewrite Hn. by exists s1.
  - by rewrite P2 in HT'.
  - by rewrite lookup_insert_ne, lookup_insert_eq by congruence.
  - intros m Hm. destruct (decide (m = basenode)) as [->|].
    + rewrite lookup_insert_eq. rewrite lookup_insert_ne, P1, Hi in Hb by congruence.
      rewrite Hi. by simplify_eq.
    + rewrite !lookup_insert_ne by congruence. by rewrite P1.
  - intros a m. rewrite elem_of_union, elem_of_singleton.
    split; [intros [?|?]; [by left|right]|naive_solver]. split_and!; [done| |by rewrite Hn].
    by apply no_token_no_subnames.
  - rewrite clear_prefix_id; [done|]. intros q. by apply no_token_no_subnames.
Qed.

(** Held-name entries of top-level names do not matter to the invariant. *)
Lemma tree_inv_top_entries N G X :
  tree_inv N G -> is_top n = true ->
  (forall a m, m <> n -> (a, m) ∈ X <-> (a, m) ∈ AccountToSubnames G) ->
  tree_inv N (mkRegistryStorage (RuntimeOriginOf G) (SubNames G) X (SubnameRecords G)
    (OfferedToAccount G) (Official G)).
Proof.
  intros [T1 T2 T3 T4 T5 T6 T7 T8 T9] Htop HX. split; simpl; try done.
  - intros m r Hr Hst. apply HX; [|eauto]. intros ->. destruct (T5 _ _ Hr) as (_ & ? & _). congruence.
  - intros a m Ha. destruct (decide (m = n)) as [->|]; [by left|]. apply T8, HX; done.
Qed.

Lemma mint_existing_outcome i0 i s s' :
  tree_inv s s -> is_top n = true -> Tokens s !! (0, n) = Some i0 ->
  Tokens s !! (0, basenode) = Some i -> to <> ti_owner i ->
  mint_existing n i0 to pay s = (s', Ok tt) ->
  mint_outcome (ti_owner i) s
    (upd_events (fun l => l ++ [RegistryEvent (registry.TokenMinted 0 n basenode to)]) s').
Proof.
  intros Hinv Htop Hn Hi Hto Hr.
  destruct (mint_existing_run _ _ _ Hinv Hn Hr) as (s1 & s2 & Hchk & Hpay & Hclr & ->).
  destruct (pay_frame _ _ _ Hpay) as [P1 P2]. pose proof (top_not_base n Htop) as Hne.
  destruct (clear_subnames_spec n i0 s1) as (s2' & Hclr' & Hinv2 & Hout & W & Hsub & Hn2);
    [by rewrite P1, P2|by rewrite P1|].
  rewrite Hclr in Hclr'. simplify_eq Hclr'. intros <-.
  rewrite (clear_all_records_frame n s2).
  set (s3 := upd_AccountToSubnames _ (with_resolvers _ s2)).
  assert (tree_inv s3 s3) as Hinv3.
  { apply (tree_inv_top_entries s2 s2); [done|done|]. intros a m Hm. set_solver. }
  assert (Tokens s3 !! (0, n) = Some (with_children i0 0)) as Hi3.
  { change (Tokens s3) with (Tokens s2). rewrite Hn2. apply lookup_insert_eq. }
  destruct (moved_nft n (with_children i0 0) to s3 Hinv3 Hi3) as (M1 & M2 & M3 & M4 & M5).
  set (sm := moved n (with_children i0 0) to s3) in *.
  assert (owner_of s n = Some (ti_owner i0)) as Hown by (unfold owner_of, tokens; by rewrite Hn).
  split; try done.
  - eauto.
  - rewrite Hown. exists s1. split; [done|]. unfold outside in Hout, M5 |- *. simpl_state.
    simplify_eq Hout. simplify_eq M5. intros. subst s3. simpl_state. congruence.
  - simpl_state. rewrite M4.
    apply (tree_inv_top_entries _ s3); [done|done|]. intros a m Hm. set_solver.
  - intros m Hm. unfold owner_of, tokens. simpl_state. rewrite M3 by done.
    change (Tokens s3) with (Tokens s2). rewrite Hn2. simpl.
    rewrite lookup_insert_ne by congruence. by rewrite P1.
  - simpl_state. rewrite M4. subst s3. simpl_state. rewrite (wo_origin _ _ _ W), P2.
    symmetry. apply insert_id. by apply (tree_token _ _ Hinv) in Hn.
  - intros a m. simpl_state. rewrite M4. subst s3. simpl_state.
    rewrite elem_of_union, elem_of_singleton, elem_of_difference, elem_of_singleton,
      (wo_account _ _ _ W), elem_of_prefix, Hown, P2. naive_solver.
  - simpl_state. rewrite M4. subst s3. simpl_state. by rewrite Hsub, P2.
  - simpl_state. rewrite M4. subst s3. simpl_state. by rewrite (wo_official _ _ _ W), P2.
Qed.

(** Minting under the base node, whichever branch it takes. *)
Lemma mint_subname_outcome official cap s s' :
  tree_inv s s -> is_top n = true ->
  mint_subname official basenode n to cap pay s = (s', Ok tt) -> mint_outcome official s s'.
Proof.
  intros Hinv Htop Hr. unfold mint_subname, pallet_mint_subname, tokens in Hr. inv_ok.
  match goal with Hv : verify_with_owner _ _ _ = _ |- _ =>
    apply verify_with_owner_Ok in Hv as [-> ->] end.
  assert (RuntimeOriginOf s !! basenode = None) as Hb.
  { destruct (RuntimeOriginOf s !! basenode) as [o|] eqn:Ho; [|done].
    destruct (tree_origin _ _ Hinv _ _ Ho) as (_ & Ht & _). by apply top_not_base in Ht. }
  rewrite Hb in *. match goal with Hi : Tokens (st_nft s) !! (0, basenode) = Some _ |- _ =>
    rewrite Hi in *; rename Hi into Hbase end.
  inv_ok. tidy. unfold deposit_event in *. inv_ok.
  match goal with u : unit |- _ => destruct u end.
  destruct (Tokens s !! (0, n)) as [i0|] eqn:Hn.
  - by eapply mint_existing_outcome.
  - by eapply mint_new_outcome.
Qed.

End mint.

End ops.
