(* ===== verification/ChainInv.v ===== *)
(** * The invariant of the chain

    [chain_inv] extends the registry's [tree_inv] with the registrar's storage:
    registrations are exactly the top-level names, every registration has the
    default capacity and no more subnames than that, and the official account
    holds the base node.  Every call the runtime can dispatch keeps it, and the
    genesis preset establishes it. *)

From Stdlib Require Import ZArith Lia.
From stdpp Require Import base tactics numbers gmap sets fin_sets fin_maps option list_basics list.
From S2P Require Import Prelude RustStr Types Storage Label Nft Traits PriceOracle Resolvers.
From S2P Require Import Registry Registrar Marketplace Template Runtime RegistryInv RegistryTree RegistryOps.

Local Open Scope Z_scope.
Local Open Scope run_scope.

(** The constants are unsigned integers, and the term of a registration is not empty. *)
Class ConfigWidths {E : Env} (C : Config) : Prop := {
  capacity_u32 : 0 <= DefaultCapacity < 2 ^ 32;
  class_metadata_u32 : 0 <= MaxClassMetadata;
  token_metadata_u32 : 0 <= MaxTokenMetadata;
  grace_u64 : 0 <= GracePeriod;
  duration_positive : 0 < MaxRegistrationDuration
}.

#[global] Instance runtime_widths {E : Env} kusama : ConfigWidths (runtime_config kusama).
Proof. by split. Qed.

Section invariant.
Context `{E : Env} `{C : Config} {HK : RecordHooks} {HL : RecordHooksLaws HK}.
Context {O : ManagerOrigin} {IO : IsOpen} {NL : NodeLevels (basenode (RegistrarT := registrar_T))}.
Implicit Types s : State.

Record chain_inv s : Prop := {
  ch_tree : tree_inv s s;
  ch_info : forall n, is_Some (RegistrarInfos s !! n) <-> RuntimeOriginOf s !! n = Some Root;
  ch_capacity : forall n i, RegistrarInfos s !! n = Some i ->
    ri_capacity i = DefaultCapacity /\ Z.of_nat (size (prefix n (SubNames s))) <= DefaultCapacity;
  ch_label : forall n i, RegistrarInfos s !! n = Some i -> 1 <= ri_label_len i <= 63;
  ch_official : exists o, Official s = Some o /\ owner_of s BaseNode = Some o
}.

(** The invariant reads the storage of names and the registrations only. *)
Lemma chain_inv_ext s s' :
  st_nft s' = st_nft s -> st_registry s' = st_registry s ->
  RegistrarInfos s' = RegistrarInfos s -> chain_inv s -> chain_inv s'.
Proof.
  intros H1 H2 H3 [C1 C2 C3 C4 C5].
  split; unfold owner_of, tokens; rewrite ?H1, ?H2, ?H3; done.
Qed.

(** A step that keeps the invariant when it succeeds. *)
Definition keeps {A} (m : M A) : Prop :=
  forall s s' a, chain_inv s -> m s = (s', Ok a) -> chain_inv s'.

Lemma keeps_bind {A B} (m : M A) (k : A -> M B) :
  keeps m -> (forall a, keeps (k a)) -> keeps (bind m k).
Proof. intros Hm Hk s s' b Hs (a & s1 & H1 & H2)%bind_Ok. eapply Hk, H2. eapply Hm, H1. done. Qed.

(** After a guard the continuation knows what it found. *)
Lemma keeps_ok_or {A B} (o : option A) e (k : A -> M B) :
  (forall a, o = Some a -> keeps (k a)) -> keeps (bind (ok_or o e) k).
Proof.
  intros Hk s s' b Hs (a & s1 & [H1 ->]%ok_or_Ok & H2)%bind_Ok. by eapply Hk.
Qed.

Lemma keeps_pure {A} (m : M A) : pure m -> keeps m.
Proof. intros Hm s s' a Hs Hr. by rewrite (pure_run _ _ _ _ Hm Hr). Qed.

Lemma keeps_modify (f : State -> State) :
  (forall s, st_nft (f s) = st_nft s /\ st_registry (f s) = st_registry s /\
             RegistrarInfos (f s) = RegistrarInfos s) ->
  keeps (modify f).
Proof.
  intros Hf s s' u Hs ->%modify_Ok. destruct (Hf s) as (? & ? & ?). by apply (chain_inv_ext s).
Qed.

Lemma keeps_same_but_resolvers {A} (m : M A) :
  (forall s, same_but_resolvers s (m s).1) -> keeps m.
Proof.
  intros Hm s s' a Hs Hr. specialize (Hm s). rewrite Hr in Hm. simpl in Hm. rewrite Hm.
  by apply (chain_inv_ext s).
Qed.

Lemma keeps_burn_from who fee : keeps (burn_from who fee).
Proof. intros s s' u Hs (c & i & _ & ->)%burn_from_Ok. by apply (chain_inv_ext s). Qed.

Lemma keeps_transfer_balance x y v : keeps (transfer_balance x y v).
Proof. intros s s' u Hs (c & _ & ->)%transfer_balance_Ok. by apply (chain_inv_ext s). Qed.

Lemma keeps_map_err {A} f (m : M A) : keeps m -> keeps (map_err f m).
Proof. intros Hm s s' a Hs Hr%map_err_Ok. by eapply Hm. Qed.

Lemma keeps_ensure_origin o : keeps (ensure_origin o).
Proof. intros s s' a Hs [_ ->]%ensure_origin_Ok. done. Qed.

Lemma keeps_ensure_signed o : keeps (ensure_signed o).
Proof. intros s s' a Hs [_ ->]%ensure_signed_Ok. done. Qed.

Lemma keeps_lookup_source src : keeps (lookup_source src).
Proof. intros s s' a Hs [_ ->]%lookup_source_Ok. done. Qed.

End invariant.

Create HintDb keeps.

(** Proves [keeps] of code from the [keeps] of its calls. *)
Ltac solve_keeps :=
  repeat first
    [ progress intros
    | match goal with
      | |- keeps (bind (ok_or _ _) _) => apply keeps_ok_or
      | |- keeps (bind _ _) => apply keeps_bind
      | |- keeps (burn_from _ _) => apply keeps_burn_from
      | |- keeps (transfer_balance _ _ _) => apply keeps_transfer_balance
      | |- keeps (map_err _ _) => apply keeps_map_err
      | |- keeps (ensure_origin _) => apply keeps_ensure_origin
      | |- keeps (ensure_signed _) => apply keeps_ensure_signed
      | |- keeps (lookup_source _) => apply keeps_lookup_source
      | |- keeps (update_ss58 _ _) => apply keeps_same_but_resolvers; apply update_ss58_frame
      | |- keeps (record_origin _ _) => apply keeps_same_but_resolvers; apply record_origin_frame
      | |- keeps (modify (Traits.clear_records_except_ss58 _)) =>
          apply keeps_modify; intros; rewrite clear_records_except_ss58_frame; done
      | |- keeps (modify _) => apply keeps_modify; done
      | |- keeps (match ?x with _ => _ end) => destruct x
      | |- keeps (let _ := _ in _) => cbv zeta
      end
    | solve [apply keeps_pure; solve_pure]
    | solve [eauto with keeps] ].

Section chain.
Context `{E : Env} `{C : Config} {HK : RecordHooks} {HL : RecordHooksLaws HK}.
Context {O : ManagerOrigin} {IO : IsOpen} {NL : NodeLevels (basenode (RegistrarT := registrar_T))}.
Context {HC : ConfigWidths C}.
Implicit Types s : State.

Lemma keeps_ensure_no_name a : keeps (ensure_no_name a).
Proof. unfold ensure_no_name. solve_keeps. Qed.

(** ** The registry's functions *)

Lemma outside_infos s s' : outside s' = outside s -> RegistrarInfos s' = RegistrarInfos s.
Proof. unfold outside. by intros [= -> _ _ _ _ _ _]. Qed.

Lemma owner_of_Some s n o :
  owner_of s n = Some o <-> exists i, Tokens s !! (0, n) = Some i /\ ti_owner i = o.
Proof. unfold owner_of, tokens. rewrite fmap_Some. naive_solver. Qed.

Lemma top_not_BaseNode n : is_top n = true -> n <> BaseNode.
Proof. exact (top_not_base n). Qed.

Lemma keeps_do_burn caller t : keeps (do_burn caller t).
Proof.
  intros s s' [] Hs Hr. pose proof (ch_tree _ Hs) as HT.
  destruct (do_burn_outcome _ _ _ _ HT Hr) as [_ B2 B3 B4 _ B6 B7 B8].
  destruct (do_burn_Ok _ _ _ _ HT Hr) as (i & _ & _ & Hi & _ & Ho & _).
  destruct (tree_origin _ _ HT _ _ Ho) as (_ & Htop & _). pose proof (top_not_BaseNode t Htop) as Hb.
  apply outside_infos in B8. simpl_state. simpl in B8.
  destruct Hs as [C1 C2 C3 C4 (o & C5 & C6)]. split.
  - exact B2.
  - intros n. rewrite B8, B4. destruct (decide (n = t)) as [->|].
    + rewrite !lookup_delete_eq. split; [by intros []|done].
    + by rewrite !lookup_delete_ne.
  - intros n j. rewrite B8, B6. intros [Hne Hj]%lookup_delete_Some.
    rewrite prefix_clear_prefix_ne by done. eauto.
  - intros n j. rewrite B8. intros [Hne Hj]%lookup_delete_Some. eauto.
  - exists o. split; [congruence|]. apply owner_of_Some in C6 as (b & Hb1 & Hb2).
    apply owner_of_Some. exists b. rewrite B3. rewrite lookup_delete_ne by congruence. done.
Qed.

Lemma keeps_do_transfer from to t : keeps (do_transfer from to t).
Proof.
  intros s s' [] Hs Hr. pose proof (ch_tree _ Hs) as HT.
  destruct (do_transfer_outcome _ _ _ _ _ HT Hr) as [_ B2 _ B4 B5 Ho _ B6 B7 B8].
  destruct (tree_origin _ _ HT _ _ Ho) as (_ & Htop & _). pose proof (top_not_BaseNode t Htop) as Hb.
  apply outside_infos in B8. simpl_state.
  destruct Hs as [C1 C2 C3 C4 (o & C5 & C6)]. split.
  - exact B2.
  - intros n. by rewrite B8, B5.
  - intros n j. rewrite B8, B6. intros Hj. destruct (C3 _ _ Hj) as [? ?]. split; [done|].
    destruct (decide (n = t)) as [->|]; [rewrite prefix_clear_prefix, size_empty; lia|].
    by rewrite prefix_clear_prefix_ne.
  - intros n j. rewrite B8. apply C4.
  - exists o. split; [congruence|]. unfold owner_of, tokens in *. by rewrite B4.
Qed.

(** Dropping subnames only makes room. *)
Lemma chain_inv_fewer s s' :
  chain_inv s -> tree_inv s' s' -> outside s' = outside s -> Official s' = Official s ->
  RuntimeOriginOf s' = RuntimeOriginOf s -> SubNames s' ⊆ SubNames s ->
  owner_of s' BaseNode = owner_of s BaseNode -> chain_inv s'.
Proof.
  intros [C1 C2 C3 C4 C5] HT Hout Hoff Ho Hsub Hown. apply outside_infos in Hout. split.
  - done.
  - intros n. by rewrite Hout, Ho.
  - intros n i. rewrite Hout. intros Hi. destruct (C3 _ _ Hi) as [? ?]. split; [done|].
    assert (size (prefix n (SubNames s')) <= size (prefix n (SubNames s)))%nat; [|lia].
    apply subseteq_size. intros m. rewrite !elem_of_prefix. apply Hsub.
  - intros n i. rewrite Hout. apply C4.
  - by rewrite Hoff, Hown.
Qed.

Lemma keeps_revoke_subname p n : keeps (revoke_subname p n).
Proof.
  intros s s' [] Hs Hr. pose proof (ch_tree _ Hs) as HT.
  destruct (revoke_subname_inv _ _ _ _ HT Hr) as (H1 & H2 & H3).
  apply revoke_subname_Ok in Hr as (r & Hn & <- & (i & Hi & _ & ->)%sub_children_Ok).
  destruct (dropped_frame n r s) as (F1 & F2 & F3). pose proof (dropped_without n r s HT Hn) as W.
  apply (chain_inv_fewer s); try done; simpl_state.
  - by rewrite (wo_origin _ _ _ W).
  - rewrite F3. set_solver.
  - unfold owner_of, tokens. simpl_state. rewrite F1 in *.
    destruct (decide ((0, sr_parent r) = (0, BaseNode))) as [Heq|].
    + rewrite <- Heq, Hi. by rewrite lookup_insert_eq.
    + by rewrite lookup_insert_ne.
Qed.

Lemma keeps_revoke_pending n a : keeps (revoke_pending_offer_for_target n a).
Proof.
  intros s s' [] Hs (r & _ & _ & _ & Hr)%revoke_pending_inv. by eapply keeps_revoke_subname.
Qed.

Lemma keeps_release_subname n a : keeps (release_subname n a).
Proof.
  intros s s' p Hs Hr. pose proof (ch_tree _ Hs) as HT.
  destruct (release_subname_keeps _ _ _ _ _ HT Hr) as (H1 & H2 & H3).
  apply release_subname_inv in Hr as (r & i & Hn & Hst & <- & -> & Hi & _ & Hs').
  match type of Hs' with context [Traits.clear_all_records n ?t] =>
    rewrite (clear_all_records_frame n t) in Hs' end.
  apply (chain_inv_fewer s); try done; rewrite Hs'; simpl_state.
  - done.
  - set_solver.
  - unfold owner_of, tokens. simpl_state.
    destruct (decide ((0, sr_parent r) = (0, BaseNode))) as [Heq|].
    + rewrite <- Heq, Hi. by rewrite lookup_insert_eq.
    + by rewrite lookup_insert_ne.
Qed.

Lemma keeps_accept n a : keeps (accept_subname_offer n a).
Proof.
  intros s s' p Hs (_ & _ & r & Hn & Hst & <- & _ & ->)%accept_subname_offer_Ok.
  pose proof (tree_inv_accepted _ _ _ (ch_tree _ Hs) Hn Hst). by apply (chain_inv_fewer s).
Qed.

Lemma keeps_reject n a : keeps (reject_subname_offer n a).
Proof.
  intros s s' [] Hs (r & Hn & Hst & <- & ->)%reject_subname_offer_Ok.
  pose proof (tree_inv_rejected _ _ _ (ch_tree _ Hs) Hn Hst). by apply (chain_inv_fewer s).
Qed.

(** Offering needs the parent's registration: it bounds the number of subnames. *)
Lemma chain_inv_offer p h l to s s' info :
  label_used h -> chain_inv s ->
  RegistrarInfos s !! p = Some info ->
  offer_subname p (child_node p h) l to (ri_capacity info) s = (s', Ok tt) -> chain_inv s'.
Proof.
  intros Hused Hs Hinfo (Ho & i & Hi & Hto & Hn & Hlt & ->)%offer_subname_Ok.
  pose proof (ch_tree _ Hs) as HT. destruct (tree_origin _ _ HT _ _ Ho) as (_ & Htop & _).
  pose proof capacity_u32 as Hcap. destruct (sub_of_top p h Htop Hused) as [Hnt Hnb]. pose proof (top_not_BaseNode p Htop) as Hpb.
  destruct (ch_capacity _ Hs _ _ Hinfo) as [Hic Hsz]. rewrite Hic in Hlt.
  pose proof (tree_children _ _ HT _ _ Hi Hpb) as Hch.
  assert ((p, child_node p h) ∉ SubNames s) as Hnin.
  { intros (r & Hr & _)%(tree_subnames _ _ HT). congruence. }
  pose proof (tree_inv_offered p (child_node p h) l to i s HT Ho Hi Hn Hnt Hnb ltac:(lia)) as HT'.
  destruct Hs as [C1 C2 C3 C4 (o & C5 & C6)]. split; try done.
  - intros n j Hj. destruct (C3 _ _ Hj) as [? ?]. split; [done|]. unfold offered. simpl_state.
    destruct (decide (n = p)) as [->|]; [rewrite size_prefix_insert by done; lia|].
    by rewrite prefix_insert_ne.
  - exists o. split; [done|]. unfold owner_of, tokens, offered in *. simpl_state.
    by rewrite lookup_insert_ne by congruence.
Qed.

(** ** Registrations *)

(** The label of [name], if it is one, is among those in use. *)
Definition name_used (name : bytes) : Prop :=
  forall lab len, new_with_len name = Some (lab, len) -> label_used (node lab).

Lemma new_with_len_node name lab len :
  name_used name -> new_with_len name = Some (lab, len) ->
  1 <= len <= 63 /\ is_top (encode_with_node lab BaseNode) = true.
Proof.
  intros Hused Hnew. split; [|exact (top_of_base (base := BaseNode) _ (Hused _ _ Hnew))].
  rewrite new_with_len_spec in Hnew. destruct (valid_label name) eqn:Hv; [|done].
  injection Hnew as <- <-. unfold valid_label in Hv. rewrite !andb_true_iff, !Z.leb_le in Hv. lia.
Qed.

(** A payment closure that registers [n]: names untouched, [n]'s registration written. *)
Record registers (n : DomainHash) (pay : option AccountId -> M unit) : Prop := {
  reg_frame : forall x s s', pay x s = (s', Ok tt) ->
    st_nft s' = st_nft s /\ st_registry s' = st_registry s;
  reg_info : forall x s s', pay x s = (s', Ok tt) -> exists i,
    RegistrarInfos s' = <[n := i]> (RegistrarInfos s) /\
    ri_capacity i = match RegistrarInfos s !! n with
                    | Some i0 => ri_capacity i0
                    | None => DefaultCapacity
                    end /\
    (1 <= ri_label_len i <= 63 \/
     exists i0, RegistrarInfos s !! n = Some i0 /\ ri_label_len i = ri_label_len i0)
}.

Lemma forget_previous_owner_frame n x s s' u :
  forget_previous_owner n x s = (s', Ok u) ->
  st_nft s' = st_nft s /\ st_registry s' = st_registry s /\ RegistrarInfos s' = RegistrarInfos s /\
  st_system s' = st_system s.
Proof.
  unfold forget_previous_owner. intros Hr. destruct x as [o|]; inv_ok; [|done].
  case_bool_decide; inv_ok; done.
Qed.

Lemma register_payments_registers caller n fee ex len :
  1 <= len <= 63 -> registers n (register_payments caller n fee ex len).
Proof.
  intros Hlen. split; intros x s s' Hr; unfold register_payments in Hr; inv_ok;
    match goal with Hf : forget_previous_owner _ _ _ = _ |- _ =>
      apply forget_previous_owner_frame in Hf as (F1 & F2 & F3 & _) end;
    match goal with Hb : burn_from _ _ _ = _ |- _ =>
      apply burn_from_Ok in Hb as (c & i & _ & ->) end; simpl_state; [done|].
  eexists. rewrite F3. split_and!; [done..|]. left. unfold truncate. cbn [ri_label_len].
  rewrite Z.mod_small by lia. done.
Qed.

Lemma redeem_payments_registers name n ex :
  1 <= str_len name <= 63 -> registers n (redeem_payments name n ex).
Proof.
  intros Hlen. split; intros x s s' Hr; unfold redeem_payments in Hr; inv_ok;
    match goal with Hf : forget_previous_owner _ _ _ = _ |- _ =>
      apply forget_previous_owner_frame in Hf as (F1 & F2 & F3 & _) end; simpl_state; [done|].
  rewrite F3. destruct (RegistrarInfos s !! n) as [i0|]; eexists; split_and!; try done.
  - right. eauto.
  - left. unfold truncate. cbn [ri_label_len]. by rewrite Z.mod_small by lia.
Qed.

Lemma chain_inv_mint official n to cap pay s s' :
  registers n pay -> chain_inv s -> is_top n = true ->
  mint_subname official BaseNode n to cap pay s = (s', Ok tt) -> chain_inv s'.
Proof.
  intros [R1 R2] Hs Htop Hr. pose proof capacity_u32 as Hcap. pose proof (top_not_BaseNode n Htop) as Hb.
  pose proof (ch_tree _ Hs) as HT.
  destruct (mint_subname_outcome n to pay R1 official cap s s' HT Htop Hr)
    as [_ _ (s1 & Hpay & Hout) M4 _ M6 M7 _ M9 M10].
  destruct (R2 _ _ _ Hpay) as (i & Hi & Hic & Hil).
  apply outside_infos in Hout. simpl_state. rewrite Hi in Hout.
  destruct Hs as [C1 C2 C3 C4 (o & C5 & C6)]. split.
  - exact M4.
  - intros m. rewrite Hout, M7. destruct (decide (n = m)) as [<-|].
    + by rewrite !lookup_insert_eq.
    + by rewrite !lookup_insert_ne.
  - intros m j. rewrite Hout, M9. destruct (decide (n = m)) as [<-|].
    + rewrite lookup_insert_eq, prefix_clear_prefix, size_empty. intros [= <-]. split; [|lia].
      rewrite Hic. destruct (RegistrarInfos s !! n) eqn:Hn; [|done]. by eapply C3.
    + rewrite lookup_insert_ne by done. rewrite prefix_clear_prefix_ne by done. apply C3.
  - intros m j. rewrite Hout. destruct (decide (n = m)) as [<-|].
    + rewrite lookup_insert_eq. intros [= <-]. destruct Hil as [?|(i0 & Hi0 & ->)]; [done|eauto].
    + rewrite lookup_insert_ne by done. apply C4.
  - exists o. split; [congruence|]. by rewrite M6.
Qed.

(** ** The calls *)

#[local] Hint Resolve keeps_ensure_no_name keeps_do_burn keeps_do_transfer keeps_revoke_subname
  keeps_revoke_pending keeps_release_subname keeps_accept keeps_reject : keeps.

Lemma keeps_register_mint official caller to name lab len fee ex :
  name_used name -> new_with_len name = Some (lab, len) ->
  keeps (mint_subname official BaseNode (encode_with_node lab BaseNode) to 0
    (register_payments caller (encode_with_node lab BaseNode) fee ex len)).
Proof.
  intros Hused [Hlen Htop]%new_with_len_node s s' [] Hs Hr; [|done].
  eapply chain_inv_mint, Hr; try done. by apply register_payments_registers.
Qed.

Lemma keeps_redeem_mint official to name lab len ex :
  name_used name -> new_with_len name = Some (lab, len) ->
  keeps (mint_subname official BaseNode (encode_with_node lab BaseNode) to 0
    (redeem_payments name (encode_with_node lab BaseNode) ex)).
Proof.
  intros Hused Hnew s s' [] Hs Hr. pose proof Hnew as [Hlen Htop]%new_with_len_node; [|done].
  assert (len = str_len name) as ->.
  { rewrite new_with_len_spec in Hnew. destruct (valid_label name); naive_solver. }
  eapply chain_inv_mint, Hr; try done. by apply redeem_payments_registers.
Qed.

Lemma keeps_register o name owner rej : name_used name -> keeps (register o name owner rej).
Proof.
  intros Hused. unfold register, reject_pending, get_official_account, deposit_event.
  solve_keeps; eauto using keeps_register_mint.
Qed.

Lemma keeps_for_redeem_code name to d lab len :
  name_used name -> new_with_len name = Some (lab, len) -> keeps (for_redeem_code name to d lab).
Proof.
  intros Hused Hnew. unfold for_redeem_code, get_official_account, deposit_event.
  solve_keeps; eauto using keeps_redeem_mint.
Qed.

Lemma chain_inv_new_expiry s n i ex :
  chain_inv s -> RegistrarInfos s !! n = Some i ->
  chain_inv (upd_RegistrarInfos
    (<[n := mkRegistrarInfo ex (ri_capacity i) (ri_register_fee i) (ri_label_len i)
              (ri_last_block i)]>) s).
Proof.
  intros [C1 C2 C3 C4 C5] Hi. split; simpl_state; try done.
  - intros m. rewrite <- C2. destruct (decide (n = m)) as [<-|].
    + rewrite lookup_insert_eq, Hi. split; eauto.
    + by rewrite lookup_insert_ne.
  - intros m j. destruct (decide (n = m)) as [<-|].
    + rewrite lookup_insert_eq. intros [= <-]. exact (C3 _ _ Hi).
    + rewrite lookup_insert_ne by done. apply C3.
  - intros m j. destruct (decide (n = m)) as [<-|].
    + rewrite lookup_insert_eq. intros [= <-]. exact (C4 _ _ Hi).
    + rewrite lookup_insert_ne by done. apply C4.
Qed.

Lemma keeps_renew o : keeps (renew o).
Proof.
  intros s s' [] Hs Hr. unfold renew in Hr. inv_call.
  match goal with Hb : burn_from _ _ _ = _ |- _ => apply burn_from_Ok in Hb as (c & j & _ & ->) end.
  apply chain_inv_new_expiry; [by apply (chain_inv_ext s)|done].
Qed.

Lemma keeps_offer_subdomain o label target :
  name_used label -> keeps (offer_subdomain o label target).
Proof.
  intros Hused s s' [] Hs Hr. unfold offer_subdomain in Hr. inv_call.
  match goal with Hf : offer_subname _ _ _ _ _ _ = (?x, Ok ?u) |- _ =>
    destruct u; apply (chain_inv_ext x); [done..|] end.
  eapply chain_inv_offer; eauto.
Qed.

Lemma keeps_transfer_name from to n : keeps (transfer_name from to n).
Proof. unfold transfer_name, forget_seller. solve_keeps. Qed.

Lemma keeps_offer_bought_name x y z n : keeps (offer_bought_name x y z n).
Proof. unfold offer_bought_name, forget_seller, deposit_event. solve_keeps. Qed.

#[local] Hint Resolve keeps_transfer_name keeps_offer_bought_name : keeps.

Lemma keeps_buy_name o name r : keeps (buy_name o name r).
Proof. unfold buy_name, deliver, deliver_gift, deposit_event. solve_keeps. Qed.

(** Replacing the official account moves the base node with it. *)
Lemma tree_inv_class_owner N G c ci o :
  tree_inv N G -> Classes N !! c = Some ci ->
  tree_inv (mkNftStorage (NextClassId N)
    (<[c := mkClassInfo (ci_metadata ci) (ci_total_issuance ci) o]> (Classes N))
    (Tokens N) (TokensByOwner N)) G.
Proof.
  intros [[N1 N2 N3 N4] T2 T3 T4 T5 T6 T7 T8 T9] Hc. split; try done. split; simpl.
  - done.
  - intros c' t i Hi. destruct (decide (c = c')) as [<-|]; [by rewrite lookup_insert_eq|].
    rewrite lookup_insert_ne by done. eauto.
  - intros c' ci'. destruct (decide (c = c')) as [<-|].
    + rewrite lookup_insert_eq. intros [= <-]. exact (N3 _ _ Hc).
    + rewrite lookup_insert_ne by done. apply N3.
  - intros c'. destruct (decide (c = c')) as [<-|]; [intros _; by apply N4|].
    rewrite lookup_insert_ne by done. apply N4.
Qed.

Lemma set_official_Ok o official s s' :
  chain_inv s -> set_official o official s = (s', Ok tt) ->
  exists b ci, let s1 := upd_Official (fun _ => Some official) s in
    Tokens s !! (0, BaseNode) = Some b /\ Classes s !! 0 = Some ci /\
    Classes (moved BaseNode b official s1) = Classes s /\
    s' = upd_Classes (<[0 := mkClassInfo (ci_metadata ci) (ci_total_issuance ci) official]>)
           (moved BaseNode b official s1).
Proof.
  intros Hs Hr. destruct Hs as [C1 _ _ _ (off & C5 & C6)].
  apply owner_of_Some in C6 as (b & Hb & <-).
  destruct (inv_class _ (tree_nft _ _ C1) _ _ _ Hb) as [ci Hci].
  unfold set_official in Hr. inv_call. rewrite C5 in *.
  match goal with Ht : Nft.transfer _ _ _ _ = _ |- _ =>
    apply transfer_Ok in Ht as (i & Hi & _ & ->) end.
  change basenode with BaseNode in *. simpl_state. rewrite Hb in Hi. injection Hi as <-. exists b, ci.
  unfold moved, transferred in *. case_bool_decide; simpl_state; rewrite Hci in Hr; inv_ok; done.
Qed.

Lemma keeps_set_official o official : keeps (set_official o official).
Proof.
  intros s s' [] Hs Hr.
  destruct (set_official_Ok _ _ _ _ Hs Hr) as (b & ci & Hb & Hci & Hcl & ->).
  destruct Hs as [C1 C2 C3 C4 _]. set (s1 := upd_Official (fun _ => Some official) s) in *.
  assert (tree_inv s1 s1) as T1 by (destruct C1; by split).
  destruct (moved_nft BaseNode b official s1 T1 Hb) as (M1 & M2 & M3 & M4 & M5%outside_infos).
  rewrite <- Hcl in Hci. split; simpl_state; rewrite ?M4, ?M5; try done.
  - by apply (tree_inv_class_owner (moved BaseNode b official s1)).
  - by exists official.
Qed.

End chain.

(** ** Dispatch *)

(** The names a call may add to the tree. *)
Definition new_names {E : Env} (c : RuntimeCall) : list bytes :=
  match c with
  | Register name _ _ => [name]
  | OfferSubdomain label _ => [label]
  | _ => []
  end.

Section dispatch.
Context `{E : Env} `{C : Config} {HC : ConfigWidths C} {NL : NodeLevels BaseNode}.

#[local] Hint Extern 1 (keeps (do_burn _ _)) => apply keeps_do_burn : keeps.
#[local] Hint Extern 1 (keeps (do_transfer _ _ _)) => apply keeps_do_transfer : keeps.
#[local] Hint Extern 1 (keeps (revoke_subname _ _)) => apply keeps_revoke_subname : keeps.
#[local] Hint Extern 1 (keeps (release_subname _ _)) => apply keeps_release_subname : keeps.
#[local] Hint Extern 1 (keeps (buy_name _ _ _)) => apply keeps_buy_name : keeps.
#[local] Hint Resolve keeps_ensure_no_name keeps_accept keeps_reject keeps_renew
  keeps_set_official : keeps.

Lemma keeps_call o c : Forall name_used (new_names c) -> keeps (call_body o c).
Proof.
  destruct c; simpl; intros Hused.
  8: exact (keeps_register _ _ _ _ (Forall_inv Hused)).
  11: exact (keeps_offer_subdomain _ _ _ (Forall_inv Hused)).
  all: unfold set_exchange_rate, set_base_price, set_rent_price, Registry.burn, name_to_node,
    add_reserved, remove_reserved, Registrar.transfer, release_name, subdomain_node,
    accept_subdomain, reject_subdomain, revoke_subdomain, release_subdomain, accept_offered_name,
    set_record, set_text, create_listing, cancel_listing, do_something, cause_error,
    deposit_event; solve_keeps.
Qed.

Lemma dispatch_chain_inv o c s :
  Forall name_used (new_names c) -> chain_inv s -> chain_inv (dispatch o c s).1.
Proof.
  intros Hused Hs. unfold dispatch, with_storage_layer.
  destruct (call_body o c s) as [s' [[]|e]] eqn:Hr; [|done].
  exact (keeps_call o c Hused s s' tt Hs Hr).
Qed.

(** C3. Every call of the runtime keeps the invariant of the chain's storage,
    whatever its origin and whether it succeeds or is rolled back, if the labels
    it adds to the tree are among those the hash does not confuse. *)
Theorem dispatch_preserves_chain_inv (o : RawOrigin) (c : RuntimeCall) (s : State)
    (Hused : Forall name_used (new_names c)) (Hs : chain_inv s) :
  chain_inv (dispatch o c s).1.
Proof. by apply dispatch_chain_inv. Qed.

End dispatch.
