(* ===== verification/Genesis.v ===== *)
(** * The chain from genesis on

    The genesis preset of the runtime establishes the invariant, so every state a
    sequence of blocks reaches has it.  Between two calls of [run_blocks] the
    clock, the block number and the balances change as the rest of the runtime
    pleases. *)

From Stdlib Require Import ZArith Lia.
From stdpp Require Import base tactics numbers gmap sets fin_sets fin_maps option list_basics list.
From S2P Require Import Prelude RustStr Types Storage Label Nft Traits PriceOracle Resolvers.
From S2P Require Import Registry Registrar Marketplace Runtime RegistryInv RegistryTree ChainInv.

Local Open Scope Z_scope.
Local Open Scope run_scope.

Section genesis.
Context `{E : Env} `{C : Config} {HC : ConfigWidths C} {NL : NodeLevels BaseNode}.
Implicit Types s : State.

(** What a chain does: dispatch a call, or anything outside the pallets of names
    that changes the block, the clock and the balances. *)
Inductive chain_step : State -> State -> Prop :=
| step_call o c s : Forall name_used (new_names c) -> chain_step s (dispatch o c s).1
| step_environment f s : chain_step s (with_system f s).

Inductive reachable (root : AccountId) : State -> Prop :=
| reach_genesis number hash time c s :
    testnet_genesis root (empty_state number hash time c) = (s, Ok tt) -> reachable root s
| reach_step s s' : reachable root s -> chain_step s s' -> reachable root s'.

(** ** Theorems *)

Lemma registrar_build_reserved names s :
  exists r, registrar_build [] [] names s = upd_ReservedList (fun _ => r) s.
Proof.
  unfold registrar_build. cbn [foldl]. revert s.
  induction names as [|name names IH]; intros s; cbn [foldl].
  - exists (ReservedList s). by destruct s as [? ? []].
  - case_match; [|apply IH]. edestruct IH as [r Hr]. exists r. by rewrite Hr.
Qed.

(** The chain after the builders of the NFT pallet. *)
Definition base_minted (root : AccountId) s : State :=
  minted 0 BaseNode [] (mkClassInfo [] 0 root) root NodeRecord_default (class_created root [] s).

Lemma nft_genesis_run root number hash time c :
  let s := empty_state number hash time c in
  Nft.genesis_build [(root, [], [(root, [], NodeRecord_default, BaseNode)])] s =
  (base_minted root s, Ok tt).
Proof.
  intros s. unfold Nft.genesis_build. cbn [for_each].
  assert (create_class root [] s = (class_created root [] s, Ok 0)) as Hc.
  { apply create_class_Ok. split_and!; [exact class_metadata_u32|done..]. }
  assert (Nft.mint root (0, BaseNode) [] NodeRecord_default (class_created root [] s) =
    (base_minted root s, Ok tt)) as Hm.
  { apply mint_Ok. split; [exact token_metadata_u32|]. by exists (mkClassInfo [] 0 root). }
  unfold bind. rewrite Hc. unfold bind. by rewrite Hm.
Qed.

Lemma nft_inv_empty : nft_inv (mkNftStorage 0 ∅ ∅ ∅).
Proof.
  split; simpl.
  - intros a t. split; [set_solver|]. by intros (i & ? & _).
  - done.
  - done.
  - by intros c [].
Qed.

Lemma chain_inv_base_minted root number hash time c (G : RegistryStorage) :
  G = mkRegistryStorage ∅ ∅ ∅ ∅ ∅ (Some root) ->
  chain_inv (with_registry (fun _ => G) (base_minted root (empty_state number hash time c))).
Proof.
  intros ->. set (s := empty_state number hash time c).
  assert (nft_inv (base_minted root s)) as Hn.
  { unfold base_minted. apply (nft_inv_minted 0 BaseNode [] (mkClassInfo [] 0 root)).
    - by apply nft_inv_class_created; [apply nft_inv_empty|].
    - apply lookup_insert_eq.
    - apply lookup_empty. }
  assert (forall n i, Tokens (base_minted root s) !! (0, n) = Some i -> n = BaseNode) as Hb.
  { intros n i. unfold base_minted, minted. simpl_state.
    destruct (decide (n = BaseNode)); [done|]. by rewrite lookup_insert_ne by congruence. }
  split; [split|..]; simpl_state; try done.
  - intros n i ->%Hb Hne. by destruct Hne.
  - intros p n. split; [set_solver|]. by intros (r & ? & _).
  - intros a n. split; [set_solver|]. by intros (r & ? & _).
  - intros n i ->%Hb Hne. by destruct Hne.
  - intros n. split; [by intros []|done].
  - exists root. split; [done|]. unfold owner_of, tokens, base_minted, minted. simpl_state.
    by rewrite lookup_insert_eq.
Qed.

Lemma genesis_chain_inv (root : AccountId) number hash time c :
  exists s, testnet_genesis root (empty_state number hash time c) = (s, Ok tt) /\ chain_inv s.
Proof.
  unfold testnet_genesis. pose proof (nft_genesis_run root number hash time c) as Hn.
  cbv zeta in Hn. unfold bind. rewrite Hn. unfold modify. cbv beta iota.
  match goal with |- context [registrar_build [] [] reserved_names ?s] =>
    destruct (registrar_build_reserved reserved_names s) as [r Hr]; rewrite Hr end.
  eexists. split; [done|]. eapply chain_inv_ext; [..|by apply (chain_inv_base_minted root number hash time c)];
    try done.
Qed.

(** No name is registered, offered or listed at genesis. *)
Lemma genesis_no_names (root : AccountId) number hash time c s :
  testnet_genesis root (empty_state number hash time c) = (s, Ok tt) ->
  SubnameRecords s = ∅ /\ RegistrarInfos s = ∅ /\ OwnerToPrimaryName s = ∅ /\ OfferedNames s = ∅ /\
  Listings s = ∅.
Proof.
  unfold testnet_genesis. pose proof (nft_genesis_run root number hash time c) as Hn.
  cbv zeta in Hn. unfold bind. rewrite Hn. unfold modify. cbv beta iota.
  match goal with |- context [registrar_build [] [] reserved_names ?s] =>
    destruct (registrar_build_reserved reserved_names s) as [r Hr]; rewrite Hr end.
  by intros [= <-].
Qed.

(** The genesis preset succeeds for every root account, and the storage it
    leaves satisfies the invariant of the chain. *)
Theorem genesis_establishes_chain_inv (root : AccountId) number hash time c :
  exists s, testnet_genesis root (empty_state number hash time c) = (s, Ok tt) /\ chain_inv s.
Proof. apply genesis_chain_inv. Qed.

Lemma reachable_inv root s : reachable root s -> chain_inv s.
Proof.
  intros Hr. induction Hr as [number hash time c s Hg|s s' _ IH Hstep].
  - destruct (genesis_chain_inv root number hash time c) as (s' & Hs' & Hinv). congruence.
  - destruct Hstep as [o c s Hused|f s]; [|by apply (chain_inv_ext s)].
    by apply dispatch_chain_inv.
Qed.

(** C11. Every state reachable from genesis satisfies the invariant: by induction on
    the blocks, calls keep it and the rest of the runtime does not touch it. *)
Theorem reachable_chain_inv (root : AccountId) (s : State) (Hr : reachable root s) : chain_inv s.
Proof. exact (reachable_inv root s Hr). Qed.

(** C23. In every reachable state a name's counter of children is the number of its
    subdomains, offered, rejected or active, and does not exceed the capacity. *)
Theorem reachable_subdomains_within_capacity (root : AccountId) (s : State) (n : DomainHash)
    (t : TokenInfo) (Hr : reachable root s) (Ht : Tokens s !! (0, n) = Some t)
    (Hn : n <> BaseNode) :
  children (ti_data t) = Z.of_nat (size (prefix n (SubNames s))) /\
  children (ti_data t) <= DefaultCapacity /\
  forall m, (n, m) ∈ SubNames s <->
    exists r, SubnameRecords s !! m = Some r /\ sr_parent r = n.
Proof.
  pose proof (reachable_inv _ _ Hr) as Hs. pose proof (ch_tree _ Hs) as HT.
  pose proof (tree_children _ _ HT _ _ Ht Hn) as Hc.
  assert (RuntimeOriginOf s !! n = Some Root) as Ho by (by apply (tree_token _ _ HT _ _ Ht)).
  apply (ch_info _ Hs) in Ho as [i Hi]. destruct (ch_capacity _ Hs _ _ Hi) as [_ Hcap].
  split_and!; [done|lia|]. intros m. apply (tree_subnames _ _ HT).
Qed.


End genesis.
