(* ===== verification/Presets.v ===== *)
(** * Genesis presets and the node's command line

    [runtime/src/genesis_config_presets.rs], [node/src/chain_spec.rs] and the parts of
    [node/src/cli.rs] and [node/src/command.rs] that decide something: the presets the
    runtime offers, the chain specifications that name them, and the options of the DNS
    server.  The keyring, the preset identifiers, the serialisation to JSON and the
    compiled runtime are library code or build products and are parameters. *)

From Stdlib Require Import ZArith Lia.
From Stdlib Require Import Strings.String.
From stdpp Require Import base tactics numbers gmap sets fin_sets fin_maps option list_basics list.
From S2P Require Import Prelude RustStr Types Storage Label Nft Traits PriceOracle Resolvers.
From S2P Require Import Registry Registrar Runtime RegistryInv RegistryTree ChainInv Genesis DnsGuards.

Local Open Scope Z_scope.
Local Open Scope run_scope.

(** [sp_keyring] and the key types of the consensus pallets. *)
Class Keyring `{E : Env} := {
  Sr25519Keyring : Type;
  Sr25519Keyring_eq_dec :: EqDecision Sr25519Keyring;
  Sr25519_iter : list Sr25519Keyring;
  sr_Alice : Sr25519Keyring;
  sr_Bob : Sr25519Keyring;
  sr_AliceStash : Sr25519Keyring;
  sr_BobStash : Sr25519Keyring;
  sr_One : Sr25519Keyring;
  sr_Two : Sr25519Keyring;
  to_account_id : Sr25519Keyring -> AccountId;
  Ed25519Keyring : Type;
  ed_Alice : Ed25519Keyring;
  ed_Bob : Ed25519Keyring;
  AuraId : Type;
  GrandpaId : Type;
  aura_public : Sr25519Keyring -> AuraId;
  grandpa_public : Ed25519Keyring -> GrandpaId
}.

(** Documented of [sp_keyring]: the iterator lists every key once, the accounts differ, and
    so do the four keys of the development chain. *)
Class KeyringLaws `{E : Env} (K : Keyring) : Prop := {
  iter_nodup : NoDup Sr25519_iter;
  iter_all : forall k, k ∈ Sr25519_iter;
  account_inj : forall k k', to_account_id k = to_account_id k' -> k = k';
  dev_keys : NoDup [sr_Alice; sr_Bob; sr_AliceStash; sr_BobStash; sr_One; sr_Two]
}.

(** [sp_genesis_builder]'s names of presets. *)
Class PresetIds := {
  DEV_RUNTIME_PRESET : bytes;
  LOCAL_TESTNET_RUNTIME_PRESET : bytes
}.

Section presets.
Context `{E : Env} `{C : Config} {K : Keyring} {I : PresetIds}.
Implicit Types s : State.

(** The fields of [RuntimeGenesisConfig] a preset sets. *)
Record RuntimeGenesisConfig := mkRuntimeGenesisConfig {
  gc_balances : list (AccountId * Z);
  gc_aura : list AuraId;
  gc_grandpa : list (GrandpaId * Z);
  gc_sudo : option AccountId;
  gc_nft_tokens : list (AccountId * bytes * list (AccountId * bytes * NodeRecord * DomainHash));
  gc_base_prices : list Z;
  gc_rent_prices : list Z;
  gc_init_rate : Z;
  gc_official : option AccountId;
  gc_origin : list (DomainHash * DomainTracing);
  gc_infos : list (DomainHash * RegistrarInfo);
  gc_reserved_list : list DomainHash;
  gc_reserved_names : list bytes
}.

(** [testnet_genesis] *)
Definition testnet_config (initial_authorities : list (AuraId * GrandpaId))
    (endowed_accounts : list AccountId) (root : AccountId) : RuntimeGenesisConfig :=
  mkRuntimeGenesisConfig
    (map (fun k => (k, Z.shiftl 1 60)) endowed_accounts)
    (map fst initial_authorities)
    (map (fun x => (x.2, 1)) initial_authorities)
    (Some root)
    [(root, [], [(root, [], NodeRecord_default, BaseNode)])]
    base_prices (replicate 11 0) 1
    (Some root) []
    [] [] reserved_names.

(** The builders of the pallets of names, in the order of the runtime's pallets. *)
Definition build_names (cfg : RuntimeGenesisConfig) : M unit :=
  do! Nft.genesis_build (gc_nft_tokens cfg) in
  do! modify (price_oracle_build (gc_base_prices cfg) (gc_rent_prices cfg) (gc_init_rate cfg)) in
  do! modify (registry_build (gc_origin cfg) (gc_official cfg)) in
  modify (registrar_build (gc_infos cfg) (gc_reserved_list cfg) (gc_reserved_names cfg)).

Definition development_config_genesis : RuntimeGenesisConfig :=
  testnet_config
    [(aura_public sr_Alice, grandpa_public ed_Alice)]
    (map to_account_id [sr_Alice; sr_Bob; sr_AliceStash; sr_BobStash])
    (to_account_id sr_Alice).

Definition local_config_genesis : RuntimeGenesisConfig :=
  testnet_config
    [(aura_public sr_Alice, grandpa_public ed_Alice); (aura_public sr_Bob, grandpa_public ed_Bob)]
    (map to_account_id (filter (fun v => v <> sr_One /\ v <> sr_Two) Sr25519_iter))
    (to_account_id sr_Alice).

Definition preset_config (id : bytes) : option RuntimeGenesisConfig :=
  if bool_decide (id = DEV_RUNTIME_PRESET) then Some development_config_genesis
  else if bool_decide (id = LOCAL_TESTNET_RUNTIME_PRESET) then Some local_config_genesis
  else None.

Definition preset_names : list bytes := [DEV_RUNTIME_PRESET; LOCAL_TESTNET_RUNTIME_PRESET].

(** [serde_json::to_string] of the patch, as bytes. *)
Context (to_json : RuntimeGenesisConfig -> bytes).

Definition get_preset (id : bytes) : option bytes := to_json <$> preset_config id.

(** ** The node *)

Inductive ChainType := Development | Local.

(** A [GenericChainSpec] of [chain_spec.rs], or one read from a file. *)
Record ChainSpec := mkChainSpec {
  cs_code : bytes;
  cs_name : bytes;
  cs_id : bytes;
  cs_chain_type : ChainType;
  cs_preset : bytes
}.

Context (WASM_BINARY : option bytes) (from_json_file : bytes -> result bytes ChainSpec).

Definition wasm_missing : bytes := b_str "Development wasm not available"%string.

Definition development_chain_spec : result bytes ChainSpec :=
  match WASM_BINARY with
  | None => Err wasm_missing
  | Some code =>
      Ok (mkChainSpec code (b_str "Development"%string) (b_str "dev"%string) Development
            DEV_RUNTIME_PRESET)
  end.

Definition local_chain_spec : result bytes ChainSpec :=
  match WASM_BINARY with
  | None => Err wasm_missing
  | Some code =>
      Ok (mkChainSpec code (b_str "Local Testnet"%string) (b_str "local_testnet"%string) Local
            LOCAL_TESTNET_RUNTIME_PRESET)
  end.

Definition load_spec (id : bytes) : result bytes ChainSpec :=
  if bool_decide (id = b_str "dev"%string) then development_chain_spec
  else if bool_decide (id = [] \/ id = b_str "local"%string) then local_chain_spec
  else from_json_file id.

(** The options of the DNS server among those of [Cli], with the defaults given to [clap]. *)
Record Cli := mkCli {
  no_dns : bool;
  dns_port : Z;
  dns_workers : Z;
  dns_min_response_ms : Z;
  dns_cores : option (list Z)
}.

Definition cli_default : Cli := mkCli false 53 2 5 None.

(** What [run] passes to the service, which starts the server unless it is told not to. *)
Definition cli_dns_config (cli : Cli) : DnsConfig :=
  mkDnsConfig (dns_port cli) (dns_workers cli) (dns_cores cli) (dns_min_response_ms cli).

Definition started_dns_server (cli : Cli) : option DnsConfig :=
  if no_dns cli then None else Some (cli_dns_config cli).

(** [EXISTENTIAL_DEPOSIT] of the runtime, [MILLI_UNIT]. *)
Definition EXISTENTIAL_DEPOSIT : Z := 1000000000.

(** ** Theorems *)

(** What the genesis builders of the consensus, balance and sudo pallets ask for, and what
    makes the chain usable: funded distinct accounts, one root, voters for every author. *)
Record sound_config (cfg : RuntimeGenesisConfig) : Prop := {
  sc_distinct : NoDup (map fst (gc_balances cfg));
  sc_alive : Forall (fun p => EXISTENTIAL_DEPOSIT <= p.2 < 2 ^ 128) (gc_balances cfg);
  sc_root : exists root, gc_sudo cfg = Some root /\ gc_official cfg = Some root /\
    root ∈ map fst (gc_balances cfg);
  sc_authorities : gc_aura cfg <> [] /\ length (gc_aura cfg) = length (gc_grandpa cfg)
}.

Lemma testnet_config_sound {KL : KeyringLaws K} authorities keys :
  NoDup keys -> sr_Alice ∈ keys -> authorities <> [] ->
  sound_config (testnet_config authorities (map to_account_id keys) (to_account_id sr_Alice)).
Proof.
  intros Hk Ha Hne. split; simpl.
  - rewrite map_map. simpl. rewrite map_id. apply (NoDup_fmap_2_strong to_account_id); [|done].
    intros x y _ _. apply account_inj.
  - apply Forall_forall. intros p (k & -> & _)%list_elem_of_fmap. simpl. by vm_compute.
  - eexists. split_and!; [done..|]. rewrite map_map. simpl. rewrite map_id.
    apply list_elem_of_fmap. by exists sr_Alice.
  - by rewrite !length_map; split; [destruct authorities|].
Qed.

Lemma build_testnet authorities endowed root :
  build_names (testnet_config authorities endowed root) = testnet_genesis root.
Proof. done. Qed.

Lemma preset_config_cases id cfg :
  preset_config id = Some cfg -> cfg = development_config_genesis \/ cfg = local_config_genesis.
Proof. unfold preset_config. repeat case_bool_decide; naive_solver. Qed.

Lemma preset_config_sound {KL : KeyringLaws K} id cfg : preset_config id = Some cfg -> sound_config cfg.
Proof.
  pose proof dev_keys as Hd. rewrite !NoDup_cons in Hd.
  intros [-> | ->]%preset_config_cases; apply testnet_config_sound; try done.
  - rewrite !NoDup_cons. set_solver.
  - set_solver.
  - apply NoDup_filter, iter_nodup.
  - apply list_elem_of_filter. split; [set_solver|apply iter_all].
Qed.

Context {HC : ConfigWidths C} {NL : NodeLevels BaseNode}.

(** C25. The presets are sound: the runtime has a preset exactly for the names it lists,
    among them those the node's own chain specifications ask for; each endows distinct
    accounts with at least the existential deposit, the root account included, has an
    author and as many voters as authors, and builds a chain with the storage
    invariant. *)
Theorem presets_sound {KL : KeyringLaws K} :
  (forall id, is_Some (get_preset id) <-> id ∈ preset_names) /\
  (forall id spec, id ∈ [b_str "dev"; []; b_str "local"]%string -> load_spec id = Ok spec ->
    is_Some (get_preset (cs_preset spec))) /\
  (forall id cfg, preset_config id = Some cfg -> sound_config cfg /\
    forall number hash time c, exists s,
      build_names cfg (empty_state number hash time c) = (s, Ok tt) /\ chain_inv s).
Proof.
  assert (forall id, is_Some (get_preset id) <-> id ∈ preset_names) as Hget.
  { intros id. unfold get_preset, preset_config, preset_names.
    repeat case_bool_decide; subst; simpl; rewrite ?is_Some_None; set_solver. }
  split_and!; [done|..].
  - intros id spec Hid Hl. apply Hget. unfold load_spec, development_chain_spec, local_chain_spec in Hl.
    unfold preset_names. repeat case_bool_decide; destruct WASM_BINARY; simplify_eq/=; set_solver.
  - intros id cfg Hcfg. split; [by eapply preset_config_sound|]. intros number hash time c.
    destruct (preset_config_cases _ _ Hcfg) as [-> | ->]; apply genesis_chain_inv.
Qed.

End presets.
