(* ===== verification/Node.v ===== *)
(** * The node: [node/src/service.rs], [node/src/rpc.rs] and [node/src/command.rs]

    How the node is put together.  The parts come from Substrate and are parameters
    ([SubstrateLib]): values of unknown types and functions that may fail.  What the
    sources decide is modelled: which parts are built, in which order and from what,
    which tasks are spawned under which conditions, and what an error leaves running.
    The state of the run is the log of the tasks spawned so far. *)

From Stdlib Require Import ZArith Lia.
From Stdlib Require Import Strings.String.
From stdpp Require Import base tactics numbers gmap sets fin_sets fin_maps option list_basics list.
From S2P Require Import Prelude RustStr Types DnsGuards Presets.

Local Open Scope Z_scope.
Local Open Scope run_scope.

(** ** Substrate *)

(** Types and constructors of the client, the pool and the consensus.  Each function is
    named after the one it stands for; those that return [result] can fail.  A set of RPC
    methods is given by their names. *)
Class SubstrateLib := {
  ServiceError : Type;
  Endpoint : Type;
  ConfigRest : Type;
  TelemetryWorker : Type;
  Telemetry : Type;
  FullClient : Type;
  Backend : Type;
  Keystore : Type;
  Pool : Type;
  BlockImport : Type;
  GrandpaLink : Type;
  ImportQueue : Type;
  Network : Type;
  SyncService : Type;
  Inherents : Type;
  SlotDuration : Type;
  Hash : Type;
  TelemetryWorker_new : Z -> result ServiceError TelemetryWorker;
  new_telemetry : TelemetryWorker -> list Endpoint -> Telemetry;
  new_full_parts : ConfigRest -> option Telemetry -> result ServiceError (FullClient * Backend * Keystore);
  new_pool : FullClient -> bool -> ConfigRest -> Pool;
  grandpa_block_import : FullClient -> Z -> Backend -> option Telemetry ->
    result ServiceError (BlockImport * GrandpaLink);
  slot_duration_at : FullClient -> Hash -> result ServiceError SlotDuration;
  slot_duration : FullClient -> result ServiceError SlotDuration;
  from_timestamp_and_slot_duration : Z -> SlotDuration -> Inherents;
  aura_import_queue : BlockImport -> FullClient ->
    (Hash -> Z -> result ServiceError (Inherents * Z)) -> option Telemetry -> result ServiceError ImportQueue;
  block_hash : FullClient -> Z -> option Hash;
  build_network : ConfigRest -> Hash -> FullClient -> Pool -> ImportQueue -> Backend -> GrandpaLink ->
    result ServiceError (Network * SyncService);
  offchain_workers : FullClient -> bool -> Keystore -> Backend -> Pool -> Network ->
    result ServiceError unit;
  start_aura : SlotDuration -> FullClient -> Backend -> BlockImport -> Pool ->
    (Z -> result ServiceError (Inherents * Z)) -> bool -> Keystore -> SyncService ->
    option Telemetry -> result ServiceError unit;
  run_grandpa_voter : option Keystore -> bytes -> bool -> Hash -> GrandpaLink -> Network -> SyncService ->
    Pool -> option Telemetry -> result ServiceError unit;
  RpcModule : Type;
  RpcModule_new : RpcModule;
  rpc_merge : RpcModule -> list bytes -> result ServiceError RpcModule;
  system_rpc : FullClient -> Pool -> list bytes;
  transaction_payment_rpc : FullClient -> list bytes;
  spawn_tasks : Network -> FullClient -> Keystore -> Pool -> Backend -> SyncService -> ConfigRest ->
    option Telemetry -> result ServiceError RpcModule -> result ServiceError unit
}.

Section node.
Context `{SL : SubstrateLib}.

(** The fields of [Configuration] the sources read; the others only pass through. *)
Record Configuration := mkConfiguration {
  telemetry_endpoints : option (list Endpoint);
  is_authority : bool;
  offchain_worker_enabled : bool;
  force_authoring : bool;
  disable_grandpa : bool;
  node_name : bytes;
  config_rest : ConfigRest
}.

(** A task of the task manager; the node goes down with an essential one. *)
Inductive SpawnHandle := Normal | Essential.

Inductive NodeEvent :=
| Spawned (handle : SpawnHandle) (blocking : bool) (name : bytes) (group : option bytes)
| TasksSpawned (rpc : result ServiceError RpcModule)
| DnsStarted (client : FullClient) (config : DnsConfig).

(** An error returned, or the panic of an [expect]. *)
Inductive NodeFailure := Failed (e : ServiceError) | NodePanicked.

Abbreviation M := (run (list NodeEvent) NodeFailure).

Definition call {A} (r : result ServiceError A) : M A :=
  fun log => (log, match r with Ok a => Ok a | Err e => Err (Failed e) end).

Definition emit (e : NodeEvent) : M unit := modify (fun log => log ++ [e]).

Definition spawn (handle : SpawnHandle) (blocking : bool) (name : bytes) (group : option bytes) : M unit :=
  emit (Spawned handle blocking name group).

(** ** [service.rs] *)

Definition GRANDPA_JUSTIFICATION_PERIOD : Z := 512.

Record PartialComponents := mkPartialComponents {
  pc_client : FullClient;
  pc_backend : Backend;
  pc_keystore : Keystore;
  pc_import_queue : ImportQueue;
  pc_pool : Pool;
  pc_block_import : BlockImport;
  pc_grandpa_link : GrandpaLink;
  pc_telemetry : option Telemetry
}.

(** The inherents of a block to import: the slot length is the one at its parent. *)
Definition import_inherents (client : FullClient) (parent_hash : Hash) (system_time : Z) :
    result ServiceError (Inherents * Z) :=
  match slot_duration_at client parent_hash with
  | Ok d => Ok (from_timestamp_and_slot_duration system_time d, system_time)
  | Err e => Err e
  end.

(** The inherents of a block to author: the slot length is the one read at the start. *)
Definition authoring_inherents (d : SlotDuration) (system_time : Z) : result ServiceError (Inherents * Z) :=
  Ok (from_timestamp_and_slot_duration system_time d, system_time).

(** [telemetry_endpoints.filter(|x| !x.is_empty()).map(..).transpose()?] *)
Definition telemetry_of (config : Configuration) : M (option Telemetry) :=
  match telemetry_endpoints config with
  | Some (e :: es) =>
      let! worker := call (TelemetryWorker_new 16) in
      ret (Some (new_telemetry worker (e :: es)))
  | _ => ret None
  end.

Definition new_partial (config : Configuration) : M PartialComponents :=
  let! telemetry := telemetry_of config in
  let! (client, backend, keystore) := call (new_full_parts (config_rest config) telemetry) in
  do! match telemetry with
      | Some _ => spawn Normal false (b_str "telemetry"%string) None
      | None => ret tt
      end in
  let pool := new_pool client (is_authority config) (config_rest config) in
  let! (block_import, grandpa_link) :=
    call (grandpa_block_import client GRANDPA_JUSTIFICATION_PERIOD backend telemetry) in
  let! import_queue :=
    call (aura_import_queue block_import client (import_inherents client) telemetry) in
  ret (mkPartialComponents client backend keystore import_queue pool block_import grandpa_link telemetry).

(** ** [rpc.rs] *)

(** The methods of the trait [PnsStorageApi] of [pns_rpc.rs]. *)
Definition pns_rpc_methods : list bytes :=
  map b_str ["pns_getInfo"%string; "pns_resolveName"%string; "pns_lookup"%string;
             "pns_getListing"%string; "pns_lookupByName"%string; "pns_all"%string;
             "pns_accountDashboard"%string].

(** [create_full]; its error is boxed and converted by the caller. *)
Definition create_full (client : FullClient) (pool : Pool) : result ServiceError RpcModule :=
  match rpc_merge RpcModule_new (system_rpc client pool) with
  | Err e => Err e
  | Ok module =>
      match rpc_merge module (transaction_payment_rpc client) with
      | Err e => Err e
      | Ok module => rpc_merge module pns_rpc_methods
      end
  end.

(** ** The full node *)

(** The closure that builds the RPC module for the tasks. *)
Definition rpc_extensions_builder (pc : PartialComponents) : result ServiceError RpcModule :=
  create_full (pc_client pc) (pc_pool pc).

Definition start_offchain_workers (config : Configuration) (pc : PartialComponents) (network : Network) :
    M unit :=
  if offchain_worker_enabled config then
    do! call (offchain_workers (pc_client pc) (is_authority config) (pc_keystore pc) (pc_backend pc)
                (pc_pool pc) network) in
    spawn Normal false (b_str "offchain-workers-runner"%string) (Some (b_str "offchain-worker"%string))
  else ret tt.

Definition start_authoring (config : Configuration) (pc : PartialComponents) (sync : SyncService) : M unit :=
  if is_authority config then
    let! d := call (slot_duration (pc_client pc)) in
    do! call (start_aura d (pc_client pc) (pc_backend pc) (pc_block_import pc) (pc_pool pc)
                (authoring_inherents d) (force_authoring config) (pc_keystore pc) sync
                (pc_telemetry pc)) in
    spawn Essential true (b_str "aura"%string) (Some (b_str "block-authoring"%string))
  else ret tt.

(** Only an authority gives the voter its keystore. *)
Definition start_finality (config : Configuration) (pc : PartialComponents) (genesis : Hash)
    (network : Network) (sync : SyncService) : M unit :=
  if negb (disable_grandpa config) then
    let keystore := if is_authority config then Some (pc_keystore pc) else None in
    do! call (run_grandpa_voter keystore (node_name config) (is_authority config) genesis
                (pc_grandpa_link pc) network sync (pc_pool pc) (pc_telemetry pc)) in
    spawn Essential true (b_str "grandpa-voter"%string) None
  else ret tt.

Definition new_full (config : Configuration) (no_dns : bool) (dns_config : DnsConfig) : M unit :=
  let! pc := new_partial config in
  let! genesis := ok_or (block_hash (pc_client pc) 0) NodePanicked in
  let! (network, sync) := call (build_network (config_rest config) genesis (pc_client pc) (pc_pool pc)
                                  (pc_import_queue pc) (pc_backend pc) (pc_grandpa_link pc)) in
  do! start_offchain_workers config pc network in
  do! call (spawn_tasks network (pc_client pc) (pc_keystore pc) (pc_pool pc) (pc_backend pc) sync
              (config_rest config) (pc_telemetry pc) (rpc_extensions_builder pc)) in
  do! emit (TasksSpawned (rpc_extensions_builder pc)) in
  do! start_authoring config pc sync in
  do! start_finality config pc genesis network sync in
  if no_dns then ret tt else emit (DnsStarted (pc_client pc) dns_config).

(** ** Theorems *)

(** The tasks a node with this configuration runs, up to the DNS server. *)
Definition telemetry_tasks (config : Configuration) : list NodeEvent :=
  match telemetry_endpoints config with
  | Some (_ :: _) => [Spawned Normal false (b_str "telemetry"%string) None]
  | _ => []
  end.

Definition offchain_tasks (config : Configuration) : list NodeEvent :=
  if offchain_worker_enabled config
  then [Spawned Normal false (b_str "offchain-workers-runner"%string)
          (Some (b_str "offchain-worker"%string))] else [].

Definition authoring_tasks (config : Configuration) : list NodeEvent :=
  if is_authority config
  then [Spawned Essential true (b_str "aura"%string) (Some (b_str "block-authoring"%string))] else [].

Definition finality_tasks (config : Configuration) : list NodeEvent :=
  if negb (disable_grandpa config)
  then [Spawned Essential true (b_str "grandpa-voter"%string) None] else [].

Definition node_tasks (config : Configuration) (pc : PartialComponents) : list NodeEvent :=
  telemetry_tasks config ++ offchain_tasks config ++ [TasksSpawned (rpc_extensions_builder pc)] ++
  authoring_tasks config ++ finality_tasks config.

Lemma call_Ok {A} (r : result ServiceError A) log log' a :
  call r log = (log', Ok a) -> r = Ok a /\ log' = log.
Proof. unfold call. destruct r; by intros [= <- <-]. Qed.

Lemma emit_run e log : emit e log = (log ++ [e], Ok tt).
Proof. done. Qed.

(** No DNS server in a log. *)
Definition no_dns_in (log : list NodeEvent) : Prop :=
  Forall (fun e => match e with DnsStarted _ _ => False | _ => True end) log.

(** A part of the start-up that adds tasks to the log, and no DNS server. *)
Definition quiet {A} (m : M A) : Prop := forall log, no_dns_in log -> no_dns_in (m log).1.

Lemma quiet_bind {A B} (m : M A) (k : A -> M B) :
  quiet m -> (forall a, quiet (k a)) -> quiet (bind m k).
Proof.
  intros Hm Hk log Hl. unfold bind. specialize (Hm log Hl).
  destruct (m log) as [log1 [a|e]]; [by apply Hk|done].
Qed.

Lemma quiet_call {A} (r : result ServiceError A) : quiet (call r).
Proof. by intros log. Qed.

Lemma quiet_emit e : match e with DnsStarted _ _ => False | _ => True end -> quiet (emit e).
Proof. intros He log Hl. apply Forall_app. by split; [|repeat constructor]. Qed.

Ltac solve_quiet :=
  repeat first
    [ apply quiet_bind; [|intros] | apply quiet_call | (by apply quiet_emit) | by intros log
    | match goal with |- quiet (match ?x with _ => _ end) => destruct x end
    | match goal with |- quiet (let _ := _ in _) => cbv zeta end ].

Lemma new_partial_quiet config : quiet (new_partial config).
Proof. unfold new_partial, telemetry_of, spawn. solve_quiet. Qed.

(** What a failing start leaves in the log. *)
Definition quiet_failure {A} (m : M A) : Prop :=
  forall log log' e, no_dns_in log -> m log = (log', Err e) -> no_dns_in log'.

Lemma quiet_then {A B} (m : M A) (k : A -> M B) :
  quiet m -> (forall a, quiet_failure (k a)) -> quiet_failure (bind m k).
Proof.
  intros Hm Hk log log' e Hl. unfold bind. specialize (Hm log Hl).
  destruct (m log) as [log1 [a|e1]]; [by apply Hk|]. by intros [= <- _].
Qed.

Lemma new_full_failed config no_dns dns_config : quiet_failure (new_full config no_dns dns_config).
Proof.
  unfold new_full, start_offchain_workers, start_authoring, start_finality, spawn.
  apply quiet_then; [apply new_partial_quiet|intros pc].
  apply quiet_then; [by intros log; destruct (block_hash _ _)|intros genesis].
  apply quiet_then; [apply quiet_call|intros [network sync]].
  do 5 (apply quiet_then; [solve_quiet|intros _]).
  intros log log' e _. by destruct no_dns.
Qed.

(** A successful part of the start-up logs exactly [es]. *)
Definition logs {A} (m : M A) (es : list NodeEvent) : Prop :=
  forall log log' a, m log = (log', Ok a) -> log' = log ++ es.

Lemma logs_bind {A B} (m : M A) (k : A -> M B) es es' :
  logs m es -> (forall a, logs (k a) es') -> logs (bind m k) (es ++ es').
Proof.
  intros Hm Hk log log' b (a & log1 & H1 & H2)%bind_Ok.
  apply Hm in H1 as ->. apply Hk in H2 as ->. by rewrite app_assoc.
Qed.

Lemma logs_then {A B} (m : M A) (k : A -> M B) es : logs m [] -> (forall a, logs (k a) es) -> logs (bind m k) es.
Proof. intros Hm Hk. by apply (logs_bind m k [] es). Qed.

Lemma logs_call {A} (r : result ServiceError A) : logs (call r) [].
Proof. intros log log' a [_ ->]%call_Ok. by rewrite app_nil_r. Qed.

Lemma logs_ok_or {A} (o : option A) e : logs (ok_or o e) [].
Proof. intros log log' a. destruct o; intros [= <- _]. by rewrite app_nil_r. Qed.

Lemma logs_ret {A} (a : A) : logs (ret a) [].
Proof. intros log log' b [= <- _]. by rewrite app_nil_r. Qed.

Lemma logs_emit e : logs (emit e) [e].
Proof. by intros log log' [] [= <-]. Qed.

Ltac solve_logs :=
  repeat first
    [ apply logs_call | apply logs_ok_or | apply logs_ret | apply logs_emit
    | apply logs_then; [first [apply logs_call | apply logs_ok_or]|intros]
    | match goal with |- logs (let _ := _ in _) _ => cbv zeta end ].

Lemma offchain_logs config pc network :
  logs (start_offchain_workers config pc network) (offchain_tasks config).
Proof.
  unfold start_offchain_workers, offchain_tasks, spawn.
  destruct (offchain_worker_enabled config); solve_logs.
Qed.

Lemma authoring_logs config pc sync : logs (start_authoring config pc sync) (authoring_tasks config).
Proof. unfold start_authoring, authoring_tasks, spawn. destruct (is_authority config); solve_logs. Qed.

Lemma finality_logs config pc genesis network sync :
  logs (start_finality config pc genesis network sync) (finality_tasks config).
Proof. unfold start_finality, finality_tasks, spawn. destruct (disable_grandpa config); solve_logs. Qed.

(** Takes apart a successful start-up, whose calls leave the log alone. *)
Ltac inv_calls :=
  repeat first
    [ progress inv_ok
    | match goal with
      | H : call _ _ = (_, Ok _) |- _ => apply call_Ok in H as [? ->]
      | p : _ * _ |- _ => destruct p
      end ].

(** The client of the partial components is the one Substrate built. *)
Lemma new_partial_Ok config log log' pc :
  new_partial config log = (log', Ok pc) ->
  log' = log ++ telemetry_tasks config /\
  new_full_parts (config_rest config) (pc_telemetry pc) = Ok (pc_client pc, pc_backend pc, pc_keystore pc).
Proof.
  unfold new_partial, telemetry_of, telemetry_tasks, spawn, emit. intros Hr.
  destruct (telemetry_endpoints config) as [[|e es]|]; inv_calls; rewrite ?app_nil_r; auto.
Qed.

Lemma new_full_log (config : Configuration) (no_dns : bool) (dns_config : DnsConfig)
    (log : list NodeEvent) (r : result NodeFailure unit)
    (Hr : new_full config no_dns dns_config [] = (log, r)) :
  match r with
  | Ok _ => exists pc,
      new_full_parts (config_rest config) (pc_telemetry pc) =
        Ok (pc_client pc, pc_backend pc, pc_keystore pc) /\
      log = node_tasks config pc ++ (if no_dns then [] else [DnsStarted (pc_client pc) dns_config])
  | Err _ => no_dns_in log
  end.
Proof.
  destruct r as [[]|e].
  - unfold new_full in Hr. apply bind_Ok in Hr as (pc & log1 & H1 & Hr).
    apply new_partial_Ok in H1 as [-> Hparts]. exists pc. split; [exact Hparts|].
    match type of Hr with ?m _ = _ => assert (logs m (
      offchain_tasks config ++ [TasksSpawned (rpc_extensions_builder pc)] ++ authoring_tasks config ++
      finality_tasks config ++ (if no_dns then [] else [DnsStarted (pc_client pc) dns_config]))) as Hl end.
    { apply logs_then; [apply logs_ok_or|intros genesis].
      apply logs_then; [apply logs_call|intros [network sync]].
      apply logs_bind; [apply offchain_logs|intros _].
      apply logs_then; [apply logs_call|intros _]. apply logs_bind; [apply logs_emit|intros _].
      apply logs_bind; [apply authoring_logs|intros _]. apply logs_bind; [apply finality_logs|intros _].
      destruct no_dns; [apply logs_ret|apply logs_emit]. }
    apply Hl in Hr as ->. unfold node_tasks. by rewrite <- !app_assoc.
  - eapply new_full_failed, Hr. constructor.
Qed.

Lemma node_tasks_quiet config pc : no_dns_in (node_tasks config pc).
Proof.
  unfold no_dns_in, node_tasks, telemetry_tasks, offchain_tasks, authoring_tasks, finality_tasks.
  rewrite !Forall_app. split_and!; repeat case_match; repeat constructor.
Qed.

(** The node runs what its configuration asks for: when it starts, the tasks spawned
    are those of the telemetry, the offchain workers, the services, block authoring and
    finality that are enabled, in this order, and the DNS server comes last, over the
    client of the node and with the given options, unless it is disabled; and a start
    that fails, at whatever step, has not started the DNS server. *)
Theorem new_full_starts (config : Configuration) (no_dns : bool) (dns_config : DnsConfig)
    (log : list NodeEvent) (r : result NodeFailure unit)
    (Hr : new_full config no_dns dns_config [] = (log, r)) :
  match r with
  | Ok _ => exists pc,
      new_full_parts (config_rest config) (pc_telemetry pc) =
        Ok (pc_client pc, pc_backend pc, pc_keystore pc) /\
      log = node_tasks config pc ++ (if no_dns then [] else [DnsStarted (pc_client pc) dns_config])
  | Err _ => no_dns_in log
  end.
Proof. exact (new_full_log _ _ _ _ _ Hr). Qed.

End node.

(** ** [command.rs] *)

(** [Subcommand] of [cli.rs] and [BenchmarkCmd]; the options of the commands are library
    data. *)
Inductive BenchmarkCmd := BenchPallet | BenchBlock | BenchStorage | BenchOverhead | BenchExtrinsic | BenchMachine.

Inductive Subcommand :=
| Key | BuildSpec | CheckBlock | ExportChainSpec (chain : bytes) | ExportBlocks | ExportState
| ImportBlocks | PurgeChain | Revert | Benchmark (cmd : BenchmarkCmd) | ChainInfo.

(** The runner and the commands of [sc_cli] and [frame_benchmarking_cli]: [create_runner]
    gives the configuration, [cmd_run] is a command on the parts it is given, and
    [provide_inherent_data] is the timestamp's at the time given. *)
Class CommandLib `{SL : SubstrateLib} := {
  CliError : Type;
  Options : Type;
  create_runner : option Subcommand -> Options -> result CliError Configuration;
  cmd_run : Subcommand -> Options -> option PartialComponents -> option ChainSpec -> result CliError unit;
  provide_inherent_data : Z -> result bytes unit;
  run_node_until_exit : Configuration -> result CliError unit
}.

Section command.
Context `{SL : SubstrateLib} {CB : CommandLib} {I : PresetIds}.
Context (WASM_BINARY : option bytes) (from_json_file : bytes -> result bytes ChainSpec).

(** [sc_cli::Error]: of a command, of the service, or a message. *)
Inductive CliFailure := OfCommand (e : CliError) | OfService (e : NodeFailure) | Message (text : bytes).

Abbreviation CliM := (run (list NodeEvent) CliFailure).

Definition of_command {A} (r : result CliError A) : CliM A :=
  fun log => (log, match r with Ok a => Ok a | Err e => Err (OfCommand e) end).

Definition of_text {A} (r : result bytes A) : CliM A :=
  fun log => (log, match r with Ok a => Ok a | Err e => Err (Message e) end).

Definition of_service {A} (m : run (list NodeEvent) NodeFailure A) : CliM A :=
  fun log => let (log', r) := m log in
  (log', match r with Ok a => Ok a | Err e => Err (OfService e) end).

(** [inherent_benchmark_data] of [benchmarking.rs]. *)
Definition inherent_benchmark_data : CliM unit :=
  of_text match provide_inherent_data 0 with
          | Ok d => Ok d
          | Err e => Err (b_str "creating inherent data: "%string ++ e)
          end.

(** [features] says whether the node is built with [runtime-benchmarks]. *)
Definition run_benchmark (features : bool) (opts : Options) (cmd : BenchmarkCmd) (config : Configuration) :
    CliM unit :=
  let bare := of_command (cmd_run (Benchmark cmd) opts None None) in
  let on_parts (prepare : CliM unit) :=
    let! pc := of_service (new_partial config) in
    do! prepare in
    of_command (cmd_run (Benchmark cmd) opts (Some pc) None) in
  match cmd with
  | BenchPallet =>
      if features then bare else
      throw (Message (b_str "Runtime benchmarking wasn't enabled when building the node. You can enable it with `--features runtime-benchmarks`."%string))
  | BenchBlock => on_parts (ret tt)
  | BenchStorage =>
      if features then on_parts (ret tt) else
      throw (Message (b_str "Storage benchmarking can be enabled with `--features runtime-benchmarks`."%string))
  | BenchOverhead | BenchExtrinsic => on_parts inherent_benchmark_data
  | BenchMachine => bare
  end.

(** [run], for a command line parsed into the subcommand, the options of the library and
    those of the DNS server. *)
Definition run_cli (features : bool) (sub : option Subcommand) (opts : Options) (cli : Cli) : CliM unit :=
  match sub with
  | Some Key => of_command (cmd_run Key opts None None)
  | Some (ExportChainSpec chain) =>
      let! spec := of_text (load_spec WASM_BINARY from_json_file chain) in
      of_command (cmd_run (ExportChainSpec chain) opts None (Some spec))
  | Some (Benchmark cmd) =>
      let! config := of_command (create_runner sub opts) in
      run_benchmark features opts cmd config
  | Some ((BuildSpec | PurgeChain | ChainInfo) as c) =>
      do! of_command (create_runner sub opts) in
      of_command (cmd_run c opts None None)
  | Some ((CheckBlock | ExportBlocks | ExportState | ImportBlocks | Revert) as c) =>
      let! config := of_command (create_runner sub opts) in
      let! pc := of_service (new_partial config) in
      of_command (cmd_run c opts (Some pc) None)
  | None =>
      let dns_config := cli_dns_config cli in
      let no_dns := no_dns cli in
      let! config := of_command (create_runner None opts) in
      do! of_service (new_full config no_dns dns_config) in
      of_command (run_node_until_exit config)
  end.

(** ** Theorems *)

(** A command that starts no DNS server. *)
Definition quiet_cli {A} (m : CliM A) : Prop := forall log, no_dns_in log -> no_dns_in (m log).1.

Lemma quiet_cli_bind {A B} (m : CliM A) (k : A -> CliM B) :
  quiet_cli m -> (forall a, quiet_cli (k a)) -> quiet_cli (bind m k).
Proof.
  intros Hm Hk log Hl. unfold bind. specialize (Hm log Hl).
  destruct (m log) as [log1 [a|e]]; [by apply Hk|done].
Qed.

Lemma quiet_cli_service config : quiet_cli (of_service (new_partial config)).
Proof.
  intros log Hl. unfold of_service. pose proof (new_partial_quiet config log Hl) as H.
  by destruct (new_partial config log).
Qed.

Ltac solve_quiet_cli :=
  repeat first
    [ apply quiet_cli_service | apply quiet_cli_bind; [|intros] | (by intros log)
    | match goal with |- quiet_cli (match ?x with _ => _ end) => destruct x end
    | match goal with |- quiet_cli (let _ := _ in _) => cbv zeta end ].

Lemma subcommand_quiet features c opts cli : quiet_cli (run_cli features (Some c) opts cli).
Proof.
  destruct c; unfold run_cli, run_benchmark, inherent_benchmark_data; solve_quiet_cli.
Qed.

(** C26. The command line decides about the DNS server: a command starts it only when
    there is no subcommand and no [--no-dns], and then the service has started without
    an error, the DNS server once, after everything else of the node, and with the port,
    workers, cores and response time given on the command line. *)
Theorem run_cli_starts_dns (features : bool) (sub : option Subcommand) (opts : Options) (cli : Cli)
    (log : list NodeEvent) (r : result CliFailure unit)
    (Hr : run_cli features sub opts cli [] = (log, r)) (Hdns : ~ no_dns_in log) :
  sub = None /\ no_dns cli = false /\
  exists config pc, create_runner None opts = Ok config /\
    new_full config false (cli_dns_config cli) [] = (log, Ok tt) /\
    log = node_tasks config pc ++ [DnsStarted (pc_client pc) (cli_dns_config cli)].
Proof.
  destruct sub as [c|].
  { pose proof (subcommand_quiet features c opts cli [] (Forall_nil_2 _)) as H.
    by rewrite Hr in H. }
  split; [done|]. unfold run_cli in Hr. cbv zeta in Hr. unfold bind at 1, of_command at 1 in Hr.
  destruct (create_runner None opts) as [config|e] eqn:Hc; [|injection Hr as <- _; by destruct Hdns; constructor].
  unfold bind, of_service in Hr.
  destruct (new_full config (no_dns cli) (cli_dns_config cli) []) as [log1 r1] eqn:Hn.
  pose proof (new_full_log _ _ _ _ _ Hn) as Hl. destruct r1 as [[]|e]; [|injection Hr as <- _; done].
  destruct Hl as (pc & _ & ->). injection Hr as <- _.
  revert Hn. destruct (no_dns cli); intros Hn; [|by eauto 7].
  destruct Hdns. rewrite app_nil_r. apply node_tasks_quiet.
Qed.

End command.
