(* ===== verification/RuntimeConfig.v ===== *)
(** * Constants of the runtime: [runtime/src/lib.rs] and [runtime/src/configs/mod.rs]

    The block times, the units, the numbers of the pallets and of their calls, by which
    an encoded call is recognised, and the life time of the transactions the node signs
    for benchmarks ([node/src/benchmarking.rs]). *)

From Stdlib Require Import ZArith Lia.
From stdpp Require Import base tactics numbers option list_basics list.
From S2P Require Import Prelude RustStr Types Storage Label Nft Traits PriceOracle Resolvers.
From S2P Require Import Registry Registrar Marketplace Template Runtime Presets.

Local Open Scope Z_scope.

(** ** Times and units *)

Definition SLOT_DURATION : Z := MILLI_SECS_PER_BLOCK.

(** [type MinimumPeriod = ConstU64<{ SLOT_DURATION / 2 }>] of the timestamp pallet. *)
Definition MinimumPeriod : Z := SLOT_DURATION / 2.

(** [type SlotDuration = pallet_aura::MinimumPeriodTimesTwo], as [AuraApi::slot_duration]
    returns it. *)
Definition aura_slot_duration : Z := saturating_mul 64 MinimumPeriod 2.

Definition BLOCK_HASH_COUNT : Z := 2400.

Definition MILLI_UNIT : Z := 1000000000.

Definition MICRO_UNIT : Z := 1000000.

(** ** The numbers of the calls *)

Inductive PalletName :=
| System | Timestamp | Aura | Grandpa | Balances | TransactionPayment | Sudo | TemplatePallet
| PnsNft | PnsPriceOracle | PnsRegistry | PnsRegistrar | PnsResolvers | PnsMarketplace.

#[global] Instance PalletName_eq_dec : EqDecision PalletName.
Proof. solve_decision. Defined.

(** [#[runtime::pallet_index(..)]] *)
Definition pallet_index (p : PalletName) : Z :=
  match p with
  | System => 0 | Timestamp => 1 | Aura => 2 | Grandpa => 3 | Balances => 4
  | TransactionPayment => 5 | Sudo => 6 | TemplatePallet => 7 | PnsNft => 8
  | PnsPriceOracle => 9 | PnsRegistry => 10 | PnsRegistrar => 11 | PnsResolvers => 12
  | PnsMarketplace => 13
  end.

Section calls.
Context `{E : Env}.

(** The pallet of a call and its [#[pallet::call_index(..)]]. *)
Definition call_index (c : RuntimeCall) : PalletName * Z :=
  match c with
  | SetExchangeRate _ => (PnsPriceOracle, 0)
  | SetBasePrice _ => (PnsPriceOracle, 1)
  | SetRentPrice _ => (PnsPriceOracle, 2)
  | RegistryBurn _ => (PnsRegistry, 2)
  | SetOfficial _ => (PnsRegistry, 3)
  | AddReserved _ => (PnsRegistrar, 0)
  | RemoveReserved _ => (PnsRegistrar, 1)
  | Register _ _ _ => (PnsRegistrar, 2)
  | Renew => (PnsRegistrar, 3)
  | TransferName _ => (PnsRegistrar, 4)
  | OfferSubdomain _ _ => (PnsRegistrar, 5)
  | ReleaseName => (PnsRegistrar, 6)
  | AcceptSubdomain _ _ => (PnsRegistrar, 7)
  | RejectSubdomain _ _ => (PnsRegistrar, 8)
  | RevokeSubdomain _ => (PnsRegistrar, 9)
  | ReleaseSubdomain _ _ => (PnsRegistrar, 10)
  | AcceptOfferedName _ => (PnsRegistrar, 11)
  | SetRecordCall _ _ _ => (PnsResolvers, 1)
  | SetTextCall _ _ _ => (PnsResolvers, 3)
  | CreateListing _ _ => (PnsMarketplace, 0)
  | CancelListing => (PnsMarketplace, 1)
  | BuyName _ _ => (PnsMarketplace, 2)
  | DoSomething _ => (TemplatePallet, 0)
  | CauseError => (TemplatePallet, 1)
  end.

(** The two bytes an encoded call starts with. *)
Definition call_prefix (c : RuntimeCall) : Z * Z :=
  let (p, i) := call_index c in (pallet_index p, i).

(** Two calls of the same function. *)
Definition same_function (c c' : RuntimeCall) : Prop :=
  match c, c' with
  | SetExchangeRate _, SetExchangeRate _ | SetBasePrice _, SetBasePrice _
  | SetRentPrice _, SetRentPrice _ | RegistryBurn _, RegistryBurn _ | SetOfficial _, SetOfficial _
  | AddReserved _, AddReserved _ | RemoveReserved _, RemoveReserved _
  | Register _ _ _, Register _ _ _ | Renew, Renew | TransferName _, TransferName _
  | OfferSubdomain _ _, OfferSubdomain _ _ | ReleaseName, ReleaseName
  | AcceptSubdomain _ _, AcceptSubdomain _ _ | RejectSubdomain _ _, RejectSubdomain _ _
  | RevokeSubdomain _, RevokeSubdomain _ | ReleaseSubdomain _ _, ReleaseSubdomain _ _
  | AcceptOfferedName _, AcceptOfferedName _ | SetRecordCall _ _ _, SetRecordCall _ _ _
  | SetTextCall _ _ _, SetTextCall _ _ _ | CreateListing _ _, CreateListing _ _
  | CancelListing, CancelListing | BuyName _ _, BuyName _ _ | DoSomething _, DoSomething _
  | CauseError, CauseError => True
  | _, _ => False
  end.

End calls.

(** ** Transactions for benchmarks *)

(** [u32::checked_next_power_of_two]; [None] when it does not fit. *)
Definition checked_next_power_of_two (n : Z) : option Z :=
  let p := if n <=? 1 then 1 else 2 ^ Z.log2_up n in
  if p <? 2 ^ 32 then Some p else None.

(** The period of the mortal era of a transaction signed by the node. *)
Definition era_period (count : Z) : Z :=
  match checked_next_power_of_two count with Some c => c / 2 | None => 2 end.

(** ** Theorems *)

(** An encoded call is recognised by its first two bytes, which fit a byte each: no two
    functions of the runtime's pallets share them. *)
Theorem call_prefix_unambiguous `{E : Env} (c c' : RuntimeCall) :
  (call_prefix c = call_prefix c' <-> same_function c c') /\
  0 <= (call_prefix c).1 < 256 /\ 0 <= (call_prefix c).2 < 256.
Proof.
  split; [|destruct c; vm_compute; done].
  split; [|by destruct c, c']. destruct c, c'; first [done | discriminate].
Qed.

(** A slot of the consensus is the time of a block, and the transactions signed for
    benchmarks do not outlive the block hashes the chain remembers. *)
Theorem block_times_agree :
  aura_slot_duration = MILLI_SECS_PER_BLOCK /\ MINUTES * MILLI_SECS_PER_BLOCK = 60000 /\
  EXISTENTIAL_DEPOSIT = MILLI_UNIT /\ UNIT = 1000 * MILLI_UNIT /\ MILLI_UNIT = 1000 * MICRO_UNIT /\
  era_period BLOCK_HASH_COUNT = 2048 /\ era_period BLOCK_HASH_COUNT < BLOCK_HASH_COUNT.
Proof. by vm_compute. Qed.

(** For any count of remembered hashes the era is shorter. *)
Theorem era_shorter_than_memory (count : Z) (H : 2 < count < 2 ^ 31) : era_period count < count.
Proof.
  unfold era_period, checked_next_power_of_two. rewrite (proj2 (Z.leb_gt _ _)) by lia.
  pose proof (Z.log2_up_spec count ltac:(lia)) as [Hlo Hhi].
  assert (2 ^ Z.log2_up count = 2 * 2 ^ Z.pred (Z.log2_up count)) as Hp.
  { rewrite <- Z.pow_succ_r; [f_equal; lia|].
    pose proof (Z.log2_up_pos count ltac:(lia)). lia. }
  case_match; [|lia]. simplify_eq. case_match; [|done]. simplify_eq.
  rewrite Hp, Z.mul_comm, Z.div_mul by lia. lia.
Qed.
