(* ===== verification/Migration.v ===== *)
(** * Initialisation of a running chain: [pallets/pns-registrar/src/migration.rs]

    What a runtime upgrade does instead of genesis: the registry's official account and
    base node, the managers and the prices.  Each function returns the number of storage
    writes it charges. *)

From Stdlib Require Import ZArith Lia.
From stdpp Require Import base tactics numbers gmap sets fin_sets fin_maps option list_basics list.
From S2P Require Import Prelude RustStr Types Storage Label Nft Traits PriceOracle Origin Resolvers.
From S2P Require Import Registry Registrar Marketplace Runtime RegistryInv RegistryTree ChainInv Genesis.

Local Open Scope Z_scope.
Local Open Scope run_scope.

Section migration.
Context `{E : Env} `{C : Config}.
Implicit Types s : State.

(** A failing step is the panic of [expect]. *)
Definition initial_registry (official : AccountId) (root_domain : DomainHash) : M Z :=
  do! modify (upd_Official (fun _ => Some official)) in
  let! class_id := create_class official [] in
  do! Nft.mint official (class_id, root_domain) [] NodeRecord_default in
  ret 6.

Fixpoint initial_origin_loop (managers : list AccountId) (w : Z) : M Z :=
  match managers with
  | [] => ret w
  | manager :: managers' =>
      do! modify (upd_Origins (fun os => {[manager]} ∪ os)) in
      initial_origin_loop managers' (wrapping_add 64 w 1)
  end.

Definition initial_origin (managers : list AccountId) : M Z := initial_origin_loop managers 0.

Definition initial_price_oracle (base_prices rent_prices : list Z) (init_rate : Z) : M Z :=
  do! modify (upd_BasePrice (fun _ => base_prices)) in
  do! modify (upd_RentPrice (fun _ => rent_prices)) in
  do! modify (upd_ExchangeRate (fun _ => init_rate)) in
  ret 3.

(** All of it, as an upgrade would run it. *)
Definition initialise (root : AccountId) (managers : list AccountId) : M Z :=
  let! a := initial_registry root BaseNode in
  let! b := initial_origin managers in
  let! c := initial_price_oracle base_prices (replicate 11 0) 1 in
  ret (a + b + c).

(** ** Theorems *)

Context {CW : ConfigWidths C} {NL : NodeLevels BaseNode}.

Lemma initial_origin_run managers w s :
  exists w', initial_origin_loop managers w s =
    (upd_Origins (fun os => list_to_set managers ∪ os) s, Ok w').
Proof.
  revert w s. induction managers as [|m managers IH]; intros w s; simpl.
  - exists w. unfold ret. f_equal. destruct s as [? ? ? ? ? ? []]; simpl.
    unfold upd_Origins, with_origin; simpl. by rewrite (left_id_L ∅ (∪)).
  - unfold bind, modify. edestruct IH as [w' ->]. exists w'. f_equal.
    unfold upd_Origins, with_origin; simpl. do 2 f_equal. set_solver.
Qed.

(** C35. Initialising an empty chain by an upgrade succeeds and leaves what the genesis
    preset leaves, except for the reserved names, which only genesis sets, and the
    managers; in particular it satisfies the invariant of the chain. *)
Theorem migration_matches_genesis (root : AccountId) (managers : list AccountId) number hash time c :
  exists w s s', initialise root managers (empty_state number hash time c) = (s', Ok w) /\
    testnet_genesis root (empty_state number hash time c) = (s, Ok tt) /\
    s' = upd_ReservedList (fun _ => ∅) (upd_Origins (fun _ => list_to_set managers) s) /\
    chain_inv s'.
Proof.
  set (e := empty_state number hash time c). set (e1 := upd_Official (fun _ => Some root) e).
  assert (initial_registry root BaseNode e = (base_minted root e1, Ok 6)) as Hreg.
  { unfold initial_registry, bind, modify. fold e1.
    assert (create_class root [] e1 = (class_created root [] e1, Ok 0)) as ->.
    { apply create_class_Ok. split_and!; [exact class_metadata_u32|done..]. }
    assert (Nft.mint root (0, BaseNode) [] NodeRecord_default (class_created root [] e1) =
      (base_minted root e1, Ok tt)) as ->; [|done].
    apply mint_Ok. split; [exact token_metadata_u32|]. by exists (mkClassInfo [] 0 root). }
  destruct (initial_origin_run managers 0 (base_minted root e1)) as [w Horg].
  destruct (genesis_chain_inv root number hash time c) as (s & Hgen & Hinv).
  assert (exists r, s = upd_ReservedList (fun _ => r) (registry_build [] (Some root)
    (price_oracle_build base_prices (replicate 11 0) 1 (base_minted root e)))) as [r ->].
  { unfold testnet_genesis, bind in Hgen. rewrite nft_genesis_run in Hgen.
    unfold modify in Hgen. injection Hgen as <-. apply registrar_build_reserved. }
  eexists _, _, _. split_and!; [|exact Hgen| |].
  - unfold initialise, bind. rewrite Hreg. unfold initial_origin. rewrite Horg. reflexivity.
  - unfold upd_Origins, with_origin. simpl. by rewrite (right_id_L ∅ (∪) (list_to_set managers)).
  - eapply chain_inv_ext; [..|exact Hinv]; reflexivity.
Qed.

End migration.
