(* ===== verification/NameMoves.v ===== *)
(** * What the calls do to names

    The calls of the runtime split into those that move no top-level name
    ([same_names], [fixes_call]) and the six that do.  For those, the lemmas say in
    full what a successful call did: who held the name before, who holds it after,
    and what became of the canonical names, the gifts and the listings. *)

From Stdlib Require Import ZArith Lia.
From stdpp Require Import base tactics numbers gmap sets fin_sets fin_maps option list_basics list.
From S2P Require Import Prelude RustStr Types Storage Label Nft Traits PriceOracle Resolvers.
From S2P Require Import Registry Registrar Marketplace Template Runtime RegistryInv RegistryTree RegistryOps.
From S2P Require Import ChainInv Footprints RecordFootprints.

Local Open Scope Z_scope.
Local Open Scope run_scope.

Section frame.
Context `{E : Env} `{C : Config} {HK : RecordHooks} {HL : RecordHooksLaws HK}.
Context {O : ManagerOrigin} {IO : IsOpen} {NL : NodeLevels (basenode (RegistrarT := registrar_T))}.
Context {HC : ConfigWidths C}.
Implicit Types s : State.

(** The index of held names keeps its entries of top-level names. *)
Definition keeps_entries s s' : Prop :=
  forall a m, is_top m = true -> (a, m) ∈ AccountToSubnames s -> (a, m) ∈ AccountToSubnames s'.

#[local] Hint Extern 0 (keeps_entries _ _) => by intros ? ? : core.

(** Nothing about who owns which top-level name differs between [s] and [s'];
    new listings are of canonical names, and new terms are of one period and extend a
    term that has not lapsed. *)
Record same_names s s' : Prop := {
  sn_owner : forall n, is_top n = true -> owner_of s' n = owner_of s n;
  sn_primary : OwnerToPrimaryName s' = OwnerToPrimaryName s;
  sn_offers : OfferedNames s' = OfferedNames s;
  sn_listings : forall n l, Listings s' !! n = Some l ->
    Listings s !! n = Some l \/ exists a, OwnerToPrimaryName s !! a = Some n;
  sn_terms : forall n i, RegistrarInfos s' !! n = Some i ->
    ri_expire i = now s + MaxRegistrationDuration /\ still_valid s n = true \/
    RegistrarInfos s !! n = Some i;
  sn_now : now s' = now s;
  sn_account : keeps_entries s s'
}.

Lemma same_names_refl s : same_names s s.
Proof. split; auto. Qed.

Lemma same_names_trans s1 s2 s3 : same_names s1 s2 -> same_names s2 s3 -> same_names s1 s3.
Proof.
  intros [A1 A2 A3 A4 A5 A6 A7] [B1 B2 B3 B4 B5 B6 B7]. split; try congruence.
  - intros n Hn. rewrite B1 by done. by apply A1.
  - intros n l [Hl|(a & Ha)]%B4; [by apply A4|]. right. exists a. congruence.
  - intros n i [[Hi Hv]|Hi]%B5; [left; split; [congruence|]|by apply A5].
    unfold still_valid in Hv |- *. destruct (RegistrarInfos s2 !! n) as [j|] eqn:Hj; [|done].
    apply A5 in Hj as [[_ ?]|Hj]; [done|]. by rewrite Hj, <- A6.
  - intros a m Hm Ha. by apply B7, A7.
Qed.

(** A step that keeps the invariant and the owners of names. *)
Definition fixes {A} (m : M A) : Prop :=
  forall s s' a, chain_inv s -> m s = (s', Ok a) -> chain_inv s' /\ same_names s s'.

Lemma fixes_keeps {A} (m : M A) : fixes m -> keeps m.
Proof. intros Hm s s' a Hs Hr. by destruct (Hm _ _ _ Hs Hr). Qed.

Lemma fixes_bind {A B} (m : M A) (k : A -> M B) :
  fixes m -> (forall a, fixes (k a)) -> fixes (bind m k).
Proof.
  intros Hm Hk s s' b Hs (a & s1 & H1 & H2)%bind_Ok.
  destruct (Hm _ _ _ Hs H1) as [Hs1 S1]. destruct (Hk _ _ _ _ Hs1 H2) as [Hs2 S2].
  split; [done|]. by eapply same_names_trans.
Qed.

Lemma fixes_intro {A} (m : M A) :
  keeps m -> (forall s s' a, chain_inv s -> m s = (s', Ok a) -> same_names s s') -> fixes m.
Proof. intros Hk Hm s s' a Hs Hr. split; [by eapply Hk|by eapply Hm]. Qed.

Lemma fixes_pure {A} (m : M A) : pure m -> fixes m.
Proof.
  intros Hm. apply fixes_intro; [by apply keeps_pure|]. intros s s' a _ Hr.
  rewrite (pure_run _ _ _ _ Hm Hr). apply same_names_refl.
Qed.

(** The owners are read from the token storage and the registrar's maps only. *)
Lemma same_names_ext s s' :
  st_nft s' = st_nft s -> RegistrarInfos s' = RegistrarInfos s ->
  OwnerToPrimaryName s' = OwnerToPrimaryName s -> OfferedNames s' = OfferedNames s ->
  Listings s' = Listings s -> now s' = now s -> keeps_entries s s' -> same_names s s'.
Proof.
  intros H1 H2 H3 H4 H5 H6 H7. split; try done.
  - intros n _. unfold owner_of, tokens. by rewrite H1.
  - intros n l. rewrite H5. auto.
  - intros n i. rewrite H2. auto.
Qed.

Lemma fixes_modify (f : State -> State) :
  (forall s, st_nft (f s) = st_nft s /\ st_registry (f s) = st_registry s /\
             RegistrarInfos (f s) = RegistrarInfos s /\
             OwnerToPrimaryName (f s) = OwnerToPrimaryName s /\
             OfferedNames (f s) = OfferedNames s /\ Listings (f s) = Listings s /\
             now (f s) = now s) ->
  fixes (modify f).
Proof.
  intros Hf. apply fixes_intro.
  - apply keeps_modify. intros s. destruct (Hf s) as (? & ? & ? & _). done.
  - intros s s' a _ ->%modify_Ok. destruct (Hf s) as (? & Hg & ? & ? & ? & ? & ?).
    apply same_names_ext; try done. intros x m _. by rewrite Hg.
Qed.

Lemma fixes_same_but_resolvers {A} (m : M A) :
  (forall s, same_but_resolvers s (m s).1) -> fixes m.
Proof.
  intros Hm. apply fixes_intro; [by apply keeps_same_but_resolvers|].
  intros s s' a _ Hr. specialize (Hm s). rewrite Hr in Hm. simpl in Hm. rewrite Hm.
  by apply same_names_ext.
Qed.

Lemma fixes_burn_from who fee : fixes (burn_from who fee).
Proof.
  apply fixes_intro; [apply keeps_burn_from|].
  intros s s' u _ (c & i & _ & ->)%burn_from_Ok. by apply same_names_ext.
Qed.

Lemma fixes_transfer_balance x y v : fixes (transfer_balance x y v).
Proof.
  apply fixes_intro; [apply keeps_transfer_balance|].
  intros s s' u _ (c & _ & ->)%transfer_balance_Ok. by apply same_names_ext.
Qed.

Lemma fixes_ensure_origin o : fixes (ensure_origin o).
Proof.
  apply fixes_intro; [apply keeps_ensure_origin|].
  intros s s' a _ [_ ->]%ensure_origin_Ok. apply same_names_refl.
Qed.

Lemma fixes_ensure_signed o : fixes (ensure_signed o).
Proof.
  apply fixes_intro; [apply keeps_ensure_signed|].
  intros s s' a _ [_ ->]%ensure_signed_Ok. apply same_names_refl.
Qed.

Lemma fixes_lookup_source src : fixes (lookup_source src).
Proof.
  apply fixes_intro; [apply keeps_lookup_source|].
  intros s s' a _ [_ ->]%lookup_source_Ok. apply same_names_refl.
Qed.

Lemma fixes_map_err {A} f (m : M A) : fixes m -> fixes (map_err f m).
Proof. intros Hm s s' a Hs Hr%map_err_Ok. by eapply Hm. Qed.

(** ** The registry's functions on subnames *)

(** [s'] differs from [s] in the registry and in the data of one token. *)
Lemma same_names_data s s' :
  st_registrar s' = st_registrar s -> st_marketplace s' = st_marketplace s -> now s' = now s ->
  (forall n, is_top n = true -> owner_of s' n = owner_of s n) -> keeps_entries s s' -> same_names s s'.
Proof. intros H1 H2 H3 Ho Ha. split; rewrite ?H1, ?H2, ?H3; auto. Qed.

Lemma same_names_outside s s' :
  outside s' = outside s -> (forall n, is_top n = true -> owner_of s' n = owner_of s n) ->
  keeps_entries s s' -> same_names s s'.
Proof. unfold outside. intros [= H1 H2 _ _ _ _ H3] Ho Ha. apply same_names_data; by rewrite ?H3. Qed.

Lemma owner_with_children s k i d n :
  Tokens s !! k = Some i ->
  ti_owner <$> <[k := with_children i d]> (Tokens s) !! (0, n) = owner_of s n.
Proof.
  intros Hi. unfold owner_of, tokens. destruct (decide (k = (0, n))) as [->|].
  - by rewrite lookup_insert_eq, Hi.
  - by rewrite lookup_insert_ne.
Qed.

(** Subdomains are no top-level names, so dropping one keeps the entries of names. *)
Lemma keeps_entries_sub n r s s' :
  chain_inv s -> SubnameRecords s !! n = Some r ->
  (forall a m, m <> n -> (a, m) ∈ AccountToSubnames s -> (a, m) ∈ AccountToSubnames s') ->
  keeps_entries s s'.
Proof.
  intros Hs Hr HX a m Hm. apply HX. intros ->.
  destruct (tree_record _ _ (ch_tree _ Hs) _ _ Hr) as (_ & Hf & _). exact (eq_true_false_abs _ Hm Hf).
Qed.

Lemma dropped_entries n r s a m :
  m <> n -> (a, m) ∈ AccountToSubnames s -> (a, m) ∈ AccountToSubnames (dropped n r s).
Proof.
  intros Hm Ha. unfold dropped. destruct (sr_state r); [done| |done].
  match goal with |- context [Traits.clear_all_records n ?t] => rewrite (clear_all_records_frame n t) end.
  simpl_state. set_solver.
Qed.

Lemma fixes_revoke_subname p n : fixes (revoke_subname p n).
Proof.
  apply fixes_intro; [apply keeps_revoke_subname|]. intros s s' [] Hs Hr.
  destruct (revoke_subname_inv _ _ _ _ (ch_tree _ Hs) Hr) as (_ & Hout & _).
  apply revoke_subname_Ok in Hr as (r & Hn & <- & (i & Hi & _ & ->)%sub_children_Ok).
  destruct (dropped_frame n r s) as (F1 & _ & _).
  apply same_names_outside; [done| |].
  - intros m _. unfold owner_of at 1, tokens. simpl_state. rewrite F1 in *. by apply owner_with_children.
  - eapply keeps_entries_sub; [done|exact Hn|]. intros a m. apply dropped_entries.
Qed.

Lemma fixes_revoke_pending n a : fixes (revoke_pending_offer_for_target n a).
Proof.
  intros s s' [] Hs (r & _ & _ & _ & Hr)%revoke_pending_inv. by eapply fixes_revoke_subname.
Qed.

Lemma fixes_release_subname n a : fixes (release_subname n a).
Proof.
  apply fixes_intro; [apply keeps_release_subname|]. intros s s' p Hs Hr.
  destruct (release_subname_keeps _ _ _ _ _ (ch_tree _ Hs) Hr) as (_ & Hout & _).
  apply release_subname_inv in Hr as (r & i & Hrec & _ & _ & -> & Hi & _ & Hs').
  rewrite Hs' in *. clear Hs'.
  match goal with |- context [Traits.clear_all_records n ?t] =>
    rewrite (clear_all_records_frame n t) in * end.
  apply same_names_outside; [done| |].
  - intros m _. unfold owner_of at 1, tokens. simpl_state. by apply owner_with_children.
  - eapply keeps_entries_sub; [done|exact Hrec|]. simpl_state. set_solver.
Qed.

Lemma fixes_accept n a : fixes (accept_subname_offer n a).
Proof.
  apply fixes_intro; [apply keeps_accept|].
  intros s s' p Hs (_ & _ & r & _ & _ & _ & _ & ->)%accept_subname_offer_Ok.
  apply same_names_ext; try done. intros x m _. simpl_state. set_solver.
Qed.

Lemma fixes_reject n a : fixes (reject_subname_offer n a).
Proof.
  apply fixes_intro; [apply keeps_reject|].
  intros s s' [] Hs (r & _ & _ & _ & ->)%reject_subname_offer_Ok. by apply same_names_ext.
Qed.

End frame.

Create HintDb fixes.

(** Proves [fixes] of code from the [fixes] of its calls. *)
Ltac solve_fixes :=
  repeat first
    [ progress intros
    | match goal with
      | |- fixes (bind _ _) => apply fixes_bind
      | |- fixes (burn_from _ _) => apply fixes_burn_from
      | |- fixes (transfer_balance _ _ _) => apply fixes_transfer_balance
      | |- fixes (map_err _ _) => apply fixes_map_err
      | |- fixes (ensure_origin _) => apply fixes_ensure_origin
      | |- fixes (ensure_signed _) => apply fixes_ensure_signed
      | |- fixes (lookup_source _) => apply fixes_lookup_source
      | |- fixes (update_ss58 _ _) => apply fixes_same_but_resolvers; apply update_ss58_frame
      | |- fixes (revoke_subname _ _) => apply fixes_revoke_subname
      | |- fixes (release_subname _ _) => apply fixes_release_subname
      | |- fixes (accept_subname_offer _ _) => apply fixes_accept
      | |- fixes (reject_subname_offer _ _) => apply fixes_reject
      | |- fixes (modify _) => apply fixes_modify; done
      | |- fixes (match ?x with _ => _ end) => destruct x
      | |- fixes (let _ := _ in _) => cbv zeta
      end
    | solve [apply fixes_pure; solve_pure] ].

Section calls.
Context `{E : Env} `{C : Config} {HC : ConfigWidths C} {NL : NodeLevels BaseNode}.
Implicit Types s : State.

#[local] Hint Extern 0 (keeps_entries _ _) => by intros ? ? : core.

(** The calls that move no top-level name. *)
Definition moves_no_name (c : RuntimeCall) : bool :=
  match c with
  | RegistryBurn _ | Register _ _ _ | TransferName _ | ReleaseName | AcceptOfferedName _
  | BuyName _ _ => false
  | _ => true
  end.

(** ** The calls that move no name *)

Lemma fixes_renew o : fixes (renew o).
Proof.
  apply fixes_intro; [apply keeps_renew|]. intros s s' [] _ Hr. unfold renew in Hr. inv_call.
  match goal with Hb : burn_from _ _ _ = _ |- _ => apply burn_from_Ok in Hb as (c & j & _ & ->) end.
  subst. split; try done; [auto|]. intros n i. simpl_state.
  intros [[<- <-]|[_ ?]]%lookup_insert_Some; [left|by right]. split; [done|].
  unfold still_valid. match goal with Hi : RegistrarInfos _ !! _ = Some _ |- _ => rewrite Hi end.
  by apply Z.leb_le.
Qed.

Lemma fixes_offer_subdomain o label target :
  name_used label -> fixes (offer_subdomain o label target).
Proof.
  intros Hused. apply fixes_intro; [by apply keeps_offer_subdomain|].
  intros s s' [] Hs Hr. unfold offer_subdomain in Hr. inv_call.
  match goal with Hf : offer_subname _ _ _ _ _ _ = _ |- _ =>
    apply offer_subname_Ok in Hf as (_ & i & Hi & _ & _ & _ & ->) end.
  apply same_names_data; [done..| |done]. intros m _. unfold owner_of at 1, tokens, offered. simpl_state.
  by apply owner_with_children.
Qed.

Lemma fixes_set_official o official : fixes (set_official o official).
Proof.
  apply fixes_intro; [apply keeps_set_official|]. intros s s' [] Hs Hr.
  destruct (set_official_Ok _ _ _ _ Hs Hr) as (b & ci & Hb & _ & _ & ->).
  set (s1 := upd_Official (fun _ => Some official) s).
  assert (tree_inv s1 s1) as T1 by (destruct (ch_tree _ Hs); by split).
  destruct (moved_nft BaseNode b official s1 T1 Hb) as (_ & _ & M3 & M4 & M5).
  apply same_names_outside; [exact M5| |intros a m _; simpl_state; by rewrite M4]. intros n Hn. unfold owner_of, tokens. simpl_state.
  rewrite M3; [done|]. by apply top_not_BaseNode.
Qed.

Lemma fixes_create_listing o price ex : fixes (create_listing o price ex).
Proof.
  apply fixes_intro; [unfold create_listing, deposit_event; solve_keeps|].
  intros s s' [] _ Hr. unfold create_listing in Hr. inv_call. split; try done; [|auto].
  intros n l. simpl_state. intros [[<- _]|[_ ?]]%lookup_insert_Some; [right|by left].
  match goal with Hp : Traits.canonical_name _ ?a = Some _ |- _ => by exists a end.
Qed.

Lemma fixes_cancel_listing o : fixes (cancel_listing o).
Proof.
  apply fixes_intro; [unfold cancel_listing, deposit_event; solve_keeps|].
  intros s s' [] _ Hr. unfold cancel_listing in Hr. inv_call. split; try done; [|auto].
  intros n l. simpl_state. intros [_ ?]%lookup_delete_Some. by left.
Qed.

Lemma fixes_call o c :
  Forall name_used (new_names c) -> moves_no_name c = true -> fixes (call_body o c).
Proof.
  intros Hused Hc. destruct c; try discriminate Hc; simpl in *;
    unfold set_exchange_rate, set_base_price, set_rent_price, add_reserved, remove_reserved,
      subdomain_node, accept_subdomain, reject_subdomain, revoke_subdomain, release_subdomain,
      set_record, set_text, Resolvers.name_to_node, do_something, cause_error, deposit_event;
    try solve [solve_fixes].
  - apply fixes_set_official.
  - apply fixes_renew.
  - by apply fixes_offer_subdomain, (Forall_inv Hused).
  - apply fixes_create_listing.
  - apply fixes_cancel_listing.
Qed.

(** ** What moves a name *)

(** [n], held by [from], is burned. *)
Record name_gone (from : AccountId) (n : DomainHash) s s' : Prop := {
  ng_inv : chain_inv s';
  ng_top : is_top n = true;
  ng_owner : owner_of s n = Some from;
  ng_owners : forall m, m <> n -> owner_of s' m = owner_of s m;
  ng_info : RegistrarInfos s' = delete n (RegistrarInfos s);
  ng_primary : OwnerToPrimaryName s' = OwnerToPrimaryName s;
  ng_offers : OfferedNames s' = OfferedNames s;
  ng_listings : Listings s' = Listings s;
  ng_now : now s' = now s;
  ng_gone : owner_of s' n = None;
  ng_records : forall A, A n -> within A n s s';
  ng_account : forall a m, is_top m = true -> (a, m) <> (from, n) ->
    (a, m) ∈ AccountToSubnames s -> (a, m) ∈ AccountToSubnames s'
}.

Lemma top_no_subname s p m : tree_inv s s -> is_top m = true -> (p, m) ∉ SubNames s.
Proof.
  intros HT Hm (r & Hrec & _)%(tree_subnames _ _ HT).
  destruct (tree_record _ _ HT _ _ Hrec) as (_ & Hf & _). exact (eq_true_false_abs _ Hm Hf).
Qed.

Lemma do_burn_gone caller n s s' :
  chain_inv s -> do_burn caller n s = (s', Ok tt) -> name_gone caller n s s'.
Proof.
  intros Hs Hr. pose proof (ch_tree _ Hs) as HT.
  destruct (do_burn_outcome _ _ _ _ HT Hr) as [(i & Hi & Ho) _ B3 _ B5 _ _ B8].
  destruct (do_burn_Ok _ _ _ _ HT Hr) as (_ & _ & _ & _ & _ & Hroot & _).
  destruct (tree_origin _ _ HT _ _ Hroot) as (_ & Htop & _).
  pose proof (keeps_do_burn _ _ _ _ _ Hs Hr) as Hs'.
  unfold outside in B8. simpl_state. injection B8 as B8 B9 _ _ _ _ B10.
  split; unfold owner_of, tokens; rewrite ?B8, ?B9, ?B10; try done.
  - rewrite Hi. simpl. congruence.
  - intros m Hm. rewrite B3, lookup_delete_ne by congruence. done.
  - by rewrite B3, lookup_delete_eq.
  - intros A HA. exact (steps_run _ _ _ _ _ (do_burn_within A caller n HA) Hr).
  - intros a m Hm Hne Ha. apply B5. split_and!; [done..|]. by apply (top_no_subname s).
Qed.

(** [n] passes from [from] to [to]. *)
Record name_moved (from to : AccountId) (n : DomainHash) s s' : Prop := {
  nm_inv : chain_inv s';
  nm_top : is_top n = true;
  nm_from : owner_of s n = Some from;
  nm_to : owner_of s' n = Some to;
  nm_owners : forall m, m <> n -> owner_of s' m = owner_of s m;
  nm_registrar : st_registrar s' = st_registrar s;
  nm_listings : Listings s' = Listings s;
  nm_now : now s' = now s;
  nm_balances : Balances s' = Balances s;
  nm_account : forall a m, is_top m = true ->
    (a, m) ∈ AccountToSubnames s' <-> (a, m) ∈ AccountToSubnames s;
  nm_records : forall A, A n -> within A n s s';
  nm_valid : still_valid s n = true
}.

Lemma renewable_valid n s s' u :
  Traits.check_expires_renewable n s = (s', Ok u) -> still_valid s n = true.
Proof.
  simpl. unfold Registrar.check_expires_renewable, still_valid. intros Hr. inv_ok. tidy.
  match goal with H : RegistrarInfos _ !! _ = _ |- _ => rewrite H end. apply Z.leb_le. lia.
Qed.

Lemma do_transfer_moved from to n s s' :
  chain_inv s -> do_transfer from to n s = (s', Ok tt) -> name_moved from to n s s'.
Proof.
  intros Hs Hr. pose proof (ch_tree _ Hs) as HT.
  destruct (do_transfer_outcome _ _ _ _ _ HT Hr) as [(i & Hi & Ho) _ B3 B4 _ Hroot B7 _ _ B8].
  destruct (do_transfer_Ok _ _ _ _ _ HT Hr) as (_ & _ & _ & _ & _ & _ & _ & Hval & _).
  destruct (tree_origin _ _ HT _ _ Hroot) as (_ & Htop & _).
  pose proof (keeps_do_transfer _ _ _ _ _ _ Hs Hr) as Hs'.
  unfold outside in B8. simpl_state. injection B8 as B8 B9 _ _ _ _ B10.
  split; rewrite ?B8, ?B9, ?B10; try done; unfold owner_of, tokens.
  - rewrite Hi. simpl. congruence.
  - intros m Hm. by rewrite B4.
  - intros a m Hm. rewrite B7. split; [by intros []|]. intros Ha. split; [done|].
    by apply (top_no_subname s).
  - intros A HA. exact (steps_run _ _ _ _ _ (do_transfer_within A from to n HA) Hr).
  - exact (renewable_valid _ _ _ _ Hval).
Qed.

(** [a] holds neither an active subdomain nor a canonical name that is still valid. *)
Definition nameless s (a : AccountId) : Prop :=
  (forall n, OwnerToPrimaryName s !! a = Some n -> still_valid s n = false) /\
  has_active_subname s a = false.

(** The check that an account holds no name forgets the one that lapsed. *)
Lemma ensure_no_name_Ok a s s' u :
  ensure_no_name a s = (s', Ok u) ->
  nameless s a /\ s' = upd_OwnerToPrimaryName (delete a) s.
Proof.
  unfold ensure_no_name. intros Hr. inv_ok.
  destruct (OwnerToPrimaryName s !! a) as [n|] eqn:Ha.
  - inv_ok. destruct (still_valid s n) eqn:Hv; inv_ok; tidy. split; [split|]; naive_solver.
  - inv_ok. tidy. split; [by split; [rewrite Ha|]|]. destruct s as [? ? [] ? ? ? ? ? ?].
    unfold upd_OwnerToPrimaryName, with_registrar. simpl in *. by rewrite delete_id.
Qed.

(** The name's previous owner loses it as canonical name; nobody else does. *)
Lemma forget_previous_owner_Ok n x s s' :
  forget_previous_owner n x s = (s', Ok tt) ->
  exists P, s' = upd_OwnerToPrimaryName (fun _ => P) s /\
    forall a m, P !! a = Some m <->
      OwnerToPrimaryName s !! a = Some m /\ ~ (x = Some a /\ m = n).
Proof.
  unfold forget_previous_owner. intros Hr. destruct x as [o|]; inv_ok.
  - case_bool_decide as Hp; inv_ok.
    + exists (delete o (OwnerToPrimaryName s)). split; [done|]. intros a m.
      rewrite lookup_delete_Some. naive_solver.
    + exists (OwnerToPrimaryName s). split; [by destruct s as [? ? []]|]. naive_solver.
  - exists (OwnerToPrimaryName s). split; [by destruct s as [? ? []]|]. naive_solver.
Qed.

(** [n] is registered for [to] at the expense of [caller]. *)
Record name_minted (caller to : AccountId) (n : DomainHash) (fee ex len : Z) s s' : Prop := {
  mn_inv : chain_inv s';
  mn_top : is_top n = true;
  mn_lapsed : forall w, owner_of s n = Some w -> still_valid s n = false;
  mn_owner : owner_of s' n = Some to;
  mn_owners : forall m, m <> n -> owner_of s' m = owner_of s m;
  mn_info : RegistrarInfos s' = <[n := mkRegistrarInfo ex DefaultCapacity fee len
                                        (saturated_into 32 (block_number s))]> (RegistrarInfos s);
  mn_primary : forall a m, OwnerToPrimaryName s' !! a = Some m <->
    OwnerToPrimaryName s !! a = Some m /\ ~ (owner_of s n = Some a /\ m = n);
  mn_offers : OfferedNames s' = OfferedNames s;
  mn_listings : Listings s' = Listings s;
  mn_now : now s' = now s;
  mn_paid : exists c i, currency_withdraw caller fee FEE KeepAlive (Balances s) = Ok (c, i) /\
    Balances s' = currency_drop_imbalance i c;
  mn_active : no_new_active s s';
  mn_records : forall A, A n -> within A n s s';
  mn_parent : parent_hash s' = parent_hash s;
  mn_account : forall a m, is_top m = true -> (owner_of s n = Some a -> m <> n) ->
    (a, m) ∈ AccountToSubnames s -> (a, m) ∈ AccountToSubnames s'
}.

Lemma registrable_lapsed n s s' u :
  Traits.check_expires_registrable n s = (s', Ok u) -> still_valid s n = false.
Proof.
  simpl. unfold Registrar.check_expires_registrable, still_valid. intros Hr. inv_ok. tidy.
  match goal with H : RegistrarInfos _ !! _ = _ |- _ => rewrite H end. by apply Z.leb_gt.
Qed.

Lemma mint_registered official caller to name lab len fee ex s s' :
  name_used name -> new_with_len name = Some (lab, len) -> chain_inv s ->
  mint_subname official BaseNode (encode_with_node lab BaseNode) to 0
    (register_payments caller (encode_with_node lab BaseNode) fee ex len) s = (s', Ok tt) ->
  name_minted caller to (encode_with_node lab BaseNode) fee ex len s s'.
Proof.
  intros Hused Hnew Hs Hr. pose proof (new_with_len_node _ _ _ Hused Hnew) as [Hlen Htop].
  set (n := encode_with_node lab BaseNode) in *.
  pose proof (keeps_register_mint _ _ _ _ _ _ _ _ Hused Hnew _ _ _ Hs Hr) as Hs'.
  pose proof (steps_run _ _ _ _ _
    (mint_subname_active official BaseNode n to 0 _ (register_payments_active caller n fee ex len)) Hr).
  destruct (register_payments_registers caller n fee ex len Hlen) as [R1 _].
  destruct (mint_subname_outcome n to _ R1 official 0 s s' (ch_tree _ Hs) Htop Hr)
    as [_ Hexp (s1 & Hpay & Hout) _ M5 M6 _ M8 _ _].
  unfold register_payments in Hpay. inv_ok.
  match goal with Hf : forget_previous_owner _ _ _ = (_, Ok ?u) |- _ =>
    destruct u; apply forget_previous_owner_Ok in Hf as (P & -> & HP) end.
  match goal with Hb : burn_from _ _ _ = _ |- _ =>
    apply burn_from_Ok in Hb as (c & i & Hw & ->) end.
  unfold outside in Hout. simpl_state. injection Hout as H1 H2 _ _ _ _ H3.
  split; rewrite ?H1, ?H2, ?H3; simpl_state; try done.
  - intros w (ti & Hi & _)%owner_of_Some. eapply registrable_lapsed, Hexp, Hi.
  - f_equal. f_equal.
    + destruct (RegistrarInfos s !! n) as [i0|] eqn:Hi; [|done]. by apply (ch_capacity _ Hs _ _ Hi).
    + unfold truncate. by rewrite Z.mod_small by lia.
  - eauto.
  - intros A HA. refine (steps_run _ _ _ _ _ (mint_subname_within A _ _ _ _ _ _ HA _) Hr).
    intros x. apply register_payments_within.
  - intros a m Hm Hne Ha. apply M8. right. split_and!; [done|by apply (top_no_subname s), Hm; apply Hs|].
    intros o Ho [= -> ->]. by apply Hne.
Qed.

(** The anchors of [n] after it was given to [to]. *)
Record anchored (n : DomainHash) (to : AccountId) s s' : Prop := {
  an_frame : same_but_resolvers s s';
  an_ss58 : Records s' !! (n, codec_type.SS58) = Some (account_encode to);
  an_origin : Records s' !! (n, codec_type.ORIGIN) = Some (parent_hash_32 s);
  an_others : forall m, m <> n -> same_records s s' m
}.

Lemma anchors_Ok n to s s1 s2 u v :
  update_ss58 n to s = (s1, Ok u) -> record_origin n (parent_hash_32 s1) s1 = (s2, Ok v) ->
  anchored n to s s2.
Proof.
  simpl. unfold set_ss58_record, set_origin_record. intros H1 H2. inv_ok. tidy. subst.
  split; [by destruct s|..]; simpl_state.
  - by rewrite lookup_insert_ne, lookup_insert_eq.
  - by rewrite lookup_insert_eq.
  - intros m Hm. split; [|done]. intros k. simpl_state. by rewrite !lookup_insert_ne by congruence.
Qed.

(** Rejecting an offer along with a registration burns the gift, or frees the
    subdomain offered. *)
Lemma reject_pending_Ok caller rej s s' :
  chain_inv s -> reject_pending caller rej s = (s', Ok tt) ->
  chain_inv s' /\
  ((same_names s s' /\ RegistrarInfos s' = RegistrarInfos s) \/
   exists n off f s0, OfferedNames s !! n = Some off /\ on_recipient off = caller /\
     name_gone caller n (upd_OfferedNames (delete n) s) s0 /\ s' = upd_events f s0).
Proof.
  intros Hs Hr. unfold reject_pending in Hr. inv_ok.
  destruct (OfferedNames s !! _) as [off|] eqn:Hoff; inv_ok; tidy; unfold deposit_event in *; inv_ok;
    repeat match goal with u : unit |- _ => destruct u end.
  - match goal with Hb : do_burn _ _ _ = _ |- _ => apply do_burn_gone in Hb as Hg end;
      [|by apply (chain_inv_ext s)].
    split; [by eapply chain_inv_ext, Hg|]. right. do 4 eexists. by split_and!.
  - match goal with Hb : revoke_pending_offer_for_target _ _ _ = _ |- _ =>
      pose proof (fixes_revoke_pending _ _ _ _ _ Hs Hb) as [Hs1 Hsame];
      apply revoke_pending_inv in Hb as (r & _ & _ & _ & Hv) end.
    split; [by eapply chain_inv_ext, Hs1|]. left.
    split; [eapply same_names_trans; [done|]; by apply same_names_ext|].
    destruct (revoke_subname_inv _ _ _ _ (ch_tree _ Hs) Hv) as (_ & Hout%outside_infos & _). done.
Qed.

(** A successful registration, in its steps. *)
Record registered (caller to : AccountId) (lab : Label) (fee len : Z) (s1 s2 s' : State) : Prop := {
  rg_reserved : encode_with_node lab BaseNode ∉ ReservedList s1;
  rg_free : forall n, OwnerToPrimaryName s1 !! to = Some n -> still_valid s1 n = false;
  rg_inactive : has_active_subname s1 to = false;
  rg_fee : registration_fee s1 len = Some fee;
  rg_width : now s1 + MaxRegistrationDuration < 2 ^ 64;
  rg_minted : name_minted caller to (encode_with_node lab BaseNode) fee
    (now s1 + MaxRegistrationDuration) len (upd_OwnerToPrimaryName (delete to) s1) s2;
  rg_done : exists f s3, anchored (encode_with_node lab BaseNode) to
    (upd_OwnerToPrimaryName (<[to := encode_with_node lab BaseNode]>) s2) s3 /\
    s' = upd_events f s3
}.

Lemma register_Ok o name src rej s s' :
  chain_inv s -> name_used name -> register o name src rej s = (s', Ok tt) ->
  exists caller to lab len fee s1 s2, o = RawOrigin.Signed caller /\
    lookup_account src = Some to /\ new_with_len name = Some (lab, len) /\
    match rej with Some r => reject_pending caller r s = (s1, Ok tt) | None => s1 = s end /\
    chain_inv s1 /\ registered caller to lab fee len s1 s2 s'.
Proof.
  intros Hs Hused Hr. unfold register, get_official_account in Hr. inv_call.
  match goal with H : ?m s = (?x, Ok ?u) |- _ =>
    match m with match rej with _ => _ end => rename H into Hrej, x into s1; destruct u end end.
  assert (match rej with Some r => reject_pending a r s = (s1, Ok tt) | None => s1 = s end) as Hrej'.
  { destruct rej; [done|]. by inv_ok. }
  assert (chain_inv s1) as Hs1.
  { destruct rej; [|congruence]. by eapply reject_pending_Ok. }
  match goal with He : ensure_no_name _ _ = _ |- _ =>
    apply ensure_no_name_Ok in He as ([Hfree Hact] & ->) end.
  match goal with Hm : mint_subname _ _ _ _ _ _ _ = (?x, Ok ?u) |- _ =>
    destruct u; eapply mint_registered in Hm; [|done..|by apply (chain_inv_ext s1)] end.
  match goal with Hu : update_ss58 _ _ _ = _, Ho : record_origin _ _ _ = _ |- _ =>
    pose proof (anchors_Ok _ _ _ _ _ _ _ Hu Ho) as Ha end.
  do 7 eexists. split_and!; try done. split; try done; [..|by do 2 eexists].
Qed.

(** ** The other calls that move a name *)

Lemma transfer_call_Ok o src s s' :
  chain_inv s -> Registrar.transfer o src s = (s', Ok tt) ->
  exists who to n s1, o = RawOrigin.Signed who /\ OwnerToPrimaryName s !! who = Some n /\
    (lookup_account src = Some to /\ nameless s to) /\
    name_moved who to n (upd_OwnerToPrimaryName (delete to) s) s1 /\
    s' = upd_OwnerToPrimaryName (<[to := n]>) (upd_OwnerToPrimaryName (delete who) s1).
Proof.
  intros Hs Hr. unfold Registrar.transfer in Hr. inv_call.
  match goal with H : ?m s = (?x, Ok ?u) |- _ =>
    match m with match ?i with _ => _ end => assert (x = s) as -> by (destruct i; by inv_ok) end end.
  match goal with He : ensure_no_name _ _ = _ |- _ =>
    apply ensure_no_name_Ok in He as (Hfree & ->) end.
  match goal with Hm : do_transfer _ _ _ _ = (_, Ok ?u) |- _ =>
    destruct u; apply do_transfer_moved in Hm; [|by apply (chain_inv_ext s)] end.
  do 4 eexists. by split_and!.
Qed.

Lemma release_name_Ok o s s' :
  chain_inv s -> release_name o s = (s', Ok tt) ->
  exists who n, o = RawOrigin.Signed who /\ OwnerToPrimaryName s !! who = Some n /\
    name_gone who n (upd_OwnerToPrimaryName (delete who) s) s'.
Proof.
  intros Hs Hr. unfold release_name in Hr. inv_call.
  apply do_burn_gone in Hr; [|by apply (chain_inv_ext s)]. do 2 eexists. by split_and!.
Qed.

Lemma registry_burn_Ok o name s s' :
  chain_inv s -> Registry.burn o name s = (s', Ok tt) ->
  exists who n, o = RawOrigin.Signed who /\ parse_name_to_node name BaseNode = Some n /\
    name_gone who n s s'.
Proof.
  intros Hs Hr. unfold Registry.burn, Registry.name_to_node in Hr. inv_call.
  apply do_burn_gone in Hr; [|done]. do 2 eexists. by split_and!.
Qed.

(** The name a bare label stands for. *)
Definition bare_node (name : bytes) : option DomainHash :=
  (fun p => encode_with_node p.1 BaseNode) <$> new_with_len name.

(** The term of [n] has not ended. *)
Definition still_usable s (n : DomainHash) : Prop :=
  exists i, RegistrarInfos s !! n = Some i /\ now s < ri_expire i.

Lemma accept_offered_name_Ok o name s s' :
  accept_offered_name o name s = (s', Ok tt) ->
  exists who n off f s1, o = RawOrigin.Signed who /\
    OfferedNames s !! n = Some off /\ on_recipient off = who /\
    (bare_node name = Some n /\ still_usable s n /\ nameless (upd_OfferedNames (delete n) s) who) /\
    anchored n who (upd_OwnerToPrimaryName (<[who := n]>) (upd_OwnerToPrimaryName (delete who)
      (upd_OfferedNames (delete n) s))) s1 /\
    s' = upd_events f s1.
Proof.
  intros Hr. unfold accept_offered_name in Hr. inv_call.
  match goal with He : ensure_no_name _ _ = _ |- _ =>
    apply ensure_no_name_Ok in He as (Hfree & ->) end.
  match goal with Hu : update_ss58 _ _ _ = _, Ho : record_origin _ _ _ = _ |- _ =>
    pose proof (anchors_Ok _ _ _ _ _ _ _ Hu Ho) as Ha end.
  match goal with Hn : new_with_len name = Some (?lab, _) |- _ =>
    assert (bare_node name = Some (encode_with_node lab BaseNode)) as Hlab
      by (unfold bare_node; by rewrite Hn) end.
  do 5 eexists. split_and!; try done. by eexists.
Qed.

(** [seller] has lost [n] as canonical name; nobody else lost one. *)
Definition without_seller (seller : AccountId) (n : DomainHash)
    (P P' : gmap AccountId DomainHash) : Prop :=
  forall a m, P' !! a = Some m <-> P !! a = Some m /\ ~ (a = seller /\ m = n).

Lemma forget_seller_Ok seller n s s' :
  forget_seller seller n s = (s', Ok tt) ->
  exists P, s' = upd_OwnerToPrimaryName (fun _ => P) s /\
    without_seller seller n (OwnerToPrimaryName s) P.
Proof.
  intros Hr. change (forget_previous_owner n (Some seller) s = (s', Ok tt)) in Hr.
  apply forget_previous_owner_Ok in Hr as (P & -> & HP). exists P. split; [done|].
  intros a m. rewrite HP. naive_solver.
Qed.

(** The name bought is delivered: to [buyer] as canonical name ... *)
Lemma transfer_name_Ok from to n s s' :
  chain_inv s -> Registrar.transfer_name from to n s = (s', Ok tt) ->
  exists P s1, nameless s to /\
    name_moved from to n (upd_OwnerToPrimaryName (delete to) s) s1 /\
    without_seller from n (delete to (OwnerToPrimaryName s)) P /\
    s' = upd_OwnerToPrimaryName (fun _ => <[to := n]> P) s1.
Proof.
  intros Hs Hr. unfold Registrar.transfer_name in Hr. inv_ok.
  match goal with He : ensure_no_name _ _ = _ |- _ =>
    apply ensure_no_name_Ok in He as (Hfree & ->) end.
  match goal with Hm : do_transfer _ _ _ _ = (_, Ok ?u) |- _ =>
    destruct u; apply do_transfer_moved in Hm; [|by apply (chain_inv_ext s)]; rename Hm into HM end.
  match goal with Hf : forget_seller _ _ _ = (_, Ok ?u) |- _ =>
    destruct u; apply forget_seller_Ok in Hf as (P & -> & HP) end.
  rewrite (nm_registrar _ _ _ _ _ HM) in HP. exists P. eexists. by split_and!.
Qed.

(** ... or to the recipient of the gift, who has yet to accept it. *)
Lemma offer_bought_name_Ok from buyer recip n s s' :
  chain_inv s -> Registrar.offer_bought_name from buyer recip n s = (s', Ok tt) ->
  exists P s1 f, OfferedNames s !! n = None /\ nameless s recip /\
    name_moved from recip n s s1 /\ without_seller from n (OwnerToPrimaryName s) P /\
    s' = upd_events f (upd_OfferedNames (<[n := mkOfferedNameRecord buyer recip]>)
           (upd_OwnerToPrimaryName (fun _ => P) s1)).
Proof.
  intros Hs Hr. unfold Registrar.offer_bought_name in Hr. inv_call.
  match goal with H : ?m s = (?x, Ok ?u) |- _ =>
    match m with match OwnerToPrimaryName _ !! recip with _ => _ end =>
      assert (x = s /\ forall k, OwnerToPrimaryName s !! recip = Some k -> still_valid s k = false)
        as [-> Hcan] by (destruct (OwnerToPrimaryName s !! recip); inv_ok; tidy; naive_solver) end end.
  match goal with Hm : do_transfer _ _ _ _ = (_, Ok ?u) |- _ =>
    destruct u; apply do_transfer_moved in Hm; [|done]; rename Hm into HM end.
  match goal with Hf : forget_seller _ _ _ = (_, Ok ?u) |- _ =>
    destruct u; apply forget_seller_Ok in Hf as (P & -> & HP) end.
  rewrite (nm_registrar _ _ _ _ _ HM) in HP. exists P. do 2 eexists. by split_and!.
Qed.

(** What a purchase of [n] checked and paid before the delivery. *)
Record purchase (buyer : AccountId) (l : Listing) (n : DomainHash) s s0 : Prop := {
  pu_listed : Listings s !! n = Some l;
  pu_other : buyer <> seller l;
  pu_open : now s < expires_at l;
  pu_owner : owner_of s n = Some (seller l);
  pu_paid : exists c1 c2 i,
    currency_transfer buyer (seller l) (price l) KeepAlive (Balances s) = Ok c1 /\
    currency_withdraw (seller l) (protocol_fee (price l)) FEE KeepAlive c1 = Ok (c2, i) /\
    s0 = upd_Listings (delete n) (upd_Balances (fun _ => currency_drop_imbalance i c2) s)
}.

Lemma buy_name_Ok o name r s s' :
  buy_name o name r s = (s', Ok tt) ->
  exists buyer lab l s0 s1 f, o = RawOrigin.Signed buyer /\ Label_new name = Some lab /\
    let n := encode_with_node lab BaseNode in
    purchase buyer l n s s0 /\
    match r with
    | None => exists s2, Registrar.transfer_name (seller l) buyer n s0 = (s1, Ok tt) /\
        anchored n buyer (Resolvers.clear_records_except_ss58 n s1) s2 /\ s' = upd_events f s2
    | Some recip => recip <> buyer /\ recip <> seller l /\
        Registrar.offer_bought_name (seller l) buyer recip n s0 = (s1, Ok tt) /\
        s' = upd_events f s1
    end.
Proof.
  intros Hr. unfold buy_name in Hr. inv_call.
  match goal with Ht : transfer_balance _ _ _ _ = _ |- _ =>
    apply transfer_balance_Ok in Ht as (c1 & Hc1 & ->) end.
  match goal with Hb : burn_from _ _ _ = _ |- _ => apply burn_from_Ok in Hb as (c2 & i & Hc2 & ->) end.
  match type of Hr with _ ?x = _ => set (s0 := x) in * end.
  match goal with Hl : Listings _ !! encode_with_node ?lab _ = Some ?l |- _ =>
    assert (purchase a l (encode_with_node lab BaseNode) s s0) as Hp by (split; eauto 10) end.
  destruct r as [recip|].
  - unfold deliver_gift in Hr. inv_call.
    repeat match goal with u : unit |- _ => destruct u end.
    do 6 eexists. by split_and!.
  - unfold deliver in Hr. inv_call.
    repeat match goal with u : unit |- _ => destruct u end.
    match goal with Hu : update_ss58 _ _ _ = _, Ho : record_origin _ _ _ = _ |- _ =>
      pose proof (anchors_Ok _ _ _ _ _ _ _ Hu Ho) as Ha end.
    match goal with Ht : Traits.transfer_name _ _ _ _ = (?x, _) |- _ =>
      exists a; do 3 eexists; exists x; eexists; do 2 (split; [done|]); split; [exact Hp|];
      eexists; split; [exact Ht|]; split; [exact Ha|done] end.
Qed.

End calls.
