(* ===== verification/Ownership.v ===== *)
(** * Who owns a name

    Two groups of theorems on the calls of the runtime.  First, the owner of a name
    within its term or grace period changes only by the owner's own call or by the
    sale of a name the owner listed.  Second, the registrar's index of canonical
    names agrees with the owners of the tokens ([names_inv]): every call keeps the
    agreement, except burning through the registry and registering a name with an
    unanswered gift. *)

From Stdlib Require Import ZArith Lia.
From stdpp Require Import base tactics numbers gmap sets fin_sets fin_maps option list_basics list.
From S2P Require Import Prelude RustStr Types Storage Label Nft Traits PriceOracle Resolvers.
From S2P Require Import Registry Registrar Marketplace Runtime RegistryInv RegistryTree RegistryOps.
From S2P Require Import ChainInv NameMoves.

Local Open Scope Z_scope.
Local Open Scope run_scope.

Section ownership.
Context `{E : Env} `{C : Config} {HC : ConfigWidths C} {NL : NodeLevels BaseNode}.
Implicit Types s : State.

(** The registrar's index of canonical names and of gifts, against the owners. *)
Record names_inv s : Prop := {
  ni_primary : forall a n, OwnerToPrimaryName s !! a = Some n ->
    is_top n = true /\ owner_of s n = Some a;
  ni_offer : forall n r, OfferedNames s !! n = Some r ->
    is_top n = true /\ owner_of s n = Some (on_recipient r);
  ni_unanswered : forall n a, is_Some (OfferedNames s !! n) -> OwnerToPrimaryName s !! a <> Some n;
  ni_unlisted : forall n, is_Some (OfferedNames s !! n) -> Listings s !! n = None
}.

(** The calls after which canonical names may disagree with owners. *)
Definition clean_call s (c : RuntimeCall) : Prop :=
  match c with
  | RegistryBurn _ => False
  | Register name _ _ =>
      forall lab len, new_with_len name = Some (lab, len) ->
        OfferedNames s !! encode_with_node lab BaseNode = None
  | _ => True
  end.

(** ** Authorised changes *)

Lemma anchored_frame n to s s' :
  anchored n to s s' -> st_nft s' = st_nft s /\ st_registrar s' = st_registrar s /\
    st_marketplace s' = st_marketplace s /\ st_registry s' = st_registry s /\
    st_system s' = st_system s.
Proof. intros [-> _ _]. done. Qed.

Lemma owner_of_nft s s' n : st_nft s' = st_nft s -> owner_of s' n = owner_of s n.
Proof. unfold owner_of, tokens. by intros ->. Qed.

(** A call that may change the owner of [n], held by [w]. *)
Definition authorised (o : RawOrigin) (c : RuntimeCall) (n : DomainHash) (w : AccountId) s : Prop :=
  o = RawOrigin.Signed w \/
  exists name r l, c = BuyName name r /\ Listings s !! n = Some l /\ seller l = w /\
    now s < expires_at l.

Lemma still_valid_ext s s' n :
  RegistrarInfos s' !! n = RegistrarInfos s !! n -> now s' = now s ->
  still_valid s' n = still_valid s n.
Proof. unfold still_valid. by intros -> ->. Qed.

Lemma still_valid_top s n : chain_inv s -> still_valid s n = true -> is_top n = true.
Proof.
  intros Hs Hv. unfold still_valid in Hv. destruct (RegistrarInfos s !! n) as [i|] eqn:Hi; [|done].
  assert (RuntimeOriginOf s !! n = Some Root) as Ho by (apply (ch_info _ Hs); eauto).
  by destruct (tree_origin _ _ (ch_tree _ Hs) _ _ Ho) as (_ & ? & _).
Qed.

(** Rejecting a gift concerns the caller's name only. *)
Lemma reject_pending_owner caller rej n w s s' :
  chain_inv s -> reject_pending caller rej s = (s', Ok tt) ->
  owner_of s n = Some w -> still_valid s n = true ->
  (owner_of s' n = Some w /\ still_valid s' n = true) \/ caller = w.
Proof.
  intros Hs Hr Hw Hv. pose proof (still_valid_top _ _ Hs Hv) as Htop.
  apply reject_pending_Ok in Hr as (_ & [[S Hinfo]|(m & off & g & s0 & _ & _ & G & ->)]); [..|done].
  - left. rewrite (sn_owner _ _ S), (still_valid_ext s) by (done || congruence || apply S). done.
  - destruct G as [_ _ Go Gos Gi _ _ _ Gn]. destruct (decide (n = m)) as [->|Hne].
    + right. assert (Some caller = Some w) by (by rewrite <- Go, <- Hw). congruence.
    + left. split; [etrans; [exact (Gos _ Hne)|done]|]. rewrite <- Hv. apply still_valid_ext; [|done].
      simpl_state. by rewrite Gi, lookup_delete_ne.
Qed.

Lemma register_authorised o name src rej n w s s' :
  chain_inv s -> name_used name -> register o name src rej s = (s', Ok tt) ->
  owner_of s n = Some w -> still_valid s n = true ->
  owner_of s' n = Some w \/ o = RawOrigin.Signed w.
Proof.
  intros Hs Hused Hr Hw Hv.
  destruct (register_Ok _ _ _ _ _ _ Hs Hused Hr)
    as (caller & to & lab & len & fee & s1 & s2 & -> & _ & _ & Hrej & Hs1 &
        [_ _ _ _ _ HM (f & s3 & Ha & ->)]).
  destruct (anchored_frame _ _ _ _ Ha) as (Hnft & _). clear Ha Hr.
  assert (owner_of s1 n = Some w /\ still_valid s1 n = true \/ caller = w) as [[Hw1 Hv1]| ->]; [|..|auto].
  { destruct rej as [r|]; [exact (reject_pending_owner _ _ _ _ _ _ Hs Hrej Hw Hv)|subst; auto]. }
  left. rewrite (owner_of_nft s2) by exact Hnft.
  destruct (decide (n = encode_with_node lab BaseNode)) as [->|Hne].
  - pose proof (mn_lapsed _ _ _ _ _ _ _ _ HM w Hw1) as Hl.
    change (still_valid s1 (encode_with_node lab BaseNode) = false) in Hl. congruence.
  - etrans; [exact (mn_owners _ _ _ _ _ _ _ _ HM _ Hne)|done].
Qed.

(** One name changes hands; the others do not. *)
Lemma moved_authorised from to m n w s s' :
  name_moved from to m s s' -> owner_of s n = Some w -> owner_of s' n = Some w \/ (from = w /\ m = n).
Proof.
  intros HM Hw. destruct (decide (n = m)) as [->|Hne].
  - right. split; [|done]. pose proof (nm_from _ _ _ _ _ HM). congruence.
  - left. by rewrite (nm_owners _ _ _ _ _ HM).
Qed.

Lemma gone_authorised from m n w s s' :
  name_gone from m s s' -> owner_of s n = Some w -> owner_of s' n = Some w \/ from = w.
Proof.
  intros HM Hw. destruct (decide (n = m)) as [->|Hne].
  - right. pose proof (ng_owner _ _ _ _ HM). congruence.
  - left. by rewrite (ng_owners _ _ _ _ HM).
Qed.

Lemma purchase_inv buyer l n s s0 :
  chain_inv s -> purchase buyer l n s s0 -> chain_inv s0 /\ st_nft s0 = st_nft s.
Proof. intros Hs [_ _ _ _ (c1 & c2 & i & _ & _ & ->)]. split; [by apply (chain_inv_ext s)|done]. Qed.

Lemma buy_name_authorised o name r n w s s' :
  chain_inv s -> buy_name o name r s = (s', Ok tt) -> owner_of s n = Some w ->
  owner_of s' n = Some w \/ authorised o (BuyName name r) n w s.
Proof.
  intros Hs Hr Hw.
  destruct (buy_name_Ok _ _ _ _ _ Hr) as (buyer & lab & l & s0 & s1 & f & -> & _ & Hp & Hd).
  destruct (purchase_inv _ _ _ _ _ Hs Hp) as [Hs0 Hn0]. destruct Hp as [P1 _ P3 P4 _].
  set (m := encode_with_node lab BaseNode) in *.
  assert (forall s2 s3, st_nft s2 = st_nft s -> name_moved (seller l)
            (match r with Some recip => recip | None => buyer end) m s2 s3 ->
          owner_of s3 n = Some w \/ authorised (RawOrigin.Signed buyer) (BuyName name r) n w s) as Hm.
  { intros s2 s3 H2 HM. apply (moved_authorised _ _ _ n w) in HM as [?|[<- <-]].
    - by left.
    - right. right. do 3 eexists. eauto.
    - by rewrite (owner_of_nft s). }
  destruct r as [recip|].
  - destruct Hd as (_ & _ & Hd & ->).
    apply offer_bought_name_Ok in Hd as (P & s2 & g & _ & _ & HM & _ & ->); [|done].
    by apply (Hm s0 s2).
  - destruct Hd as (s2 & Hd & Ha & ->).
    apply transfer_name_Ok in Hd as (P & s3 & _ & HM & _ & ->); [|done].
    destruct (anchored_frame _ _ _ _ Ha) as (Hnft & _).
    rewrite (owner_of_nft s3) by exact Hnft. by apply (Hm _ s3) in HM.
Qed.

(** C1. Names cannot be taken: while a name is in its term or grace period, a call
    that ends its owner's ownership is signed by that owner, or it is the purchase
    of a listing that the owner made and that has not run out. *)
Theorem ownership_changes_are_authorised (o : RawOrigin) (c : RuntimeCall) (s : State)
    (n : DomainHash) (w : AccountId)
    (Hused : Forall name_used (new_names c)) (Hs : chain_inv s)
    (Hown : owner_of s n = Some w) (Hvalid : still_valid s n = true)
    (Hlost : owner_of (dispatch o c s).1 n <> Some w) :
  authorised o c n w s.
Proof.
  unfold dispatch, with_storage_layer in Hlost.
  destruct (call_body o c s) as [s' [[]|e]] eqn:Hr; [|done]. simpl in Hlost.
  assert (owner_of s' n = Some w \/ authorised o c n w s) as [?|?]; [|done..].
  destruct (moves_no_name c) eqn:Hc.
  { left. destruct (fixes_call o c Hused Hc _ _ _ Hs Hr) as [_ S].
    rewrite (sn_owner _ _ S); [done|]. by apply (still_valid_top s). }
  unfold authorised. destruct c; try discriminate Hc; simpl in Hr.
  - apply registry_burn_Ok in Hr as (who & m & -> & _ & G); [|done].
    destruct (gone_authorised _ _ n w _ _ G) as [?| ->]; auto.
  - destruct (register_authorised _ _ _ _ n w _ _ Hs (Forall_inv Hused) Hr) as [?|?]; auto.
  - apply transfer_call_Ok in Hr as (who & to1 & m & s1 & -> & _ & _ & G & ->); [|done].
    destruct (moved_authorised _ _ _ n w _ _ G) as [?|[-> _]]; auto.
  - apply release_name_Ok in Hr as (who & m & -> & _ & G); [|done].
    destruct (gone_authorised _ _ n w _ _ G) as [?| ->]; auto.
  - apply accept_offered_name_Ok in Hr as (who & m & off & f & s1 & -> & _ & _ & _ & Ha & ->).
    left. destruct (anchored_frame _ _ _ _ Ha) as (Hnft & _). by rewrite (owner_of_nft s).
  - by eapply buy_name_authorised.
Qed.

(** ** Canonical names agree with owners *)

Lemma names_inv_same s s' : same_names s s' -> names_inv s -> names_inv s'.
Proof.
  intros [S1 S2 S3 S4 _ _ _] [N1 N2 N3 N4]. split; rewrite ?S2, ?S3.
  - intros a n [Ht Ho]%N1. by rewrite S1.
  - intros n r [Ht Ho]%N2. by rewrite S1.
  - exact N3.
  - intros n Hn. destruct (Listings s' !! n) as [l|] eqn:Hl; [|done].
    apply S4 in Hl as [Hl|[a Ha]]; [by rewrite N4 in Hl|]. by destruct (N3 n a Hn).
Qed.

(** One name [n] has a new place; every other canonical name and gift is as before. *)
Lemma names_inv_move n s s' :
  names_inv s -> is_top n = true ->
  (forall m, m <> n -> owner_of s' m = owner_of s m) ->
  (forall a m, OwnerToPrimaryName s' !! a = Some m ->
    (m = n /\ owner_of s' n = Some a) \/ (m <> n /\ OwnerToPrimaryName s !! a = Some m)) ->
  (forall m r, OfferedNames s' !! m = Some r ->
    (m = n /\ owner_of s' n = Some (on_recipient r) /\
      (forall a, OwnerToPrimaryName s' !! a <> Some n) /\ Listings s' !! n = None) \/
    (m <> n /\ OfferedNames s !! m = Some r)) ->
  (forall m, m <> n -> Listings s !! m = None -> Listings s' !! m = None) ->
  names_inv s'.
Proof.
  intros [N1 N2 N3 N4] Htop Ho Hp Hf Hl. split.
  - intros a m [[-> ?]|[Hne [Ht Ha]%N1]]%Hp; [done|]. by rewrite Ho.
  - intros m r [(-> & ? & _)|[Hne [Ht Ha]%N2]]%Hf; [done|]. by rewrite Ho.
  - intros m a [r [(-> & _ & Hnot & _)|[Hne Hr]]%Hf]; [apply Hnot|].
    intros [[-> _]|[_ Ha]]%Hp; [done|]. by eapply (N3 m a).
  - intros m [r [(-> & _ & _ & ?)|[Hne Hr]]%Hf]; [done|]. by apply Hl, N4.
Qed.

(** Only the owner can have a name as canonical name. *)
Lemma primary_unique s n a w :
  names_inv s -> owner_of s n = Some w -> OwnerToPrimaryName s !! a = Some n -> a = w.
Proof. intros N Hw [_ Ha]%(ni_primary _ N). congruence. Qed.

Lemma primary_unoffered s n a : names_inv s -> OwnerToPrimaryName s !! a = Some n -> OfferedNames s !! n = None.
Proof.
  intros N Ha. destruct (OfferedNames s !! n) eqn:Hf; [|done].
  destruct (ni_unanswered _ N n a); eauto.
Qed.

Lemma names_release o s s' :
  chain_inv s -> names_inv s -> release_name o s = (s', Ok tt) -> names_inv s'.
Proof.
  intros Hs N Hr. apply release_name_Ok in Hr as (who & n & _ & Hw & G); [|done].
  destruct G as [_ Gt Go Gos _ Gp Gf Gl _]. simpl_state.
  pose proof (primary_unoffered _ _ _ N Hw) as Hno.
  apply (names_inv_move n s); [done..| | |]; rewrite ?Gp, ?Gf, ?Gl.
  - intros a m [Hne Ha]%lookup_delete_Some. right. split; [|done]. intros ->.
    by eapply Hne, eq_sym, primary_unique.
  - intros m r Hm. right. split; [congruence|done].
  - done.
Qed.

Lemma names_transfer o src s s' :
  chain_inv s -> names_inv s -> Registrar.transfer o src s = (s', Ok tt) -> names_inv s'.
Proof.
  intros Hs N Hr. apply transfer_call_Ok in Hr as (who & to & n & s1 & _ & Hw & _ & G & ->); [|done].
  destruct G as [_ Gt Gfrom Gto Gos Gr Gl _ _ _]. simpl_state.
  pose proof (primary_unoffered _ _ _ N Hw) as Hno.
  apply (names_inv_move n s); [done..| | |]; simpl_state; rewrite ?Gr, ?Gl; simpl_state.
  - intros a m [[<- <-]|[Hne [Hne' [_ Ha]%lookup_delete_Some]%lookup_delete_Some]]%lookup_insert_Some;
      [by left|]. right. split; [|done]. intros ->. by eapply Hne', eq_sym, primary_unique.
  - intros m r Hm. right. split; [congruence|done].
  - done.
Qed.

Lemma names_reject_pending caller rej s s' :
  chain_inv s -> names_inv s -> reject_pending caller rej s = (s', Ok tt) ->
  names_inv s' /\ forall n, OfferedNames s !! n = None -> OfferedNames s' !! n = None.
Proof.
  intros Hs N Hr. apply reject_pending_Ok in Hr as [_ [[S _]|(n & off & f & s0 & Hf & Hrec & G & ->)]];
    [..|done].
  - split; [by eapply names_inv_same|]. by rewrite (sn_offers _ _ S).
  - destruct G as [_ Gt Go Gos _ Gp Gf Gl _]. simpl_state. rewrite Gf. simpl_state. split.
    + apply (names_inv_move n s); [done..| | |]; simpl_state; rewrite ?Gp, ?Gf, ?Gl; simpl_state.
      * intros a m Ha. right. split; [|done]. intros ->. by destruct (ni_unanswered _ N n a); eauto.
      * intros m r [Hne Hm]%lookup_delete_Some. right. auto.
      * done.
    + intros m Hm. rewrite lookup_delete_None. auto.
Qed.

(** Minting [n] and recording it as the canonical name of [to]. *)
Lemma names_minted caller to n fee ex len s s' :
  names_inv s -> OfferedNames s !! n = None ->
  name_minted caller to n fee ex len (upd_OwnerToPrimaryName (delete to) s) s' ->
  names_inv (upd_OwnerToPrimaryName (<[to := n]>) s').
Proof.
  intros N Hno [_ Mt _ Mo Mos _ Mp Mf Ml _ _ _]. simpl_state.
  apply (names_inv_move n s); [done..| | |]; simpl_state; rewrite ?Mf, ?Ml.
  - intros a m [[<- <-]|[Hne [[_ Ha]%lookup_delete_Some Hnot]%Mp]]%lookup_insert_Some; [by left|].
    right. split; [|done]. intros ->. apply Hnot. split; [|done]. by apply (ni_primary _ N).
  - intros m r Hm. right. split; [congruence|done].
  - done.
Qed.

Lemma names_frame s s' :
  st_nft s' = st_nft s -> st_registrar s' = st_registrar s -> st_marketplace s' = st_marketplace s ->
  names_inv s -> names_inv s'.
Proof.
  intros H1 H2 H3 [N1 N2 N3 N4]. split; unfold owner_of, tokens; rewrite ?H1, ?H2, ?H3; done.
Qed.

Lemma names_anchored n to f s s' : anchored n to s s' -> names_inv s -> names_inv (upd_events f s').
Proof. intros (H1 & H2 & H3 & _)%anchored_frame. by apply names_frame. Qed.

Lemma names_register o name src rej s s' :
  chain_inv s -> names_inv s -> name_used name ->
  clean_call s (Register name src rej) -> register o name src rej s = (s', Ok tt) -> names_inv s'.
Proof.
  intros Hs N Hused Hclean Hr.
  destruct (register_Ok _ _ _ _ _ _ Hs Hused Hr)
    as (caller & to & lab & len & fee & s1 & s2 & -> & _ & Hnew & Hrej & Hs1 &
        [_ _ _ _ _ HM (f & s3 & Ha & ->)]).
  specialize (Hclean _ _ Hnew).
  assert (names_inv s1 /\ OfferedNames s1 !! encode_with_node lab BaseNode = None) as [N1 Hno].
  { destruct rej as [r|]; [|by subst]. apply names_reject_pending in Hrej as [? Hf]; auto. }
  eapply names_anchored; [exact Ha|]. by eapply names_minted.
Qed.

Lemma names_accept o name s s' :
  names_inv s -> accept_offered_name o name s = (s', Ok tt) -> names_inv s'.
Proof.
  intros N Hr.
  apply accept_offered_name_Ok in Hr as (who & n & off & f & s1 & -> & Hoff & Hrec & _ & Ha & ->).
  eapply names_anchored; [exact Ha|]. destruct (ni_offer _ N _ _ Hoff) as [Ht Ho].
  apply (names_inv_move n s); [done..| | |]; simpl_state.
  - intros a m [[<- <-]|[Hne [_ Hp]%lookup_delete_Some]]%lookup_insert_Some.
    + left. split; [done|]. by rewrite <- Hrec.
    + right. split; [|done]. intros ->. by destruct (ni_unanswered _ N n a); eauto.
  - intros m r [Hne Hm]%lookup_delete_Some. right. auto.
  - done.
Qed.

(** The listing is gone once the purchase is paid, the rest is untouched. *)
Lemma purchase_names buyer l n s s0 :
  purchase buyer l n s s0 -> names_inv s -> names_inv s0 /\ Listings s0 = delete n (Listings s) /\
    st_registrar s0 = st_registrar s /\ OfferedNames s !! n = None.
Proof.
  intros [P1 _ _ _ (c1 & c2 & i & _ & _ & ->)] N.
  assert (OfferedNames s !! n = None) as Hno.
  { destruct (OfferedNames s !! n) eqn:Hf; [|done]. rewrite (ni_unlisted _ N) in P1; eauto. done. }
  split_and!; try done. destruct N as [N1 N2 N3 N4]. split; try done. simpl_state.
  intros m Hm. rewrite lookup_delete_None. auto.
Qed.

Lemma names_buy o name r s s' :
  chain_inv s -> names_inv s -> buy_name o name r s = (s', Ok tt) -> names_inv s'.
Proof.
  intros Hs N Hr.
  destruct (buy_name_Ok _ _ _ _ _ Hr) as (buyer & lab & l & s0 & s1 & f & -> & _ & Hp & Hd).
  set (n := encode_with_node lab BaseNode) in *.
  destruct (purchase_inv _ _ _ _ _ Hs Hp) as [Hs0 Hn0].
  destruct (purchase_names _ _ _ _ _ Hp N) as (N0 & Hl0 & Hr0 & Hno). rewrite <- Hr0 in Hno.
  destruct r as [recip|].
  - destruct Hd as (_ & _ & Hd & ->).
    apply offer_bought_name_Ok in Hd as (P & s2 & g & _ & _ & [_ Gt Gf Gto Gos Gr Gl _ _ _] & HP & ->); [|done].
    apply (names_inv_move n s0); [done..| | |]; simpl_state; rewrite ?Gr, ?Gl.
    + intros a m [Ha Hnot]%HP. right. split; [|done]. intros ->. apply Hnot.
      split; [by eapply primary_unique|done].
    + intros m x [[<- <-]|[Hne Hm]]%lookup_insert_Some; [left|right; auto].
      split_and!; [done..| |rewrite Hl0; apply lookup_delete_eq].
      intros a [Ha Hnot]%HP. apply Hnot. split; [by eapply primary_unique|done].
    + done.
  - destruct Hd as (s2 & Hd & Ha & ->).
    apply transfer_name_Ok in Hd as (P & s3 & _ & [_ Gt Gf Gto Gos Gr Gl _ _ _] & HP & ->); [|done].
    eapply names_anchored; [exact Ha|].
    apply (names_frame (upd_OwnerToPrimaryName (fun _ => <[buyer := n]> P) s3)); [done..|].
    apply (names_inv_move n s0); [done..| | |]; simpl_state; rewrite ?Gr, ?Gl; simpl_state.
    + intros a m [[<- <-]|[Hne [[_ Ha']%lookup_delete_Some Hnot]%HP]]%lookup_insert_Some; [by left|].
      right. split; [|done]. intros ->. apply Hnot. split; [by eapply primary_unique|done].
    + intros m x Hm. right. split; [congruence|done].
    + done.
Qed.

Lemma names_dispatch (o : RawOrigin) (c : RuntimeCall) (s : State)
    (Hused : Forall name_used (new_names c)) (Hclean : clean_call s c)
    (Hs : chain_inv s) (Hn : names_inv s) :
  names_inv (dispatch o c s).1.
Proof.
  unfold dispatch, with_storage_layer.
  destruct (call_body o c s) as [s' [[]|e]] eqn:Hr; [|done]. simpl.
  destruct (moves_no_name c) eqn:Hc.
  { destruct (fixes_call o c Hused Hc _ _ _ Hs Hr) as [_ S]. by eapply names_inv_same. }
  destruct c; try discriminate Hc; simpl in Hr.
  - done.
  - by eapply names_register, Hr; [..|exact (Forall_inv Hused)|].
  - by eapply names_transfer.
  - by eapply names_release.
  - by eapply names_accept.
  - by eapply names_buy.
Qed.

(** C15. The canonical name of an account is a name the account owns, a pending gift
    belongs to its recipient and is nobody's canonical name, and a gift is not for
    sale: every call keeps this agreement, except [registry::burn] and the
    registration of a lapsed name with an unanswered gift. *)
Theorem canonical_names_agree_with_owners (o : RawOrigin) (c : RuntimeCall) (s : State)
    (Hused : Forall name_used (new_names c)) (Hclean : clean_call s c)
    (Hs : chain_inv s) (Hn : names_inv s) :
  names_inv (dispatch o c s).1.
Proof. exact (names_dispatch o c s Hused Hclean Hs Hn). Qed.

End ownership.
