(* ===== verification/OneName.v ===== *)
(** * One name per account

    An account holds at most one name: one active subdomain, or one canonical name
    in its term or grace period, and no second name beside either.  The theorem is
    about the chains in which no name was burned through the registry and no name
    with an unanswered gift was registered anew; those two calls break the index of
    canonical names the checks rely on. *)

From Stdlib Require Import ZArith Lia.
From stdpp Require Import base tactics numbers gmap sets fin_sets fin_maps option list_basics list.
From S2P Require Import Prelude RustStr Types Storage Label Nft Traits PriceOracle Resolvers.
From S2P Require Import Registry Registrar Marketplace Runtime RegistryInv RegistryTree RegistryOps.
From S2P Require Import ChainInv Genesis Footprints NameMoves Ownership.

Local Open Scope Z_scope.
Local Open Scope run_scope.

Section one_name.
Context `{E : Env} `{C : Config} {HC : ConfigWidths C} {NL : NodeLevels BaseNode}.
Implicit Types s : State.

(** [a] accepted the subdomain [n] and still holds it. *)
Definition holds_subdomain s (a : AccountId) (n : DomainHash) : Prop :=
  exists r, SubnameRecords s !! n = Some r /\ sr_state r = Active /\ sr_target r = a.

(** [a] owns the name [n], in its term or grace period and not a gift to be answered. *)
Definition holds_name s (a : AccountId) (n : DomainHash) : Prop :=
  owner_of s n = Some a /\ still_valid s n = true /\ OfferedNames s !! n = None.

Record one_name s : Prop := {
  on_subdomain : forall a n m, holds_subdomain s a n -> holds_subdomain s a m -> n = m;
  on_either : forall a n m, holds_subdomain s a n -> OwnerToPrimaryName s !! a = Some m ->
    still_valid s m = false;
  on_canonical : forall a n, holds_name s a n -> OwnerToPrimaryName s !! a = Some n
}.

(** A chain without the calls that break the index of canonical names; its clock
    does not run backwards. *)
Inductive clean_step : State -> State -> Prop :=
| clean_dispatch o c s : Forall name_used (new_names c) -> clean_call s c ->
    clean_step s (dispatch o c s).1
| clean_environment f s : now s <= now (with_system f s) -> clean_step s (with_system f s).

Inductive clean_reachable (root : AccountId) : State -> Prop :=
| clean_genesis number hash time c s :
    testnet_genesis root (empty_state number hash time c) = (s, Ok tt) -> clean_reachable root s
| clean_next s s' : clean_reachable root s -> clean_step s s' -> clean_reachable root s'.

(** ** Steps *)

Lemma holds_subdomain_old s s' a n :
  no_new_active s s' -> holds_subdomain s' a n -> holds_subdomain s a n.
Proof. intros Hn (r & Hr & Hst & Ht). exists r. auto. Qed.

Lemma inactive_holds_none s a n :
  chain_inv s -> has_active_subname s a = false -> ~ holds_subdomain s a n.
Proof.
  intros Hs Hf (r & Hr & Hst & <-). apply bool_decide_eq_false in Hf. apply Hf. clear Hf.
  pose proof (tree_active _ _ (ch_tree _ Hs) _ _ Hr Hst) as Hin. intros Hempty.
  apply elem_of_prefix in Hin. set_solver.
Qed.

Lemma one_name_intro s s' :
  one_name s -> no_new_active s s' ->
  (forall a m, OwnerToPrimaryName s' !! a = Some m -> still_valid s' m = true ->
    (OwnerToPrimaryName s !! a = Some m /\ still_valid s m = true) \/
    (forall n, ~ holds_subdomain s a n)) ->
  (forall a n, holds_name s' a n -> OwnerToPrimaryName s' !! a = Some n) ->
  one_name s'.
Proof.
  intros [O1 O2 O3] Hn Hp Ho. split; [|..|done].
  - eauto using holds_subdomain_old.
  - intros a n m Ha Hm. destruct (still_valid s' m) eqn:Hv; [|done].
    apply (holds_subdomain_old s) in Ha; [|done].
    destruct (Hp _ _ Hm Hv) as [[Hm' Hv']|Hnone]; [|by destruct (Hnone n)].
    by rewrite (O2 _ _ _ Ha Hm') in Hv'.
Qed.

Lemma one_name_frame s s' :
  st_nft s' = st_nft s -> st_registry s' = st_registry s -> st_registrar s' = st_registrar s ->
  now s' = now s -> one_name s -> one_name s'.
Proof.
  intros H1 H2 H3 H4 [O1 O2 O3].
  split; unfold holds_subdomain, holds_name, still_valid, owner_of, tokens;
    rewrite ?H1, ?H2, ?H3, ?H4; done.
Qed.

Lemma one_name_anchored n to f s s' : anchored n to s s' -> one_name s -> one_name (upd_events f s').
Proof.
  intros Ha. destruct (anchored_frame _ _ _ _ Ha) as (H1 & H2 & _ & H4 & H5).
  apply one_name_frame; try done. simpl_state. by rewrite H5.
Qed.

Lemma one_name_same s s' :
  chain_inv s' -> same_names s s' -> no_new_active s s' -> one_name s -> one_name s'.
Proof.
  intros Hs' S Hn O.
  assert (forall m, still_valid s' m = true -> still_valid s m = true) as Hv.
  { intros m. unfold still_valid. destruct (RegistrarInfos s' !! m) as [i|] eqn:Hi; [|done].
    apply (sn_terms _ _ S) in Hi as [[_ Hi]|Hi]; [done|]. by rewrite Hi, (sn_now _ _ S). }
  apply (one_name_intro s); [done..| |].
  - intros a m. rewrite (sn_primary _ _ S). auto.
  - intros a n (Ho & Hn' & Hf). rewrite (sn_primary _ _ S). apply (on_canonical _ O). split_and!.
    + rewrite <- (sn_owner _ _ S); [done|]. by apply (still_valid_top s').
    + auto.
    + by rewrite <- (sn_offers _ _ S).
Qed.

(** One name [n] has a new place; every other name is where it was, except that a
    canonical name that lapsed may be forgotten. *)
Lemma one_name_move n s s' :
  one_name s -> no_new_active s s' ->
  (forall m, m <> n -> owner_of s' m = owner_of s m /\
    (still_valid s' m = true -> still_valid s m = true) /\
    OfferedNames s' !! m = OfferedNames s !! m) ->
  (forall a m, m <> n -> OwnerToPrimaryName s' !! a = Some m -> OwnerToPrimaryName s !! a = Some m) ->
  (forall a m, m <> n -> OwnerToPrimaryName s !! a = Some m -> still_valid s m = true ->
    OwnerToPrimaryName s' !! a = Some m) ->
  (forall a, OwnerToPrimaryName s' !! a = Some n -> still_valid s' n = true ->
    (OwnerToPrimaryName s !! a = Some n /\ still_valid s n = true) \/
    forall m, ~ holds_subdomain s a m) ->
  (forall a, holds_name s' a n -> OwnerToPrimaryName s' !! a = Some n) ->
  one_name s'.
Proof.
  intros O Hact Hm Hold Hkeep Hp Hn. apply (one_name_intro s); [done..| |].
  - intros a m Ha Hv. destruct (decide (m = n)) as [->|Hne]; [auto|].
    left. split; [by apply Hold|by apply Hm].
  - intros a m Ha. destruct (decide (m = n)) as [->|Hne]; [auto|].
    destruct (Hm _ Hne) as (H1 & H2 & H3), Ha as (Ho & Hv & Hf). apply Hkeep; [done| |auto].
    apply (on_canonical _ O). split_and!; [congruence|auto|congruence].
Qed.

Lemma still_valid_gone from n s s' :
  name_gone from n s s' -> still_valid s' n = false /\
  forall m, m <> n -> still_valid s' m = still_valid s m.
Proof.
  intros G. unfold still_valid. rewrite (ng_info _ _ _ _ G), (ng_now _ _ _ _ G), lookup_delete_eq.
  split; [done|]. intros m Hne. by rewrite lookup_delete_ne.
Qed.

(** A name burned, by whichever call. *)
Lemma one_name_gone from n s s0 s' :
  one_name s -> no_new_active s s' -> name_gone from n s0 s' ->
  (forall m, owner_of s0 m = owner_of s m /\ still_valid s0 m = still_valid s m) ->
  (forall m, m <> n -> OfferedNames s0 !! m = OfferedNames s !! m) ->
  (forall a m, m <> n -> OwnerToPrimaryName s0 !! a = Some m <-> OwnerToPrimaryName s !! a = Some m) ->
  one_name s'.
Proof.
  intros O Hact G H0 Hf Hp. destruct (still_valid_gone _ _ _ _ G) as [Hv Hvs].
  apply (one_name_move n s); try done.
  - intros m Hne. destruct (H0 m) as [<- <-].
    rewrite (Hvs _ Hne), (ng_owners _ _ _ _ G), (ng_offers _ _ _ _ G) by done. auto.
  - intros a m Hne. rewrite (ng_primary _ _ _ _ G). by apply Hp.
  - intros a m Hne Ha _. rewrite (ng_primary _ _ _ _ G). by apply Hp.
  - intros a _ Hv'. congruence.
  - intros a (_ & Hv' & _). congruence.
Qed.

Lemma one_name_release o s s' :
  chain_inv s -> one_name s -> release_name o s = (s', Ok tt) -> one_name s'.
Proof.
  intros Hs O Hr. pose proof (steps_run _ _ _ _ _ (call_active o ReleaseName ltac:(done)) Hr) as Hact.
  apply release_name_Ok in Hr as (who & n & _ & Hw & G); [|done].
  eapply one_name_gone; [done..| | |]; simpl_state.
  - done.
  - done.
  - intros a m Hne. rewrite lookup_delete_Some. naive_solver.
Qed.

Lemma one_name_reject caller rej s s' :
  chain_inv s -> one_name s -> reject_pending caller rej s = (s', Ok tt) -> one_name s'.
Proof.
  intros Hs O Hr. pose proof (steps_run _ _ _ _ _ (reject_pending_active caller rej) Hr) as Hact.
  apply reject_pending_Ok in Hr as (Hs' & [[S _]|(m & off & g & s0 & _ & _ & G & ->)]); [..|done].
  - by apply (one_name_same s).
  - apply (one_name_frame s0); try done. eapply one_name_gone; [done..| | |]; simpl_state; try done.
    intros k Hne. by rewrite lookup_delete_ne.
Qed.

Lemma nameless_holds_none s a n : chain_inv s -> nameless s a -> ~ holds_subdomain s a n.
Proof. intros Hs [_ Ha]. by apply inactive_holds_none. Qed.

(** [n] becomes the canonical name of [to], who had none; what else the registrar
    forgets is canonical names of [n]. *)
Lemma one_name_given n to s s' :
  chain_inv s -> one_name s -> no_new_active s s' -> nameless s to ->
  (forall m, m <> n -> owner_of s' m = owner_of s m /\
    (still_valid s' m = true -> still_valid s m = true) /\
    OfferedNames s' !! m = OfferedNames s !! m) ->
  owner_of s' n = Some to ->
  OwnerToPrimaryName s' !! to = Some n ->
  (forall a m, a <> to -> OwnerToPrimaryName s' !! a = Some m <->
    OwnerToPrimaryName s !! a = Some m /\ m <> n) ->
  one_name s'.
Proof.
  intros Hs O Hact Hto Hm Hown Hp Hps. apply (one_name_move n s); try done.
  - intros a m Hne. destruct (decide (a = to)) as [->|Ha]; [congruence|]. by intros [? _]%Hps.
  - intros a m Hne Ha Hv. apply Hps; [|done]. intros ->. destruct Hto as [Hto _].
    by rewrite (Hto _ Ha) in Hv.
  - intros a Ha _. destruct (decide (a = to)) as [->|Hne].
    + right. intros m. by apply nameless_holds_none.
    + apply Hps in Ha as [_ Ha]; [done|]. done.
  - intros a (Ha & _). congruence.
Qed.

Lemma one_name_transfer o src s s' :
  chain_inv s -> names_inv s -> one_name s -> Registrar.transfer o src s = (s', Ok tt) -> one_name s'.
Proof.
  intros Hs N O Hr. pose proof (steps_run _ _ _ _ _ (call_active o (TransferName src) ltac:(done)) Hr) as Hact.
  apply transfer_call_Ok in Hr as (who & to & n & s1 & _ & Hw & [_ Hto] & G & ->); [|done].
  apply (one_name_given n to s); try done.
  - intros m Hne. unfold still_valid. simpl_state.
    rewrite (nm_registrar _ _ _ _ _ G), (nm_now _ _ _ _ _ G). split_and!; [|done..].
    by apply (nm_owners _ _ _ _ _ G).
  - apply (nm_to _ _ _ _ _ G).
  - simpl_state. apply lookup_insert_eq.
  - intros a m Ha. simpl_state. rewrite (nm_registrar _ _ _ _ _ G), lookup_insert_ne by done.
    simpl_state. rewrite !lookup_delete_Some. pose proof (primary_unique s n a who N) as Hu.
    pose proof (ni_primary _ N _ _ Hw) as [_ Hown]. naive_solver.
Qed.

Lemma one_name_accept o name s s' :
  chain_inv s -> names_inv s -> one_name s -> accept_offered_name o name s = (s', Ok tt) -> one_name s'.
Proof.
  intros Hs N O Hr.
  pose proof (steps_run _ _ _ _ _ (call_active o (AcceptOfferedName name) ltac:(done)) Hr) as Hact.
  apply accept_offered_name_Ok in Hr as (who & n & off & f & s1 & -> & Hoff & Hrec & (_ & _ & Hto) & Ha & ->).
  eapply one_name_anchored; [exact Ha|]. destruct (anchored_frame _ _ _ _ Ha) as (_ & _ & _ & Hreg & _).
  destruct (ni_offer _ N _ _ Hoff) as [_ Ho]. rewrite Hrec in Ho.
  apply (one_name_given n who s); try done; simpl_state.
  - unfold no_new_active in *. simpl_state. by rewrite Hreg in Hact.
  - intros m Hne. by rewrite lookup_delete_ne.
  - apply lookup_insert_eq.
  - intros a m Hne. rewrite lookup_insert_ne, lookup_delete_ne by done. split; [|by intros []].
    intros Hm. split; [done|]. intros ->. by destruct (ni_unanswered _ N n a); eauto.
Qed.

Lemma one_name_register o name src rej s s' :
  chain_inv s -> names_inv s -> one_name s -> name_used name ->
  register o name src rej s = (s', Ok tt) -> one_name s'.
Proof.
  intros Hs N O Hused Hr.
  destruct (register_Ok _ _ _ _ _ _ Hs Hused Hr)
    as (caller & to & lab & len & fee & s1 & s2 & -> & _ & _ & Hrej & Hs1 &
        [_ Hfree Hact _ _ HM (f & s3 & Ha & ->)]).
  assert (names_inv s1 /\ one_name s1) as [N1 O1].
  { destruct rej as [r|]; [|by subst]. split; [by eapply names_reject_pending, Hrej|].
    by eapply one_name_reject, Hrej. }
  eapply one_name_anchored; [exact Ha|]. set (n := encode_with_node lab BaseNode) in *.
  apply (one_name_given n to s1); try done.
  - exact (mn_active _ _ _ _ _ _ _ _ HM).
  - intros m Hne. unfold still_valid. simpl_state.
    rewrite (mn_info _ _ _ _ _ _ _ _ HM), (mn_offers _ _ _ _ _ _ _ _ HM), (mn_now _ _ _ _ _ _ _ _ HM),
      lookup_insert_ne by done. split_and!; [|done..]. exact (mn_owners _ _ _ _ _ _ _ _ HM m Hne).
  - exact (mn_owner _ _ _ _ _ _ _ _ HM).
  - simpl_state. apply lookup_insert_eq.
  - intros a m Hne. simpl_state. rewrite lookup_insert_ne, (mn_primary _ _ _ _ _ _ _ _ HM) by done.
    simpl_state. rewrite lookup_delete_ne by done. split; intros [Hm Hnot]; (split; [done|]).
    + intros ->. apply Hnot. split; [by apply (ni_primary _ N1)|done].
    + intros [_ ?]. done.
Qed.

(** What a name bought and delivered leaves of the others. *)
Lemma moved_rest from to n s s' m :
  name_moved from to n s s' -> m <> n ->
  owner_of s' m = owner_of s m /\ (still_valid s' m = true -> still_valid s m = true) /\
  OfferedNames s' !! m = OfferedNames s !! m.
Proof.
  intros G Hne. unfold still_valid. rewrite (nm_registrar _ _ _ _ _ G), (nm_now _ _ _ _ _ G).
  split_and!; [|done..]. by apply (nm_owners _ _ _ _ _ G).
Qed.

Lemma one_name_delivered from buyer n s s' :
  chain_inv s -> names_inv s -> one_name s -> no_new_active s s' ->
  Registrar.transfer_name from buyer n s = (s', Ok tt) -> one_name s'.
Proof.
  intros Hs N O Hact Hr. apply transfer_name_Ok in Hr as (P & s1 & Hto & G & HP & ->); [|done].
  apply (one_name_given n buyer s); try done.
  - intros m Hne. destruct (moved_rest _ _ _ _ _ m G Hne) as (H1 & H2 & H3). by split_and!.
  - exact (nm_to _ _ _ _ _ G).
  - simpl_state. apply lookup_insert_eq.
  - intros a m Ha. simpl_state. rewrite lookup_insert_ne, (HP a m), lookup_delete_ne by done.
    pose proof (primary_unique s n a from N (nm_from _ _ _ _ _ G)). naive_solver.
Qed.

Lemma one_name_gift from buyer recip n s s' :
  chain_inv s -> names_inv s -> one_name s -> no_new_active s s' ->
  Registrar.offer_bought_name from buyer recip n s = (s', Ok tt) -> one_name s'.
Proof.
  intros Hs N O Hact Hr. apply offer_bought_name_Ok in Hr as (P & s1 & f & _ & _ & G & HP & ->); [|done].
  pose proof (primary_unique s n) as Hu. pose proof (nm_from _ _ _ _ _ G) as Hfrom.
  apply (one_name_move n s); try done; simpl_state.
  - intros m Hne. destruct (moved_rest _ _ _ _ _ m G Hne) as (H1 & H2 & H3).
    rewrite lookup_insert_ne by done. by split_and!.
  - intros a m Hne. by intros [? _]%HP.
  - intros a m Hne Ha _. apply HP. naive_solver.
  - intros a [Ha Hnot]%HP. destruct Hnot. split; [by apply (Hu a from)|done].
  - intros a (_ & _ & Hf). simpl_state. by rewrite lookup_insert_eq in Hf.
Qed.

Lemma one_name_buy o name r s s' :
  chain_inv s -> names_inv s -> one_name s -> buy_name o name r s = (s', Ok tt) -> one_name s'.
Proof.
  intros Hs N O Hr. pose proof (steps_run _ _ _ _ _ (call_active o (BuyName name r) ltac:(done)) Hr) as Hact.
  destruct (buy_name_Ok _ _ _ _ _ Hr) as (b & lab & l & s0 & s1 & f & -> & _ & Hp & Hd).
  destruct (purchase_inv _ _ _ _ _ Hs Hp) as [Hs0 _].
  destruct (purchase_names _ _ _ _ _ Hp N) as [N0 _].
  destruct Hp as [_ _ _ _ (c1 & c2 & i & _ & _ & H0)].
  assert (one_name s0) as O0 by (apply (one_name_frame s); subst s0; done).
  assert (no_new_active s0 s') as Hact0 by (by subst s0). clear Hact H0.
  destruct r as [recip|].
  - destruct Hd as (_ & _ & Hd & ->). apply (one_name_frame s1); try done.
    by eapply one_name_gift, Hd.
  - destruct Hd as (s2 & Hd & Ha & ->). eapply one_name_anchored; [exact Ha|].
    apply (one_name_frame s1); try done. eapply one_name_delivered, Hd; try done.
    destruct (anchored_frame _ _ _ _ Ha) as (_ & _ & _ & Hreg & _).
    unfold no_new_active in *. simpl_state. by rewrite Hreg in Hact0.
Qed.

(** Accepting a subdomain: the target held nothing. *)
Lemma one_name_accepted n r s :
  chain_inv s -> one_name s -> Traits.has_valid_canonical_name s (sr_target r) = false ->
  has_active_subname s (sr_target r) = false -> one_name (accepted n r s).
Proof.
  intros Hs [O1 O2 O3] Hcan Hact.
  assert (forall a m, holds_subdomain (accepted n r s) a m ->
    (m = n /\ a = sr_target r) \/ (a <> sr_target r /\ holds_subdomain s a m)) as Hin.
  { intros a m (q & Hq & Hst & Ht). unfold accepted in Hq. simpl_state.
    apply lookup_insert_Some in Hq as [[<- <-]|[Hne Hq]]; [by left|]. right.
    assert (holds_subdomain s a m) as Hold by (by exists q). split; [|done]. intros ->.
    by eapply inactive_holds_none in Hold. }
  split; [| |done].
  - intros a m k [[-> ->]|[? ?]]%Hin [[-> ?]|[? ?]]%Hin; try done. by eapply O1.
  - intros a m k [[-> ->]|[_ Hm]]%Hin; [|by apply (O2 a m)]. intros Hk.
    change (match OwnerToPrimaryName s !! sr_target r with
            | None => false | Some node => still_valid s node end = false) in Hcan.
    change (OwnerToPrimaryName s !! sr_target r = Some k) in Hk. by rewrite Hk in Hcan.
Qed.

Lemma one_name_accept_subdomain o parent label s s' :
  chain_inv s -> one_name s -> accept_subdomain o parent label s = (s', Ok tt) -> one_name s'.
Proof.
  intros Hs O Hr. unfold accept_subdomain, subdomain_node in Hr. inv_call.
  match goal with Hc : accept_subname_offer _ _ _ = _ |- _ =>
    apply accept_subname_offer_Ok in Hc as (Hcan & Hact & r & _ & _ & <- & _ & ->) end.
  match goal with Hu : update_ss58 ?n ?a ?t0 = (?t, _) |- _ =>
    pose proof (update_ss58_frame n a t0) as F; rewrite Hu in F;
    apply (one_name_frame (accepted n r s)); [..|by apply one_name_accepted] end;
    simpl_state; by rewrite F.
Qed.

Lemma one_name_dispatch o c s :
  Forall name_used (new_names c) -> chain_inv s -> names_inv s -> one_name s ->
  one_name (dispatch o c s).1.
Proof.
  intros Hused Hs N O. unfold dispatch, with_storage_layer.
  destruct (call_body o c s) as [s' [[]|e]] eqn:Hr; [|done]. simpl.
  assert ((exists p l, c = AcceptSubdomain p l) \/ forall p l, c <> AcceptSubdomain p l)
    as [(p & l & ->)|Hna] by (destruct c; eauto; by right).
  { by eapply one_name_accept_subdomain, Hr. }
  pose proof (steps_run _ _ _ _ _ (call_active o c Hna) Hr) as Hact.
  destruct (moves_no_name c) eqn:Hc.
  { destruct (fixes_call o c Hused Hc _ _ _ Hs Hr) as [Hs' S]. by apply (one_name_same s). }
  destruct c; try discriminate Hc; simpl in Hr.
  - apply registry_burn_Ok in Hr as (who & n & _ & _ & G); [|done]. by eapply one_name_gone.
  - by eapply one_name_register, Hr; [..|exact (Forall_inv Hused)].
  - by eapply one_name_transfer, Hr.
  - by eapply one_name_release, Hr.
  - by eapply one_name_accept, Hr.
  - by eapply one_name_buy, Hr.
Qed.

Lemma clean_reachable_inv root s :
  clean_reachable root s -> chain_inv s /\ names_inv s /\ one_name s.
Proof.
  intros Hr. induction Hr as [number hash time c s Hg|s s' _ (Hs & N & O) Hstep].
  - split; [apply (reachable_inv root); by eapply reach_genesis|].
    destruct (genesis_no_names _ _ _ _ _ _ Hg) as (H1 & H2 & H3 & H4 & H5).
    split; split; unfold holds_subdomain, holds_name, still_valid; rewrite ?H1, ?H2, ?H3, ?H4;
      try (by intros; naive_solver); by intros n [].
  - destruct Hstep as [o c s Hused Hclean|f s Hnow].
    + split_and!; [by apply dispatch_chain_inv|by apply names_dispatch|by apply one_name_dispatch].
    + split_and!; [by apply (chain_inv_ext s)|by apply (names_frame s)|].
      assert (forall m, still_valid (with_system f s) m = true -> still_valid s m = true) as Hv.
      { intros m. unfold still_valid. simpl_state.
        destruct (RegistrarInfos s !! m); [|done]. rewrite !Z.leb_le. simpl_state. lia. }
      apply (one_name_intro s); [done|by intros ??|auto|].
      intros a n (Ho & Hn & Hf). apply (on_canonical _ O). split_and!; auto.
Qed.

(** C7. One name per account: on a chain without burns through the registry and
    without registrations of names that are pending gifts, an account holds at most
    one accepted subdomain and at most one registered name, and never both. *)
Theorem one_name_per_account (root : AccountId) (s : State) (a : AccountId)
    (Hr : clean_reachable root s) :
  (forall n m, holds_subdomain s a n -> holds_subdomain s a m -> n = m) /\
  (forall n m, holds_name s a n -> holds_name s a m -> n = m) /\
  (forall n m, holds_name s a n -> ~ holds_subdomain s a m).
Proof.
  destruct (clean_reachable_inv _ _ Hr) as (_ & _ & [O1 O2 O3]). split_and!.
  - eauto.
  - intros n m Hn%O3 Hm%O3. congruence.
  - intros n m Hn Hm. pose proof (O2 _ _ _ Hm (O3 _ _ Hn)). destruct Hn as (_ & Hv & _). congruence.
Qed.

End one_name.
