(* ===== verification/NameSpec.v ===== *)
(** * What the naming service promises

    An abstract specification of the service, and the proof that the pallets
    implement it.  A [Ledger] is who holds which name until when, the canonical name
    of each account, the gifts nobody answered and the names for sale; an [Event] is
    what an account does to it.  The runtime keeps the same facts in the token
    storage, four maps of the registrar, the marketplace and the index of the
    registry; [ledger_of] reads the ledger off that storage, and every call is shown
    to be a sequence of events, each of them by the account that signed the call, where
    canonical names, gifts and listings agree with the owners. *)

From Stdlib Require Import ZArith Lia.
From stdpp Require Import base tactics numbers gmap sets fin_sets fin_maps option list_basics list.
From S2P Require Import Prelude RustStr Types Storage Label Nft Traits PriceOracle Resolvers.
From S2P Require Import Registry Registrar Marketplace Template Runtime RegistryInv RegistryTree RegistryOps.
From S2P Require Import ChainInv Genesis Footprints RecordFootprints NameMoves Ownership OneName.

Local Open Scope Z_scope.
Local Open Scope run_scope.

Section spec.
Context `{E : Env} `{C : Config} {HC : ConfigWidths C} {NL : NodeLevels BaseNode}.
Implicit Types s : State.

(** ** The specification *)

Record Holding := mkHolding { h_owner : AccountId; h_until : Z }.

Record Ledger := mkLedger {
  clock : Z;
  held : gmap DomainHash Holding;
  canonical : gmap AccountId DomainHash;
  gifts : gmap DomainHash AccountId;
  asking : gmap DomainHash Listing
}.

Implicit Types L : Ledger.

(** What an account does; the first argument is the account. *)
Inductive Event :=
| EnterName (by_ to : AccountId) (n : DomainHash)
| ExtendTerm (by_ : AccountId)
| GiveName (by_ to : AccountId)
| DropName (by_ : AccountId)
| BurnName (by_ : AccountId) (n : DomainHash)
| AcceptGift (by_ : AccountId) (n : DomainHash)
| RefuseGift (by_ : AccountId) (n : DomainHash)
| AskPrice (by_ : AccountId) (ask until : Z)
| StopAsking (by_ : AccountId)
| TakeListed (by_ : AccountId) (n : DomainHash)
| TakeAsGift (by_ to : AccountId) (n : DomainHash).

Definition actor (e : Event) : AccountId :=
  match e with
  | EnterName a _ _ | ExtendTerm a | GiveName a _ | DropName a | BurnName a _ | AcceptGift a _
  | RefuseGift a _ | AskPrice a _ _ | StopAsking a | TakeListed a _ | TakeAsGift a _ _ => a
  end.

(** A name is in force through its term and the grace period after it. *)
Definition in_force L (n : DomainHash) : bool :=
  match held L !! n with
  | Some h => clock L <=? grace_end (h_until h)
  | None => false
  end.

Definition holds L (a : AccountId) (n : DomainHash) : bool :=
  bool_decide (h_owner <$> held L !! n = Some a).

(** A gift can be accepted within the term only. *)
Definition in_term L (n : DomainHash) : bool :=
  match held L !! n with
  | Some h => clock L <? h_until h
  | None => false
  end.

(** An account without a canonical name in force may get one. *)
Definition may_receive L (a : AccountId) : bool :=
  match canonical L !! a with
  | Some n => negb (in_force L n)
  | None => true
  end.

(** A listing its seller can still honour and that has not run out. *)
Definition on_offer L (n : DomainHash) : option Listing :=
  match asking L !! n with
  | Some l => if holds L (seller l) n && in_force L n && (clock L <? expires_at l)
              then Some l else None
  | None => None
  end.

Definition place L (n : DomainHash) (to : AccountId) (until : Z) : Ledger :=
  mkLedger (clock L) (<[n := mkHolding to until]> (held L)) (canonical L) (gifts L) (asking L).

Definition vacate L (n : DomainHash) : Ledger :=
  mkLedger (clock L) (delete n (held L)) (canonical L) (gifts L) (asking L).

Definition hand_over L (n : DomainHash) (to : AccountId) : Ledger :=
  match held L !! n with
  | Some h => place L n to (h_until h)
  | None => L
  end.

Definition set_canonical (f : gmap AccountId DomainHash -> gmap AccountId DomainHash) L : Ledger :=
  mkLedger (clock L) (held L) (f (canonical L)) (gifts L) (asking L).

Definition set_gifts (f : gmap DomainHash AccountId -> gmap DomainHash AccountId) L : Ledger :=
  mkLedger (clock L) (held L) (canonical L) (f (gifts L)) (asking L).

Definition set_asking (f : gmap DomainHash Listing -> gmap DomainHash Listing) L : Ledger :=
  mkLedger (clock L) (held L) (canonical L) (gifts L) (f (asking L)).

(** [n] is nobody's canonical name any more. *)
Definition forget (n : DomainHash) (P : gmap AccountId DomainHash) : gmap AccountId DomainHash :=
  filter (fun p => p.2 <> n) P.

(** [n] becomes the canonical name of [a] alone. *)
Definition settle (a : AccountId) (n : DomainHash) L : Ledger :=
  set_canonical (fun P => <[a := n]> (forget n P)) L.

Definition when (b : bool) (L : Ledger) : option Ledger := if b then Some L else None.

Definition perform (e : Event) L : option Ledger :=
  match e with
  | EnterName _ to n =>
      when (negb (in_force L n) && may_receive L to)
        (settle to n (place L n to (clock L + MaxRegistrationDuration)))
  | ExtendTerm a =>
      n ← canonical L !! a;
      when (holds L a n && in_force L n) (place L n a (clock L + MaxRegistrationDuration))
  | GiveName a to =>
      n ← canonical L !! a;
      when (holds L a n && in_force L n && may_receive L to) (settle to n (hand_over L n to))
  | DropName a =>
      n ← canonical L !! a;
      when (holds L a n) (set_canonical (delete a) (vacate L n))
  | BurnName a n => when (holds L a n) (vacate L n)
  | AcceptGift a n =>
      when (bool_decide (gifts L !! n = Some a) && holds L a n && in_term L n && may_receive L a)
        (settle a n (set_gifts (delete n) L))
  | RefuseGift a n =>
      when (bool_decide (gifts L !! n = Some a) && holds L a n)
        (set_gifts (delete n) (vacate L n))
  | AskPrice a ask until =>
      n ← canonical L !! a;
      when (holds L a n && (clock L <? until) && bool_decide (asking L !! n = None))
        (set_asking (<[n := mkListing a ask until]>) L)
  | StopAsking a =>
      n ← canonical L !! a;
      when (bool_decide (is_Some (asking L !! n))) (set_asking (delete n) L)
  | TakeListed a n =>
      l ← on_offer L n;
      when (bool_decide (a <> seller l) && may_receive L a)
        (settle a n (set_asking (delete n) (hand_over L n a)))
  | TakeAsGift a to n =>
      l ← on_offer L n;
      when (bool_decide (a <> seller l) && bool_decide (to <> a) && bool_decide (to <> seller l) &&
            bool_decide (gifts L !! n = None) && may_receive L to)
        (set_canonical (forget n) (set_gifts (<[n := to]>) (set_asking (delete n) (hand_over L n to))))
  end.

Fixpoint performs (es : list Event) L : option Ledger :=
  match es with
  | [] => Some L
  | e :: es => L' ← perform e L; performs es L'
  end.

(** ** The ledger of the pallets *)

Definition holdings s : gmap DomainHash Holding :=
  map_imap (fun n i => (fun o => mkHolding o (ri_expire i)) <$> owner_of s n) (RegistrarInfos s).

Definition ledger_of s : Ledger :=
  mkLedger (now s) (holdings s) (OwnerToPrimaryName s) (on_recipient <$> OfferedNames s) (Listings s).

(** The gift a registration refuses beforehand; a subdomain offer is no gift. *)
Definition refusal s (who : AccountId) (rej : option bytes) : list Event :=
  match rej ≫= fun r => parse_name_to_node r BaseNode with
  | Some n => if bool_decide (is_Some (OfferedNames s !! n)) then [RefuseGift who n] else []
  | None => []
  end.

(** What a call that [who] signed means for the ledger, if it succeeds. *)
Definition meaning (who : AccountId) (c : RuntimeCall) s : list Event :=
  match c with
  | RegistryBurn name =>
      option_list (BurnName who <$> parse_name_to_node name BaseNode)
  | Register name owner rej =>
      refusal s who rej ++
      option_list (to ← lookup_account owner; EnterName who to <$> bare_node name)
  | Renew => [ExtendTerm who]
  | TransferName to => option_list (GiveName who <$> lookup_account to)
  | ReleaseName => [DropName who]
  | AcceptOfferedName name => option_list (AcceptGift who <$> bare_node name)
  | CreateListing ask until => [AskPrice who ask until]
  | CancelListing => [StopAsking who]
  | BuyName name None => option_list (TakeListed who <$> bare_node name)
  | BuyName name (Some recip) => option_list (TakeAsGift who recip <$> bare_node name)
  | _ => []
  end.

Definition signer_meaning (o : RawOrigin) (c : RuntimeCall) s : list Event :=
  match o with
  | RawOrigin.Signed who => meaning who c s
  | _ => []
  end.

(** ** The ledger of a state *)

Lemma lookup_holdings s n :
  holdings s !! n = RegistrarInfos s !! n ≫= fun i => (fun o => mkHolding o (ri_expire i)) <$> owner_of s n.
Proof. unfold holdings. by rewrite map_lookup_imap. Qed.

Lemma ledger_ext s s' :
  now s' = now s -> holdings s' = holdings s -> OwnerToPrimaryName s' = OwnerToPrimaryName s ->
  OfferedNames s' = OfferedNames s -> Listings s' = Listings s -> ledger_of s' = ledger_of s.
Proof. unfold ledger_of. by intros -> -> -> -> ->. Qed.

Lemma holdings_ext s s' :
  (forall n, is_Some (RegistrarInfos s !! n) -> owner_of s' n = owner_of s n) ->
  RegistrarInfos s' = RegistrarInfos s -> holdings s' = holdings s.
Proof.
  intros Ho Hi. apply map_eq. intros n. rewrite !lookup_holdings, Hi.
  destruct (RegistrarInfos s !! n) eqn:Hn; [|done]. simpl. rewrite Ho; [done|]. by rewrite Hn.
Qed.

(** A registered name has an owner, and the other way round. *)
Lemma info_owner s n i :
  chain_inv s -> RegistrarInfos s !! n = Some i -> is_top n = true /\ is_Some (owner_of s n).
Proof.
  intros Hs Hi. assert (RuntimeOriginOf s !! n = Some Root) as Ho by (apply (ch_info _ Hs); eauto).
  destruct (tree_origin _ _ (ch_tree _ Hs) _ _ Ho) as (_ & Ht & [k Hk]). split; [done|].
  unfold owner_of, tokens. by rewrite Hk.
Qed.

Lemma owner_info s n a :
  chain_inv s -> is_top n = true -> owner_of s n = Some a -> exists i, RegistrarInfos s !! n = Some i.
Proof.
  intros Hs Ht (k & Hk & _)%owner_of_Some. apply (ch_info _ Hs).
  eapply (tree_token _ _ (ch_tree _ Hs)); [exact Hk|]. by apply top_not_BaseNode.
Qed.

Lemma in_force_of s n : chain_inv s -> in_force (ledger_of s) n = still_valid s n.
Proof.
  intros Hs. unfold in_force, still_valid. simpl. rewrite lookup_holdings.
  destruct (RegistrarInfos s !! n) as [i|] eqn:Hi; [|done].
  destruct (info_owner _ _ _ Hs Hi) as [_ [a Ha]]. simpl. by rewrite Ha.
Qed.

Lemma holds_of s n a :
  chain_inv s -> is_top n = true -> owner_of s n = Some a -> holds (ledger_of s) a n = true.
Proof.
  intros Hs Ht Ha. destruct (owner_info _ _ _ Hs Ht Ha) as [i Hi]. apply bool_decide_eq_true.
  simpl. rewrite lookup_holdings, Hi. simpl. by rewrite Ha.
Qed.

Lemma in_term_of s n :
  chain_inv s -> still_usable s n -> in_term (ledger_of s) n = true.
Proof.
  intros Hs (i & Hi & Hnow). destruct (info_owner _ _ _ Hs Hi) as [_ [a Ha]].
  unfold in_term. simpl. rewrite lookup_holdings, Hi. simpl. rewrite Ha. simpl. lia.
Qed.

Lemma may_receive_of s a : chain_inv s -> nameless s a -> may_receive (ledger_of s) a = true.
Proof.
  intros Hs [Hn _]. unfold may_receive. simpl. destruct (OwnerToPrimaryName s !! a) as [n|]; [|done].
  by rewrite in_force_of, Hn.
Qed.

(** ** Holdings after a name moved *)

Lemma holdings_gone from n s s' : name_gone from n s s' -> holdings s' = delete n (holdings s).
Proof.
  intros G. apply map_eq. intros m. rewrite lookup_holdings, (ng_info _ _ _ _ G).
  destruct (decide (m = n)) as [->|Hne]; [by rewrite !lookup_delete_eq|].
  by rewrite !lookup_delete_ne, lookup_holdings, (ng_owners _ _ _ _ G).
Qed.

Lemma holdings_moved from to n s s' :
  chain_inv s -> name_moved from to n s s' ->
  exists h, holdings s !! n = Some h /\ holdings s' = <[n := mkHolding to (h_until h)]> (holdings s).
Proof.
  intros Hs G. destruct (owner_info _ _ _ Hs (nm_top _ _ _ _ _ G) (nm_from _ _ _ _ _ G)) as [i Hi].
  exists (mkHolding from (ri_expire i)). split.
  { by rewrite lookup_holdings, Hi; simpl; rewrite (nm_from _ _ _ _ _ G). }
  apply map_eq. intros m. rewrite lookup_holdings, (nm_registrar _ _ _ _ _ G).
  destruct (decide (m = n)) as [->|Hne].
  - by rewrite lookup_insert_eq, Hi; simpl; rewrite (nm_to _ _ _ _ _ G).
  - by rewrite lookup_insert_ne, lookup_holdings, (nm_owners _ _ _ _ _ G).
Qed.

Lemma holdings_minted caller to n fee ex len s s' :
  name_minted caller to n fee ex len s s' -> holdings s' = <[n := mkHolding to ex]> (holdings s).
Proof.
  intros G. apply map_eq. intros m. rewrite lookup_holdings, (mn_info _ _ _ _ _ _ _ _ G).
  destruct (decide (m = n)) as [->|Hne].
  - by rewrite !lookup_insert_eq; simpl; rewrite (mn_owner _ _ _ _ _ _ _ _ G).
  - by rewrite !lookup_insert_ne, lookup_holdings, (mn_owners _ _ _ _ _ _ _ _ G).
Qed.

Lemma holdings_nft s s' :
  st_nft s' = st_nft s -> RegistrarInfos s' = RegistrarInfos s -> holdings s' = holdings s.
Proof. intros H1 H2. apply holdings_ext; [|done]. intros n _. by apply owner_of_nft. Qed.

Lemma lookup_forget n P (a : AccountId) m : forget n P !! a = Some m <-> P !! a = Some m /\ m <> n.
Proof. unfold forget. by rewrite map_lookup_filter_Some. Qed.

(** Two indexes with the same entries for names other than [n] agree, if only [a] has [n]. *)
Lemma settled (a : AccountId) n (P P' : gmap AccountId DomainHash) :
  P' !! a = Some n ->
  (forall b m, b <> a -> P' !! b = Some m <-> P !! b = Some m /\ m <> n) ->
  P' = <[a := n]> (forget n P).
Proof.
  intros Ha Hb. apply map_eq. intros b. destruct (decide (b = a)) as [->|Hne].
  - by rewrite lookup_insert_eq.
  - rewrite lookup_insert_ne by done. apply option_eq. intros m. by rewrite lookup_forget, Hb.
Qed.

(** Nobody but the owner has [n] as canonical name. *)
Lemma canonical_other s n a b m :
  names_inv s -> owner_of s n = Some a -> OwnerToPrimaryName s !! b = Some m -> b <> a -> m <> n.
Proof. intros N Ha Hb Hne ->. by eapply Hne, primary_unique. Qed.

Definition refines_call (o : RawOrigin) (c : RuntimeCall) s s' : Prop :=
  performs (signer_meaning o c s) (ledger_of s) = Some (ledger_of s').

Lemma perform_one e L L' : perform e L = Some L' -> performs [e] L = Some L'.
Proof. simpl. by intros ->. Qed.

Lemma when_true b L : b = true -> when b L = Some L.
Proof. by intros ->. Qed.

Lemma refines_release o s s' :
  chain_inv s -> names_inv s -> release_name o s = (s', Ok tt) -> refines_call o ReleaseName s s'.
Proof.
  intros Hs N Hr. apply release_name_Ok in Hr as (who & n & -> & Hw & G); [|done].
  apply perform_one. simpl. rewrite Hw. simpl.
  destruct (ni_primary _ N _ _ Hw) as [Ht Ho]. rewrite (holds_of s n who) by done. simpl. f_equal.
  unfold ledger_of, set_canonical, vacate. simpl. rewrite (holdings_gone _ _ _ _ G).
  destruct G as [_ _ _ _ _ Gp Gf Gl Gn]. rewrite Gp, Gf, Gl, Gn. done.
Qed.

Lemma refines_burn o name s s' :
  chain_inv s -> Registry.burn o name s = (s', Ok tt) -> refines_call o (RegistryBurn name) s s'.
Proof.
  intros Hs Hr. apply registry_burn_Ok in Hr as (who & n & -> & Hp & G); [|done].
  unfold refines_call. simpl. rewrite Hp. apply perform_one. simpl.
  rewrite (holds_of s n who) by (done || apply G). simpl. f_equal.
  unfold ledger_of, vacate. simpl. rewrite (holdings_gone _ _ _ _ G).
  destruct G as [_ _ _ _ _ Gp Gf Gl Gn]. rewrite Gp, Gf, Gl, Gn. done.
Qed.

Lemma chain_inv_primary f s : chain_inv s -> chain_inv (upd_OwnerToPrimaryName f s).
Proof. by apply chain_inv_ext. Qed.

Lemma refines_transfer o src s s' :
  chain_inv s -> names_inv s -> Registrar.transfer o src s = (s', Ok tt) ->
  refines_call o (TransferName src) s s'.
Proof.
  intros Hs N Hr.
  apply transfer_call_Ok in Hr as (who & to & n & s1 & -> & Hw & [Hto Hfree] & G & ->); [|done].
  destruct (ni_primary _ N _ _ Hw) as [Ht Ho].
  unfold refines_call. simpl. rewrite Hto. apply perform_one. simpl. rewrite Hw. simpl.
  pose proof (nm_valid _ _ _ _ _ G : still_valid s n = true) as Hv.
  rewrite (holds_of s n who), in_force_of, Hv, (may_receive_of s to) by done. simpl. f_equal.
  destruct (holdings_moved _ _ _ _ _ (chain_inv_primary _ s Hs) G) as (h & Hh & Hhs).
  change (holdings s !! n = Some h) in Hh. destruct G as [_ _ _ _ _ Gr Gl Gn _ _ _ _].
  unfold hand_over. simpl. rewrite Hh. unfold settle, set_canonical, place, ledger_of. simpl.
  match goal with |- _ = mkLedger _ (holdings ?x) _ _ _ => rewrite (holdings_nft s1 x) by done end.
  rewrite Hhs, Gn, Gl, Gr. simpl. f_equal. symmetry. apply settled.
  - apply lookup_insert_eq.
  - intros b m Hb. rewrite lookup_insert_ne, !lookup_delete_Some by done.
    split; [intros (Hne & _ & Hm); split; [done|by eapply canonical_other]|].
    intros [Hm Hne]. split_and!; [congruence|done..].
Qed.

Lemma refines_accept o name s s' :
  chain_inv s -> names_inv s -> accept_offered_name o name s = (s', Ok tt) ->
  refines_call o (AcceptOfferedName name) s s'.
Proof.
  intros Hs N Hr.
  apply accept_offered_name_Ok in Hr
    as (who & n & off & f & s1 & -> & Hoff & Hrec & (Hlab & Huse & Hfree) & Ha & ->).
  destruct (ni_offer _ N _ _ Hoff) as [Ht Ho]. rewrite Hrec in Ho.
  unfold refines_call. simpl. rewrite Hlab. apply perform_one. simpl.
  rewrite lookup_fmap, Hoff. simpl. rewrite Hrec, bool_decide_true by done.
  rewrite (holds_of s n who), (in_term_of s n), (may_receive_of s who) by done. simpl. f_equal.
  destruct (anchored_frame _ _ _ _ Ha) as (A1 & A2 & A3 & _ & A5).
  unfold ledger_of, settle, set_canonical, set_gifts. simpl.
  match goal with |- _ = mkLedger _ (holdings ?x) _ _ _ =>
    rewrite (holdings_nft s x) by (simpl; rewrite ?A1, ?A2; done) end.
  rewrite A2, A3, A5. simpl. rewrite fmap_delete. f_equal. symmetry. apply settled.
  - apply lookup_insert_eq.
  - intros b m Hb. rewrite lookup_insert_ne, lookup_delete_Some by done.
    split; [|naive_solver]. intros [_ Hm]. split; [done|by eapply canonical_other].
Qed.

(** Entering a name, once the rejected offer is out of the way. *)
Lemma refines_registered caller to lab fee len s1 s2 s' :
  chain_inv s1 -> names_inv s1 -> registered caller to lab fee len s1 s2 s' ->
  perform (EnterName caller to (encode_with_node lab BaseNode)) (ledger_of s1) = Some (ledger_of s').
Proof.
  intros Hs N [_ Hfree Hact _ _ HM (f & s3 & Ha & ->)]. set (n := encode_with_node lab BaseNode) in *.
  destruct (anchored_frame _ _ _ _ Ha) as (A1 & A2 & A3 & _ & A5). simpl.
  assert (still_valid s1 n = false) as Hv.
  { destruct (still_valid s1 n) eqn:Hv; [|done]. pose proof (still_valid_top _ _ Hs Hv) as Ht.
    unfold still_valid in Hv. destruct (RegistrarInfos s1 !! n) as [i|] eqn:Hi; [|done].
    destruct (info_owner _ _ _ Hs Hi) as [_ [w Hw]].
    pose proof (mn_lapsed _ _ _ _ _ _ _ _ HM w Hw) as Hl. unfold still_valid in Hl.
    simpl_state. rewrite Hi in Hl. congruence. }
  rewrite in_force_of, Hv, (may_receive_of s1 to) by (done || by split). simpl. f_equal.
  pose proof (holdings_minted _ _ _ _ _ _ _ _ HM) as Hh. destruct HM as [_ _ _ _ _ _ Mp Mf Ml Mn _ _ _].
  unfold ledger_of, settle, set_canonical, place. simpl.
  match goal with |- _ = mkLedger _ (holdings ?x) _ _ _ =>
    rewrite (holdings_nft s2 x) by (simpl; rewrite ?A1, ?A2; done) end.
  rewrite Hh, A2, A3, A5. simpl. rewrite Mn, Mf, Ml. f_equal. symmetry. apply settled.
  - apply lookup_insert_eq.
  - intros b m Hb. rewrite lookup_insert_ne, Mp by done. simpl. rewrite lookup_delete_Some.
    split; [intros [[_ Hm] Hno]; split; [done|]|naive_solver].
    intros ->. apply Hno. split; [|done]. by apply (ni_primary _ N).
Qed.

(** Rejecting an offer along with a registration. *)
Lemma refines_reject caller r s s' :
  chain_inv s -> names_inv s -> reject_pending caller r s = (s', Ok tt) ->
  performs (refusal s caller (Some r)) (ledger_of s) = Some (ledger_of s').
Proof.
  intros Hs N Hr. unfold reject_pending, deposit_event in Hr. unfold refusal. simpl. inv_ok.
  match goal with Hp : parse_name_to_node r BaseNode = Some ?n |- _ => rewrite Hp; rename n into m end.
  destruct (OfferedNames s !! m) as [off|] eqn:Hoff; inv_ok; tidy;
    repeat match goal with u : unit |- _ => destruct u end.
  - match goal with Hb : do_burn _ _ _ = _ |- _ =>
      apply do_burn_gone in Hb as G; [|by apply (chain_inv_ext s)] end.
    rewrite bool_decide_true by eauto. apply perform_one. simpl. rewrite lookup_fmap, Hoff. simpl.
    destruct (ni_offer _ N _ _ Hoff) as [Ht Ho].
    rewrite bool_decide_true, (holds_of s m (on_recipient off)) by done. simpl. f_equal.
    unfold ledger_of, set_gifts, vacate. simpl.
    match type of G with name_gone _ _ _ ?x => match goal with |- _ = mkLedger _ (holdings ?y) _ _ _ =>
      rewrite (holdings_nft x y) by done end end.
    rewrite (holdings_gone _ _ _ _ G). destruct G as [_ _ _ _ _ Gp Gf Gl Gn].
    rewrite Gp, Gf, Gl, Gn. simpl. by rewrite fmap_delete.
  - rewrite bool_decide_false by (by intros []). simpl. f_equal. symmetry.
    match goal with Hb : revoke_pending_offer_for_target _ _ _ = _ |- _ =>
      pose proof (fixes_revoke_pending _ _ _ _ _ Hs Hb) as [_ S];
      apply revoke_pending_inv in Hb as (x & _ & _ & _ & Hv) end.
    destruct (revoke_subname_inv _ _ _ _ (ch_tree _ Hs) Hv) as (_ & Hout & _).
    unfold outside in Hout. simpl_state. injection Hout as H1 H2 _ _ _ _ H3.
    apply ledger_ext; simpl; rewrite ?H1, ?H2, ?H3; try done.
    apply holdings_ext; [|simpl; by rewrite H1]. intros k [j Hk]. apply (sn_owner _ _ S).
    by eapply info_owner.
Qed.

Lemma performs_app es es' L L' :
  performs es L = Some L' -> performs (es ++ es') L = performs es' L'.
Proof.
  revert L. induction es as [|e es IH]; intros L; simpl; [by intros [= ->]|].
  destruct (perform e L); [apply IH|done].
Qed.

Lemma refines_register o name src rej s s' :
  chain_inv s -> names_inv s -> name_used name -> register o name src rej s = (s', Ok tt) ->
  refines_call o (Register name src rej) s s'.
Proof.
  intros Hs N Hused Hr.
  destruct (register_Ok _ _ _ _ _ _ Hs Hused Hr)
    as (caller & to & lab & len & fee & s1 & s2 & -> & Hto & Hnew & Hrej & Hs1 & HR).
  unfold refines_call. simpl. rewrite Hto. unfold bare_node. rewrite Hnew. simpl.
  assert (performs (refusal s caller rej) (ledger_of s) = Some (ledger_of s1) /\ names_inv s1) as [H1 N1].
  { destruct rej as [r|]; [|by subst]. split; [by apply refines_reject|].
    by destruct (names_reject_pending _ _ _ _ Hs N Hrej). }
  rewrite (performs_app _ _ _ _ H1). apply perform_one. by eapply refines_registered.
Qed.

(** ** Terms and sales *)

Lemma refines_renew o s s' :
  chain_inv s -> names_inv s -> renew o s = (s', Ok tt) -> refines_call o Renew s s'.
Proof.
  intros Hs N Hr. unfold renew in Hr. inv_call.
  match goal with Hb : burn_from _ _ _ = _ |- _ => apply burn_from_Ok in Hb as (c & j & _ & ->) end.
  match goal with Hp : OwnerToPrimaryName _ !! ?a = Some ?n, Hi : RegistrarInfos _ !! ?n = Some ?i |- _ =>
    rename Hp into Hw, Hi into Hinf; rename a into who, n into m, i into old end.
  destruct (ni_primary _ N _ _ Hw) as [Ht Ho].
  apply perform_one. simpl. rewrite Hw. simpl. rewrite (holds_of s m who), in_force_of by done.
  assert (still_valid s m = true) as Hv by (unfold still_valid; rewrite Hinf; by apply Z.leb_le).
  rewrite Hv. simpl. f_equal. unfold place, ledger_of. simpl. f_equal.
  apply map_eq. intros k. rewrite lookup_holdings. simpl. subst.
  destruct (decide (k = m)) as [->|Hne].
  - rewrite !lookup_insert_eq. simpl. change (owner_of _ m) with (owner_of s m) at 1. by rewrite Ho.
  - by rewrite !lookup_insert_ne, lookup_holdings.
Qed.

Lemma refines_create_listing o ask until s s' :
  chain_inv s -> names_inv s -> create_listing o ask until s = (s', Ok tt) ->
  refines_call o (CreateListing ask until) s s'.
Proof.
  intros Hs N Hr. unfold create_listing in Hr. inv_call.
  match goal with Hp : Traits.canonical_name _ ?a = Some ?n |- _ =>
    change (OwnerToPrimaryName s !! a = Some n) in Hp;
    destruct (ni_primary _ N _ _ Hp) as [Ht Ho]; apply perform_one; simpl; rewrite Hp; simpl;
    rewrite (holds_of s n a) by done end.
  rewrite (proj2 (Z.ltb_lt _ _)), bool_decide_true by done. done.
Qed.

Lemma refines_cancel_listing o s s' :
  cancel_listing o s = (s', Ok tt) -> refines_call o CancelListing s s'.
Proof.
  intros Hr. unfold cancel_listing in Hr. inv_call.
  match goal with Hp : Traits.canonical_name _ ?a = Some ?n |- _ =>
    change (OwnerToPrimaryName s !! a = Some n) in Hp; apply perform_one; simpl; rewrite Hp; simpl end.
  rewrite bool_decide_true; [done|]. by apply not_eq_None_Some.
Qed.

Lemma bare_node_new name : bare_node name = (fun l => encode_with_node l BaseNode) <$> Label_new name.
Proof.
  unfold bare_node, new_with_len, Label_new. destruct (check_label name); [|done].
  by destruct (from_utf8 name).
Qed.

Lemma on_offer_of buyer l n s s0 :
  chain_inv s -> is_top n = true -> purchase buyer l n s s0 -> still_valid s n = true ->
  on_offer (ledger_of s) n = Some l.
Proof.
  intros Hs Ht [P1 _ P3 P4 _] Hv. unfold on_offer. simpl. rewrite P1.
  rewrite (holds_of s n (seller l)), in_force_of, Hv by done. simpl.
  by rewrite (proj2 (Z.ltb_lt _ _)).
Qed.

(** The name bought, in the hands of [to]. *)
Lemma holdings_bought buyer l n to f s s0 s1 :
  chain_inv s0 -> purchase buyer l n s s0 ->
  name_moved (seller l) to n (upd_OwnerToPrimaryName f s0) s1 ->
  hand_over (ledger_of s) n to =
    mkLedger (now s) (holdings s1) (OwnerToPrimaryName s) (on_recipient <$> OfferedNames s) (Listings s) /\
  still_valid s n = true.
Proof.
  intros Hs [_ _ _ _ (c1 & c2 & i & _ & _ & Hs0)] G.
  destruct (holdings_moved _ _ _ _ _ (chain_inv_primary f s0 Hs) G) as (h & Hh & Hhs).
  pose proof (nm_valid _ _ _ _ _ G) as Hv. subst s0. change (holdings s !! n = Some h) in Hh.
  split; [|done]. unfold hand_over. simpl. by rewrite Hh, Hhs.
Qed.

(** Forgetting the seller's canonical name leaves it to nobody. *)
Lemma without_seller_forget seller n s P :
  names_inv s -> owner_of s n = Some seller -> without_seller seller n (OwnerToPrimaryName s) P ->
  P = forget n (OwnerToPrimaryName s).
Proof.
  intros N Ho HP. apply map_eq. intros b. apply option_eq. intros m.
  rewrite lookup_forget, (HP b m). split; [|naive_solver].
  intros [Hb Hno]. split; [done|]. intros ->. apply Hno. split; [by eapply primary_unique|done].
Qed.

Lemma refines_bought_gift buyer l n recip f s s0 s1 :
  chain_inv s -> names_inv s -> purchase buyer l n s s0 -> recip <> buyer -> recip <> seller l ->
  Registrar.offer_bought_name (seller l) buyer recip n s0 = (s1, Ok tt) ->
  perform (TakeAsGift buyer recip n) (ledger_of s) = Some (ledger_of (upd_events f s1)).
Proof.
  intros Hs N Hp Hb Hsl Hd. destruct (purchase_inv _ _ _ _ _ Hs Hp) as [Hs0 Hn0].
  destruct (purchase_names _ _ _ _ _ Hp N) as (N0 & Hl0 & Hr0 & Hno).
  apply offer_bought_name_Ok in Hd as (P & s2 & g & _ & Hfree & G & HP & ->); [|done].
  pose proof (nm_top _ _ _ _ _ G) as Ht.
  assert (name_moved (seller l) recip n (upd_OwnerToPrimaryName (fun x => x) s0) s2) as G'
    by (by destruct s0 as [? ? []]).
  destruct (holdings_bought _ _ _ _ _ _ _ _ Hs0 Hp G') as [Hh Hv]. clear G'.
  simpl. rewrite (on_offer_of buyer l n s s0) by done. simpl.
  assert (nameless s recip) as Hfree' by (destruct Hp as [_ _ _ _ (? & ? & ? & _ & _ & ->)]; done).
  rewrite lookup_fmap, Hno, !bool_decide_true, (may_receive_of s recip) by (done || apply Hp). simpl.
  f_equal. rewrite Hh. unfold set_canonical, set_gifts, set_asking, ledger_of. simpl.
  pose proof (pu_owner _ _ _ _ _ Hp) as Ho. rewrite Hr0 in HP.
  pose proof (without_seller_forget _ _ _ _ N Ho HP) as ->.
  assert (now s0 = now s) as Hnow by (destruct Hp as [_ _ _ _ (? & ? & ? & _ & _ & ->)]; done).
  destruct G as [_ _ _ _ _ Gr Gl Gn _ _ _ _]. rewrite Gr, Gl, Gn, Hr0, Hl0, Hnow.
  by rewrite fmap_insert.
Qed.

Lemma refines_bought buyer l n f s s0 s1 s2 :
  chain_inv s -> names_inv s -> purchase buyer l n s s0 ->
  Registrar.transfer_name (seller l) buyer n s0 = (s1, Ok tt) ->
  anchored n buyer (Resolvers.clear_records_except_ss58 n s1) s2 ->
  perform (TakeListed buyer n) (ledger_of s) = Some (ledger_of (upd_events f s2)).
Proof.
  intros Hs N Hp Hd Ha. destruct (purchase_inv _ _ _ _ _ Hs Hp) as [Hs0 Hn0].
  destruct (purchase_names _ _ _ _ _ Hp N) as (N0 & Hl0 & Hr0 & Hno).
  apply transfer_name_Ok in Hd as (P & s3 & Hfree & G & HP & ->); [|done].
  pose proof (nm_top _ _ _ _ _ G) as Ht. pose proof (pu_owner _ _ _ _ _ Hp) as Ho.
  destruct (holdings_bought _ _ _ _ _ _ _ _ Hs0 Hp G) as [Hh Hv].
  simpl. rewrite (on_offer_of buyer l n s s0) by done. simpl.
  assert (nameless s buyer) as Hfree' by (destruct Hp as [_ _ _ _ (? & ? & ? & _ & _ & ->)]; done).
  rewrite !bool_decide_true, (may_receive_of s buyer) by (done || apply Hp). simpl. f_equal.
  rewrite Hh. destruct (anchored_frame _ _ _ _ Ha) as (A1 & A2 & A3 & _ & A5).
  assert (now s0 = now s) as Hnow by (destruct Hp as [_ _ _ _ (? & ? & ? & _ & _ & ->)]; done).
  unfold settle, set_canonical, set_asking, ledger_of. simpl.
  match goal with |- _ = mkLedger _ (holdings ?x) _ _ _ =>
    rewrite (holdings_nft s3 x) by (simpl; rewrite ?A1, ?A2; done) end.
  destruct G as [_ _ _ _ _ Gr Gl Gn _ _ _ _]. rewrite A2, A3, A5. simpl.
  rewrite Gr, Gl, Gn. simpl. rewrite Hr0, Hl0, Hnow. f_equal. symmetry. apply settled.
  - apply lookup_insert_eq.
  - intros b m Hb. rewrite lookup_insert_ne, (HP b m), Hr0, lookup_delete_Some by done.
    split; [|naive_solver]. intros [[_ Hm] Hnot]. split; [done|]. intros ->. apply Hnot.
    split; [exact (primary_unique _ _ _ _ N Ho Hm)|done].
Qed.

Lemma refines_buy o name r s s' :
  chain_inv s -> names_inv s -> buy_name o name r s = (s', Ok tt) ->
  refines_call o (BuyName name r) s s'.
Proof.
  intros Hs N Hr.
  destruct (buy_name_Ok _ _ _ _ _ Hr) as (buyer & lab & l & s0 & s1 & f & -> & Hlab & Hp & Hd).
  unfold refines_call. simpl. rewrite bare_node_new, Hlab. simpl. destruct r as [recip|].
  - destruct Hd as (H1 & H2 & Hd & ->). apply perform_one. by eapply refines_bought_gift.
  - destruct Hd as (s2 & Hd & Ha & ->). apply perform_one. by eapply refines_bought.
Qed.

(** ** The other calls *)

(** The calls that leave the ledger alone. *)
Definition off_ledger (c : RuntimeCall) : bool :=
  match c with
  | Renew | CreateListing _ _ | CancelListing => false
  | _ => moves_no_name c
  end.

Definition same_terms s s' : Prop :=
  RegistrarInfos s' = RegistrarInfos s /\ Listings s' = Listings s.

#[local] Instance same_terms_preorder : PreOrder same_terms.
Proof. split; [done|]. intros s1 s2 s3 [H1 H2] [H3 H4]. split; congruence. Qed.

Lemma call_terms o c : off_ledger c = true -> steps same_terms (call_body o c).
Proof.
  intros Hc. destruct c; try discriminate Hc; simpl; open_calls; solve_steps;
    first [done | exact (steps_pure _ _ (pure_ensure_origin _))].
Qed.

Lemma meaning_off_ledger o c s : off_ledger c = true -> signer_meaning o c s = [].
Proof. intros Hc. destruct o; try done. by destruct c. Qed.

Lemma refines_off_ledger o c s s' :
  Forall name_used (new_names c) -> off_ledger c = true -> chain_inv s ->
  call_body o c s = (s', Ok tt) -> refines_call o c s s'.
Proof.
  intros Hused Hc Hs Hr. unfold refines_call. rewrite meaning_off_ledger by done. simpl. f_equal.
  destruct (steps_run _ _ _ _ _ (call_terms o c Hc) Hr) as [Hi Hl].
  assert (moves_no_name c = true) as Hm by (by destruct c).
  destruct (fixes_call o c Hused Hm _ _ _ Hs Hr) as [_ S]. symmetry.
  apply ledger_ext; [apply S| |apply S|apply S|done].
  apply holdings_ext; [|done]. intros n [i Hn]. apply (sn_owner _ _ S). by eapply info_owner.
Qed.

Lemma refines_body o c s s' :
  Forall name_used (new_names c) -> chain_inv s -> names_inv s ->
  call_body o c s = (s', Ok tt) -> refines_call o c s s'.
Proof.
  intros Hused Hs N Hr. destruct (off_ledger c) eqn:Hc; [by apply refines_off_ledger|].
  destruct c; try discriminate Hc; simpl in Hr.
  - by apply refines_burn.
  - apply refines_register; try done. exact (Forall_inv Hused).
  - by apply refines_renew.
  - by apply refines_transfer.
  - by apply refines_release.
  - by apply refines_accept.
  - by apply refines_create_listing.
  - by apply refines_cancel_listing.
  - by apply refines_buy.
Qed.

(** What the ledger of a chain can have been through: events and the passing of time. *)
Inductive ledger_reachable : Ledger -> Prop :=
| ledger_start t : ledger_reachable (mkLedger t ∅ ∅ ∅ ∅)
| ledger_event e L L' : ledger_reachable L -> perform e L = Some L' -> ledger_reachable L'
| ledger_time t L : ledger_reachable L -> clock L <= t ->
    ledger_reachable (mkLedger t (held L) (canonical L) (gifts L) (asking L)).

Lemma ledger_events es L L' :
  ledger_reachable L -> performs es L = Some L' -> ledger_reachable L'.
Proof.
  revert L. induction es as [|e es IH]; intros L HL; simpl; [by intros [= <-]|].
  destruct (perform e L) as [L1|] eqn:H1; [|done]. simpl. apply IH. by eapply ledger_event.
Qed.

(** C2. The pallets implement the ledger in every state in which canonical names, gifts
    and listings agree with the owners ([names_inv]): a call that succeeds there does to
    the ledger of the chain exactly the events it stands for, all of them acts of its
    signer, and a call that fails leaves the ledger as it was.  Every call keeps
    [names_inv] but [registry::burn] and the registration of a name with an unanswered
    gift; after one of these an account can act on a name by a canonical name or gift
    that is stale, which is no event of the ledger. *)
Theorem dispatch_refines_ledger (o : RawOrigin) (c : RuntimeCall) (s : State)
    (Hused : Forall name_used (new_names c)) (Hs : chain_inv s) (Hn : names_inv s) :
  (forall s', dispatch o c s = (s', Ok tt) ->
    performs (signer_meaning o c s) (ledger_of s) = Some (ledger_of s')) /\
  (forall s' e, dispatch o c s = (s', Err e) -> ledger_of s' = ledger_of s).
Proof.
  unfold dispatch. split.
  - intros s' Hr%with_storage_layer_Ok. by apply refines_body.
  - intros s' e. unfold with_storage_layer. by destruct (call_body o c s) as [? []]; intros [= <- _].
Qed.

(** C8. A chain without burns through the registry and without registrations of names
    that are pending gifts is a history of the ledger: the ledger of every state such a
    chain reaches from genesis, by calls and by the passing of time, is one that events
    and the passing of time lead to from the empty ledger. *)
Theorem chain_refines_ledger (root : AccountId) (s : State) (Hr : clean_reachable root s) :
  ledger_reachable (ledger_of s).
Proof.
  induction Hr as [number hash time c s Hg|s s' Hr IH Hstep].
  - destruct (genesis_no_names _ _ _ _ _ _ Hg) as (_ & H2 & H3 & H4 & H5).
    unfold ledger_of, holdings. rewrite H2, H3, H4, H5. apply (ledger_start (now s)).
  - destruct (clean_reachable_inv _ _ Hr) as (Hs & N & _).
    destruct Hstep as [o c s Hused _|f s Hnow].
    + unfold dispatch, with_storage_layer.
      destruct (call_body o c s) as [s' [[]|e]] eqn:Hb; [|done]. simpl.
      eapply ledger_events; [exact IH|]. by apply refines_body.
    + apply (ledger_time (now (with_system f s))) in IH; [|done].
      unfold ledger_of. by rewrite (holdings_nft s).
Qed.

End spec.
