(* ===== verification/NameProgress.v ===== *)
(** * When the calls succeed

    The exact conditions under which the calls on names succeed.  [okay m s] says that
    [m] succeeds in [s]; the lemmas on it are equivalences, so that the conditions of a
    call are found by rewriting along its code, and both directions are proved at once.
    Together with [NameSpec] this says which events of the ledger a call can bring
    about, and that it does. *)

From Stdlib Require Import ZArith Lia.
From stdpp Require Import base tactics numbers gmap sets fin_sets fin_maps option list_basics list.
From S2P Require Import Prelude RustStr Types Storage Label Nft Traits PriceOracle Resolvers.
From S2P Require Import Registry Registrar Marketplace Template Runtime RegistryInv RegistryTree RegistryOps.
From S2P Require Import ChainInv Genesis Footprints RecordFootprints NameMoves Ownership OneName NameSpec.

Local Open Scope Z_scope.
Local Open Scope run_scope.

(** ** Success *)

Section okay.
Context {S E : Type}.

Definition okay {A} (m : run S E A) (s : S) : Prop := exists s' a, m s = (s', Ok a).

(** Code that cannot fail. *)
Definition total {A} (m : run S E A) : Prop := forall s, okay m s.

Lemma okay_bind {A B} (m : run S E A) (k : A -> run S E B) s :
  okay (bind m k) s <-> exists s1 a, m s = (s1, Ok a) /\ okay (k a) s1.
Proof.
  unfold okay, bind. split.
  - intros (s' & b & H). destruct (m s) as [s1 [a|e]] eqn:Hm; naive_solver.
  - intros (s1 & a & Hm & s' & b & H). rewrite Hm. eauto.
Qed.

Lemma okay_run {A B} (m : run S E A) (k : A -> run S E B) s s1 a :
  m s = (s1, Ok a) -> okay (bind m k) s <-> okay (k a) s1.
Proof. intros Hm. unfold okay, bind. by rewrite Hm. Qed.

Lemma okay_gets {A B} (f : S -> A) (k : A -> run S E B) s : okay (bind (gets f) k) s <-> okay (k (f s)) s.
Proof. done. Qed.

Lemma okay_ret {A B} (a : A) (k : A -> run S E B) s : okay (bind (ret a) k) s <-> okay (k a) s.
Proof. done. Qed.

Lemma okay_modify {B} f (k : unit -> run S E B) s : okay (bind (modify f) k) s <-> okay (k tt) (f s).
Proof. done. Qed.

Lemma okay_ensure {B} b e (k : unit -> run S E B) s :
  okay (bind (ensure b e) k) s <-> b = true /\ okay (k tt) s.
Proof. unfold okay, bind, ensure, ret, throw. destruct b; naive_solver. Qed.

Lemma okay_ok_or {A B} (o : option A) e (k : A -> run S E B) s :
  okay (bind (ok_or o e) k) s <-> exists a, o = Some a /\ okay (k a) s.
Proof. unfold okay, bind, ok_or, ret, throw. destruct o; naive_solver. Qed.

Lemma okay_some {A B} (a : A) e (k : A -> run S E B) s : okay (bind (ok_or (Some a) e) k) s <-> okay (k a) s.
Proof. done. Qed.

Lemma okay_total {A} (m : run S E A) s : total m -> okay m s <-> True.
Proof. intros Hm. split; [done|]. intros _. apply Hm. Qed.

Lemma okay_bind_total {A B} (m : run S E A) (k : A -> run S E B) s :
  (forall a, total (k a)) -> okay (bind m k) s <-> okay m s.
Proof.
  intros Hk. rewrite okay_bind. unfold okay at 2. split.
  - intros (s1 & a & Hm & _). eauto.
  - intros (s1 & a & Hm). exists s1, a. split; [done|]. apply Hk.
Qed.

Lemma total_ret {A} (a : A) : total (ret a).
Proof. intros s. by do 2 eexists. Qed.

Lemma total_modify f : total (modify f).
Proof. intros s. by do 2 eexists. Qed.

Lemma total_gets {A} (f : S -> A) : total (gets f).
Proof. intros s. by do 2 eexists. Qed.

Lemma total_bind {A B} (m : run S E A) (k : A -> run S E B) :
  total m -> (forall a, total (k a)) -> total (bind m k).
Proof. intros Hm Hk s. apply okay_bind. destruct (Hm s) as (s1 & a & ?). exists s1, a. split; [done|apply Hk]. Qed.

Lemma okay_layer {A} (m : run S E A) s : okay (with_storage_layer m) s <-> okay m s.
Proof. unfold okay, with_storage_layer. destruct (m s) as [s1 [a|e]]; naive_solver. Qed.

End okay.

Create HintDb total.
#[export] Hint Resolve total_ret total_modify total_gets total_bind : total.

Section progress.
Context `{E : Env} `{C : Config} {HC : ConfigWidths C} {NL : NodeLevels BaseNode}.
Implicit Types s : State.

(** The anchors fit a record: an encoded account and the 32 bytes of a block hash. *)
Class AnchorsFit : Prop := {
  account_fits : forall a, Z.of_nat (length (account_encode a)) <= MaxContentLen;
  hash_fits : 32 <= MaxContentLen
}.

Context {AF : AnchorsFit}.

Lemma total_update_ss58 n to : total (update_ss58 n to).
Proof.
  intros s. simpl. unfold set_ss58_record, bounded_vec.
  rewrite (proj2 (Z.leb_le _ _)) by apply account_fits. by do 2 eexists.
Qed.

(** Recording the parent block and what follows it. *)
Lemma total_record_origin n (k : unit -> M unit) :
  (forall u, total (k u)) -> total (let! h := gets parent_hash_32 in let! u := record_origin n h in k u).
Proof.
  intros Hk s. apply okay_gets. simpl. unfold set_origin_record, bounded_vec.
  rewrite (proj2 (Z.leb_le _ _)).
  - apply Hk.
  - pose proof hash_fits. unfold parent_hash_32. case_decide as Hl; rewrite ?Hl, ?length_replicate; simpl; lia.
Qed.

Lemma total_deposit e : total (deposit_event e).
Proof. intros s. by do 2 eexists. Qed.

#[local] Hint Resolve total_update_ss58 total_record_origin total_deposit : total.

Lemma okay_signed {B} a (k : AccountId -> M B) s : okay (bind (ensure_signed (RawOrigin.Signed a)) k) s <-> okay (k a) s.
Proof. done. Qed.

Lemma okay_lookup {B} src (k : AccountId -> M B) s :
  okay (bind (lookup_source src) k) s <-> exists a, lookup_account src = Some a /\ okay (k a) s.
Proof. apply okay_ok_or. Qed.

Lemma okay_burn_from {B} who fee (k : unit -> M B) s :
  okay (bind (burn_from who fee) k) s <->
  exists c i, currency_withdraw who fee FEE KeepAlive (Balances s) = Ok (c, i) /\
    okay (k tt) (upd_Balances (fun _ => currency_drop_imbalance i c) s).
Proof.
  unfold okay, bind, burn_from. destruct (currency_withdraw _ _ _ _ _) as [[c i]|e]; naive_solver.
Qed.

Lemma okay_transfer_balance {B} from to v (k : unit -> M B) s :
  okay (bind (transfer_balance from to v) k) s <->
  exists c, currency_transfer from to v KeepAlive (Balances s) = Ok c /\
    okay (k tt) (upd_Balances (fun _ => c) s).
Proof. unfold okay, bind, transfer_balance. destruct (currency_transfer _ _ _ _ _) as [c|e]; naive_solver. Qed.

Lemma ensure_no_name_lapsed a n s :
  OwnerToPrimaryName s !! a = Some n -> still_valid s n = false ->
  ensure_no_name a s = ensure (negb (has_active_subname s a)) (RegistrarError registrar.AlreadyHoldsSubdomain)
                         (upd_OwnerToPrimaryName (delete a) s).
Proof. intros Hp Hv. unfold ensure_no_name, bind, gets. rewrite Hp. simpl. by rewrite Hv. Qed.

Lemma ensure_no_name_none a s :
  OwnerToPrimaryName s !! a = None ->
  ensure_no_name a s = ensure (negb (has_active_subname s a)) (RegistrarError registrar.AlreadyHoldsSubdomain) s.
Proof. intros Hp. unfold ensure_no_name, bind, gets. by rewrite Hp. Qed.

Lemma okay_no_name {B} a (k : unit -> M B) s :
  okay (bind (ensure_no_name a) k) s <-> nameless s a /\ okay (k tt) (upd_OwnerToPrimaryName (delete a) s).
Proof.
  rewrite okay_bind. split.
  - intros (s1 & [] & [Hn ->]%ensure_no_name_Ok & Hk). done.
  - intros [[Hv Ha] Hk]. exists (upd_OwnerToPrimaryName (delete a) s), tt. split; [|done].
    destruct (OwnerToPrimaryName s !! a) as [n|] eqn:Hp.
    + rewrite (ensure_no_name_lapsed a n s Hp (Hv n eq_refl)). unfold ensure. by rewrite Ha.
    + rewrite (ensure_no_name_none a s Hp). unfold ensure. rewrite Ha.
      destruct s as [? ? [] ? ? ? ? ? ?]. unfold upd_OwnerToPrimaryName, with_registrar. simpl in *.
      by rewrite delete_id.
Qed.

(** ** The registry *)

(** The token of a top-level name, and where the tree has it. *)
Lemma top_token s n a :
  chain_inv s -> is_top n = true -> owner_of s n = Some a ->
  exists i, Tokens s !! (0, n) = Some i /\ ti_owner i = a /\ RuntimeOriginOf s !! n = Some Root.
Proof.
  intros Hs Ht (i & Hi & Ho)%owner_of_Some. exists i. split_and!; [done..|].
  eapply (tree_token _ _ (ch_tree _ Hs)); [exact Hi|]. by apply top_not_BaseNode.
Qed.

Lemma okay_do_burn a n s :
  chain_inv s -> okay (do_burn a n) s <-> is_top n = true /\ owner_of s n = Some a.
Proof.
  intros Hs. split.
  - intros (s' & [] & Hr). apply do_burn_gone in Hr; [|done]. split; apply Hr.
  - intros [Ht Ho]. destruct (top_token _ _ _ Hs Ht Ho) as (i & Hi & <- & Hroot).
    destruct (clear_subnames_spec n i s (ch_tree _ Hs) Hi) as (s1 & Hclr & Hinv1 & _ & _ & _ & Hn1).
    unfold do_burn. rewrite okay_gets, okay_ok_or. exists i. split; [done|].
    unfold verify_with_owner. rewrite okay_ensure, bool_decide_true by done. split; [done|].
    rewrite okay_gets, okay_ok_or. exists Root. split; [done|].
    erewrite okay_run by (erewrite bind_run by exact Hclr; reflexivity).
    rewrite !okay_modify. rewrite okay_bind_total by auto with total.
    assert (exists ci, Classes s1 !! 0 = Some ci /\ 1 <= ci_total_issuance ci) as (ci & Hci & Hle).
    { destruct (inv_class _ (tree_nft _ _ Hinv1) 0 n (with_children i 0)) as [ci Hci];
        [rewrite Hn1; apply lookup_insert_eq|].
      exists ci. split; [done|]. rewrite (inv_issuance _ (tree_nft _ _ Hinv1) _ _ Hci).
      assert (n ∈ prefix 0 (dom (Tokens s1))) as Hin.
      { apply elem_of_prefix, elem_of_dom. rewrite Hn1. simpl. rewrite lookup_insert_eq. eauto. }
      apply Nat2Z.inj_le with (n := 1%nat). assert (size (prefix 0 (dom (Tokens s1))) <> 0%nat); [|lia].
      intros H0%size_empty_inv. set_solver. }
    eexists _, tt. apply burn_Ok. exists (with_children i 0), ci.
    rewrite (proj1 (clear_all_records_items _ _)). simpl_state. rewrite Hn1 in Hci |- *. simpl.
    split_and!; try done. apply lookup_insert_eq.
Qed.

(** A name can be moved before the end of its grace period. *)
Definition movable s (n : DomainHash) : Prop :=
  exists i, RegistrarInfos s !! n = Some i /\ now s < grace_end (ri_expire i).

Lemma okay_renewable {B} n (k : unit -> M B) s :
  okay (bind (Traits.check_expires_renewable n) k) s <-> movable s n /\ okay (k tt) s.
Proof.
  change (Traits.check_expires_renewable n) with (Registrar.check_expires_renewable n).
  unfold Registrar.check_expires_renewable, movable, okay, bind, gets, ok_or, ensure, ret, throw.
  destruct (RegistrarInfos s !! n) as [i|]; [|naive_solver].
  destruct (Z.ltb_spec (now s) (grace_end (ri_expire i))); naive_solver lia.
Qed.

Lemma okay_do_transfer a to n s :
  chain_inv s ->
  okay (do_transfer a to n) s <-> is_top n = true /\ owner_of s n = Some a /\ movable s n.
Proof.
  intros Hs. split.
  - intros (s' & [] & Hr). pose proof (do_transfer_moved _ _ _ _ _ Hs Hr) as G.
    split_and!; [apply G|apply G|].
    destruct (do_transfer_Ok _ _ _ _ _ (ch_tree _ Hs) Hr) as (_ & _ & _ & _ & _ & _ & _ & Hm & _).
    assert (okay (bind (Traits.check_expires_renewable n) ret) s) as H%okay_renewable; [|apply H].
    unfold okay, bind. rewrite Hm. eauto.
  - intros (Ht & Ho & Hm). destruct (top_token _ _ _ Hs Ht Ho) as (i & Hi & <- & Hroot).
    destruct (clear_subnames_spec n i s (ch_tree _ Hs) Hi) as (s1 & Hclr & _ & _ & _ & _ & Hn1).
    unfold do_transfer. rewrite okay_gets, okay_ok_or. exists i. split; [done|].
    unfold verify_with_owner. rewrite okay_ensure, bool_decide_true by done. split; [done|].
    rewrite okay_gets, okay_ok_or. exists Root. split; [done|].
    assert (Traits.check_expires_renewable n s = (s, Ok tt)) as Hc.
    { assert (okay (bind (Traits.check_expires_renewable n) ret) s) as (s2 & [] & H)
        by (apply okay_renewable; split; [done|apply total_ret]).
      apply bind_Ok in H as ([] & s3 & H & [= ->]). 
      by rewrite (pure_run _ _ _ _ (check_renewable_pure n) H) in H. }
    rewrite okay_bind. exists s1, tt. split; [by erewrite bind_run by exact Hc|].
    assert (Tokens s1 !! (0, n) = Some (with_children i 0)) as Hi1 by (rewrite Hn1; apply lookup_insert_eq).
    rewrite okay_bind. eexists _, tt. split; [apply transfer_Ok; eauto|].
    rewrite okay_modify. apply total_bind; [apply total_update_ss58|intros _].
    apply total_record_origin. intros _. apply total_deposit.
Qed.

(** ** Listings and terms *)

(** What the calls on names ask for, beyond an account that signs. *)
Definition may_renew s (a : AccountId) : Prop :=
  exists n i p c j, OwnerToPrimaryName s !! a = Some n /\ RegistrarInfos s !! n = Some i /\
    now s <= grace_end (ri_expire i) /\ registration_fee s (ri_label_len i) = Some p /\
    currency_withdraw a p FEE KeepAlive (Balances s) = Ok (c, j) /\
    now s + MaxRegistrationDuration < 2 ^ 64.

Lemma okay_renew a s : okay (renew (RawOrigin.Signed a)) s <-> may_renew s a.
Proof.
  unfold renew, may_renew. rewrite okay_signed, okay_gets, okay_ensure, okay_gets, okay_ok_or.
  setoid_rewrite okay_gets. setoid_rewrite okay_ok_or. setoid_rewrite okay_gets.
  setoid_rewrite okay_ensure. setoid_rewrite okay_gets. setoid_rewrite okay_ok_or.
  setoid_rewrite okay_burn_from. setoid_rewrite okay_ok_or.
  split.
  - intros (_ & n & Hn & i & Hi & Hg & p & Hp & c & j & Hw & e & [-> He]%checked_add_Some & _).
    exists n, i, p, c, j. split_and!; try done. by apply Z.leb_le.
  - intros (n & i & p & c & j & Hn & Hi & Hg & Hp & Hw & He). split; [done|].
    exists n. split; [done|]. exists i. split; [done|]. split; [by apply Z.leb_le|].
    exists p. split; [done|]. exists c, j. split; [done|]. eexists.
    split; [by apply checked_add_Some|]. apply total_bind; auto with total.
Qed.

Definition may_list s (a : AccountId) (until : Z) : Prop :=
  now s < until /\ exists n, OwnerToPrimaryName s !! a = Some n /\ Listings s !! n = None.

Lemma okay_create_listing a ask until s :
  okay (create_listing (RawOrigin.Signed a) ask until) s <-> may_list s a until.
Proof.
  unfold create_listing, may_list. rewrite okay_signed, okay_gets, okay_ensure, okay_gets, okay_ok_or.
  setoid_rewrite okay_gets. setoid_rewrite okay_ensure. rewrite Z.ltb_lt.
  setoid_rewrite bool_decide_eq_true. setoid_rewrite okay_total; [|auto with total].
  simpl. naive_solver.
Qed.

Definition may_cancel s (a : AccountId) : Prop :=
  exists n, OwnerToPrimaryName s !! a = Some n /\ Listings s !! n <> None.

Lemma okay_cancel_listing a s : okay (cancel_listing (RawOrigin.Signed a)) s <-> may_cancel s a.
Proof.
  unfold cancel_listing, may_cancel. rewrite okay_signed, okay_gets, okay_ok_or.
  setoid_rewrite okay_gets. setoid_rewrite okay_ensure.
  setoid_rewrite bool_decide_eq_true. setoid_rewrite okay_total; [|auto with total].
  simpl. naive_solver.
Qed.

(** ** Moving and releasing *)

(** [a] owns its canonical name [n]. *)
Definition own_name s (a : AccountId) (n : DomainHash) : Prop :=
  OwnerToPrimaryName s !! a = Some n /\ is_top n = true /\ owner_of s n = Some a.

Lemma okay_release a s :
  chain_inv s -> okay (release_name (RawOrigin.Signed a)) s <-> exists n, own_name s a n.
Proof.
  intros Hs. unfold release_name, own_name. rewrite okay_signed, okay_gets, okay_ok_or.
  setoid_rewrite okay_modify.
  by setoid_rewrite (fun n => okay_do_burn a n _ (chain_inv_primary (delete a) s Hs)).
Qed.

Definition may_transfer s (a : AccountId) (src : LookupSource) : Prop :=
  exists to n, lookup_account src = Some to /\ own_name s a n /\ movable s n /\ nameless s to.

Lemma okay_transfer a src s :
  chain_inv s -> okay (Registrar.transfer (RawOrigin.Signed a) src) s <-> may_transfer s a src.
Proof.
  intros Hs. unfold Registrar.transfer, may_transfer, own_name. rewrite okay_signed, okay_lookup.
  setoid_rewrite okay_gets. setoid_rewrite okay_ensure. setoid_rewrite okay_gets.
  setoid_rewrite okay_ok_or. setoid_rewrite okay_gets. split.
  - intros (to & Hto & _ & n & Hn & Hk). exists to, n. apply okay_bind in Hk as (s1 & u & H1 & Hk).
    assert (s1 = s) as -> by (destruct (RegistrarInfos s !! n); by inv_ok).
    apply okay_no_name in Hk as [Hfree Hk]. rewrite okay_bind_total in Hk by auto with total.
    apply okay_do_transfer in Hk as (Ht & Ho & Hm); [|by apply chain_inv_primary]. by split_and!.
  - intros (to & n & Hto & (Hn & Ht & Ho) & (i & Hi & Hm) & Hfree). exists to. do 2 (split; [done|]).
    exists n. split; [done|]. rewrite Hi. rewrite okay_bind. exists s, tt. split.
    { unfold bind, gets, ensure. by rewrite (proj2 (Z.ltb_lt _ _) Hm). }
    apply okay_no_name. split; [done|]. apply okay_bind_total; [auto with total|].
    apply okay_do_transfer; [by apply chain_inv_primary|]. split_and!; [done..|]. by exists i.
Qed.

Definition may_accept s (a : AccountId) (name : bytes) : Prop :=
  exists n off, bare_node name = Some n /\ OfferedNames s !! n = Some off /\ on_recipient off = a /\
    still_usable s n /\ nameless s a.

Lemma okay_accept a name s :
  okay (accept_offered_name (RawOrigin.Signed a) name) s <-> may_accept s a name.
Proof.
  split.
  - intros (s' & [] & Hr). apply accept_offered_name_Ok in Hr
      as (who & n & off & f & s1 & [= <-] & Hoff & Hrec & (Hlab & Huse & Hfree) & _).
    exists n, off. split_and!; done.
  - intros (n & off & Hlab & Hoff & Hrec & (i & Hi & Hnow) & Hfree).
    unfold accept_offered_name. rewrite okay_signed, okay_ok_or. unfold bare_node in Hlab.
    destruct (new_with_len name) as [[lab len]|]; [|done]. injection Hlab as <-.
    exists (lab, len). split; [done|]. cbv zeta. rewrite okay_gets, okay_modify, okay_ok_or.
    exists off. split; [done|]. rewrite okay_ensure, bool_decide_true by done. split; [done|].
    do 2 rewrite okay_gets. rewrite okay_ok_or. exists i. split; [done|].
    rewrite okay_ensure. split; [by apply Z.ltb_lt|]. apply okay_no_name. split; [done|].
    rewrite okay_modify. apply total_bind; [apply total_update_ss58|intros _].
    apply total_record_origin. intros _. apply total_deposit.
Qed.

(** ** Sales *)

Lemma total_forget_seller a n : total (forget_seller a n).
Proof. intros s. unfold forget_seller. apply okay_gets. case_bool_decide; by do 2 eexists. Qed.

Lemma okay_transfer_name from to n s :
  chain_inv s ->
  okay (Registrar.transfer_name from to n) s <->
  nameless s to /\ is_top n = true /\ owner_of s n = Some from /\ movable s n.
Proof.
  intros Hs. unfold Registrar.transfer_name. rewrite okay_no_name, okay_bind_total.
  - by rewrite okay_do_transfer by (by apply chain_inv_primary).
  - intros _. apply total_bind; [apply total_forget_seller|auto with total].
Qed.

Lemma okay_offer_bought from buyer recip n s :
  chain_inv s ->
  okay (Registrar.offer_bought_name from buyer recip n) s <->
  OfferedNames s !! n = None /\ nameless s recip /\ is_top n = true /\ owner_of s n = Some from /\ movable s n.
Proof.
  intros Hs. unfold Registrar.offer_bought_name. rewrite okay_gets, okay_ensure, bool_decide_eq_true, okay_gets.
  assert (forall (k : unit -> M unit), okay (bind (match OwnerToPrimaryName s !! recip with
    | Some existing => let! valid := gets (fun s => still_valid s existing) in
                       ensure (negb valid) (RegistrarError registrar.AlreadyHasCanonicalName)
    | None => ret tt end) k) s <->
    (forall m, OwnerToPrimaryName s !! recip = Some m -> still_valid s m = false) /\ okay (k tt) s) as Hc.
  { intros k. destruct (OwnerToPrimaryName s !! recip) as [m|].
    - unfold okay, bind, gets, ensure, ret, throw. destruct (still_valid s m) eqn:Hv; simpl.
      + split; [by intros (? & ? & ?)|]. intros [H _]. specialize (H m eq_refl). congruence.
      + split; [|by intros [_ ?]]. intros Hk. split; [|done]. by intros m' [= <-].
    - rewrite okay_ret. split; [done|by intros [_ ?]]. }
  rewrite Hc, okay_gets, okay_ensure, negb_true_iff, okay_bind_total, okay_do_transfer by
    first [done | intros _; apply total_bind; [apply total_forget_seller|auto with total]].
  unfold nameless. naive_solver.
Qed.

(** What the purchase asks for after the payment. *)
Definition may_deliver s (l : Listing) (a : AccountId) (r : option AccountId) (n : DomainHash) : Prop :=
  match r with
  | None => nameless s a
  | Some recip => recip <> a /\ recip <> seller l /\ OfferedNames s !! n = None /\ nameless s recip
  end.

Definition may_buy s (a : AccountId) (name : bytes) (r : option AccountId) : Prop :=
  exists n l c1 c2 i, bare_node name = Some n /\ Listings s !! n = Some l /\ a <> seller l /\
    now s < expires_at l /\ owner_of s n = Some (seller l) /\
    currency_transfer a (seller l) (price l) KeepAlive (Balances s) = Ok c1 /\
    currency_withdraw (seller l) (protocol_fee (price l)) FEE KeepAlive c1 = Ok (c2, i) /\
    movable s n /\ may_deliver s l a r n.

(** The delivery, in a state that differs from [s] in the payment and the listing. *)
Lemma okay_deliver l a r n fee s c c' f :
  chain_inv s -> owner_of s n = Some (seller l) ->
  okay (match r with
        | Some recip => deliver_gift l a recip n fee
        | None => deliver l a n fee
        end) (upd_Listings f (upd_Balances c' (upd_Balances c s))) <-> movable s n /\ may_deliver s l a r n.
Proof.
  intros Hs Ho. set (s0 := upd_Listings f (upd_Balances c' (upd_Balances c s))).
  assert (chain_inv s0) as Hs0 by (by apply (chain_inv_ext s)).
  assert (movable s n -> is_top n = true) as Ht by (intros (i & Hi & _); by eapply info_owner).
  destruct r as [recip|]; simpl.
  - unfold deliver_gift. rewrite !okay_ensure, !bool_decide_eq_true, okay_bind_total by auto with total.
    change (Traits.offer_bought_name (seller l) a recip n) with
      (Registrar.offer_bought_name (seller l) a recip n).
    rewrite okay_offer_bought by done. naive_solver.
  - unfold deliver. rewrite okay_bind_total.
    + change (Traits.transfer_name (seller l) a n) with (Registrar.transfer_name (seller l) a n).
      rewrite okay_transfer_name by done. naive_solver.
    + intros _. apply total_bind; [auto with total|intros _].
      apply total_bind; [apply total_update_ss58|intros _].
      apply total_record_origin. intros _. apply total_deposit.
Qed.

Lemma okay_buy a name r s :
  chain_inv s -> okay (buy_name (RawOrigin.Signed a) name r) s <-> may_buy s a name r.
Proof.
  intros Hs. unfold buy_name, may_buy. rewrite okay_signed, okay_ok_or, bare_node_new.
  setoid_rewrite okay_gets. setoid_rewrite okay_ok_or. setoid_rewrite okay_ensure.
  setoid_rewrite okay_gets. setoid_rewrite okay_ensure. setoid_rewrite okay_gets.
  setoid_rewrite okay_ensure. setoid_rewrite okay_transfer_balance. setoid_rewrite okay_burn_from.
  setoid_rewrite okay_modify. setoid_rewrite bool_decide_eq_true. setoid_rewrite Z.ltb_lt. split.
  - intros (lab & Hlab & l & Hl & Hne & Hex & Ho & c1 & H1 & c2 & i & H2 & Hd). symmetry in Ho.
    apply (okay_deliver l a r _ _ s _ _ _ Hs Ho) in Hd as [Hm Hd].
    exists (encode_with_node lab BaseNode), l, c1, c2, i. rewrite Hlab. split_and!; done.
  - intros (n & l & c1 & c2 & i & Hlab & Hl & Hne & Hex & Ho & H1 & H2 & Hm & Hd).
    apply fmap_Some in Hlab as (lab & Hlab & ->). exists lab. split; [done|]. exists l.
    do 3 (split; [done|]). split; [by symmetry|]. exists c1. split; [done|]. exists c2, i. split; [done|].
    by apply okay_deliver.
Qed.

(** ** Registration *)

(** The node can be given out: its registration and the grace period are over, or it
    has none and the class has room for one more token. *)
Definition vacant s (n : DomainHash) : Prop :=
  match RegistrarInfos s !! n with
  | Some i => grace_end (ri_expire i) < now s
  | None => exists ci, Classes s !! 0 = Some ci /\ ci_total_issuance ci + 1 < 2 ^ 128
  end.

Section mint.
Context (n : DomainHash) (to : AccountId) (pay : option AccountId -> M unit).
Hypothesis pay_frame : forall x s s',
  pay x s = (s', Ok tt) -> st_nft s' = st_nft s /\ st_registry s' = st_registry s.

Lemma okay_mint_existing i s :
  chain_inv s -> Tokens s !! (0, n) = Some i -> is_top n = true ->
  okay (mint_existing n i to pay) s <-> vacant s n /\ okay (pay (Some (ti_owner i))) s.
Proof.
  intros Hs Hi Ht. assert (owner_of s n = Some (ti_owner i)) as Ho by (unfold owner_of, tokens; by rewrite Hi).
  destruct (owner_info _ _ _ Hs Ht Ho) as [ri Hri]. unfold vacant. rewrite Hri.
  unfold mint_existing. rewrite okay_bind.
  change (Traits.check_expires_registrable n) with (Registrar.check_expires_registrable n).
  unfold Registrar.check_expires_registrable at 1, bind at 1, gets at 1. cbv beta iota.
  unfold bind at 1, gets at 1. rewrite Hri. cbn. unfold ensure, ret, throw.
  destruct (Z.ltb_spec (grace_end (ri_expire ri)) (now s)) as [Hlt|Hge];
    [|split; [naive_solver|intros [? _]; lia]].
  split.
  - intros (s1 & u & [= <- _] & (s2 & [] & Hp & _)%okay_bind). split; [done|]. by exists s2, tt.
  - intros [_ (s1 & [] & Hp)]. exists s, tt. split; [done|]. rewrite okay_bind. exists s1, tt.
    split; [done|]. destruct (pay_frame _ _ _ Hp) as [P1 P2].
    destruct (clear_subnames_spec n i s1) as (s2 & Hclr & _ & _ & _ & _ & Hn2);
      [rewrite P1, P2; apply ch_tree, Hs|by rewrite P1|].
    rewrite okay_bind. exists s2, tt. split; [done|]. rewrite !okay_modify.
    rewrite okay_bind_total by auto with total. eexists _, tt. apply transfer_Ok.
    exists (with_children i 0). split_and!; try done.
    change (Tokens (Traits.clear_all_records n s2) !! (0, n) = Some (with_children i 0)).
    rewrite (proj1 (clear_all_records_items _ _)), Hn2. apply lookup_insert_eq.
Qed.

Lemma okay_mint_new i s cap :
  chain_inv s -> Tokens s !! (0, n) = None -> Tokens s !! (0, BaseNode) = Some i ->
  okay (mint_new [] BaseNode n to cap pay) s <-> vacant s n /\ okay (pay None) s.
Proof.
  intros Hs Hn Hb. assert (RegistrarInfos s !! n = None) as Hri.
  { apply eq_None_not_Some. intros Ho%(ch_info _ Hs).
    destruct (tree_origin _ _ (ch_tree _ Hs) _ _ Ho) as (_ & _ & [? ?]). congruence. }
  assert (RuntimeOriginOf s !! BaseNode = None) as Hro.
  { destruct (RuntimeOriginOf s !! BaseNode) as [o|] eqn:Ho; [|done].
    destruct (tree_origin _ _ (ch_tree _ Hs) _ _ Ho) as (_ & Htop & _). by apply top_not_BaseNode in Htop. }
  unfold vacant. rewrite Hri. unfold mint_new. rewrite okay_bind. split.
  - intros (s1 & [] & Hp & (s2 & [] & (_ & ci & Hci & Hlt & _)%mint_Ok & _)%okay_bind).
    destruct (pay_frame _ _ _ Hp) as [P1 P2]. rewrite P1 in Hci. split; [by exists ci|by exists s1, tt].
  - intros [(ci & Hci & Hlt) (s1 & [] & Hp)]. destruct (pay_frame _ _ _ Hp) as [P1 P2].
    exists s1, tt. split; [done|]. rewrite okay_bind. eexists _, tt. split.
    { apply mint_Ok. split; [apply token_metadata_u32|]. exists ci. rewrite P1. by split_and!. }
    rewrite okay_modify, okay_gets. unfold minted. simpl_state. rewrite P2, Hro.
    rewrite okay_bind_total by auto with total. unfold add_children, tokens.
    rewrite okay_gets. simpl_state. unfold mint_storage. simpl_state. rewrite P1.
    destruct (decide (n = BaseNode)) as [->|]; [congruence|].
    rewrite lookup_insert_ne, Hb by congruence. by do 2 eexists.
Qed.

Lemma okay_mint official cap s :
  chain_inv s -> is_top n = true -> owner_of s BaseNode = Some official ->
  okay (mint_subname official BaseNode n to cap pay) s <->
  to <> official /\ vacant s n /\ okay (pay (ti_owner <$> Tokens s !! (0, n))) s.
Proof.
  intros Hs Ht (i & Hi & <-)%owner_of_Some.
  assert (RuntimeOriginOf s !! BaseNode = None) as Hro.
  { destruct (RuntimeOriginOf s !! BaseNode) as [o|] eqn:Ho; [|done].
    destruct (tree_origin _ _ (ch_tree _ Hs) _ _ Ho) as (_ & Htop & _). by apply top_not_BaseNode in Htop. }
  unfold mint_subname, pallet_mint_subname, verify_with_owner, tokens.
  rewrite okay_gets, Hi, okay_some, okay_ensure, bool_decide_true by done.
  rewrite okay_gets, Hro, okay_gets, Hi, okay_ensure, bool_decide_eq_true, okay_gets, okay_bind_total
    by auto with total.
  destruct (Tokens s !! (0, n)) as [j|] eqn:Hj; simpl.
  - rewrite okay_mint_existing by done. naive_solver.
  - erewrite okay_mint_new by done. naive_solver.
Qed.

End mint.

Lemma okay_register_payments caller n fee ex len x s :
  okay (register_payments caller n fee ex len x) s <->
  exists c i, currency_withdraw caller fee FEE KeepAlive (Balances s) = Ok (c, i).
Proof.
  unfold register_payments.
  assert (exists P, forget_previous_owner n x s = (upd_OwnerToPrimaryName P s, Ok tt)) as [P HP].
  { destruct x as [o|]; simpl; [|exists id; by destruct s as [? ? [] ? ? ? ? ? ?]].
    unfold bind, gets. case_bool_decide; [by eexists|]. exists id. by destruct s as [? ? [] ? ? ? ? ? ?]. }
  rewrite (okay_run _ _ _ _ _ HP), okay_burn_from. change (Balances (upd_OwnerToPrimaryName P s)) with (Balances s).
  split; [intros (c & i & Hw & _); eauto|]. intros (c & i & Hw). exists c, i. split; [done|].
  apply total_bind; auto with total.
Qed.

Definition may_register s (a : AccountId) (name : bytes) (src : LookupSource) : Prop :=
  name <> [] /\ now s + MaxRegistrationDuration < 2 ^ 64 /\
  exists to lab len fee c i, let n := encode_with_node lab BaseNode in
    lookup_account src = Some to /\ new_with_len name = Some (lab, len) /\ is_registrable len = true /\
    n ∉ ReservedList s /\ nameless s to /\ registration_fee s len = Some fee /\
    currency_withdraw a fee FEE KeepAlive (Balances s) = Ok (c, i) /\
    owner_of s BaseNode <> Some to /\ vacant s n.

(** The mint of [register], after the holder's lapsed name was dropped. *)
Lemma okay_register_mint a to o name lab len fee ex s :
  chain_inv s -> name_used name -> new_with_len name = Some (lab, len) -> owner_of s BaseNode = Some o ->
  okay (mint_subname o BaseNode (encode_with_node lab BaseNode) to 0
         (register_payments a (encode_with_node lab BaseNode) fee ex len))
       (upd_OwnerToPrimaryName (delete to) s) <->
  to <> o /\ vacant s (encode_with_node lab BaseNode) /\
    exists c i, currency_withdraw a fee FEE KeepAlive (Balances s) = Ok (c, i).
Proof.
  intros Hs Hu Hl Ho. pose proof (new_with_len_node _ _ _ Hu Hl) as [Hlen Ht].
  rewrite okay_mint; [by rewrite okay_register_payments| |by apply chain_inv_primary|done|done].
  by apply (register_payments_registers a _ fee ex len Hlen).
Qed.

(** What rejecting an offer by its name asks for: a gift pending for [a], which owns
    it, or else a subdomain offered to [a]. *)
Definition may_reject s (a : AccountId) (rej : bytes) : Prop :=
  exists n, parse_name_to_node rej BaseNode = Some n /\
    match OfferedNames s !! n with
    | Some off => on_recipient off = a /\ is_top n = true /\ owner_of s n = Some a
    | None => exists r, SubnameRecords s !! n = Some r /\ sr_state r = Offered /\ sr_target r = a
    end.

(** Dropping a subdomain cannot fail: its name has a token that counts it. *)
Lemma okay_revoke n r s :
  chain_inv s -> SubnameRecords s !! n = Some r -> okay (revoke_subname (sr_parent r) n) s.
Proof.
  intros Hs Hr. pose proof (ch_tree _ Hs) as HT.
  destruct (tree_record _ _ HT _ _ Hr) as (Hroot & _).
  destruct (tree_origin _ _ HT _ _ Hroot) as (_ & Ht & i & Hi).
  assert ((sr_parent r, n) ∈ SubNames s) as Hin by (apply (tree_subnames _ _ HT); by exists r).
  pose proof (tree_children _ _ HT _ _ Hi (top_not_BaseNode _ Ht)) as Hc.
  assert (1 <= children (ti_data i)).
  { rewrite Hc. assert (size (prefix (sr_parent r) (SubNames s)) <> 0%nat); [|lia].
    intros H0%size_empty_inv. apply elem_of_prefix in Hin. set_solver. }
  eexists _, tt. apply revoke_subname_Ok. exists r. split_and!; [done..|]. apply sub_children_Ok.
  exists i. by rewrite (proj1 (dropped_frame n r s)).
Qed.

Lemma okay_reject_pending a rej s : chain_inv s -> okay (reject_pending a rej) s <-> may_reject s a rej.
Proof.
  intros Hs. unfold reject_pending, may_reject. rewrite okay_ok_or. setoid_rewrite okay_gets.
  enough (forall n, okay (match OfferedNames s !! n with
    | Some offer => do! modify (upd_OfferedNames (delete n)) in
        do! ensure (bool_decide (on_recipient offer = a)) (RegistrarError registrar.NotOfferedNameRecipient) in
        do! do_burn a n in deposit_event (RegistrarEvent (registrar.OfferedNameRejected n a))
    | None => do! map_err (fun _ => RegistrarError registrar.OfferedNameNotFound)
                    (revoke_pending_offer_for_target n a) in
        deposit_event (RegistrarEvent (registrar.OfferedNameRejected n a)) end) s <->
    match OfferedNames s !! n with
    | Some off => on_recipient off = a /\ is_top n = true /\ owner_of s n = Some a
    | None => exists r, SubnameRecords s !! n = Some r /\ sr_state r = Offered /\ sr_target r = a end) as H
    by (split; intros (n & Hn & Hk); exists n; (split; [done|]); by apply H).
  intros n. destruct (OfferedNames s !! n) as [off|].
  - rewrite okay_modify, okay_ensure, bool_decide_eq_true, okay_bind_total by auto with total.
    by rewrite okay_do_burn by (by apply (chain_inv_ext s)).
  - rewrite okay_bind_total by auto with total. split.
    + intros (s' & [] & (r & Hr & Hst & Ha & _)%map_err_Ok%revoke_pending_inv). by exists r.
    + intros (r & Hr & Hst & Ha). destruct (okay_revoke n r s Hs Hr) as (s' & [] & Hv). exists s', tt.
      assert (revoke_pending_offer_for_target n a s = (s', Ok tt)) as Hp; [|unfold map_err; by rewrite Hp].
      unfold revoke_pending_offer_for_target, bind, gets, ensure. rewrite Hr. cbv beta iota delta [ok_or ret].
      rewrite !bool_decide_true by done. exact Hv.
Qed.

Lemma okay_official {B} o (k : AccountId -> M B) s :
  Official s = Some o -> okay (bind get_official_account k) s <-> okay (k o) s.
Proof. intros Ho. apply okay_run. unfold get_official_account, bind, gets. by rewrite Ho. Qed.

Lemma okay_register a name src s :
  chain_inv s -> name_used name ->
  okay (register (RawOrigin.Signed a) name src None) s <-> may_register s a name src.
Proof.
  intros Hs Hu. destruct (ch_official _ Hs) as (o & Hof & Ho).
  unfold may_register, register, lookup_source. rewrite okay_signed.
  destruct (lookup_account src) as [to|]; [rewrite okay_some|rewrite okay_ok_or; naive_solver].
  rewrite okay_ret, okay_ensure, okay_gets, okay_ensure, bool_decide_eq_true.
  destruct (new_with_len name) as [[lab len]|] eqn:Hl; [rewrite okay_some|rewrite okay_ok_or; split;
    [by intros (_ & _ & ? & ? & _)|by intros (_ & _ & ? & ? & ? & ? & ? & ? & _ & ? & _)]].
  rewrite okay_ensure, (okay_official o), okay_gets, okay_ok_or by done. cbv zeta.
  setoid_rewrite okay_gets. setoid_rewrite okay_ensure. setoid_rewrite okay_no_name. setoid_rewrite okay_gets.
  change (registration_fee (upd_OwnerToPrimaryName (delete to) s) len) with (registration_fee s len).
  setoid_rewrite okay_ok_or. setoid_rewrite okay_bind_total; [|shelve].
  setoid_rewrite (fun fee ex => okay_register_mint a to o name lab len fee ex s Hs Hu Hl Ho).
  setoid_rewrite checked_add_Some. setoid_rewrite negb_true_iff. setoid_rewrite bool_decide_eq_false.
  rewrite Ho. split.
  - intros (Hne & _ & Hreg & ex & [-> Hex] & Hres & Hfree & fee & Hfee & Hto & Hvac & c & i & Hw).
    do 2 (split; [done|]). exists to, lab, len, fee, c, i. by split_and!; try congruence.
  - intros (Hne & Hex & to' & lab' & len' & fee & c & i & [= <-] & [= <- <-] & Hreg & Hres & Hfree & Hfee & Hw & Hto & Hvac).
    do 3 (split; [done|]). eexists. do 3 (split; [done|]). exists fee. split; [done|].
    split; [congruence|]. split; [done|]. by exists c, i.
  Unshelve. intros _. apply total_bind; [auto with total|intros _].
  apply total_bind; [apply total_update_ss58|intros _]. apply total_record_origin. intros _. apply total_deposit.
Qed.

(** A registration that rejects an offer first is the rejection and then a
    registration in the state that leaves. *)
Lemma okay_register_reject a name src rej s :
  chain_inv s -> name_used name ->
  okay (register (RawOrigin.Signed a) name src (Some rej)) s <->
  may_reject s a rej /\
    forall s1, reject_pending a rej s = (s1, Ok tt) -> may_register s1 a name src.
Proof.
  intros Hs Hu. rewrite <- okay_reject_pending by done.
  assert (forall s1, reject_pending a rej s = (s1, Ok tt) ->
    okay (register (RawOrigin.Signed a) name src (Some rej)) s <-> may_register s1 a name src) as H.
  { intros s1 Hr. rewrite <- okay_register; [|by eapply reject_pending_Ok|done].
    unfold register. rewrite !okay_signed, !okay_lookup. setoid_rewrite (okay_run _ _ _ _ _ Hr).
    by setoid_rewrite okay_ret. }
  split.
  - intros Hk. assert (okay (reject_pending a rej) s) as (s1 & [] & Hr).
    { unfold register in Hk. rewrite okay_signed, okay_lookup in Hk.
      destruct Hk as (to & _ & (s1 & u & Hr & _)%okay_bind). by exists s1, u. }
    split; [by exists s1, tt|]. intros s2 Hr2. by apply (H s2 Hr2).
  - intros [(s1 & [] & Hr) Hk]. apply (H s1 Hr). by apply Hk.
Qed.

(** ** The calls *)

(** The calls on names, other than those on subdomains and [RegistryBurn]. *)
Definition name_call (c : RuntimeCall) : bool :=
  match c with
  | Register _ _ _ | Renew | TransferName _ | ReleaseName | AcceptOfferedName _
  | CreateListing _ _ | CancelListing | BuyName _ _ => true
  | _ => false
  end.

(** What such a call asks of the state, when [a] signs it. *)
Definition enabled s (a : AccountId) (c : RuntimeCall) : Prop :=
  match c with
  | Register name owner None => may_register s a name owner
  | Register name owner (Some rej) => may_reject s a rej /\
      forall s1, reject_pending a rej s = (s1, Ok tt) -> may_register s1 a name owner
  | Renew => may_renew s a
  | TransferName to => may_transfer s a to
  | ReleaseName => exists n, own_name s a n
  | AcceptOfferedName name => may_accept s a name
  | CreateListing _ until => may_list s a until
  | CancelListing => may_cancel s a
  | BuyName name recipient => may_buy s a name recipient
  | _ => False
  end.


End progress.

(** The runtime's records have room for both anchors. *)
Lemma runtime_anchors {E : Env} kusama :
  (forall a, length (account_encode a) = 32%nat) -> AnchorsFit (C := runtime_config kusama).
Proof. intros Ha. split; [|done]. intros a. by rewrite Ha. Qed.
