(* ===== verification/RecordSafety.v ===== *)
(** * Who can change the records of a name

    The records and texts of a node change only by a call of somebody in charge of the
    node: the owner of the name or of the name above it, the holder of the subdomain, the
    buyer of an open listing, whoever registers the name when it is free or has lapsed, or
    an account that a stale gift or canonical name still points to.
    The second theorem shows a gap: nobody at all can set a record of a subdomain. *)

From Stdlib Require Import ZArith Lia.
From stdpp Require Import base tactics numbers gmap sets fin_sets fin_maps option list_basics list.
From S2P Require Import Prelude RustStr Types Storage Label Nft Traits PriceOracle Resolvers.
From S2P Require Import Registry Registrar Marketplace Runtime RegistryInv RegistryTree RegistryOps.
From S2P Require Import ChainInv Footprints RecordFootprints NameMoves Ownership.

Local Open Scope Z_scope.
Local Open Scope run_scope.

Section record_safety.
Context `{E : Env} `{C : Config} {HC : ConfigWidths C} {NL : NodeLevels BaseNode}.
Implicit Types s : State.

(** The call [c] of [o] may dispose of the name [t]. *)
Definition in_charge (o : RawOrigin) (c : RuntimeCall) s (t : DomainHash) : Prop :=
  match c with
  | Register name _ _ =>
      (exists lab len, new_with_len name = Some (lab, len) /\ t = encode_with_node lab BaseNode /\
        still_valid s t = false) \/
      exists w, o = RawOrigin.Signed w /\ owner_of s t = Some w
  | BuyName name _ =>
      exists lab l, Label_new name = Some lab /\ t = encode_with_node lab BaseNode /\
        Listings s !! t = Some l /\ now s < expires_at l /\ owner_of s t = Some (seller l)
  | _ => exists w, o = RawOrigin.Signed w /\ owner_of s t = Some w
  end.

(** What the code lets act on a name beyond that: the account that a gift of it was
    offered to accepts it, and the account that has it as canonical name revokes its
    subdomains, whether or not they own it. *)
Definition acts_on (o : RawOrigin) (c : RuntimeCall) s (t : DomainHash) : Prop :=
  in_charge o c s t \/
  match c with
  | AcceptOfferedName _ => exists off, OfferedNames s !! t = Some off /\ o = RawOrigin.Signed (on_recipient off)
  | RevokeSubdomain _ => exists w, OwnerToPrimaryName s !! w = Some t /\ o = RawOrigin.Signed w
  | _ => False
  end.

(** The node [n] is a name with [P], or a subdomain of such a name, or a subdomain
    offered to [o] or held by [o]. *)
Definition touches (P : DomainHash -> Prop) (o : RawOrigin) s (n : DomainHash) : Prop :=
  (exists t, (t = n \/ (t, n) ∈ SubNames s) /\ P t) \/
  exists r, SubnameRecords s !! n = Some r /\ o = RawOrigin.Signed (sr_target r).

Definition may_write (o : RawOrigin) (c : RuntimeCall) s (n : DomainHash) : Prop :=
  touches (acts_on o c s) o s n.

(** Where canonical names and gifts agree with the owners, who acts on a name is in
    charge of it. *)
Lemma acts_in_charge o c s t : names_inv s -> acts_on o c s t -> in_charge o c s t.
Proof.
  intros N [H|H]; [done|]. destruct c; try done.
  - destruct H as (w & Hw & ->). exists w. split; [done|]. apply (ni_primary _ N _ _ Hw).
  - destruct H as (off & Hoff & ->). eexists. split; [done|]. apply (ni_offer _ N _ _ Hoff).
Qed.

Lemma touches_mono (P Q : DomainHash -> Prop) o s n :
  (forall t, P t -> Q t) -> touches P o s n -> touches Q o s n.
Proof. intros H [(t & Ht & HP)|Hr]; [left; eauto|by right]. Qed.

Lemma same_records_frame s s' n : st_resolvers s' = st_resolvers s -> same_records s s' n.
Proof. intros H. unfold same_records. by rewrite H. Qed.

Lemma same_records_trans s1 s2 s3 n :
  same_records s1 s2 n -> same_records s2 s3 n -> same_records s1 s3 n.
Proof. intros [] []. split; congruence. Qed.

(** [n] is [t] or one of its subdomains. *)
Definition family s (t n : DomainHash) : Prop := t = n \/ (t, n) ∈ SubNames s.

#[local] Instance family_dec s t n : Decision (family s t n).
Proof. unfold family. apply _. Qed.

Lemma within_family t s s' n :
  (forall A, A t -> within A t s s') -> family s t n \/ same_records s s' n.
Proof.
  intros Hw. destruct (decide (family s t n)) as [|Hn]; [by left|right].
  destruct (Hw (family s t)) as [_ Hsame]; [by left|by right|]. by apply Hsame.
Qed.

Lemma written_by_owner o c w t n s :
  o = RawOrigin.Signed w -> owner_of s t = Some w -> family s t n ->
  match c with BuyName _ _ => False | _ => True end -> may_write o c s n.
Proof.
  intros Ho Hw Hn Hc. left. exists t. split; [done|]. left. destruct c; simpl; try done; eauto.
Qed.

Lemma set_written o name k s s' n :
  (exists rt v, SetRecordCall name rt v = k) \/ (exists kind v, SetTextCall name kind v = k) ->
  call_body o k s = (s', Ok tt) -> same_records s s' n \/ may_write o k s n.
Proof.
  intros Hk Hr. assert (exists w node, o = RawOrigin.Signed w /\ check_node_useable s node w = true /\
    forall m, m <> node -> same_records s s' m) as (w & node & -> & Hu & Hm).
  { destruct Hk as [(rt & v & <-)|(kind & v & <-)]; simpl in Hr.
    - apply set_record_Ok in Hr as (w & node & -> & _ & _ & _ & Hu & ->). exists w, node.
      split_and!; try done. intros m Hne. by apply same_records_insert.
    - apply set_text_Ok in Hr as (w & node & -> & _ & Hu & ->). exists w, node.
      split_and!; try done. intros m Hne. split; [done|]. intros k'. simpl_state.
      rewrite lookup_insert_ne; [done|congruence]. }
  destruct (decide (n = node)) as [->|Hne]; [right|left; auto].
  apply (written_by_owner _ _ w node); [done|..|by left|by destruct Hk as [(?&?&<-)|(?&?&<-)]].
  simpl in Hu. unfold pns_check_node_useable, verify, bind, gets, ok_or in Hu.
  unfold owner_of. destruct (tokens s 0 node) as [i|]; simpl in Hu; [|done].
  unfold verify_with_owner, ensure in Hu. simpl. case_bool_decide; [congruence|done].
Qed.

Lemma burn_written o c who t n s0 s s' :
  (forall m, owner_of s0 m = owner_of s m) -> SubNames s0 = SubNames s ->
  st_resolvers s0 = st_resolvers s ->
  name_gone who t s0 s' -> o = RawOrigin.Signed who ->
  match c with BuyName _ _ => False | _ => True end ->
  same_records s s' n \/ may_write o c s n.
Proof.
  intros Ho Hsub Hres G -> Hc. destruct (within_family t s0 s' n (ng_records _ _ _ _ G)) as [Hn|Hn].
  - right. apply (written_by_owner _ _ who t); try done.
    + rewrite <- Ho. apply (ng_owner _ _ _ _ G).
    + unfold family in *. by rewrite <- Hsub.
  - left. unfold same_records in *. by rewrite <- Hres.
Qed.

Lemma transfer_written o src n s s' :
  chain_inv s -> Registrar.transfer o src s = (s', Ok tt) ->
  same_records s s' n \/ may_write o (TransferName src) s n.
Proof.
  intros Hs Hr. apply transfer_call_Ok in Hr as (who & to & t & s1 & -> & _ & _ & G & ->); [|done].
  destruct (within_family t _ s1 n (nm_records _ _ _ _ _ G)) as [Hn|Hn]; [right|by left].
  apply (written_by_owner _ _ who t); try done. apply (nm_from _ _ _ _ _ G).
Qed.

Lemma accept_written o name n s s' :
  accept_offered_name o name s = (s', Ok tt) ->
  same_records s s' n \/ may_write o (AcceptOfferedName name) s n.
Proof.
  intros Hr.
  apply accept_offered_name_Ok in Hr as (who & t & off & f & s1 & -> & Hoff & Hrec & _ & Ha & ->).
  destruct (decide (n = t)) as [->|Hne]; [right|left; exact (an_others _ _ _ _ Ha n Hne)].
  left. exists t. split; [by left|]. right. exists off. by rewrite Hrec.
Qed.

Lemma buy_written o name r n s s' :
  chain_inv s -> buy_name o name r s = (s', Ok tt) ->
  same_records s s' n \/ may_write o (BuyName name r) s n.
Proof.
  intros Hs Hr. destruct (buy_name_Ok _ _ _ _ _ Hr) as (b & lab & l & s0 & s1 & f & -> & Hlab & Hp & Hd).
  destruct (purchase_inv _ _ _ _ _ Hs Hp) as [Hs0 _]. set (t := encode_with_node lab BaseNode) in *.
  assert (family s t n -> may_write (RawOrigin.Signed b) (BuyName name r) s n) as Hw.
  { intros Hn. left. exists t. split; [done|]. left. exists lab, l. split_and!; try done; apply Hp. }
  destruct Hp as [_ _ _ _ (c1 & c2 & i & _ & _ & H0)].
  assert (family s t n \/ same_records s0 s' n) as [Hn|Hn]; [|by auto|left; by subst s0].
  assert (family s0 t n -> family s t n) as Hf by (by subst s0). clear H0.
  destruct r as [recip|].
  - destruct Hd as (_ & _ & Hd & ->).
    apply offer_bought_name_Ok in Hd as (P & s2 & g & _ & _ & G & _ & ->); [|done].
    destruct (within_family t _ _ n (nm_records _ _ _ _ _ G)); auto.
  - destruct Hd as (s2 & Hd & Ha & ->).
    apply transfer_name_Ok in Hd as (P & s3 & _ & G & _ & ->); [|done].
    destruct (within_family t _ _ n (nm_records _ _ _ _ _ G)) as [Hn|Hn]; [by auto|].
    destruct (decide (n = t)) as [->|Hne]; [left; apply Hf; by left|right].
    eapply same_records_trans; [exact Hn|].
    eapply same_records_trans; [|exact (an_others _ _ _ _ Ha n Hne)].
    eapply same_records_trans; [|by apply same_records_clear]. done.
Qed.

Lemma same_records_dropped n r s m : m <> n -> same_records s (dropped n r s) m.
Proof.
  intros Hne. unfold dropped. destruct (sr_state r); try done.
  by destruct (same_records_clear_all n s m Hne).
Qed.

Lemma revoke_written p t s s' n :
  revoke_subname p t s = (s', Ok tt) ->
  exists r, SubnameRecords s !! t = Some r /\ sr_parent r = p /\ (n = t \/ same_records s s' n).
Proof.
  intros (r & Hr & Hp & (i & _ & _ & ->)%sub_children_Ok)%revoke_subname_Ok.
  exists r. split_and!; [done..|]. destruct (decide (n = t)) as [->|Hne]; [by left|right].
  by apply (same_records_dropped t r s n).
Qed.

Lemma revoke_subdomain_written o label n s s' :
  chain_inv s -> revoke_subdomain o label s = (s', Ok tt) ->
  same_records s s' n \/ may_write o (RevokeSubdomain label) s n.
Proof.
  intros Hs Hr. unfold revoke_subdomain in Hr. inv_call.
  repeat match goal with u : unit |- _ => destruct u end.
  match goal with Hv : revoke_subname ?p ?t s = _ |- context [RawOrigin.Signed ?w] =>
    destruct (revoke_written p t s _ n Hv) as (r & Hrec & Hp & [->|Hn]); [right|left; exact Hn];
    left; exists p; split; [right|right; by exists w] end.
  apply (tree_subnames _ _ (ch_tree _ Hs)). by exists r.
Qed.

Lemma release_subdomain_written o parent label n s s' :
  release_subdomain o parent label s = (s', Ok tt) ->
  same_records s s' n \/ may_write o (ReleaseSubdomain parent label) s n.
Proof.
  intros Hr. unfold release_subdomain, subdomain_node in Hr. inv_call.
  match goal with Hv : release_subname ?t ?w s = _ |- _ =>
    apply release_subname_inv in Hv as (r & i & Hrec & _ & <- & _ & _ & _ & ->);
    destruct (decide (n = t)) as [->|Hne]; [right; right; by exists r|left] end.
  by destruct (same_records_clear_all _ s n Hne).
Qed.

Lemma accept_subdomain_written o parent label n s s' :
  accept_subdomain o parent label s = (s', Ok tt) ->
  same_records s s' n \/ may_write o (AcceptSubdomain parent label) s n.
Proof.
  intros Hr. unfold accept_subdomain, subdomain_node in Hr. inv_call.
  match goal with Hc : accept_subname_offer ?t _ _ = _ |- _ =>
    apply accept_subname_offer_Ok in Hc as (_ & _ & r & Hrec & _ & <- & _ & ->);
    destruct (decide (n = t)) as [->|Hne]; [right; right; by exists r|left] end.
  match goal with Hu : update_ss58 _ _ _ = _ |- _ =>
    simpl in Hu; unfold set_ss58_record in Hu; inv_call end.
  match goal with |- context [<[(?t, _) := ?v]>] =>
    by destruct (same_records_insert t codec_type.SS58 v s n Hne) end.
Qed.

Lemma reject_written caller rej name src s s' n :
  chain_inv s -> reject_pending caller rej s = (s', Ok tt) ->
  same_records s s' n \/ may_write (RawOrigin.Signed caller) (Register name src (Some rej)) s n.
Proof.
  intros Hs Hr. unfold reject_pending in Hr. inv_ok.
  destruct (OfferedNames s !! _) as [off|] eqn:Hoff; inv_ok; tidy; unfold deposit_event in *; inv_ok;
    repeat match goal with u : unit |- _ => destruct u end.
  - match goal with Hb : do_burn _ _ _ = _ |- _ =>
      apply do_burn_gone in Hb as Hg; [|by apply (chain_inv_ext s)] end.
    by eapply (burn_written _ _ _ _ n _ s) in Hg.
  - match goal with Hb : revoke_pending_offer_for_target _ _ _ = _ |- _ =>
      apply revoke_pending_inv in Hb as (r & Hrec & _ & <- & Hv);
      apply (revoke_written _ _ _ _ n) in Hv as (r' & _ & _ & [->|Hn]) end; [|by left].
    right. right. by exists r.
Qed.

(** A name in its term or grace period has an owner. *)
Lemma still_valid_owned s t : chain_inv s -> still_valid s t = true -> exists w, owner_of s t = Some w.
Proof.
  intros Hs Hv. unfold still_valid in Hv. destruct (RegistrarInfos s !! t) as [i|] eqn:Hi; [|done].
  assert (RuntimeOriginOf s !! t = Some Root) as Ho by (apply (ch_info _ Hs); eauto).
  destruct (tree_origin _ _ (ch_tree _ Hs) _ _ Ho) as (_ & _ & ti & Ht).
  exists (ti_owner ti). unfold owner_of, tokens. by rewrite Ht.
Qed.

Lemma register_written o name src rej n s s' :
  chain_inv s -> name_used name -> register o name src rej s = (s', Ok tt) ->
  same_records s s' n \/ may_write o (Register name src rej) s n.
Proof.
  intros Hs Hused Hr.
  destruct (register_Ok _ _ _ _ _ _ Hs Hused Hr)
    as (caller & to & lab & len & fee & s1 & s2 & -> & _ & Hnew & Hrej & Hs1 &
        [_ _ _ _ _ HM (f & s3 & Ha & ->)]).
  set (t := encode_with_node lab BaseNode) in *.
  assert (SubNames s1 ⊆ SubNames s) as Hsub.
  { destruct rej as [r|]; [|by subst]. exact (steps_run _ _ _ _ _ (reject_pending_fewer caller r) Hrej). }
  assert (same_records s s1 n \/ may_write (RawOrigin.Signed caller) (Register name src rej) s n)
    as [Hn1|?]; [|..|by right].
  { destruct rej as [r|]; [by eapply reject_written|left; by subst]. }
  assert (family s1 t n \/ n <> t /\ same_records s1 s2 n) as [Hn|[Hne Hn2]].
  { destruct (decide (n = t)) as [->|]; [left; by left|].
    destruct (within_family t _ s2 n (mn_records _ _ _ _ _ _ _ _ HM)); auto. }
  - right. left. exists t. split; [destruct Hn; [by left|right; by apply Hsub]|]. left.
    destruct (still_valid s t) eqn:Hv; [right|left; by exists lab, len].
    destruct (still_valid_owned s t Hs Hv) as [w Hw]. exists w. split; [|done].
    assert (owner_of s1 t = Some w /\ still_valid s1 t = true \/ caller = w) as [[Hw1 Hv1]| ->]; [..|done].
    { destruct rej as [r|]; [exact (reject_pending_owner _ _ _ _ _ _ Hs Hrej Hw Hv)|left; by subst]. }
    pose proof (mn_lapsed _ _ _ _ _ _ _ _ HM w Hw1) as Hl.
    change (still_valid s1 t = false) in Hl. congruence.
  - left. eapply same_records_trans; [exact Hn1|]. eapply same_records_trans; [exact Hn2|].
    exact (an_others _ _ _ _ Ha n Hne).
Qed.

(** C9. The records and texts of a node change only by a call of somebody who acts on
    it: the owner of the name or of the name above it, the account the subdomain was
    offered to, the buyer of the open listing of the name, whoever registers the name
    when nobody has it or it has lapsed, the account a gift of the name is pending for,
    or the account that has the name above it as canonical name.  Where the canonical
    names and gifts agree with the owners, the last two are owners. *)
Theorem records_change_only_by_holders (o : RawOrigin) (c : RuntimeCall) (s : State) (n : DomainHash)
    (Hused : Forall name_used (new_names c)) (Hs : chain_inv s)
    (Hchanged : ~ same_records s (dispatch o c s).1 n) :
  may_write o c s n /\ (names_inv s -> touches (in_charge o c s) o s n).
Proof.
  assert (may_write o c s n) as Hw; [|split; [done|]; intros N;
    eapply touches_mono; [by intros t; apply acts_in_charge|exact Hw]].
  unfold dispatch, with_storage_layer in Hchanged.
  destruct (call_body o c s) as [s' [[]|e]] eqn:Hr; [|by destruct Hchanged]. simpl in Hchanged.
  assert (same_records s s' n \/ may_write o c s n) as [?|?]; [|done..].
  destruct (records_untouched c) eqn:Hc.
  { left. apply same_records_frame. exact (frames_run _ _ _ _ _ (records_frame o c Hc) Hr). }
  destruct c; try discriminate Hc; simpl in Hr.
  - apply registry_burn_Ok in Hr as (who & t & -> & _ & G); [|done].
    by apply (burn_written _ _ who t n s).
  - by eapply register_written; [|exact (Forall_inv Hused)|].
  - by apply transfer_written.
  - apply release_name_Ok in Hr as (who & t & -> & _ & G); [|done].
    by apply (burn_written _ _ who t n (upd_OwnerToPrimaryName (delete who) s)).
  - by apply accept_subdomain_written.
  - by apply revoke_subdomain_written.
  - by apply release_subdomain_written.
  - by apply accept_written.
  - by eapply set_written; eauto.
  - by eapply set_written; eauto.
  - by apply buy_written.
Qed.

(** C40. Nobody can set a record or a text of a subdomain: the call is refused with
    [InvalidPermission] whoever signs it, the holder of the subdomain and the owner of
    the name above it included, because the check asks for the owner of a token and a
    subdomain has none. *)
Theorem subdomain_records_cannot_be_set (who : AccountId) (name : bytes) (n : DomainHash)
    (r : SubnameRecord AccountId) (s : State) (Hs : chain_inv s)
    (Hname : parse_name_to_node name BaseNode = Some n) (Hr : SubnameRecords s !! n = Some r) :
  let refused := (s, Err (ResolversError resolvers.InvalidPermission)) in
  (forall rt content, rt <> codec_type.SS58 -> rt <> codec_type.ORIGIN ->
    dispatch (RawOrigin.Signed who) (SetRecordCall name rt content) s = refused) /\
  (forall kind content,
    dispatch (RawOrigin.Signed who) (SetTextCall name kind content) s = refused).
Proof.
  assert (check_node_useable s n who = false) as Hu.
  { simpl. unfold pns_check_node_useable, verify, bind, gets, ok_or, tokens.
    by rewrite (tree_record_no_token _ _ _ _ (ch_tree _ Hs) Hr). }
  split; intros; unfold dispatch, with_storage_layer; cbn [call_body];
    unfold set_record, set_text, Resolvers.name_to_node, bind, ensure_signed, ensure, gets, ret.
  - rewrite !bool_decide_true by done. simpl checker_base_node. rewrite Hname. simpl.
    simpl in Hu. by rewrite Hu.
  - simpl checker_base_node. rewrite Hname. simpl. simpl in Hu. by rewrite Hu.
Qed.

End record_safety.
