(* ===== verification/StaleNames.v ===== *)
(** * Stale entries

    Two ways in which the index of canonical names and the pending gifts outlive the
    name they are about.  They are the two exceptions of
    [canonical_names_agree_with_owners] of [Ownership.v]. *)

From Stdlib Require Import ZArith Lia.
From stdpp Require Import base tactics numbers gmap sets fin_sets fin_maps option list_basics list.
From S2P Require Import Prelude RustStr Types Storage Label Nft Traits PriceOracle Resolvers.
From S2P Require Import Registry Registrar Marketplace Runtime RegistryInv RegistryTree RegistryOps.
From S2P Require Import ChainInv NameMoves Ownership.

Local Open Scope Z_scope.
Local Open Scope run_scope.

Section stale.
Context `{E : Env} `{C : Config} {HC : ConfigWidths C} {NL : NodeLevels BaseNode}.
Implicit Types s : State.

(** What a registration without a rejected offer does to the canonical names and the
    gifts. *)
Lemma register_names caller name src s s' :
  chain_inv s -> name_used name ->
  dispatch (RawOrigin.Signed caller) (Register name src None) s = (s', Ok tt) ->
  exists to lab len, lookup_account src = Some to /\ new_with_len name = Some (lab, len) /\
    let n := encode_with_node lab BaseNode in
    owner_of s' n = Some to /\ OwnerToPrimaryName s' !! to = Some n /\
    OfferedNames s' = OfferedNames s /\ is_Some (RegistrarInfos s' !! n) /\
    forall a m, a <> to -> OwnerToPrimaryName s !! a = Some m -> owner_of s n <> Some a ->
      OwnerToPrimaryName s' !! a = Some m.
Proof.
  intros Hs Hused Hr. unfold dispatch in Hr. apply with_storage_layer_Ok in Hr. simpl in Hr.
  destruct (register_Ok _ _ _ _ _ _ Hs Hused Hr)
    as (caller' & to & lab & len & fee & s1 & s2 & _ & Hto & Hnew & -> & _ &
        [_ _ _ _ _ HM (f & s3 & Ha & ->)]).
  exists to, lab, len. do 2 (split; [done|]). cbv zeta.
  destruct (anchored_frame _ _ _ _ Ha) as (Hnft & Hreg & _). clear Ha.
  destruct HM as [_ _ _ M4 _ M6 M7 M8 _ _ _]. simpl_state.
  split_and!.
  - by rewrite (owner_of_nft s2).
  - rewrite Hreg. simpl_state. by rewrite lookup_insert_eq.
  - rewrite Hreg. by simpl_state.
  - rewrite Hreg. simpl_state. rewrite M6, lookup_insert_eq. eauto.
  - intros a m Hne Hm Hno. rewrite Hreg. simpl_state. rewrite lookup_insert_ne by done.
    apply M7. simpl_state. rewrite lookup_delete_ne by done. split; [done|]. by intros [? _].
Qed.

(** C38. Burning a name through the registry leaves it as the canonical name of its
    former owner.  After another account registers it, both accounts have it as
    canonical name, so the calls that act on the caller's canonical name act on the
    new owner's name when the former owner makes them. *)
Theorem burn_leaves_canonical_name (who caller to : AccountId) (name : bytes) (lab : Label) (len : Z)
    (src : LookupSource) (s s1 s2 : State) (Hs : chain_inv s) (Hused : name_used name)
    (Hname : new_with_len name = Some (lab, len)) (Hto : lookup_account src = Some to)
    (Hne : to <> who) (Hp : OwnerToPrimaryName s !! who = Some (encode_with_node lab BaseNode))
    (Hburn : dispatch (RawOrigin.Signed who) (RegistryBurn name) s = (s1, Ok tt))
    (Hreg : dispatch (RawOrigin.Signed caller) (Register name src None) s1 = (s2, Ok tt)) :
  let n := encode_with_node lab BaseNode in
  (owner_of s1 n = None /\ OwnerToPrimaryName s1 !! who = Some n) /\
  (owner_of s2 n = Some to /\ OwnerToPrimaryName s2 !! to = Some n /\
   OwnerToPrimaryName s2 !! who = Some n) /\
  forall s3, dispatch (RawOrigin.Signed who) Renew s2 = (s3, Ok tt) ->
    exists i, RegistrarInfos s3 !! n = Some i /\ ri_expire i = now s2 + MaxRegistrationDuration.
Proof.
  intros n. unfold dispatch in Hburn. apply with_storage_layer_Ok in Hburn. simpl in Hburn.
  apply registry_burn_Ok in Hburn as (who' & m & [= <-] & Hm & G); [|done].
  rewrite (parse_label _ _ _ _ Hname) in Hm. injection Hm as <-. fold n in G.
  assert (OwnerToPrimaryName s1 !! who = Some n) as Hp1 by (by rewrite (ng_primary _ _ _ _ G)).
  destruct (register_names _ _ _ _ _ (ng_inv _ _ _ _ G) Hused Hreg)
    as (to' & lab' & len' & Hto' & Hname' & Hown & Hprim & _ & _ & Hkeep).
  rewrite Hto in Hto'. rewrite Hname in Hname'. simplify_eq.
  assert (OwnerToPrimaryName s2 !! who = Some n) as Hp2.
  { apply Hkeep; [done|done|]. fold n. by rewrite (ng_gone _ _ _ _ G). }
  split_and!; auto; [apply G|]. intros s3 Hrenew.
  unfold dispatch in Hrenew. apply with_storage_layer_Ok in Hrenew. simpl in Hrenew.
  unfold renew in Hrenew. inv_call.
  match goal with Hw : burn_from _ _ _ = _ |- _ => apply burn_from_Ok in Hw as (c & j & Hw & ->) end.
  simplify_eq. eexists. split; [simpl_state; apply lookup_insert_eq|done].
Qed.

(** C39. A gift that was never answered survives the registration of the lapsed name: the
    name then does not resolve although it is registered, and if the old recipient
    accepts the gift, the name becomes theirs as canonical name and in its SS58
    record, while it belongs to the account that registered it. *)
Theorem stale_gift_survives_registration (caller gifted to : AccountId) (name : bytes) (lab : Label)
    (len : Z) (src : LookupSource) (offer : OfferedNameRecord AccountId) (s s1 s2 : State)
    (Hs : chain_inv s) (Hused : name_used name)
    (Hname : new_with_len name = Some (lab, len)) (Hto : lookup_account src = Some to)
    (Hoffer : OfferedNames s !! encode_with_node lab BaseNode = Some offer)
    (Hreg : dispatch (RawOrigin.Signed caller) (Register name src None) s = (s1, Ok tt))
    (Hacc : dispatch (RawOrigin.Signed gifted) (AcceptOfferedName name) s1 = (s2, Ok tt)) :
  let n := encode_with_node lab BaseNode in
  (owner_of s1 n = Some to /\ is_Some (RegistrarInfos s1 !! n) /\ api_resolve_name s1 name = None) /\
  gifted = on_recipient offer /\ owner_of s2 n = Some to /\
  OwnerToPrimaryName s2 !! gifted = Some n /\
  Records s2 !! (n, codec_type.SS58) = Some (account_encode gifted).
Proof.
  intros n. destruct (register_names _ _ _ _ _ Hs Hused Hreg)
    as (to' & lab' & len' & Hto' & Hname' & Hown & _ & Hoff & Hinfo & _).
  rewrite Hto in Hto'. rewrite Hname in Hname'. simplify_eq. rewrite <- Hoff in Hoffer. fold n in Hown, Hinfo.
  unfold dispatch in Hacc. apply with_storage_layer_Ok in Hacc. simpl in Hacc.
  unfold accept_offered_name in Hacc. inv_call.
  match goal with He : ensure_no_name _ _ = _ |- _ => apply ensure_no_name_Ok in He as (_ & ->) end.
  match goal with Hu : update_ss58 _ _ _ = _, Ho : record_origin _ _ _ = _ |- _ =>
    pose proof (anchors_Ok _ _ _ _ _ _ _ Hu Ho) as Ha end.
  simplify_eq. fold n in Ha. pose proof (an_ss58 _ _ _ _ Ha) as Hss.
  destruct (anchored_frame _ _ _ _ Ha) as (Hnft & Hregr & _).
  split_and!; auto.
  - unfold api_resolve_name, name_record. rewrite Hname. by case_bool_decide as Hb; [|destruct Hb].
  - by rewrite (owner_of_nft s1).
  - simpl_state. rewrite Hregr. simpl_state. by rewrite lookup_insert_eq.
Qed.

End stale.
