(* ===== verification/Registration.v ===== *)
(** * Registering and renewing

    What a successful registration and a successful renewal leave, which names
    resolve, and that the term of a name never reaches further than one registration
    period ahead, so that renewing never shortens it. *)

From Stdlib Require Import ZArith Lia.
From stdpp Require Import base tactics numbers gmap sets fin_sets fin_maps option list_basics list.
From S2P Require Import Prelude RustStr Types Storage Label Nft Traits PriceOracle Resolvers.
From S2P Require Import Registry Registrar Marketplace Runtime RegistryInv RegistryTree RegistryOps.
From S2P Require Import ChainInv Genesis NameMoves Ownership OneName.

Local Open Scope Z_scope.
Local Open Scope run_scope.

Section registration.
Context `{E : Env} `{C : Config} {HC : ConfigWidths C} {NL : NodeLevels BaseNode}.
Implicit Types s : State.

(** No term ends later than one period from now. *)
Definition terms_bounded s : Prop :=
  forall n i, RegistrarInfos s !! n = Some i -> ri_expire i <= now s + MaxRegistrationDuration.

(** The chain with a clock that does not run backwards. *)
Inductive forward_step : State -> State -> Prop :=
| forward_call o c s : Forall name_used (new_names c) -> forward_step s (dispatch o c s).1
| forward_environment f s : now s <= now (with_system f s) -> forward_step s (with_system f s).

Inductive forward_reachable (root : AccountId) : State -> Prop :=
| forward_genesis number hash time c s :
    testnet_genesis root (empty_state number hash time c) = (s, Ok tt) -> forward_reachable root s
| forward_next s s' : forward_reachable root s -> forward_step s s' -> forward_reachable root s'.

(** ** Registration *)

(** The currency after [fee] was burned from the account of [who]. *)
Definition burned_from (who : AccountId) (fee : Z) (c c' : CurrencyState) : Prop :=
  currency_total_issuance c' = currency_total_issuance c - fee /\
  forall a, currency_free_balance c' a =
    currency_free_balance c a - (if decide (a = who) then fee else 0).

Lemma withdraw_burns {CL : CurrencyLaws E} who fee r c c1 i :
  currency_withdraw who fee r KeepAlive c = Ok (c1, i) -> 0 <= fee <= currency_total_issuance c ->
  burned_from who fee c (currency_drop_imbalance i c1).
Proof.
  intros Hw Hfee. pose proof (withdraw_imbalance _ _ _ _ _ _ Hw) as ->. split.
  - rewrite drop_issuance; rewrite (withdraw_issuance _ _ _ _ _ _ Hw); lia.
  - intros a. by rewrite drop_free, (withdraw_free _ _ _ _ _ _ a Hw).
Qed.

(** A registered, unexpired name without a pending gift has a record. *)
Lemma name_record_live s n i o :
  OfferedNames s !! n = None -> RegistrarInfos s !! n = Some i -> now s < ri_expire i ->
  owner_of s n = Some o ->
  name_record s n = Some (mkNameRecord o (ri_expire i) (ri_capacity i) (ri_register_fee i)
    (bool_decide (is_Some (Listings s !! n))) (ri_last_block i) 0 DomainHash_default).
Proof.
  intros Hoff Hi Hlt (t & Ht & <-)%owner_of_Some. unfold name_record, get_info, tokens.
  rewrite Hoff, Hi, Ht. rewrite bool_decide_false by (by intros []).
  by rewrite (proj2 (Z.leb_gt _ _)).
Qed.


(** C22. Resolution is complete: in a state with the invariant a name resolves
    exactly when its label is valid, it is registered, its term has not ended and
    no gift of it is pending; it then resolves to the owner of its token. *)
Theorem resolve_name_complete (s : State) (name : bytes) (Hs : chain_inv s) :
  (is_Some (api_resolve_name s name) <->
    exists lab len i, new_with_len name = Some (lab, len) /\
      OfferedNames s !! encode_with_node lab BaseNode = None /\
      RegistrarInfos s !! encode_with_node lab BaseNode = Some i /\ now s < ri_expire i) /\
  (forall r, api_resolve_name s name = Some r ->
    exists lab len, new_with_len name = Some (lab, len) /\
      owner_of s (encode_with_node lab BaseNode) = Some (nr_owner r)).
Proof.
  unfold api_resolve_name. destruct (new_with_len name) as [[lab len]|] eqn:Hnew;
    [|split; [split; [by intros []|naive_solver]|done]].
  set (n := encode_with_node lab BaseNode).
  assert (forall i, RegistrarInfos s !! n = Some i -> exists o, owner_of s n = Some o) as Hown.
  { intros i Hi. assert (RuntimeOriginOf s !! n = Some Root) as Ho by (apply (ch_info _ Hs); eauto).
    destruct (tree_origin _ _ (ch_tree _ Hs) _ _ Ho) as (_ & _ & [t Ht]).
    exists (ti_owner t). apply owner_of_Some. eauto. }
  assert (forall r, name_record s n = Some r -> OfferedNames s !! n = None /\
    exists i, RegistrarInfos s !! n = Some i /\ now s < ri_expire i /\
      owner_of s n = Some (nr_owner r)) as Hinv.
  { intros r. unfold name_record, get_info, owner_of, tokens. case_bool_decide as Hoff; [done|].
    destruct (RegistrarInfos s !! n) as [i|] eqn:Hi; [|done].
    destruct (Z.leb_spec (ri_expire i) (now s)); [done|].
    destruct (Tokens s !! (0, n)) as [t|] eqn:Ht; [|done]. intros [= <-].
    split; [by apply eq_None_not_Some|]. eauto. }
  split; [split|].
  - intros [r Hr]. destruct (Hinv _ Hr) as (? & i & ? & ? & ?). naive_solver.
  - intros (lab' & len' & i & [= <- <-] & Hoff & Hi & Hlt). destruct (Hown _ Hi) as [o Ho].
    by rewrite (name_record_live s n i o).
  - intros r Hr. destruct (Hinv _ Hr) as (? & i & ? & ? & ?). eauto.
Qed.

(** The dashboard of an account is complete: the canonical name it shows belongs to
    the account; the subdomains it lists are all those the account holds, next to
    top-level names; the offers and gifts it lists are exactly those waiting for the
    account's answer; nothing is listed twice. *)
Theorem dashboard_complete (s : State) (a : AccountId) (Hs : chain_inv s) (Hn : names_inv s) :
  let d := api_account_dashboard s a in
  (forall n, primary_name d = Some n -> owner_of s n = Some a) /\
  (forall n, is_top n = false -> n ∈ subnames d <->
    exists r, SubnameRecords s !! n = Some r /\ sr_target r = a /\ sr_state r = Active) /\
  (forall n, n ∈ pending_subname_offers d <->
    exists r, SubnameRecords s !! n = Some r /\ sr_target r = a /\ sr_state r = Offered) /\
  (forall n, n ∈ pending_name_offers d <->
    exists r, OfferedNames s !! n = Some r /\ on_recipient r = a /\ owner_of s n = Some a) /\
  NoDup (subnames d) /\ NoDup (pending_subname_offers d) /\ NoDup (pending_name_offers d).
Proof.
  pose proof (ch_tree _ Hs) as HT. simpl. split_and!.
  - intros n Hp. by apply (ni_primary _ Hn).
  - intros n Ht. rewrite elem_of_elements, elem_of_prefix. split.
    + intros [Ht'|Hr]%(tree_account _ _ HT); [by destruct (eq_true_false_abs _ Ht' Ht)|done].
    + intros (r & Hr & <- & Hst). by apply (tree_active _ _ HT).
  - intros n. rewrite elem_of_elements, elem_of_prefix. apply (tree_offered _ _ HT).
  - intros n. rewrite list_elem_of_fmap. split.
    + intros ([m r] & -> & [Hr Hin]%list_elem_of_filter). apply elem_of_map_to_list in Hin.
      simpl in *. exists r. destruct (ni_offer _ Hn _ _ Hin) as [_ Ho]. by subst a.
    + intros (r & Hr & Ha & _). exists (n, r). split; [done|]. apply list_elem_of_filter.
      split; [done|]. by apply elem_of_map_to_list.
  - apply NoDup_elements.
  - apply NoDup_elements.
  - apply NoDup_fmap_fst; [|by apply NoDup_filter, NoDup_map_to_list].
    intros n r q [_ H1%elem_of_map_to_list]%list_elem_of_filter [_ H2%elem_of_map_to_list]%list_elem_of_filter.
    congruence.
Qed.

(** ** Terms *)

(** The registrations a step leaves: what was there, or a term of one period. *)
Definition terms_from s s' : Prop :=
  now s' = now s /\
  forall n i, RegistrarInfos s' !! n = Some i ->
    ri_expire i = now s + MaxRegistrationDuration \/ RegistrarInfos s !! n = Some i.

Lemma terms_sub s s' : now s' = now s -> RegistrarInfos s' ⊆ RegistrarInfos s -> terms_from s s'.
Proof. intros Hn Hsub. split; [done|]. intros n i Hi. right. by eapply lookup_weaken. Qed.

Lemma terms_gone who n s s' : name_gone who n s s' -> terms_from s s'.
Proof. intros G. apply terms_sub; [apply G|]. rewrite (ng_info _ _ _ _ G). apply delete_subseteq. Qed.

Lemma terms_register o name src rej s s' :
  chain_inv s -> name_used name -> register o name src rej s = (s', Ok tt) -> terms_from s s'.
Proof.
  intros Hs Hused Hr.
  destruct (register_Ok _ _ _ _ _ _ Hs Hused Hr)
    as (caller & to & lab & len & fee & s1 & s2 & _ & _ & _ & Hrej & _ &
        [_ _ _ _ _ HM (f & s3 & Ha & ->)]).
  assert (terms_from s s1) as [Hn1 H1].
  { destruct rej as [r|]; [|by subst; apply terms_sub].
    apply reject_pending_Ok in Hrej as [_ [[S Hi]|(m & off & g & s0 & _ & _ & G & ->)]]; [..|done].
    - apply terms_sub; [apply S|by rewrite Hi].
    - exact (terms_gone _ _ _ _ G). }
  destruct (anchored_frame _ _ _ _ Ha) as (_ & Hreg & _ & _ & Hsys).
  destruct HM as [_ _ _ _ _ M6 _ _ _ M10 _]. unfold terms_from. simpl_state.
  rewrite Hreg, Hsys. simpl_state. split; [congruence|]. intros n i. rewrite M6.
  intros [[_ <-]|[_ Hi]]%lookup_insert_Some; [left; simpl; congruence|auto].
Qed.

Lemma terms_buy o name r s s' :
  chain_inv s -> buy_name o name r s = (s', Ok tt) -> terms_from s s'.
Proof.
  intros Hs Hr.
  destruct (buy_name_Ok _ _ _ _ _ Hr) as (buyer & lab & l & s0 & s1 & f & -> & _ & Hp & Hd).
  destruct (purchase_inv _ _ _ _ _ Hs Hp) as [Hs0 _].
  destruct Hp as [_ _ _ _ (c1 & c2 & i & _ & _ & ->)]. destruct r as [recip|].
  - destruct Hd as (_ & _ & Hd & ->).
    apply offer_bought_name_Ok in Hd as (P & s2 & g & _ & _ & HM & _ & ->); [|done].
    apply terms_sub; simpl_state; [apply HM|]. by rewrite (nm_registrar _ _ _ _ _ HM).
  - destruct Hd as (s2 & Hd & Ha & ->).
    apply transfer_name_Ok in Hd as (P & s3 & _ & HM & _ & ->); [|done].
    destruct (anchored_frame _ _ _ _ Ha) as (_ & Hreg & _ & _ & Hsys).
    apply terms_sub; simpl_state; rewrite ?Hreg, ?Hsys; [apply HM|].
    unfold Resolvers.clear_records_except_ss58. simpl_state. by rewrite (nm_registrar _ _ _ _ _ HM).
Qed.

Lemma terms_call o c s s' :
  Forall name_used (new_names c) -> chain_inv s -> call_body o c s = (s', Ok tt) -> terms_from s s'.
Proof.
  intros Hused Hs Hr. destruct (moves_no_name c) eqn:Hc.
  { destruct (fixes_call o c Hused Hc _ _ _ Hs Hr) as [_ S].
    split; [apply S|]. intros n i [[? _]|?]%(sn_terms _ _ S); auto. }
  destruct c; try discriminate Hc; simpl in Hr.
  - apply registry_burn_Ok in Hr as (who & m & _ & _ & G); [|done]. by eapply terms_gone.
  - by eapply terms_register, Hr; [|exact (Forall_inv Hused)].
  - apply transfer_call_Ok in Hr as (who & to1 & m & s1 & _ & _ & _ & G & ->); [|done].
    apply terms_sub; simpl_state; [apply G|]. by rewrite (nm_registrar _ _ _ _ _ G).
  - apply release_name_Ok in Hr as (who & m & _ & _ & G); [|done]. exact (terms_gone _ _ _ _ G).
  - apply accept_offered_name_Ok in Hr as (who & m & off & f & s1 & _ & _ & _ & _ & Ha & ->).
    destruct (anchored_frame _ _ _ _ Ha) as (_ & Hreg & _ & _ & Hsys).
    apply terms_sub; simpl_state; by rewrite ?Hreg, ?Hsys.
  - by eapply terms_buy.
Qed.

Lemma terms_dispatch (o : RawOrigin) (c : RuntimeCall) (s : State)
    (Hused : Forall name_used (new_names c)) (Hs : chain_inv s) (Hb : terms_bounded s) :
  terms_bounded (dispatch o c s).1.
Proof.
  unfold dispatch, with_storage_layer.
  destruct (call_body o c s) as [s' [[]|e]] eqn:Hr; [|done]. simpl.
  destruct (terms_call _ _ _ _ Hused Hs Hr) as [Hn Ht].
  intros n i [Hi|Hi]%Ht; rewrite Hn; [lia|exact (Hb _ _ Hi)].
Qed.

(** No call lets a term end later than one registration period from now. *)
Theorem terms_stay_bounded (o : RawOrigin) (c : RuntimeCall) (s : State)
    (Hused : Forall name_used (new_names c)) (Hs : chain_inv s) (Hb : terms_bounded s) :
  terms_bounded (dispatch o c s).1.
Proof. exact (terms_dispatch o c s Hused Hs Hb). Qed.

Lemma forward_inv root s : forward_reachable root s -> chain_inv s /\ terms_bounded s.
Proof.
  intros Hr. induction Hr as [number hash time c s Hg|s s' _ [Hs Hb] Hstep].
  - split; [apply (reachable_inv root); by eapply reach_genesis|].
    destruct (genesis_no_names _ _ _ _ _ _ Hg) as (_ & H4 & _). intros n i. by rewrite H4.
  - destruct Hstep as [o c s Hused|f s Hnow].
    + split; [by apply dispatch_chain_inv|by apply terms_dispatch].
    + split; [by apply (chain_inv_ext s)|]. intros n i Hi. specialize (Hb n i Hi). lia.
Qed.

(** C27. A successful renewal, on a chain whose clock does not run backwards: the
    caller's canonical name was still in its term or grace period, its new term is one
    period from now and no shorter than the old one, because no term of the chain
    reaches further ahead than that; the price of its label was burned from the caller,
    and nothing else about the registration changed, the block it was last registered
    in included. *)
Theorem renew_succeeds {CL : CurrencyLaws E} (root caller : AccountId) (s s' : State)
    (Hreach : forward_reachable root s) (Hr : dispatch (RawOrigin.Signed caller) Renew s = (s', Ok tt)) :
  exists n i price, OwnerToPrimaryName s !! caller = Some n /\ RegistrarInfos s !! n = Some i /\
    still_valid s n = true /\ registration_fee s (ri_label_len i) = Some price /\
    RegistrarInfos s' = <[n := mkRegistrarInfo (now s + MaxRegistrationDuration) (ri_capacity i)
                                 (ri_register_fee i) (ri_label_len i) (ri_last_block i)]>
                          (RegistrarInfos s) /\
    ri_expire i <= now s + MaxRegistrationDuration < 2 ^ 64 /\
    (0 <= price <= currency_total_issuance (Balances s) ->
      burned_from caller price (Balances s) (Balances s')).
Proof.
  unfold dispatch in Hr. apply with_storage_layer_Ok in Hr. simpl in Hr.
  unfold renew in Hr. inv_call.
  match goal with Hw : burn_from _ _ _ = _ |- _ => apply burn_from_Ok in Hw as (c & j & Hw & ->) end.
  match goal with Hi : RegistrarInfos (st_registrar s) !! ?n = Some ?i,
                  Hp : registration_fee s _ = Some ?p |- _ => exists n, i, p end.
  subst. split_and!; try done.
  - unfold still_valid.
    match goal with Hi : RegistrarInfos _ !! _ = _ |- _ => rewrite Hi end. by apply Z.leb_le.
  - destruct (forward_inv _ _ Hreach) as [_ Hb]. eapply Hb. eassumption.
  - intros. by eapply withdraw_burns.
Qed.

End registration.
