(* ===== verification/Lockout.v ===== *)
(** * The former owner of a transferred name

    A registration enters the name in the index of held names of its owner, and a
    transfer does not take the entry out.  As the checks for a free account read this
    index, an account that has transferred a name it registered can never receive a
    name again.  [locked] is the invariant behind this: an entry of a top-level name
    the account does not own. *)

From Stdlib Require Import ZArith Lia.
From stdpp Require Import base tactics numbers gmap sets fin_sets fin_maps option list_basics list relations.
From S2P Require Import Prelude RustStr Types Storage Label Nft Traits PriceOracle Resolvers.
From S2P Require Import Registry Registrar Marketplace Runtime RegistryInv RegistryTree RegistryOps.
From S2P Require Import ChainInv Genesis NameMoves Ownership.

Local Open Scope Z_scope.
Local Open Scope run_scope.

Section lockout.
Context `{E : Env} `{C : Config} {HC : ConfigWidths C} {NL : NodeLevels BaseNode}.
Context (who : AccountId) (n : DomainHash).
Implicit Types s : State.

Record locked s : Prop := {
  lk_top : is_top n = true;
  lk_entry : (who, n) ∈ AccountToSubnames s;
  lk_owner : owner_of s n <> Some who
}.

(** The invariant reads the token storage and the registry only. *)
Lemma locked_ext s s' :
  st_nft s' = st_nft s -> st_registry s' = st_registry s -> locked s -> locked s'.
Proof. intros H1 H2 [L1 L2 L3]. split; unfold owner_of, tokens; rewrite ?H1, ?H2; done. Qed.

Lemma locked_active s : locked s -> has_active_subname s who = true.
Proof.
  intros L. apply bool_decide_eq_true. intros He.
  assert (n ∈ prefix who (AccountToSubnames s)) as Hin by apply elem_of_prefix, (lk_entry _ L).
  rewrite He in Hin. set_solver.
Qed.

(** Who is free to receive a name is not locked out. *)
Lemma locked_other s to : locked s -> has_active_subname s to = false -> to <> who.
Proof. intros L%locked_active H ->. congruence. Qed.

Lemma locked_gone from m s s' : name_gone from m s s' -> locked s -> locked s'.
Proof.
  intros G [L1 L2 L3]. split; [done|..].
  - apply (ng_account _ _ _ _ G); [done| |done]. intros [= -> ->]. by apply L3, G.
  - destruct (decide (n = m)) as [->|Hne]; [by rewrite (ng_gone _ _ _ _ G)|].
    by rewrite (ng_owners _ _ _ _ G).
Qed.

Lemma locked_moved from to m s s' :
  name_moved from to m s s' -> has_active_subname s to = false -> locked s -> locked s'.
Proof.
  intros G Hto L. pose proof (locked_other _ _ L Hto) as Hne. destruct L as [L1 L2 L3]. split; [done|..].
  - by apply (nm_account _ _ _ _ _ G).
  - destruct (decide (n = m)) as [->|Hm]; [rewrite (nm_to _ _ _ _ _ G); congruence|].
    by rewrite (nm_owners _ _ _ _ _ G).
Qed.

Lemma locked_minted caller to m fee ex len s s' :
  name_minted caller to m fee ex len s s' -> has_active_subname s to = false -> locked s -> locked s'.
Proof.
  intros G Hto L. pose proof (locked_other _ _ L Hto) as Hne. destruct L as [L1 L2 L3]. split; [done|..].
  - apply (mn_account _ _ _ _ _ _ _ _ G); [done| |done]. by intros Ho ->.
  - destruct (decide (n = m)) as [->|Hm]; [rewrite (mn_owner _ _ _ _ _ _ _ _ G); congruence|].
    by rewrite (mn_owners _ _ _ _ _ _ _ _ G).
Qed.

Lemma locked_anchored m a s s' : anchored m a s s' -> locked s -> locked s'.
Proof. intros (H1 & _ & _ & H2 & _)%anchored_frame. by apply locked_ext. Qed.

Lemma locked_same s s' : same_names s s' -> locked s -> locked s'.
Proof.
  intros S [L1 L2 L3]. split; [done|by apply (sn_account _ _ S)|by rewrite (sn_owner _ _ S)].
Qed.

Lemma locked_reject caller rej s s' :
  chain_inv s -> reject_pending caller rej s = (s', Ok tt) -> locked s -> locked s'.
Proof.
  intros Hs Hr L. apply reject_pending_Ok in Hr as [_ [[S _]|(m & off & f & s0 & _ & _ & G & ->)]]; [..|done].
  - by eapply locked_same.
  - apply (locked_ext s0); [done..|]. eapply locked_gone; [exact G|]. by apply (locked_ext s).
Qed.

(** The state a registration mints in, with or without a rejected offer. *)
Lemma locked_rejected caller rej s s1 :
  chain_inv s -> match rej with Some r => reject_pending caller r s = (s1, Ok tt) | None => s1 = s end ->
  locked s -> locked s1.
Proof. intros Hs Hr. destruct rej; [by eapply locked_reject|by subst]. Qed.

Lemma locked_register o name src rej s s' :
  chain_inv s -> name_used name -> register o name src rej s = (s', Ok tt) ->
  locked s -> locked s' /\ lookup_account src <> Some who.
Proof.
  intros Hs Hused Hr L. destruct (register_Ok _ _ _ _ _ _ Hs Hused Hr)
    as (caller & to & lab & len & fee & s1 & s2 & _ & Hto & _ & Hrej & _ & [_ _ Hin _ _ HM (f & s3 & Ha & ->)]).
  assert (locked s1) as L1 by (by eapply locked_rejected). split.
  - apply (locked_ext s3); [done..|]. eapply locked_anchored; [exact Ha|]. apply (locked_ext s2); [done..|].
    eapply locked_minted; [exact HM|done|]. by apply (locked_ext s1).
  - pose proof (locked_other _ _ L1 Hin). congruence.
Qed.

Lemma locked_transfer o src s s' :
  chain_inv s -> Registrar.transfer o src s = (s', Ok tt) -> locked s -> locked s'.
Proof.
  intros Hs Hr L. apply transfer_call_Ok in Hr as (w & to & m & s1 & _ & _ & [_ [_ Hto]] & G & ->); [|done].
  apply (locked_ext s1); [done..|]. eapply locked_moved; [exact G|done|]. by apply (locked_ext s).
Qed.

Lemma locked_buy o name r s s' :
  chain_inv s -> buy_name o name r s = (s', Ok tt) -> locked s -> locked s'.
Proof.
  intros Hs Hr L.
  destruct (buy_name_Ok _ _ _ _ _ Hr) as (buyer & lab & l & s0 & s1 & f & _ & _ & Hp & Hd).
  destruct (purchase_inv _ _ _ _ _ Hs Hp) as [Hs0 _].
  assert (locked s0) as L0.
  { destruct Hp as [_ _ _ _ (c1 & c2 & i & _ & _ & ->)]. by apply (locked_ext s). }
  destruct r as [recip|].
  - destruct Hd as (_ & _ & Hd & ->).
    apply offer_bought_name_Ok in Hd as (P & s2 & g & _ & [_ Hto] & G & _ & ->); [|done].
    apply (locked_ext s2); [done..|]. by eapply locked_moved.
  - destruct Hd as (s2 & Hd & Ha & ->).
    apply transfer_name_Ok in Hd as (P & s3 & [_ Hto] & G & _ & ->); [|done].
    apply (locked_ext s2); [done..|]. eapply locked_anchored; [exact Ha|]. apply (locked_ext s3); [done..|].
    eapply locked_moved; [exact G|done|]. by apply (locked_ext s0).
Qed.

Lemma locked_call o c s s' :
  Forall name_used (new_names c) -> chain_inv s -> call_body o c s = (s', Ok tt) -> locked s -> locked s'.
Proof.
  intros Hused Hs Hr L. destruct (moves_no_name c) eqn:Hc.
  { destruct (fixes_call o c Hused Hc _ _ _ Hs Hr) as [_ S]. by eapply locked_same. }
  destruct c; try discriminate Hc; simpl in Hr.
  - apply registry_burn_Ok in Hr as (w & m & _ & _ & G); [|done]. by eapply locked_gone.
  - by eapply locked_register; [|exact (Forall_inv Hused)|..].
  - by eapply locked_transfer.
  - apply release_name_Ok in Hr as (w & m & _ & _ & G); [|done].
    eapply locked_gone; [exact G|]. by apply (locked_ext s).
  - apply accept_offered_name_Ok in Hr as (w & m & off & f & s1 & _ & _ & _ & _ & Ha & ->).
    apply (locked_ext s1); [done..|]. eapply locked_anchored; [exact Ha|]. by apply (locked_ext s).
  - by eapply locked_buy.
Qed.

Lemma locked_steps s t : rtc chain_step s t -> chain_inv s -> locked s -> chain_inv t /\ locked t.
Proof.
  induction 1 as [s|s s1 t Hstep _ IH]; [done|]. intros Hs L. apply IH.
  - destruct Hstep; [by apply dispatch_chain_inv|by apply (chain_inv_ext s)].
  - destruct Hstep as [o c s Hused|f s]; [|by apply (locked_ext s)].
    unfold dispatch, with_storage_layer.
    destruct (call_body o c s) as [s' [[]|e]] eqn:Hr; [|done]. by eapply locked_call.
Qed.

(** C37. Transferring a name locks out a former owner who has an entry of it in the
    index of held names, as the registration of a name makes it and its transfer does
    not.  The entry stays, so from then on, in every later state of the chain, no
    registration for their account succeeds, whoever signs it and whichever offer it
    rejects first, although they have neither a canonical name nor the name any
    more. *)
Theorem transfer_locks_out_former_owner (dst : LookupSource) (s s' : State) (Hs : chain_inv s)
    (Hp : OwnerToPrimaryName s !! who = Some n) (Hheld : (who, n) ∈ AccountToSubnames s)
    (Hr : dispatch (RawOrigin.Signed who) (TransferName dst) s = (s', Ok tt)) :
  OwnerToPrimaryName s' !! who = None /\ owner_of s' n <> Some who /\
  forall t, rtc chain_step s' t -> has_active_subname t who = true /\
    forall caller name src rej t', name_used name -> lookup_account src = Some who ->
      dispatch (RawOrigin.Signed caller) (Register name src rej) t <> (t', Ok tt).
Proof.
  unfold dispatch in Hr. apply with_storage_layer_Ok in Hr. simpl in Hr.
  pose proof (keeps_call (RawOrigin.Signed who) (TransferName dst) (Forall_nil_2 _) _ _ _ Hs Hr) as Hs'.
  apply transfer_call_Ok in Hr as (w & to & m & s1 & [= <-] & Hm & [_ [Hfree _]] & G & ->); [|done].
  assert (m = n) as -> by congruence.
  assert (to <> who) as Hne.
  { intros ->. specialize (Hfree _ Hp). pose proof (nm_valid _ _ _ _ _ G) as Hv.
    change (still_valid s n = true) in Hv. congruence. }
  assert (locked s1) as L1.
  { split; [apply G|by apply (nm_account _ _ _ _ _ G); [apply G|]|rewrite (nm_to _ _ _ _ _ G); congruence]. }
  split_and!; [|apply L1|].
  - simpl_state. by rewrite lookup_insert_ne, lookup_delete_eq.
  - intros t Ht. apply locked_steps in Ht as [Ht L]; [|done|by apply (locked_ext s1)].
    split; [by apply locked_active|]. intros caller name src rej t' Hused Hsrc Hreg.
    apply with_storage_layer_Ok in Hreg. by apply locked_register in Hreg as [_ ?].
Qed.

End lockout.
