(* ===== verification/Sales.v ===== *)
(** * Selling names

    What a purchase on the marketplace does: who pays what to whom, and who holds
    the name, the canonical name and the gift afterwards. *)

From Stdlib Require Import ZArith Lia.
From stdpp Require Import base tactics numbers gmap sets fin_sets fin_maps option list_basics list.
From S2P Require Import Prelude RustStr Types Storage Label Nft Traits PriceOracle Resolvers.
From S2P Require Import Registry Registrar Marketplace Runtime RegistryInv RegistryTree RegistryOps.
From S2P Require Import ChainInv Footprints NameMoves Ownership.

Local Open Scope Z_scope.
Local Open Scope run_scope.

Section sales.
Context `{E : Env} `{C : Config} {HC : ConfigWidths C} {NL : NodeLevels BaseNode}.
Implicit Types s : State.

(** The currency after [buyer] paid [price] to [seller], who paid the fee. *)
Definition settled (buyer seller : AccountId) (price fee : Z) (c c' : CurrencyState) : Prop :=
  currency_total_issuance c' = currency_total_issuance c - fee /\
  forall a, currency_free_balance c' a = currency_free_balance c a
    - (if decide (a = buyer) then price else 0) + (if decide (a = seller) then price - fee else 0).

(** What became of the name. *)
Definition delivered (n : DomainHash) (buyer : AccountId) (recipient : option AccountId) s' : Prop :=
  match recipient with
  | None => owner_of s' n = Some buyer /\ OwnerToPrimaryName s' !! buyer = Some n /\
      Records s' !! (n, codec_type.SS58) = Some (account_encode buyer)
  | Some recip => owner_of s' n = Some recip /\
      OfferedNames s' !! n = Some (mkOfferedNameRecord buyer recip) /\ name_record s' n = None
  end.

Lemma protocol_fee_share price :
  0 <= price -> 0 <= ProtocolFeeBps <= 10000 -> price * ProtocolFeeBps < 2 ^ 128 ->
  protocol_fee price = price * ProtocolFeeBps / 10000 /\ 0 <= protocol_fee price <= price.
Proof.
  intros Hp Hb Hw. unfold protocol_fee, saturating_mul. rewrite Z.min_l by lia. split; [done|].
  split; [apply Z.div_pos; nia|]. apply Z.div_le_upper_bound; nia.
Qed.

Lemma payment_settles {CL : CurrencyLaws E} buyer seller price fee c c1 c2 i :
  buyer <> seller -> 0 <= fee <= currency_total_issuance c ->
  currency_transfer buyer seller price KeepAlive c = Ok c1 ->
  currency_withdraw seller fee FEE KeepAlive c1 = Ok (c2, i) ->
  settled buyer seller price fee c (currency_drop_imbalance i c2).
Proof.
  intros Hne Hfee Ht Hw. pose proof (withdraw_imbalance _ _ _ _ _ _ Hw) as ->.
  pose proof (transfer_issuance _ _ _ _ _ Ht) as Hi1.
  pose proof (withdraw_issuance _ _ _ _ _ _ Hw) as Hi2. split.
  - rewrite drop_issuance; lia.
  - intros a. rewrite drop_free, (withdraw_free _ _ _ _ _ _ a Hw),
      (transfer_free _ _ _ _ _ a Ht Hne).
    repeat case_decide; lia.
Qed.

(** Delivery pays nothing more. *)
Lemma delivery n buyer l r s0 s1 s' f :
  chain_inv s0 ->
  match r with
  | None => exists s2, Registrar.transfer_name (seller l) buyer n s0 = (s1, Ok tt) /\
      anchored n buyer (Resolvers.clear_records_except_ss58 n s1) s2 /\ s' = upd_events f s2
  | Some recip => recip <> buyer /\ recip <> seller l /\
      Registrar.offer_bought_name (seller l) buyer recip n s0 = (s1, Ok tt) /\ s' = upd_events f s1
  end ->
  Balances s' = Balances s0 /\ Listings s' = Listings s0 /\ delivered n buyer r s'.
Proof.
  intros Hs Hd. destruct r as [recip|].
  - destruct Hd as (_ & _ & Hd & ->).
    apply offer_bought_name_Ok in Hd as (P & s2 & g & _ & _ & HM & _ & ->); [|done].
    simpl_state. split_and!; [apply HM|apply HM|]. unfold delivered, name_record. simpl_state.
    rewrite lookup_insert_eq, bool_decide_true by done. split_and!; [|done..]. apply HM.
  - destruct Hd as (s2 & Hd & Ha & ->).
    apply transfer_name_Ok in Hd as (P & s3 & _ & HM & _ & ->); [|done].
    pose proof (an_ss58 _ _ _ _ Ha) as Hss.
    destruct (anchored_frame _ _ _ _ Ha) as (Hnft & Hreg & Hmkt & _ & Hsys). simpl_state.
    rewrite Hmkt, Hsys. unfold delivered. simpl_state. rewrite Hreg.
    unfold Resolvers.clear_records_except_ss58. simpl_state. rewrite lookup_insert_eq.
    split_and!; try done; [apply HM|apply HM|].
    rewrite (owner_of_nft s3) by exact Hnft. apply HM.
Qed.

(** The share of the protocol is at most the price, also where the product saturates. *)
Lemma protocol_fee_bounded price :
  0 <= price -> 0 <= ProtocolFeeBps <= 10000 -> 0 <= protocol_fee price <= price.
Proof.
  intros Hp Hb. unfold protocol_fee, saturating_mul. split; [apply Z.div_pos; nia|].
  apply Z.div_le_upper_bound; nia.
Qed.

(** The part of a purchase before the delivery, on the balances. *)
Lemma purchase_pays {CL : CurrencyLaws E} buyer l n s s0 a :
  purchase buyer l n s s0 -> a <> buyer ->
  currency_free_balance (Balances s0) a = currency_free_balance (Balances s) a
    + (if decide (a = seller l) then price l - protocol_fee (price l) else 0).
Proof.
  intros [_ Hne _ _ (c1 & c2 & i & Hc1 & Hc2 & ->)] Ha. simpl_state.
  rewrite drop_free, (withdraw_free _ _ _ _ _ _ a Hc2), (transfer_free _ _ _ _ _ a Hc1 Hne).
  repeat case_decide; try congruence; lia.
Qed.

Lemma buy_name_pays {CL : CurrencyLaws E} o name r s s' a :
  chain_inv s -> buy_name o name r s = (s', Ok tt) -> o <> RawOrigin.Signed a ->
  exists lab l, Label_new name = Some lab /\ Listings s !! encode_with_node lab BaseNode = Some l /\
    now s < expires_at l /\ owner_of s (encode_with_node lab BaseNode) = Some (seller l) /\
    currency_free_balance (Balances s') a = currency_free_balance (Balances s) a
      + (if decide (a = seller l) then price l - protocol_fee (price l) else 0).
Proof.
  intros Hs Hr Ho.
  destruct (buy_name_Ok _ _ _ _ _ Hr) as (b & lab & l & s0 & s1 & f & -> & Hlab & Hp & Hd).
  destruct (purchase_inv _ _ _ _ _ Hs Hp) as [Hs0 _]. apply delivery in Hd as (-> & _); [|done].
  exists lab, l. split_and!; [done|apply Hp..|]. by apply (purchase_pays b l _ _ _ _ Hp); congruence.
Qed.

(** C6. A purchase settles: the buyer pays the asking price to the seller, who was
    the owner and whose listing was open; the protocol's share, at most the price,
    is burned from the seller; nobody else's balance changes.  The listing is gone,
    and the buyer owns the name and has it as canonical name, or the recipient of
    the gift owns it and it does not resolve until they accept. *)
Theorem buy_name_settles {CL : CurrencyLaws E} (buyer : AccountId) (name : bytes)
    (r : option AccountId) (s s' : State) (Hs : chain_inv s)
    (Hr : dispatch (RawOrigin.Signed buyer) (BuyName name r) s = (s', Ok tt)) :
  exists lab l, Label_new name = Some lab /\
    let n := encode_with_node lab BaseNode in
    let fee := protocol_fee (price l) in
    Listings s !! n = Some l /\ owner_of s n = Some (seller l) /\ now s < expires_at l /\
    (0 <= price l -> 0 <= ProtocolFeeBps <= 10000 -> price l * ProtocolFeeBps < 2 ^ 128 ->
      fee = price l * ProtocolFeeBps / 10000 /\ 0 <= fee <= price l) /\
    (0 <= fee <= currency_total_issuance (Balances s) ->
      settled buyer (seller l) (price l) fee (Balances s) (Balances s')) /\
    Listings s' = delete n (Listings s) /\ delivered n buyer r s'.
Proof.
  unfold dispatch in Hr. apply with_storage_layer_Ok in Hr. simpl in Hr.
  destruct (buy_name_Ok _ _ _ _ _ Hr) as (b & lab & l & s0 & s1 & f & [= <-] & Hlab & Hp & Hd).
  destruct (purchase_inv _ _ _ _ _ Hs Hp) as [Hs0 _].
  apply delivery in Hd as (HB & HL & HD); [|done].
  destruct Hp as [P1 P2 P3 P4 (c1 & c2 & i & Hc1 & Hc2 & ->)]. simpl_state.
  exists lab, l. split; [done|]. cbv zeta. split_and!; try done; [apply protocol_fee_share|].
  intros Hfee. rewrite HB. by eapply payment_settles.
Qed.

(** The prices of the listings are unsigned, as their type is. *)
Definition prices_unsigned s : Prop := forall n l, Listings s !! n = Some l -> 0 <= price l.

Lemma prices_stay_unsigned o c s :
  (forall p ex, c = CreateListing p ex -> 0 <= p) -> prices_unsigned s ->
  prices_unsigned (dispatch o c s).1.
Proof.
  intros Hc Hp. unfold dispatch, with_storage_layer.
  destruct (call_body o c s) as [s' [[]|e]] eqn:Hr; [|done]. simpl. intros n l Hl.
  destruct (steps_run _ _ _ _ _ (call_listings o c) Hr n l Hl) as [?|[ex ->]]; eauto.
Qed.

(** C10. Nobody pays for a call they did not sign: whatever call is dispatched and
    whether it succeeds, an account other than the signer's keeps its balance, or it
    sold the name it owned by an open listing of its own and gained the price less
    the protocol's share. *)
Theorem only_the_signer_pays {CL : CurrencyLaws E} (o : RawOrigin) (c : RuntimeCall) (s : State)
    (a : AccountId) (Hs : chain_inv s) (Hp : prices_unsigned s)
    (Hb : 0 <= ProtocolFeeBps <= 10000) (Ha : o <> RawOrigin.Signed a) :
  let balance s := currency_free_balance (Balances s) a in
  let s' := (dispatch o c s).1 in
  balance s' = balance s \/
  exists name r lab l, c = BuyName name r /\ Label_new name = Some lab /\
    let n := encode_with_node lab BaseNode in
    Listings s !! n = Some l /\ seller l = a /\ owner_of s n = Some a /\ now s < expires_at l /\
    balance s' = balance s + (price l - protocol_fee (price l)) /\ balance s <= balance s'.
Proof.
  cbv zeta. unfold dispatch, with_storage_layer.
  destruct (call_body o c s) as [s' [[]|e]] eqn:Hr; [|by left]. simpl.
  assert ((exists name r, c = BuyName name r) \/ forall name r, c <> BuyName name r)
    as [(name & r & ->)|Hc] by (destruct c; eauto; by right).
  - apply (buy_name_pays _ _ _ _ _ a) in Hr as (lab & l & Hlab & Hl & Hopen & Hown & ->); [|done..].
    case_decide; [right|left; lia]. subst a. exists name, r, lab, l.
    pose proof (protocol_fee_bounded (price l) (Hp _ _ Hl) Hb). split_and!; try done; lia.
  - left. apply (steps_run _ _ _ _ _ (call_pays o c Hc) Hr). done.
Qed.

End sales.
