(* ===== verification/Witnesses.v ===== *)
(** * Witnesses

    The theorems applied on the concrete chain of [Sample.v]: their hypotheses
    hold there, by evaluation.  Account 2 registers "alice" and "alice" is sold,
    given away, transferred and subdivided. *)

From Stdlib Require Import ZArith Lia.
From Stdlib Require Import Strings.String.
From stdpp Require Import base tactics numbers gmap sets fin_sets fin_maps option list_basics list.
From S2P Require Import Prelude RustStr RustNet Types Storage Label Nft Traits PriceOracle Origin.
From S2P Require Import Resolvers Registry Registrar Marketplace RedeemCode Runtime Authority Sample.
From S2P Require Import RegistryInv RegistryTree RegistryOps ChainInv Genesis NameMoves Ownership.
From S2P Require Import Registration Lockout Sales Migration StaleNames Frontends.

Local Open Scope Z_scope.

#[global] Instance NodeRecord_eq_dec : EqDecision NodeRecord.
Proof. solve_decision. Defined.

#[global] Instance TokenInfo_eq_dec : EqDecision (TokenInfo (E := sample_env)).
Proof. solve_decision. Defined.

(** Decides a closed proposition by evaluation. *)
Ltac by_run := apply (bool_decide_eq_true_1 _); vm_compute; reflexivity.

Definition alice : bytes := b_str "alice"%string.

Definition sub : bytes := b_str "sub"%string.

Definition by_ (a : Z) : RawOrigin := RawOrigin.Signed (E := sample_env) a.

Definition register_alice : RuntimeCall := Register (E := sample_env) alice 2 None.

(** "alice" registered by account 2. *)
Definition alice_state : State := run_calls [(by_ 2, register_alice)] genesis_state.

Definition alice_node : DomainHash :=
  default DomainHash_default (parse_name_to_node alice BaseNode).

(** "alice" listed for 100 units. *)
Definition listed_state : State :=
  run_calls [(by_ 2, CreateListing (100 * UNIT) 5000)] alice_state.

(** ** The sample chain has the assumed properties *)

#[global] Instance sample_widths : ConfigWidths sample_config := runtime_widths false.

Definition sample_is_top (n : DomainHash) : bool :=
  match n with 1000 :: _ => true | _ => false end.

Lemma sample_is_top_head n : sample_is_top n = true -> exists l, n = 1000 :: l.
Proof.
  destruct n as [|x l]; [done|]. simpl. intros Hx.
  assert (x = 1000) as -> by (repeat (case_match; try done)). eauto.
Qed.

Lemma sample_sub_of_top p h :
  sample_is_top p = true -> sample_is_top (child_node p h) = false /\ child_node p h <> BaseNode.
Proof. intros [l ->]%sample_is_top_head. done. Qed.

Lemma sample_top_of_base h : sample_is_top (child_node BaseNode h) = true.
Proof. reflexivity. Qed.

#[global] Instance sample_levels : NodeLevels BaseNode := {|
  label_used := fun _ => True;
  is_top := sample_is_top;
  top_of_base := fun h _ => sample_top_of_base h;
  sub_of_top := fun p h Hp _ => sample_sub_of_top p h Hp;
  base_not_top := eq_refl
|}.

Lemma sample_used names : Forall name_used names.
Proof. apply Forall_forall. intros x _ lab len _. exact I. Qed.

Lemma genesis_state_inv : chain_inv genesis_state.
Proof.
  destruct (genesis_chain_inv (E := sample_env) 1 1 sample_hash 1000 sample_balances) as (s & Hs & Hinv).
  unfold genesis_state, sample_genesis. by rewrite Hs.
Qed.

Lemma run_calls_inv calls s : chain_inv s -> chain_inv (run_calls calls s).
Proof.
  revert s. induction calls as [|[o c] calls IH]; intros s Hs; [done|]. simpl.
  apply IH, dispatch_chain_inv; [apply sample_used|done].
Qed.

Lemma alice_state_inv : chain_inv alice_state.
Proof. apply run_calls_inv, genesis_state_inv. Qed.

Lemma listed_state_inv : chain_inv listed_state.
Proof. apply run_calls_inv, alice_state_inv. Qed.

Lemma genesis_names_inv : names_inv genesis_state.
Proof.
  assert (OwnerToPrimaryName genesis_state = ∅) as H1 by by_run.
  assert (OfferedNames genesis_state = ∅) as H2 by by_run.
  split; rewrite ?H1, ?H2; [done|done|by intros n a []|by intros n []].
Qed.

Lemma genesis_terms_bounded : terms_bounded genesis_state.
Proof.
  assert (RegistrarInfos genesis_state = ∅) as H1 by by_run.
  intros n i. by rewrite H1.
Qed.

Lemma alice_registers :
  dispatch (by_ 2) register_alice genesis_state = (alice_state, Ok tt).
Proof. apply succeeds_Ok. vm_compute. reflexivity. Qed.

Lemma alice_names_inv : names_inv alice_state.
Proof.
  apply (names_dispatch (by_ 2) register_alice); [apply sample_used| |apply genesis_state_inv|apply genesis_names_inv].
  intros lab len _. assert (OfferedNames genesis_state = ∅) as -> by by_run. done.
Qed.

(** ** The chain *)

Lemma dispatch_preserves_chain_inv_witness : chain_inv (dispatch (by_ 2) register_alice genesis_state).1.
Proof.
  apply dispatch_preserves_chain_inv; [apply sample_used|apply genesis_state_inv].
Defined.

Lemma genesis_run :
  testnet_genesis (E := sample_env) 1 (empty_state (E := sample_env) 1 sample_hash 1000 sample_balances) =
  (genesis_state, Ok tt).
Proof. apply succeeds_Ok, sample_genesis_ok. Qed.

Lemma alice_forward : forward_reachable (E := sample_env) 1 alice_state.
Proof.
  eapply forward_next; [eapply forward_genesis, genesis_run|].
  apply (forward_call (by_ 2) register_alice genesis_state (sample_used _)).
Qed.

Lemma alice_reachable : reachable (E := sample_env) 1 alice_state.
Proof.
  eapply reach_step; [eapply reach_genesis, genesis_run|].
  exact (step_call (by_ 2) register_alice genesis_state (sample_used _)).
Qed.

Lemma reachable_chain_inv_witness : chain_inv alice_state.
Proof. exact (reachable_chain_inv _ _ alice_reachable). Defined.

Lemma genesis_establishes_chain_inv_witness :
  exists s, testnet_genesis (E := sample_env) 1
    (empty_state (E := sample_env) 1 sample_hash 1000 sample_balances) = (s, Ok tt) /\ chain_inv s.
Proof. exact (genesis_establishes_chain_inv (E := sample_env) 1 1 sample_hash 1000 sample_balances). Defined.

(** "sub.alice" offered to account 3. *)
Definition offered_state : State :=
  run_calls [(by_ 2, OfferSubdomain (E := sample_env) sub 3)] alice_state.

Definition alice_token : TokenInfo := mkTokenInfo (E := sample_env) [] 2 (mkNodeRecord 0).

Lemma reachable_subdomains_within_capacity_witness :
  children (ti_data alice_token) <= DefaultCapacity.
Proof.
  apply (reachable_subdomains_within_capacity _ alice_state alice_node alice_token alice_reachable).
  - by_run.
  - by_run.
Defined.

(** ** Ownership *)

Definition transfer_alice : RuntimeCall := TransferName (E := sample_env) 3.

Lemma ownership_changes_are_authorised_witness :
  authorised (by_ 2) transfer_alice alice_node 2 alice_state.
Proof.
  apply ownership_changes_are_authorised; [apply sample_used|apply alice_state_inv|by_run|by_run|by_run].
Defined.

Lemma canonical_names_agree_with_owners_witness :
  names_inv (dispatch (by_ 2) transfer_alice alice_state).1.
Proof.
  apply canonical_names_agree_with_owners;
    [apply sample_used|exact I|apply alice_state_inv|apply alice_names_inv].
Defined.

Lemma transfer_runs :
  dispatch (by_ 2) transfer_alice alice_state =
  ((dispatch (by_ 2) transfer_alice alice_state).1, Ok tt).
Proof. apply succeeds_Ok. vm_compute. reflexivity. Qed.

(** Account 2 transfers "alice" to account 3, which releases it; account 2 still cannot
    register anything. *)
Definition released_state : State :=
  (dispatch (by_ 3) (ReleaseName (E := sample_env)) (dispatch (by_ 2) transfer_alice alice_state).1).1.

Lemma transfer_locks_out_former_owner_witness :
  has_active_subname released_state (2 : AccountId) = true /\
  ~ exists t, dispatch (by_ 2) (Register (E := sample_env) sub 2 None) released_state = (t, Ok tt).
Proof.
  destruct (transfer_locks_out_former_owner (E := sample_env) 2 alice_node 3 alice_state _
    alice_state_inv ltac:(by_run) ltac:(by_run) transfer_runs) as (_ & _ & H).
  destruct (H released_state) as [H1 H2].
  - apply rtc_once, (step_call (by_ 3) (ReleaseName (E := sample_env))), sample_used.
  - split; [exact H1|]. intros [t Ht].
    exact (H2 (2 : AccountId) sub 2 None t (Forall_inv (sample_used [sub])) eq_refl Ht).
Defined.

(** ** Registration *)


Lemma terms_stay_bounded_witness :
  terms_bounded (dispatch (by_ 2) register_alice genesis_state).1.
Proof.
  apply terms_stay_bounded; [apply sample_used|apply genesis_state_inv|apply genesis_terms_bounded].
Defined.

Lemma alice_renews :
  dispatch (by_ 2) Renew alice_state = ((dispatch (by_ 2) Renew alice_state).1, Ok tt).
Proof. apply succeeds_Ok. vm_compute. reflexivity. Qed.

Lemma renew_succeeds_witness :
  exists n, OwnerToPrimaryName alice_state !! (2 : AccountId) = Some n /\ still_valid alice_state n = true.
Proof.
  destruct (renew_succeeds (E := sample_env) 1 2 _ _ alice_forward alice_renews)
    as (n & i & price & Hp & _ & Hv & _).
  exists n. split; [exact Hp|exact Hv].
Defined.

Lemma resolve_name_complete_witness : is_Some (api_resolve_name alice_state alice).
Proof.
  apply (resolve_name_complete alice_state alice alice_state_inv).
  destruct (new_with_len alice) as [[lab len]|] eqn:Hnew; [|vm_compute in Hnew; discriminate].
  assert (encode_with_node lab BaseNode = alice_node) as Hn.
  { vm_compute in Hnew. injection Hnew as <- _. vm_compute. reflexivity. }
  destruct (RegistrarInfos alice_state !! alice_node) as [i|] eqn:Hi.
  - exists lab, len, i. rewrite Hn. split_and!; [done|by_run|done|].
    assert (forall j, RegistrarInfos alice_state !! alice_node = Some j ->
      bool_decide (now alice_state < ri_expire j) = true) as Hj.
    { assert (match RegistrarInfos alice_state !! alice_node with
              | Some j => bool_decide (now alice_state < ri_expire j) | None => true end = true) as Hm
        by (vm_compute; reflexivity).
      intros j Hj. by rewrite Hj in Hm. }
    by apply (bool_decide_eq_true_1 _), Hj.
  - exfalso. assert (bool_decide (is_Some (RegistrarInfos alice_state !! alice_node)) = true) as Hs
      by (vm_compute; reflexivity).
    apply bool_decide_eq_true in Hs. rewrite Hi in Hs. by destruct Hs.
Defined.

(** ** Sales *)

Definition buy_alice : RuntimeCall := BuyName (E := sample_env) alice None.

Lemma alice_bought :
  dispatch (by_ 3) buy_alice listed_state = ((dispatch (by_ 3) buy_alice listed_state).1, Ok tt).
Proof. apply succeeds_Ok. vm_compute. reflexivity. Qed.

Lemma buy_name_settles_witness :
  exists n l, Listings listed_state !! n = Some l /\
    delivered n (3 : AccountId) None (dispatch (by_ 3) buy_alice listed_state).1.
Proof.
  destruct (buy_name_settles (E := sample_env) 3 alice None _ _ listed_state_inv alice_bought)
    as (lab & l & _ & Hl & _ & _ & _ & _ & _ & Hd).
  exists (encode_with_node lab BaseNode), l. split; [exact Hl|exact Hd].
Defined.

(** ** The pallets *)

Lemma namehash_injective_witness :
  let L := hash_inputs alice BaseNode ++ hash_inputs (b_str "ALICE"%string) BaseNode in
  to_ascii_lowercase alice = to_ascii_lowercase (b_str "ALICE"%string) \/ collides L \/
  BaseNode ∈ map keccak_256 L.
Proof.
  apply (namehash_injective BaseNode alice (b_str "ALICE"%string) alice_node);
    [reflexivity|vm_compute; reflexivity|vm_compute; reflexivity].
Defined.

Definition move_base : nft_call := Transfer (E := sample_env) 1 2 (0, BaseNode).

(** The base node, which account 1 has, minted again for account 2. *)
Definition mint_base_again : nft_call := Mint (E := sample_env) 2 (0, BaseNode) [] NodeRecord_default.

Lemma genesis_nft_inv : nft_inv genesis_state /\ 0 <= NextClassId genesis_state.
Proof. split; [apply (tree_nft _ _ (ch_tree _ genesis_state_inv))|by_run]. Qed.

Lemma nft_exec_preserves_inv_witness :
  nft_inv (nft_exec move_base genesis_state).1 /\ ~ nft_inv (nft_exec mint_base_again genesis_state).1.
Proof.
  destruct genesis_nft_inv as [H1 H2]. split.
  - apply (proj2 (nft_exec_preserves_inv move_base genesis_state H1 H2)). vm_compute. reflexivity.
  - intros H. apply (proj2 (nft_exec_preserves_inv mint_base_again genesis_state H1 H2)) in H.
    assert (remints mint_base_again genesis_state = true) as Ht by (vm_compute; reflexivity). congruence.
Defined.

Lemma price_tiers_witness : registration_fee genesis_state 5 = BasePrice genesis_state !! 4%nat.
Proof.
  destruct (price_tiers genesis_state 5 0) as (_ & Ht & _); [vm_compute; reflexivity|lia|].
  apply Ht. lia.
Defined.

Definition close_registrar : origin_call := SetRegistrarOpen (by_ 5) false.

Lemma origin_guarded_witness : origin_exec close_registrar genesis_state = (genesis_state, Err BadOrigin).
Proof.
  apply origin_guarded; [done|]. intros who [= <-].
  assert (Origins genesis_state = ∅) as -> by by_run. set_solver.
Defined.

Definition set_address : resolvers_call := SetRecord (by_ 2) alice codec_type.A [1; 2; 3; 4].

Lemma anchors_protected_witness :
  Records (resolvers_exec set_address alice_state).1 !! (alice_node, codec_type.SS58) =
  Records alice_state !! (alice_node, codec_type.SS58).
Proof. apply anchors_protected. by left. Defined.

Lemma address_set :
  set_record (by_ 2) alice codec_type.A [1; 2; 3; 4] alice_state =
  ((set_record (by_ 2) alice codec_type.A [1; 2; 3; 4] alice_state).1, Ok tt).
Proof. apply succeeds_Ok. vm_compute. reflexivity. Qed.

Lemma set_record_then_lookup_witness :
  exists who node, by_ 2 = RawOrigin.Signed who /\ check_node_useable alice_state node who = true.
Proof.
  destruct (set_record_then_lookup _ _ _ _ _ _ address_set) as (who & node & Ho & _ & Hu & _).
  exists who, node. split; [exact Ho|exact Hu].
Defined.

Definition offer_sub : subname_op :=
  OpOffer (E := sample_env) alice_node (child_node alice_node alice_node) sub 3 10.

Lemma sub_offered :
  subname_exec offer_sub alice_state = ((subname_exec offer_sub alice_state).1, Ok tt).
Proof. apply succeeds_Ok. vm_compute. reflexivity. Qed.

Lemma subname_ops_refine_lifecycle_witness :
  subname_step (op_actor offer_sub) (SubnameRecords alice_state !! op_node offer_sub)
    (SubnameRecords (subname_exec offer_sub alice_state).1 !! op_node offer_sub).
Proof. apply (subname_ops_refine_lifecycle offer_sub _ _ sub_offered). Defined.

(** ** Redemption codes *)

Lemma mint_redeem_mints_range_witness :
  exists R, mint_redeem 3 RawOrigin.Root 7 9 genesis_state =
    Some (upd_Redeems (fun _ => R) genesis_state, Ok tt).
Proof.
  destruct (mint_redeem_mints_range 3 RawOrigin.Root (account_new (replicate 32 0)) 7 9 genesis_state)
    as (R & HR & _); [reflexivity|lia|lia|lia|].
  exists R. exact HR.
Defined.

Lemma mint_redeem_diverges_witness :
  mint_redeem 100 RawOrigin.Root 7 (2 ^ 32 - 1) genesis_state = None.
Proof.
  apply (mint_redeem_diverges 100 RawOrigin.Root (account_new (replicate 32 0)));
    [reflexivity|lia].
Defined.

(** The nonces 7 to 9 minted, and a code for "alice" signed by account 1. *)
Definition minted_state : State := upd_Redeems (fun _ => {[7; 8; 9]}) genesis_state.

Definition alice_label : Label := mkLabel (keccak_256 alice).

Definition alice_code : Signature :=
  ((1, signed_data false alice_label 1000 7) : Signature (Env := sample_env)).

Definition redeem_alice : M unit :=
  redeem_call (E := sample_env) false (by_ 4) alice 1000 7 alice_code 4.

Lemma alice_redeemed : redeem_alice minted_state = ((redeem_alice minted_state).1, Ok tt).
Proof. apply succeeds_Ok. vm_compute. reflexivity. Qed.

Lemma redeem_code_single_use_witness : Redeems (redeem_alice minted_state).1 = {[7; 8; 9]} ∖ {[7]}.
Proof.
  exact (proj1 (proj2 (redeem_code_single_use (E := sample_env) _ _ _ _ _ _ _ _ _ alice_redeemed))).
Defined.

(** ** DNS *)

(** Names as their text. *)
#[global] Instance sample_hickory : Hickory := {|
  Name := bytes;
  name_from_str := fun t => if bool_decide (t = []) then None else Some t;
  LowerName := bytes;
  LowerName_eq_dec := _;
  lower_from_name := to_ascii_lowercase;
  lower_to_name := fun n => n;
  lower_to_string := fun n => n;
  OtherType := unit;
  OtherType_eq_dec := _
|}.

Definition zone : LowerName := (b_str "dot."%string : LowerName (Hickory := sample_hickory)).

Definition alice_dot : LowerName := (b_str "alice.dot."%string : LowerName (Hickory := sample_hickory)).

Definition address_state : State :=
  (set_record (by_ 2) alice codec_type.A [1; 2; 3; 4] alice_state).1.

Lemma alice_dot_below : alice_dot <> zone.
Proof. by_run. Qed.

Lemma alice_dot_label : extract_label alice_dot zone = Some alice.
Proof. vm_compute. reflexivity. Qed.

Definition address_answer : PnsLookup :=
  with_records [mkDnsRecord (lower_to_name alice_dot) 300 (RA [1; 2; 3; 4])].

Lemma dns_answers_address_witness :
  authority_lookup (mkAuthority (chain_client address_state) zone) alice_dot hickory.A =
  Continue (Ok address_answer).
Proof.
  apply (dns_answers_address address_state zone alice_dot alice alice_node [1; 2; 3; 4]);
    [apply alice_dot_below|apply alice_dot_label|vm_compute; reflexivity|by_run|reflexivity].
Defined.

Lemma address_answered :
  authority_lookup (mkAuthority (chain_client address_state) zone) alice_dot hickory.A =
  Continue (Ok address_answer).
Proof. vm_compute. reflexivity. Qed.

Lemma dns_answers_are_stored_public_records_witness :
  exists label pt data, extract_label alice_dot zone = Some label /\
    Records address_state !! (label_node label, pt) = Some data /\ is_polkadot_only pt = false.
Proof.
  destruct (dns_answers_are_stored_public_records address_state zone alice_dot hickory.A address_answer
    (mkDnsRecord (lower_to_name alice_dot) 300 (RA [1; 2; 3; 4])) address_answered alice_dot_below)
    as (_ & label & pt & data & H1 & H2 & _ & H3 & _); [by left|].
  exists label, pt, data. split_and!; [exact H1|exact H2|exact H3].
Defined.

(** An RPC endpoint set for "alice". *)
Definition endpoint : bytes := b_str "1.2.3.4"%string.

Definition rpc_state : State := (set_record (by_ 2) alice codec_type.RPC endpoint alice_state).1.

Lemma rpc_records_are_not_served_witness :
  pns_record_to_dns (lower_to_name alice_dot) codec_type.RPC endpoint (hickory.Unknown 65281) = None.
Proof.
  apply (rpc_records_are_not_served rpc_state alice endpoint _ _ codec_type.RPC);
    [done|reflexivity|by_run].
Defined.

(** Time passes until the name has lapsed. *)
Definition lapsed_state : State := upd_now (fun _ => 2 ^ 50) address_state.

Lemma dns_reads_records_only_witness :
  authority_lookup (mkAuthority (chain_client lapsed_state) zone) alice_dot hickory.A =
  authority_lookup (mkAuthority (chain_client address_state) zone) alice_dot hickory.A.
Proof. apply dns_reads_records_only; reflexivity. Defined.

Lemma dns_lookup_panics_iff_witness :
  authority_lookup (mkAuthority (chain_client address_state) zone) alice_dot
    (hickory.other tt : hickory.HickoryRecordType (OtherType (Hickory := sample_hickory))) = Panic.
Proof.
  apply (dns_lookup_panics_iff address_state zone alice_dot alice _ alice_dot_below alice_dot_label).
  by exists tt.
Defined.

(** ** Initialisation by an upgrade *)

Lemma migration_matches_genesis_witness :
  exists w s', initialise (E := sample_env) 1 [5; 6]
    (empty_state (E := sample_env) 1 sample_hash 1000 sample_balances) = (s', Ok w) /\ chain_inv s'.
Proof.
  destruct (migration_matches_genesis (E := sample_env) 1 [5; 6] 1 sample_hash 1000 sample_balances)
    as (w & s & s' & Hrun & _ & _ & Hinv).
  exists w, s'. split; [exact Hrun|exact Hinv].
Defined.

(** ** Stale entries *)

(** Account 2 burns "alice" through the registry, account 3 registers it. *)
Definition burn_alice : RuntimeCall := RegistryBurn (E := sample_env) alice.

Definition burned_state : State := (dispatch (by_ 2) burn_alice alice_state).1.

Definition register_for_3 : RuntimeCall := Register (E := sample_env) alice 3 None.

Definition taken_state : State := (dispatch (by_ 3) register_for_3 burned_state).1.

Lemma alice_burned : dispatch (by_ 2) burn_alice alice_state = (burned_state, Ok tt).
Proof. apply succeeds_Ok. vm_compute. reflexivity. Qed.

Lemma alice_taken : dispatch (by_ 3) register_for_3 burned_state = (taken_state, Ok tt).
Proof. apply succeeds_Ok. vm_compute. reflexivity. Qed.

Lemma alice_parsed : new_with_len alice = Some (alice_label, 5).
Proof. vm_compute. reflexivity. Qed.

Lemma alice_used : name_used alice.
Proof. exact (Forall_inv (sample_used [alice])). Qed.

(** The former owner renews the name and offers a subdomain of it. *)
Lemma burn_leaves_canonical_name_witness :
  owner_of taken_state (encode_with_node alice_label BaseNode) = Some (3 : AccountId) /\
  OwnerToPrimaryName taken_state !! (2 : AccountId) = Some (encode_with_node alice_label BaseNode) /\
  succeeds (dispatch (by_ 2) Renew taken_state) = true /\
  succeeds (dispatch (by_ 2) (OfferSubdomain (E := sample_env) sub 4) taken_state) = true.
Proof.
  destruct (burn_leaves_canonical_name (E := sample_env) 2 3 3 alice alice_label 5 3 alice_state
    burned_state taken_state alice_state_inv alice_used alice_parsed) as (_ & (H1 & _ & H2) & _);
    [reflexivity|discriminate|by_run|exact alice_burned|exact alice_taken|].
  split; [exact H1|]. split; [exact H2|]. split; vm_compute; reflexivity.
Defined.

(** Account 3 buys "alice" as a gift for account 4, who does not answer; after the name
    has lapsed account 5 registers it, and only then account 4 accepts. *)
Definition gift_state : State :=
  upd_now (fun _ => 2 ^ 50) (run_calls [(by_ 3, BuyName (E := sample_env) alice (Some 4))] listed_state).

Definition register_for_5 : RuntimeCall := Register (E := sample_env) alice 5 None.

Definition accept_gift : RuntimeCall := AcceptOfferedName (E := sample_env) alice.

Definition regifted_state : State := (dispatch (by_ 5) register_for_5 gift_state).1.

Definition accepted_state : State := (dispatch (by_ 4) accept_gift regifted_state).1.

Lemma gift_registered : dispatch (by_ 5) register_for_5 gift_state = (regifted_state, Ok tt).
Proof. apply succeeds_Ok. vm_compute. reflexivity. Qed.

Lemma gift_accepted : dispatch (by_ 4) accept_gift regifted_state = (accepted_state, Ok tt).
Proof. apply succeeds_Ok. vm_compute. reflexivity. Qed.

Lemma later_inv f s : chain_inv s -> chain_inv (upd_now f s).
Proof. by apply chain_inv_ext. Qed.

Lemma gift_state_inv : chain_inv gift_state.
Proof. exact (later_inv _ _ (run_calls_inv _ _ listed_state_inv)). Qed.

Lemma stale_gift_survives_registration_witness :
  api_resolve_name regifted_state alice = None /\
  owner_of accepted_state (encode_with_node alice_label BaseNode) = Some (5 : AccountId) /\
  OwnerToPrimaryName accepted_state !! (4 : AccountId) = Some (encode_with_node alice_label BaseNode).
Proof.
  destruct (stale_gift_survives_registration (E := sample_env) 5 4 5 alice alice_label 5 5
    (mkOfferedNameRecord (AccountId := AccountId (Env := sample_env)) 3 4) gift_state regifted_state accepted_state
    gift_state_inv alice_used alice_parsed) as ((_ & _ & H1) & _ & H2 & H3 & _);
    [reflexivity|by_run|exact gift_registered|exact gift_accepted|].
  split; [exact H1|]. split; [exact H2|exact H3].
Defined.

(** ** JSON-RPC *)

(** The codes of the types of addresses; every other number is an unknown type. *)
#[global] Instance sample_api_errors : ApiErrors := {| ApiError := bytes; api_error_debug := id |}.

#[global] Instance sample_type_codes : TypeCodes := {|
  type_from_u16 := fun n => if n =? 1 then hickory.A else if n =? 28 then hickory.AAAA else hickory.Unknown n;
  type_to_u16 := fun t =>
    match t with hickory.A => 1 | hickory.AAAA => 28 | hickory.Unknown n => n | _ => 0 end
|}.

#[global] Instance sample_type_codes_laws : TypeCodesLaws sample_type_codes.
Proof.
  split. intros n _. simpl. destruct (Z.eqb_spec n 1) as [->|]; [done|].
  by destruct (Z.eqb_spec n 28) as [->|].
Qed.

Lemma rpc_lookup_answers_witness :
  exists l, rpc_lookup (chain_node address_state (replicate 32 0)) alice_node [1; 65537] =
    RpcReturn _ (Ok l) /\ (1, [1; 2; 3; 4]) ∈ l.
Proof.
  destruct (rpc_lookup_answers address_state (replicate 32 0) alice_node [1; 65537]) as [_ Hl].
  destruct (rpc_lookup (chain_node address_state (replicate 32 0)) alice_node [1; 65537])
    as [|r] eqn:Hr; [exfalso; revert Hr; vm_compute; discriminate|].
  destruct (Hl r eq_refl) as (l & -> & Hin). exists l. split; [reflexivity|].
  apply Hin. split; [discriminate|]. exists codec_type.A.
  split; [reflexivity|]. split; [by_run|]. right; right. split; [by_run|].
  exists 1. split; [left|]. split; reflexivity.
Defined.
