(* ===== verification/NameWitnesses.v ===== *)
(** * Witnesses on accounts, payments and records

    The theorems on who pays, who holds names and who writes records, applied on the
    chain of [Sample.v] in the states of [Witnesses.v]. *)

From Stdlib Require Import ZArith Lia.
From Stdlib Require Import Strings.String.
From stdpp Require Import base tactics numbers gmap sets fin_sets fin_maps option list_basics list.
From S2P Require Import Prelude RustStr Types Storage Label Nft Traits PriceOracle Resolvers.
From S2P Require Import Registry Registrar Marketplace Runtime Sample RegistryInv RegistryTree.
From S2P Require Import ChainInv Genesis Presets Footprints RecordFootprints NameMoves Ownership OneName NameSpec NameProgress.
From S2P Require Import RecordSafety Registration Sales Witnesses.

Local Open Scope Z_scope.

Definition acct (a : Z) : AccountId (Env := sample_env) := a.

Lemma listed_prices_unsigned : prices_unsigned listed_state.
Proof.
  assert (map_Forall (fun _ l => 0 <= price l) (Listings listed_state)) as H by by_run.
  exact H.
Qed.

Lemma only_the_signer_pays_witness :
  currency_free_balance (Balances listed_state) (acct 2) <=
  currency_free_balance (Balances (dispatch (by_ 3) buy_alice listed_state).1) (acct 2).
Proof.
  destruct (only_the_signer_pays (by_ 3) buy_alice listed_state (acct 2)
    listed_state_inv listed_prices_unsigned) as [H|(name & r & lab & l & _ & _ & H)].
  - simpl. lia.
  - discriminate.
  - rewrite H. apply Z.le_refl.
  - apply H.
Defined.

Lemma alice_clean : clean_reachable (E := sample_env) 1 alice_state.
Proof.
  eapply clean_next; [eapply clean_genesis, genesis_run|].
  apply (clean_dispatch (by_ 2) register_alice genesis_state (sample_used _)).
  intros lab len _. assert (OfferedNames genesis_state = ∅) as -> by by_run. done.
Qed.

(** Account 2 holds "alice", hence nothing else. *)
Lemma one_name_per_account_witness :
  holds_name alice_state (acct 2) alice_node /\
  (forall m, holds_name alice_state (acct 2) m -> alice_node = m) /\
  (forall m, ~ holds_subdomain alice_state (acct 2) m).
Proof.
  assert (holds_name alice_state (acct 2) alice_node) as Hn
    by (split; [by_run|]; split; by_run).
  destruct (one_name_per_account (acct 1) alice_state (acct 2) alice_clean) as (_ & H1 & H2).
  split; [exact Hn|]. split; [intros m; exact (H1 _ _ Hn)|intros m; exact (H2 _ _ Hn)].
Defined.

(** ** The ledger *)

Lemma listed_names_inv : names_inv listed_state.
Proof.
  apply (names_dispatch (by_ 2) (CreateListing (E := sample_env) (100 * UNIT) 5000) alice_state);
    [apply sample_used|exact I|apply alice_state_inv|apply alice_names_inv].
Qed.

(** Account 3 buys "alice": on the ledger it takes the name that is on offer. *)
Lemma dispatch_refines_ledger_witness :
  performs (signer_meaning (by_ 3) buy_alice listed_state) (ledger_of listed_state) =
  Some (ledger_of (dispatch (by_ 3) buy_alice listed_state).1).
Proof.
  exact (proj1 (dispatch_refines_ledger (by_ 3) buy_alice listed_state
    (sample_used _) listed_state_inv listed_names_inv) _ alice_bought).
Defined.

Lemma chain_refines_ledger_witness : ledger_reachable (ledger_of alice_state).
Proof. exact (chain_refines_ledger (acct 1) alice_state alice_clean). Defined.

(** The purchase is the one event, and it ends with account 3 holding the name. *)
Example ledger_purchase :
  match signer_meaning (by_ 3) buy_alice listed_state with
  | [TakeListed a n] => bool_decide (a = acct 3) && bool_decide (n = alice_node)
  | _ => false
  end && holds (ledger_of (dispatch (by_ 3) buy_alice listed_state).1) (acct 3) alice_node = true.
Proof. vm_compute. reflexivity. Qed.

#[global] Instance sample_anchors : AnchorsFit.
Proof. by apply runtime_anchors. Qed.


Definition set_address : RuntimeCall := SetRecordCall (E := sample_env) alice codec_type.A [1; 2; 3; 4].

Lemma records_change_only_by_holders_witness :
  touches (in_charge (by_ 2) set_address alice_state) (by_ 2) alice_state alice_node.
Proof.
  apply (records_change_only_by_holders (by_ 2) set_address alice_state alice_node);
    [apply sample_used|apply alice_state_inv| |apply alice_names_inv].
  intros [H _]. specialize (H codec_type.A). revert H.
  assert (Records (dispatch (by_ 2) set_address alice_state).1 !! (alice_node, codec_type.A) <>
    Records alice_state !! (alice_node, codec_type.A)) as H by by_run. exact H.
Defined.

(** "sub.alice", offered to account 3. *)
Definition sub_alice : bytes := b_str "sub.alice"%string.

Definition sub_node : DomainHash :=
  default DomainHash_default (parse_name_to_node sub_alice BaseNode).

Definition sub_record : SubnameRecord (AccountId (Env := sample_env)) :=
  mkSubnameRecord alice_node sub 3 Offered.

Lemma offered_chain_inv : chain_inv offered_state.
Proof. apply run_calls_inv, alice_state_inv. Qed.

Lemma sub_node_named : parse_name_to_node sub_alice BaseNode = Some sub_node.
Proof. vm_compute. reflexivity. Qed.

Lemma sub_record_offered : SubnameRecords offered_state !! sub_node = Some sub_record.
Proof. vm_compute. reflexivity. Qed.

Lemma subdomain_records_cannot_be_set_witness :
  dispatch (by_ 3) (SetRecordCall sub_alice codec_type.A [1; 2; 3; 4]) offered_state =
  (offered_state, Err (ResolversError resolvers.InvalidPermission)).
Proof.
  destruct (subdomain_records_cannot_be_set (acct 3) sub_alice sub_node sub_record offered_state
    offered_chain_inv sub_node_named sub_record_offered) as [H _].
  exact (H codec_type.A [1; 2; 3; 4] ltac:(discriminate) ltac:(discriminate)).
Defined.

Lemma dashboard_complete_witness :
  owner_of alice_state alice_node = Some (acct 2).
Proof.
  destruct (dashboard_complete alice_state (acct 2) alice_state_inv alice_names_inv) as (H & _).
  apply H. by_run.
Defined.

(** ** Presets *)

Inductive sample_key := KAlice | KBob | KAliceStash | KBobStash | KOne | KTwo.

#[global] Instance sample_key_eq_dec : EqDecision sample_key.
Proof. solve_decision. Defined.

Definition key_number (k : sample_key) : Z :=
  match k with KAlice => 1 | KBob => 2 | KAliceStash => 3 | KBobStash => 4 | KOne => 5 | KTwo => 6 end.

#[global] Instance sample_keyring : Keyring (E := sample_env) := {|
  Sr25519Keyring := sample_key;
  Sr25519Keyring_eq_dec := sample_key_eq_dec;
  Sr25519_iter := [KAlice; KBob; KAliceStash; KBobStash; KOne; KTwo];
  sr_Alice := KAlice;
  sr_Bob := KBob;
  sr_AliceStash := KAliceStash;
  sr_BobStash := KBobStash;
  sr_One := KOne;
  sr_Two := KTwo;
  to_account_id := key_number;
  Ed25519Keyring := sample_key;
  ed_Alice := KAlice;
  ed_Bob := KBob;
  AuraId := Z;
  GrandpaId := Z;
  aura_public := key_number;
  grandpa_public := key_number
|}.

#[global] Instance sample_keyring_laws : KeyringLaws sample_keyring.
Proof.
  split.
  - by_run.
  - by intros []; by_run.
  - by intros [] [].
  - by_run.
Qed.

#[global] Instance sample_preset_ids : PresetIds := {|
  DEV_RUNTIME_PRESET := b_str "development"%string;
  LOCAL_TESTNET_RUNTIME_PRESET := b_str "local_testnet"%string
|}.

Lemma local_preset : preset_config (b_str "local_testnet"%string) = Some local_config_genesis.
Proof. reflexivity. Qed.

Lemma presets_sound_witness : sound_config local_config_genesis.
Proof.
  destruct (presets_sound (fun _ => []) (Some []) (fun _ => Err [])) as (_ & _ & H).
  exact (proj1 (H _ _ local_preset)).
Defined.
