(* ===== verification/DnsWitnesses.v ===== *)
(** * Concrete runs of the DNS server

    The libraries of the server instantiated by concrete functions, an executable
    scheduler for its transition system, and the theorems of the DNS server applied to
    runs of it. *)

From Stdlib Require Import ZArith Lia.
From Stdlib Require Import SpecFloat Strings.String.
From stdpp Require Import base tactics numbers gmap sets fin_sets fin_maps option list_basics list.
From S2P Require Import Prelude RustStr Types Authority DnsGuards DnsServer DnsInv DnsProgress Sample Witnesses.

Local Open Scope Z_scope.
Local Open Scope prog_scope.

(** A filter that never errs. *)
#[global] Instance sample_bloom : BloomLib := {|
  Bloom := list bytes;
  bloom_new := fun _ _ _ => [];
  bloom_check := fun k b => bool_decide (k ∈ b);
  bloom_set := fun k b => k :: b;
  bloom_clear := fun _ => []
|}.

#[global] Instance sample_bloom_laws : BloomLaws sample_bloom.
Proof.
  split; simpl; [done|intros k b|intros k k' b Hk|done]; apply bool_decide_eq_true.
  - set_solver.
  - apply bool_decide_eq_true in Hk. set_solver.
Qed.

(** A limiter that counts the requests it let through in the last second. *)
#[global] Instance sample_limiter : LimiterLib := {|
  Limiter := fun K => (Z * list (K * Z))%type;
  limiter_per_second := fun K n => (n, []);
  limiter_check := fun K _ now k l =>
    let recent := filter (fun e => e.1 = k /\ now < e.2 + from_secs 1) l.2 in
    if Z.of_nat (length recent) <? l.1 then ((l.1, (k, now) :: l.2), true) else (l, false)
|}.

(** A cache of unlimited size whose entries run out. *)
#[global] Instance sample_cache : CacheLib := {|
  Cache := fun K V => (Z * list (K * (V * Z)))%type;
  cache_new := fun K V _ ttl => (ttl, []);
  cache_get := fun K V _ now k c =>
    (c, (fun e => e.2.1) <$> head (filter (fun e => e.1 = k /\ now < e.2.2 + c.1) c.2));
  cache_insert := fun K V _ now k v c => (c.1, (k, (v, now)) :: filter (fun e => e.1 <> k) c.2);
  cache_invalidate := fun K V _ now k c => (c.1, filter (fun e => e.1 <> k) c.2);
  cache_may := fun K V _ c k v => exists t, (k, (v, t)) ∈ c.2
|}.

#[global] Instance sample_cache_laws : CacheLaws sample_cache.
Proof.
  split; simpl.
  - intros K V ? _ _ k v [t ?]. set_solver.
  - intros K V ? now k v c Hg. destruct (filter _ c.2) as [|[k' [v' t]] l] eqn:Hf; [done|].
    simpl in Hg. assert ((k', (v', t)) ∈ filter (fun e => e.1 = k /\ now < e.2.2 + c.1) c.2) as Hin
      by (rewrite Hf; set_solver).
    apply list_elem_of_filter in Hin as [[<- _] Hin]. simplify_eq/=. eauto.
  - done.
  - intros K V ? now k k' v v' c [t [[= -> -> ->]|Hin]%elem_of_cons]; [by left|right].
    apply list_elem_of_filter in Hin as [? Hin]. simpl in *. eauto.
  - intros K V ? now k k' v c [t Hin]. apply list_elem_of_filter in Hin as [? Hin]. eauto.
Qed.

(** ** A scheduler *)

Inductive action :=
| AArrive (now : Z) (request : Request)
| ARun (now : Z) (tid : nat) (ch : choice)
| AExit (tid : nat)
| ARecv
| ATick (now : Z).

(** Performs an action if it is possible. *)
Definition perform (w : World) (a : action) : World :=
  match a with
  | AArrive now request =>
      if decide (clock w <= now /\ Z.of_nat (size (tasks w)) < 2 ^ 63)
      then mkWorld now (server w) (<[next_tid w := handle_request request]> (tasks w))
             (S (next_tid w)) (history w ++ [Arrived (next_tid w) request now])
      else w
  | ARun now tid ch =>
      match tasks w !! tid with
      | Some (Act o k) =>
          match exec now tid ch o (server w) with
          | Some (s, x) =>
              if decide (clock w <= now)
              then mkWorld now s (<[tid := k x]> (tasks w)) (next_tid w) (history w ++ event_of tid o x)
              else w
          | None => w
          end
      | _ => w
      end
  | AExit tid =>
      match tasks w !! tid with
      | Some (Ret r) =>
          mkWorld (clock w) (server w) (delete tid (tasks w)) (next_tid w)
            (history w ++ [Finished tid r])
      | _ => w
      end
  | ARecv =>
      match queue_recv (server w) with
      | Some s => mkWorld (clock w) s (tasks w) (next_tid w) (history w)
      | None => w
      end
  | ATick now =>
      if decide (clock w <= now)
      then mkWorld now (queue_tick now (server w)) (tasks w) (next_tid w) (history w)
      else w
  end.

Lemma perform_steps w a : rtc step w (perform w a).
Proof.
  destruct a; simpl; repeat (case_match; try reflexivity); apply rtc_once; destruct_and?.
  - by apply step_arrive.
  - by eapply step_run.
  - by eapply step_exit.
  - by apply step_recv.
  - by apply step_tick.
Qed.

Lemma perform_all w l : rtc step w (foldl perform w l).
Proof.
  revert w. induction l as [|a l IH]; intros w; simpl; [done|].
  etrans; [apply perform_steps|apply IH].
Qed.

(** ** Runs *)

Definition ask (rtype : hickory.HickoryRecordType OtherType) : Request :=
  mkRequest (V4 10 0 0 1) [(alice_dot, rtype)].

(** Nothing is found, and responses can be sent. *)
Definition not_found : choice := mkChoice true (Answered NXDomain).

(** A request that arrives at [t], waits for the queue and ends. *)
Definition one_request (tid : nat) (t : Z) : list action :=
  AArrive t (ask hickory.A) :: replicate 20 (ARun t tid not_found) ++
  [ARecv; ATick (t + from_millis 5)] ++ replicate 20 (ARun (t + from_millis 5) tid not_found) ++
  [AExit tid].

Definition new_world : World := world_new dns_config_default 0.

Definition asked_once : World := foldl perform new_world (one_request 0 0).

Definition asked_twice : World := foldl perform asked_once (one_request 1 (from_secs 1)).

(** The second request while it waits. *)
Definition waiting_world : World :=
  foldl perform asked_once (take 25 (one_request 1 (from_secs 1))).

Lemma asked_once_steps : rtc step new_world asked_once.
Proof. exact (perform_all new_world (one_request 0 0)). Qed.

Lemma waiting_reachable : reachable_world dns_config_default 0 waiting_world.
Proof.
  refine (rtc_trans _ _ _ asked_once_steps _).
  exact (perform_all asked_once (take 25 (one_request 1 (from_secs 1)))).
Qed.

Lemma asked_twice_reachable : reachable_world dns_config_default 0 asked_twice.
Proof.
  refine (rtc_trans _ _ _ asked_once_steps _).
  exact (perform_all asked_once (one_request 1 (from_secs 1))).
Qed.

Lemma waiting_busy : map_count (fun p => busy p = true) (tasks waiting_world) = 1%nat.
Proof. vm_compute. reflexivity. Qed.

Lemma inflight_capped_witness : inflight (server waiting_world) <= 1.
Proof.
  destruct (inflight_capped dns_config_default 0 waiting_world waiting_reachable) as (_ & Hi & _).
  etrans; [apply Hi|]. vm_compute. discriminate.
Defined.

Lemma lookup_started : LookupStarted 1 (from_secs 1 + from_millis 5) ∈ history asked_twice.
Proof.
  apply (list_elem_of_lookup_2 _ 6). vm_compute. reflexivity.
Qed.

Lemma lookups_are_guarded_and_paced_witness : exists request at_,
  Arrived 1 request at_ ∈ history asked_twice /\
  at_ + from_millis 5 <= from_secs 1 + from_millis 5 /\
  is_any request = false /\ labels_valid request = true.
Proof.
  exact (lookups_are_guarded_and_paced dns_config_default 0 asked_twice 1 _
    asked_twice_reachable lookup_started).
Defined.

Lemma negative_cache_needs_two_lookups_witness : exists a b, a <> b /\
  found_missing (history asked_twice) a (b_str "alice.dot."%string) /\
  found_missing (history asked_twice) b (b_str "alice.dot."%string).
Proof.
  apply (negative_cache_needs_two_lookups dns_config_default 0 asked_twice (from_secs 2));
    [apply asked_twice_reachable|vm_compute; reflexivity].
Defined.

Definition arrived_world : World := foldl perform new_world [AArrive 0 (ask hickory.A)].

Lemma requests_can_finish_witness : exists w r,
  rtc step arrived_world w /\ Finished 0 r ∈ history w /\ tasks w !! 0%nat = None.
Proof.
  apply (requests_can_finish dns_config_default 0 arrived_world 0 (handle_request (ask hickory.A)));
    [exact (perform_all new_world [AArrive 0 (ask hickory.A)])|reflexivity].
Defined.

(** ** The bloom filter *)

Lemma double_bloom_forgets_witness :
  double_bloom_check alice (set_all (double_bloom_new 100000 lit_0_01) [alice]) = true.
Proof.
  apply (double_bloom_forgets 100000 lit_0_01 [alice]); [vm_compute; reflexivity|by_run].
Defined.
