(* ===== verification/AuctionWitnesses.v ===== *)
(** * The auction theorems on a concrete chain

    A currency with free and reserved balances, a registry that records what it minted,
    a seed that can be set, and an auction of two blocks with two bids. *)

From Stdlib Require Import ZArith Lia.
From Stdlib Require Import Strings.String.
From stdpp Require Import base tactics numbers gmap sets fin_sets fin_maps option list_basics list relations.
From S2P Require Import Prelude RustStr Types Storage Auction AuctionInv Sample.

Local Open Scope Z_scope.

(** ** The pallets the auction calls *)

Record Bank := mkBank {
  spendable : gmap Z Z;
  held : gmap Z Z;
  sold : list (Z * DomainHash);
  seed_known : Z
}.

Definition amount_of (m : gmap Z Z) (a : Z) : Z := default 0 (m !! a).

Definition bank_reserve (a v : Z) (x : Bank) : result unit Bank :=
  if v <=? amount_of (spendable x) a
  then Ok (mkBank (<[a := amount_of (spendable x) a - v]> (spendable x))
             (<[a := amount_of (held x) a + v]> (held x)) (sold x) (seed_known x))
  else Err tt.

Definition bank_unreserve (a v : Z) (x : Bank) : Bank * Z :=
  let actual := Z.min v (amount_of (held x) a) in
  (mkBank (<[a := amount_of (spendable x) a + actual]> (spendable x))
     (<[a := amount_of (held x) a - actual]> (held x)) (sold x) (seed_known x), v - actual).

Definition bank_pay (a b v : Z) (k : ExistenceRequirement) (x : Bank) : result unit Bank :=
  if bool_decide (a = b) || (amount_of (spendable x) a <? v) then Err tt
  else Ok (mkBank (<[b := amount_of (spendable x) b + v]>
                     (<[a := amount_of (spendable x) a - v]> (spendable x)))
             (held x) (sold x) (seed_known x)).

#[global] Instance sample_auction_lib : AuctionLib := {|
  Outside := Bank;
  OutsideError := unit;
  reserve := bank_reserve;
  unreserve := bank_unreserve;
  pay := bank_pay;
  free_balance := fun x => amount_of (spendable x);
  reserved_balance := fun x => amount_of (held x);
  DomainName := DomainHash;
  domain_new := fun name => if decide (name = []) then None else Some (keccak_256 name);
  domain_iter := fun d => [d];
  registrar_is_anctionable := fun _ _ => true;
  for_auction_set_expires := fun _ x => x;
  ClassData := unit;
  ClassData_Auction := tt;
  TokenData := DomainHash;
  TokenData_Root := id;
  ResolverId := unit;
  ResolverId_default := tt;
  registry_is_registered := fun x n => bool_decide (n ∈ (sold x).*2);
  registry_mint := fun winner _ n _ x =>
    (mkBank (spendable x) (held x) ((winner, n) :: sold x) (seed_known x), Ok tt);
  random := fun _ x => (replicate 32 3, seed_known x)
|}.

#[global] Instance sample_auction_config : AuctionConfig := {|
  Offical := 1;
  EndingPeriod := 2;
  MinimalAuctionPrice := 5;
  SampleLength := 1
|}.

#[global] Instance sample_auction_laws : AuctionLaws sample_auction_lib sample_auction_config.
Proof. split; [|done]. intros subject x. simpl. lia. Qed.

#[global] Instance sample_reserve_laws : ReserveLaws sample_auction_lib.
Proof.
  split; simpl; unfold bank_reserve, bank_unreserve, amount_of.
  - intros a v x x' b. case_match; [|done]. intros [= <-]. simpl. rewrite !lookup_insert.
    repeat case_decide; subst; simpl; try congruence; lia.
  - intros a v x b Hv. simpl in *. rewrite !lookup_insert, Z.min_l by lia.
    repeat case_decide; subst; simpl; try congruence; lia.
Qed.

(** ** An auction *)

Definition bank : Bank := mkBank {[2 := 100; 3 := 100]} ∅ [] 0.

Definition ab : bytes := b_str "ab"%string.

Definition ab_node : DomainHash := keccak_256 ab.

Definition place (who amount : Z) (s : AuctionState) : AuctionState :=
  (with_storage_layer (bid (RawOrigin.Signed who) ab amount) s).1.

Definition next_block (s : AuctionState) : AuctionState :=
  (on_initialize (auction_block s + 1) (set_block (auction_block s + 1) s)).1.

(** Account 2 bids 10 in block 100, account 3 bids 20 in the next one. *)
Definition two_bids : AuctionState := place 3 20 (next_block (place 2 10 (auction_new 100 bank))).

(** The ending period is over, and the seed is known since block 200. *)
Definition drawn : AuctionState :=
  let s := next_block two_bids in
  set_outside (mkBank (spendable (outside_of s)) (held (outside_of s)) (sold (outside_of s)) 200) s.

Lemma next_block_reachable s :
  auction_reachable s -> auction_block s + 1 + EndingPeriod < 2 ^ 32 -> auction_reachable (next_block s).
Proof.
  intros Hr Hb. destruct (on_initialize_inv s (auction_reachable_inv s Hr) Hb) as (s' & Hs' & _).
  destruct Hr as (b & x & ? & ? & Hr). exists b, x. split_and!; [done..|].
  eapply rtc_r; [exact Hr|]. unfold next_block. rewrite Hs'. by apply step_block.
Qed.

Lemma place_reachable who amount s :
  auction_reachable s -> 0 <= amount -> auction_reachable (place who amount s).
Proof.
  intros (b & x & ? & ? & Hr) Ha. exists b, x. split_and!; [done..|].
  eapply rtc_r; [exact Hr|]. by apply step_bid.
Qed.

Lemma two_bids_reachable : auction_reachable two_bids.
Proof.
  apply place_reachable; [|lia]. apply next_block_reachable; [|by vm_compute].
  apply place_reachable; [|lia]. exists 100, bank. split_and!; [done..|]. constructor.
Qed.

Lemma auction_hook_never_panics_witness :
  exists s', on_initialize (auction_block two_bids + 1) (set_block (auction_block two_bids + 1) two_bids)
    = (s', Ok tt).
Proof.
  destruct (auction_hook_never_panics two_bids two_bids_reachable) as (s' & Hs' & _); [by vm_compute|].
  by exists s'.
Defined.

Lemma auction_bids_rise_and_are_backed_witness :
  exists best, Winning two_bids !! (ab_node, 1) = Some best /\
    forall a r, ReservedAmounts two_bids !! (ab_node, a) = Some r -> 0 <= r <= best.2.
Proof.
  destruct (auction_bids_rise_and_are_backed two_bids ab_node 100 two_bids_reachable)
    as (best & Hbest & _ & _ & Hr); [by vm_compute|].
  exists best. split; [|exact Hr]. rewrite <- Hbest. by vm_compute.
Defined.

Lemma drawn_inv : node_inv 102 drawn ab_node.
Proof.
  assert (auction_inv (next_block two_bids)) as (_ & _ & Hinv).
  { apply auction_reachable_inv, next_block_reachable; [apply two_bids_reachable|by vm_compute]. }
  apply (node_inv_same _ _ (next_block two_bids)); [by split|]. exact (Hinv ab_node).
Qed.

Lemma drawn_backed a r :
  ReservedAmounts drawn !! (ab_node, a) = Some r -> r <= reserved_balance (outside_of drawn) a.
Proof.
  assert (map_Forall (fun p r => r <= amount_of (held (outside_of drawn)) p.2) (ReservedAmounts drawn)) as Hb.
  { apply (bool_decide_unpack _). by vm_compute. }
  intros Hr. change (r <= amount_of (held (outside_of drawn)) a). exact (Hb (ab_node, a) r Hr).
Qed.

Lemma auction_settles_witness :
  exists winner v s', finish_auction 102 ab_node drawn = (s', Ok tt) /\
    Winning drawn !! (ab_node, drawn_sample (outside_of drawn)) = Some (winner, v) /\
    AuctionInfo s' !! ab_node = None.
Proof.
  destruct (auction_settles 102 ab_node 100 drawn) as (winner & v & x & s' & Hs' & Hw & _ & _ & _ & Hi & _);
    [done|by vm_compute|exact drawn_inv|by vm_compute|by vm_compute|exact drawn_backed|].
  exists winner, v, s'. exact (conj Hs' (conj Hw Hi)).
Defined.
