(* ===== verification/NodeWitnesses.v ===== *)
(** * A node put together from sample parts

    The libraries of the node, of the start of the DNS server and of the HTTP server
    instantiated by concrete functions, and the theorems on them applied to a command
    line and to requests. *)

From Stdlib Require Import ZArith Lia.
From Stdlib Require Import Strings.String.
From stdpp Require Import base tactics numbers gmap sets fin_sets fin_maps option list_basics list.
From S2P Require Import Prelude RustStr RustNet Types Authority DnsGuards DnsServer DnsStart.
From S2P Require Import Storage Label Traits Runtime Frontends HttpServer Presets Node Sample Witnesses NameWitnesses DnsWitnesses.

Local Open Scope Z_scope.

(** ** The DNS server's libraries *)

(** A machine with four cores on which binding port 53 is not allowed. *)
#[global] Instance sample_start : StartLib := {|
  get_core_ids := Some [0; 1; 2; 3];
  set_for_current := fun _ => true;
  build_runtime := fun n => 0 <? n;
  Catalog := list (LowerName * list BlockChainAuthority);
  catalog_new := [];
  catalog_upsert := fun zone auths c => (zone, auths) :: c;
  UdpSocket := bytes;
  udp_bind := fun addr => if bool_decide (addr = listen_addr 53) then None else Some addr;
  block_until_done := fun _ => true
|}.

#[global] Instance sample_start_laws : StartLaws sample_start.
Proof. split. intros n Hn. by apply Z.ltb_lt. Qed.

Definition sample_dns : DnsConfig := mkDnsConfig 5353 2 None 5.

Definition sample_client : Client := mkClient 7 (fun _ _ => None).

Lemma dns_server_starts_as_configured_witness :
  (length (affinity_cores (start_dns_server sample_client sample_dns)) <= 2)%nat.
Proof.
  destruct (dns_server_starts_as_configured sample_client sample_dns (b_str "dot."%string : Name (Hickory := sample_hickory))
    eq_refl ltac:(simpl; lia)) as (_ & _ & H).
  exact H.
Defined.

(** It serves on port 5353, with its workers on the two highest cores; port 53 is refused. *)
Example sample_serves :
  match (thread (start_dns_server sample_client sample_dns)).1 with
  | Served sv => bool_decide (sv_addr sv = b_str "0.0.0.0:5353"%string)
  | _ => false
  end &&
  match (thread (start_dns_server sample_client dns_config_default)).1 with
  | NotBound => true
  | _ => false
  end &&
  bool_decide ((threads_start set_for_current 3
    (affinity_cores (start_dns_server sample_client sample_dns))).1 = [Some 3; Some 2; None]) = true.
Proof. vm_compute. reflexivity. Qed.

(** ** The node *)

#[global] Instance sample_substrate : SubstrateLib := {|
  ServiceError := bytes; Endpoint := bytes; ConfigRest := unit; TelemetryWorker := unit;
  Telemetry := unit; FullClient := Z; Backend := unit; Keystore := unit; Pool := unit;
  BlockImport := unit; GrandpaLink := unit; ImportQueue := unit; Network := unit;
  SyncService := unit; Inherents := Z; SlotDuration := Z; Hash := unit;
  TelemetryWorker_new := fun _ => Ok tt;
  new_telemetry := fun _ _ => tt;
  new_full_parts := fun _ _ => Ok (42, tt, tt);
  new_pool := fun _ _ _ => tt;
  grandpa_block_import := fun _ _ _ _ => Ok (tt, tt);
  slot_duration_at := fun _ _ => Ok 6000;
  slot_duration := fun _ => Ok 6000;
  from_timestamp_and_slot_duration := fun t d => t / d;
  aura_import_queue := fun _ _ _ _ => Ok tt;
  block_hash := fun _ _ => Some tt;
  build_network := fun _ _ _ _ _ _ _ => Ok (tt, tt);
  offchain_workers := fun _ _ _ _ _ _ => Ok tt;
  start_aura := fun _ _ _ _ _ _ _ _ _ _ => Ok tt;
  run_grandpa_voter := fun _ _ _ _ _ _ _ _ _ => Ok tt;
  RpcModule := list bytes;
  RpcModule_new := [];
  rpc_merge := fun module methods =>
    match list_find (fun m => m ∈ module) methods with
    | Some (_, m) => Err m
    | None => Ok (module ++ methods)
    end;
  system_rpc := fun _ _ => [b_str "system_accountNextIndex"%string];
  transaction_payment_rpc := fun _ => [b_str "payment_queryInfo"%string];
  spawn_tasks := fun _ _ _ _ _ _ _ _ rpc => match rpc with Ok _ => Ok tt | Err e => Err e end
|}.

Definition the_client : FullClient := 42.

Definition validator : Configuration :=
  mkConfiguration None true true false false (b_str "node"%string) tt.

#[global] Instance sample_commands : CommandLib := {|
  CliError := bytes; Options := unit;
  create_runner := fun _ _ => Ok validator;
  cmd_run := fun _ _ _ _ => Ok tt;
  provide_inherent_data := fun _ => Ok tt;
  run_node_until_exit := fun _ => Ok tt
|}.

Definition no_options : Options := tt.

Definition the_parts : PartialComponents := mkPartialComponents the_client tt tt tt tt tt tt None.

Definition cli_log : list NodeEvent :=
  node_tasks validator the_parts ++ [DnsStarted the_client (cli_dns_config cli_default)].

Lemma started_log : run_cli None (fun _ => Err []) false None no_options cli_default [] = (cli_log, Ok tt).
Proof. reflexivity. Qed.

Lemma new_full_starts_witness :
  exists pc, node_tasks validator the_parts ++ [DnsStarted the_client sample_dns] =
    node_tasks validator pc ++ [DnsStarted (pc_client pc) sample_dns].
Proof.
  destruct (new_full_starts validator false sample_dns
    (node_tasks validator the_parts ++ [DnsStarted the_client sample_dns]) (Ok tt) eq_refl)
    as (pc & _ & H).
  exists pc. exact H.
Defined.

Lemma run_cli_starts_dns_witness :
  exists config pc, create_runner None no_options = Ok config /\
    new_full config false (cli_dns_config cli_default) [] = (cli_log, Ok tt) /\
    cli_log = node_tasks config pc ++ [DnsStarted (pc_client pc) (cli_dns_config cli_default)].
Proof.
  destruct (run_cli_starts_dns None (fun _ => Err []) false None no_options cli_default _ _ started_log)
    as (_ & _ & H).
  - intros Hn. apply Forall_app in Hn as [_ Hn]. exact (Forall_inv Hn).
  - exact H.
Defined.

(** The RPC methods the sample node serves. *)
Example sample_rpc :
  match create_full the_client tt with Ok m => length m | Err _ => O end = 9%nat.
Proof. reflexivity. Qed.

(** ** HTTP *)

Fixpoint after_prefix (p l : bytes) : option bytes :=
  match p, l with
  | [], _ => Some l
  | x :: p', y :: l' => if x =? y then after_prefix p' l' else None
  | _ :: _, [] => None
  end.

(** A router for the three routes of the server: which one a path takes. *)
Definition sample_match (path : bytes) : option (nat * option bytes) :=
  if bool_decide (path = b_str "/all"%string) then Some (2%nat, None) else
  match after_prefix (b_str "/get_info/"%string) path with
  | Some seg => Some (0%nat, Some seg)
  | None =>
      match after_prefix (b_str "/info/"%string) path with
      | Some seg => Some (1%nat, Some seg)
      | None => None
      end
  end.

Definition sample_serve {B} (rs : list (get_route B)) (m : HttpMethod) (path : bytes) : HttpResponse B :=
  match sample_match path with
  | Some (i, param) =>
      match rs !! i with Some (_, h) => get_answer m (h param) | None => NotFound end
  | None => NotFound
  end.

#[global] Instance sample_axum : AxumLib := {|
  router_serve := @sample_serve;
  path_hash := fun seg => Some seg;
  path_string := fun seg => Some seg
|}.

Lemma first_colon (l1 l2 r1 r2 : bytes) :
  58 ∉ l1 -> 58 ∉ l2 -> l1 ++ 58 :: r1 = l2 ++ 58 :: r2 -> l1 = l2.
Proof.
  revert l2. induction l1 as [|x l1 IH]; intros [|y l2] H1 H2; simpl; [done|..].
  - intros [= <- _]. destruct H2. left.
  - intros [= -> _]. destruct H1. left.
  - rewrite not_elem_of_cons in H1, H2. intros [= -> He]. f_equal. apply IH; [apply H1|apply H2|done].
Qed.

Lemma colon_prefix (l prefix param r : bytes) :
  bool_decide (58 ∈ l) = false -> 58 ∉ prefix ->
  l ++ 47 :: 58 :: r = prefix ++ 47 :: 58 :: param -> prefix = l.
Proof.
  intros Hl%bool_decide_eq_false Hp He.
  assert (l ++ [47] = prefix ++ [47]) as Ha%app_inj_tail.
  { eapply first_colon; [..|rewrite <- !app_assoc; exact He];
      (rewrite not_elem_of_app; split; [done|by intros ?%list_elem_of_singleton]). }
  by destruct Ha.
Qed.

(** The pattern of a route of a router with the server's patterns. *)
Lemma route_pattern {B} (rs : list (get_route B)) i p h :
  map fst rs = patterns -> rs !! i = Some (p, h) -> patterns !! i = Some p.
Proof. intros <- Hi. apply list_lookup_fmap_Some. by exists (p, h). Qed.

Lemma sample_static B (rs : list (get_route B)) i p h m :
  map fst rs = patterns -> rs !! i = Some (p, h) -> 58 ∉ p -> sample_serve rs m p = get_answer m (h None).
Proof.
  intros Hrs Hi Hp. pose proof (route_pattern _ _ _ _ Hrs Hi) as Hpat.
  destruct i as [|[|[|i]]]; simpl in Hpat; [..|done]; injection Hpat as <-;
    [by destruct Hp; apply (bool_decide_eq_true_1 _)..|].
  unfold sample_serve, get_route in *. change (sample_match _) with (Some (2%nat, None : option bytes)).
  cbv beta iota. by rewrite Hi.
Qed.

Lemma sample_param B (rs : list (get_route B)) i prefix param h seg m :
  map fst rs = patterns -> rs !! i = Some (prefix ++ 47 :: 58 :: param, h) -> 58 ∉ prefix ->
  47 ∉ param -> segment seg -> sample_serve rs m (prefix ++ 47 :: seg) = get_answer m (h (Some seg)).
Proof.
  intros Hrs Hi Hp _ _. pose proof (route_pattern _ _ _ _ Hrs Hi) as Hpat.
  destruct i as [|[|[|i]]]; simpl in Hpat; [..|done]; injection Hpat as Hpat.
  - apply (colon_prefix (b_str "/get_info"%string)) in Hpat as ->; [|reflexivity|done].
    unfold sample_serve, get_route in *. change (sample_match _) with (Some (0%nat, Some seg)).
    cbv beta iota. by rewrite Hi.
  - apply (colon_prefix (b_str "/info"%string)) in Hpat as ->; [|reflexivity|done].
    unfold sample_serve, get_route in *. change (sample_match _) with (Some (1%nat, Some seg)).
    cbv beta iota. by rewrite Hi.
  - assert (58 ∈ b_str "/all"%string) as Hin by (rewrite Hpat, elem_of_app; right; right; left).
    by apply (bool_decide_eq_true_2 _) in Hin.
Qed.

#[global] Instance sample_axum_laws : AxumLaws sample_axum patterns.
Proof. split; [apply sample_static|apply sample_param|done]. Qed.

Lemma http_answers_witness :
  router_serve (routes (chain_node alice_state [])) HEAD (b_str "/info/"%string ++ alice) = Answer None.
Proof.
  destruct (http_answers alice_state [] alice [] (fun _ => true) _ eq_refl ltac:(discriminate))
    as (_ & H & _).
  - apply (bool_decide_eq_true_1 _). vm_compute. reflexivity.
  - exact H.
Defined.
